(* ===== verification/_CoqProject ===== *)
-Q . S2P
Prelude.v
GoStrings.v
Float64.v
FloatText.v
JsonText.v
JsonTextSpec.v
Base64.v
Sha256.v
Goroutines.v
Entrypoint.v
FetchSqlite.v
GoTime.v
Util.v
Config.v
Stats.v
Authorizer.v
Sqlite.v
ToyEngine.v
SqliteSpec.v
Driver.v
DbState.v
Db.v
DbConc.v
DbInv.v
DbSafety.v
DbTraces.v
DbSerial.v
DbSpec.v
DbMonitor.v
VdlTypes.v
VdlDecode.v
Convert.v
Http.v
WaitServer.v
DbService.v
Auth.v
Hashes.v
VdlAccessors.v
VdlEnums.v
Vdl.v
VdlTyped.v
VdlStream.v
VdlStreamSafety.v
ToyStream.v
Server.v
Rqlite.v
ServerSafety.v
ServerSpec.v
RqliteSpec.v
RqliteText.v
System.v
ResultTypes.v
Gauges.v
Drain.v
ToyServer.v
ToySystem.v
Main.v
Lifecycle.v
