(* ===== verification/Prelude.v ===== *)
(** * NSQLite: a verification library

    NSQLite is a server that gives SQLite databases an HTTP interface.  Its parts, from
    the bottom up, and the files that model them (source paths are under [src/]):

    - the authorizer callback, [internal/sqlite/sqlite.c]: what an SQL statement may do
      under the role of its connection ([Authorizer.v]);
    - the SQLite wrapper, [internal/sqlite/sqlite.go]: connections, statements, binding,
      stepping, [Query] ([Sqlite.v], theorems in [SqliteSpec.v]);
    - the driver and its connector, [internal/sqlitedrv/driver.go] and
      [internal/db/connector.go] ([Driver.v]);
    - the statistics, [internal/stats] ([Stats.v]);
    - the database component, [internal/db/db.go]: two connection pools, one open
      transaction at most, three mutexes, the idle monitor.  The state and its effects
      are [DbState.v], the functions [Db.v];
    - the RPC layer, [internal/vdl]: the structures of the interface ([VdlTypes.v]), their
      strict decoding ([VdlDecode.v]), accessors ([VdlAccessors.v]) and enumerations
      ([VdlEnums.v]), the dispatcher of procedures with its typed entries ([Vdl.v]) and of
      streams ([VdlStream.v]);
    - the HTTP server, [internal/server]: authentication ([Auth.v], over [Sha256.v]; the
      generation of hashes is [Hashes.v]), conversion of values ([Convert.v]), the procedures and the mux ([Server.v]), the
      rqlite-compatible endpoints ([Rqlite.v], whose end has [createMux]), with the helpers
      of [internal/util/httputil] ([Http.v], [WaitServer.v]);
    - configuration, validation, number formatting ([Config.v], [Util.v]);
    - the container entrypoint, [cmd/entrypoint/main.go] ([Entrypoint.v]), and the server
      process, [cmd/nsqlite/main.go]: its construction and shutdown ([Main.v]), and the
      life of the listener, [Start] and [Stop] ([Lifecycle.v]);
    - the build script that installs SQLite's sources, [scripts/fetch-sqlite/main.go]
      ([FetchSqlite.v]).

    Below them are the parts of Go's standard library the sources lean on: [GoStrings.v],
    [GoTime.v], [Base64.v] (with [hex]), [Sha256.v], 64-bit floats and their text
    ([Float64.v], [FloatText.v]), the JSON texts of [encoding/json] ([JsonText.v],
    [JsonTextSpec.v]), and the errors and machine integers of this file.  [Goroutines.v] is
    the model of programs and their interleavings.

    ** Programs, state and effects

    A function that touches shared state is a tree of effects ([Goroutines.prog]).  One
    effect is one operation other goroutines can observe: a lock, an atomic load or store,
    a pool checkout, a call of the C library, a query to the database.  [deferred] is
    Go's [defer].  [handle] executes an effect on the state; no answer means that the
    goroutine waits.  The same tree is executed alone ([run]), interleaved with any number
    of others ([gstep], [reachable]), and typed by a typestate discipline ([wp]) which is
    sound for every interleaving ([reachable_typed]).

    - The database component has the effects [dbE] and the state [DB] ([DbState.v]): the
      fields of the Go struct, mutexes as booleans (an unlock of a free mutex cannot be
      executed), the pools as counts and free lists, and the state of SQLite.
    - The server has the effects [srvE] ([Http.v]); its state has the token cache, the
      statistics, what was sent, and the database seen through the class [DBService].
      [DbService.v] gives the instance of that class by [Db_Query] of [Db.v], and
      discharges the class [TxLaws], the laws on transactions the server's theorems use,
      from the specification of a request.  So each [DBQuery] of the server is one
      step whose inside is the program of [Db.v]; the interleavings inside the
      database are the subject of [DbSafety.v].
    - [System.v] puts the two together: the process has one state, and a [DBQuery] of the
      server is no longer one step but the program of [Db.v], whose steps interleave with
      those of every other request.  Its theorems are about the whole process.
    - A stream of the RPC layer has the effects [strE] and its own state, shared by the
      goroutine of the request, the ping goroutine and the emitters ([VdlStream.v]); the
      goroutines of [Start] and of [run] have the effects [lifeE] ([Lifecycle.v]); the
      build script has [fetchE] ([FetchSqlite.v]).

    What is not in the repository is a class, and an argument of everything that uses it:
    [SqliteLib] (SQLite's C functions, over a state of databases), [Crypto] (bcrypt and
    argon2id) and [HashLib] (the hashes they make), [GoJSON] (goccy/go-json, the JSON of
    the RPC layer), [YAML], [ArgParser] (go-arg), [Tinta] (the banner), [FetchLib] (SHA3 and
    the zip reader).  The order in which Go ranges over a map, which it leaves open, is the
    class [MapRange].  Documented behaviour of SQLite that a theorem needs is a class of
    laws ([AuthorizerLaw], [ColumnLaw] of [SqliteSpec.v]).  [uuid] is the sequence of
    identifiers that [uuid.NewString] produces, none of them empty.  [ToyEngine.v],
    [ToyServer.v], [ToySystem.v] and [ToyStream.v] are concrete instances; only witnesses
    and [DbTraces.v] use them.

    ** What the theorems show

    - Every interleaving of the whole process ([System.v]): SQL runs under the role of the
      token its request presents, on the queries that request asked for; a read-only
      request only reads; nothing is leaked, nothing deadlocks; a request that runs alone
      does what the server's program says.  The gauges of the statistics count exactly the
      goroutines at work ([Gauges.v]).  Every request is over in the end, or waits for a
      transaction that somebody has left open, which the idle monitor ends ([Drain.v]).
      Each result is well typed ([ResultTypes.v]).
    - Every interleaving of requests, idle monitors and shutdowns on the database
      ([DbConc.v] and [DbInv.v] have the typestate and the invariant, [DbSafety.v] the
      theorems): a write or a statement of a transaction only runs for the owner of the open
      transaction or when none is open; a query runs under the role of its own request;
      no two goroutines share a connection; when all have returned, nothing is locked or
      checked out; nothing deadlocks.  The component refines an abstract specification of
      its concurrency ([DbSerial.v]): the right to write is a baton that passes between
      goroutines and transactions, and every execution is one the specification allows.
    - One request alone on the database ([DbSpec.v]): the program refines a specification
      without locks, pools and deferred calls; from it, the transaction protocol, the
      refusals, and the only reason to wait.  One tick of the idle monitor alone, and one
      [Close], after which the component answers nothing but errors and touches nothing
      ([DbMonitor.v]).
    - Every interleaving of HTTP requests ([ServerSafety.v]): what reaches the database
      carries the role and the identity of the token its own request presents; the cache
      of tokens is transparent.
    - One HTTP request alone ([ServerSpec.v], [RqliteSpec.v]): one response, results in
      order, refusals without effects, a faithful status; transactions asked for with
      [?transaction] are closed, and committed when no error is reported.
    - Data: values round trip between results and parameters ([Convert.v]); rows through
      the JSON texts of the rqlite endpoints, from the bytes of a response to those of a
      request ([RqliteText.v], over the round trip of [JsonTextSpec.v] and, for REALs to the
      last bit, of [FloatText.v]); blobs through base64 and hexadecimal
      ([Base64.v]); command lines through shell quoting and environments through their
      merge ([Entrypoint.v]); decoding accepts exactly the complete inputs, reports the
      first missing field and never dereferences one ([VdlDecode.v]); the enumerations
      ([VdlEnums.v]).
    - The typed API of the dispatcher ([VdlTyped.v]): typed middlewares and handlers run as
      if composed directly, whatever passes through values of type [any] and the shared
      context; the one place where functional extensionality is used.
    - Streams ([VdlStreamSafety.v]): what is sent is a sequence of whole frames; nothing is
      sent after the handler has returned; no deadlock; positive ping intervals.
    - The wrapper ([SqliteSpec.v]) and the authorizer ([Authorizer.v]): what the two
      restricted roles admit, and that a query that succeeds did nothing else; termination
      and shape of results.
    - Roles of tokens ([Auth.v]), statistics and their cleanup ([Stats.v]), the order of
      the shutdown ([Main.v]), what is final about [Stop] ([Lifecycle.v]); the build script
      installs only verified files ([FetchSqlite.v]); [WaitForServer] returns in time
      ([WaitServer.v]).
    - Behaviour that is not what the code means to do: [DbTraces.v] has two executions
      (a transaction rolled back as soon as it is opened; a transaction the engine ended
      and the component keeps), [SqliteSpec.v] the truncation of integers and the empty
      blob, [Util.v] the number on which formatting does not return, [VdlStreamSafety.v]
      the second response to a stream that fails, [Lifecycle.v] a listener that outlives
      the process's shutdown, [RqliteText.v] the response that an infinite REAL spoils,
      [ToySystem.v] the transaction that a client leaves open by going away.

    ** Bounds and fuel

    - [Conn_Query] takes the number of steps it may make; running out is [None], and
      [query_terminates] gives a bound from the number of rows.  In [DbState.v] a query
      that runs out is a goroutine that waits for the engine; [engine_answers] is the
      hypothesis that none does.
    - [txIdleMonitor] loops until the shutdown; [rounds] is how many ticks are followed,
      and the theorems hold for every number.
    - The ping goroutine of a stream takes the number of ticks its ticker produces, and a
      [WaitForServer] the number of requests; the theorems are for every number of ticks,
      and for every number of requests that the timeout has room for.
    - [IntWithCommas] takes the number of calls: 9 are enough for every 64-bit integer but
      the least one, for which no number is.
    - [print_int] produces at most 20 digits, enough for 64 bits; SHA-256 handles as
      many blocks as the padded message has.
    - The parser of JSON takes twice the length of its input and one more call, enough for
      every input ([JsonTextSpec.v]); its depth is limited where Go's is.  The shortest text
      of a float is looked for among those of 1 to 17 digits, and 17 are always enough
      ([Float64.v]).
    - Executions of the process have no bound, and need none: programs are trees without
      infinite branches, and [Drain.v] shows that no execution without new requests is
      infinite.

    Integers are [Z] and wrap where Go's do: the statistics counters at 64 bits, the
    arguments of the C library at 32.  A duration in seconds sent as a float is kept in
    nanoseconds.  A panic is [None] of the functions that can panic.

    ** What is not modelled

    The text of the JSON of the RPC layer, which goccy/go-json reads and prints (its trees
    are modelled); the mutex of the dispatcher's tables, which are only written before the
    server starts, and two of its methods that nothing calls ([Error.ToJSON],
    [Response.Write]); logging, the parsing of command lines, the search for a free port,
    the end-to-end harness.  The clock, the ticker and the cancellation of contexts are
    moves of the environment between two steps ([db_env]).  All requests share one flag
    for the cancellation of their contexts: while it is set, every checkout of a request
    fails, those that were waiting included; since it may change before every step, each
    request can be cancelled on its own.  The context of the monitor and of the shutdown is
    [Background], which is never cancelled.

    ** Plan

    Next: SQLite's own locking between the read and the write connections as laws of
    [SqliteLib]; what the statements that other goroutines run between two requests of a
    transaction can change of what it reads. *)

From stdpp Require Export base tactics option list gmap strings numbers countable sorting.
From Stdlib Require Export Ascii ZArith Lia.

#[global] Set Default Goal Selector "!".
#[global] Open Scope Z_scope.
#[global] Arguments String.append !s1 s2 / : simpl nomatch.

(** ** Errors

    Go errors as the code builds them: [errors.New], [fmt.Errorf("msg: %w", err)],
    and the [httputil.JSONError] struct, which embeds an error. *)

Inductive go_error : Type :=
| ErrNew (msg : string)
| ErrWrap (msg : string) (err : go_error)
| ErrJSON (httpStatus : Z) (err : go_error) (safeMessage : string).

(** [err.Error()].  [JSONError] embeds [error], so its text is the inner one. *)
Fixpoint error_string (e : go_error) : string :=
  match e with
  | ErrNew msg => msg
  | ErrWrap msg err => msg +:+ ": " +:+ error_string err
  | ErrJSON _ err _ => error_string err
  end.

(** [errors.As(err, &jsonErr)]: the first [JSONError] of the chain. *)
Fixpoint errors_as_json (e : go_error) : option (Z * go_error * string) :=
  match e with
  | ErrNew _ => None
  | ErrWrap _ err => errors_as_json err
  | ErrJSON st err safe => Some (st, err, safe)
  end.

(** Go's [(value, error)] pairs, where the value is meaningful only without an error. *)
Inductive result (A : Type) : Type :=
| Ok (val : A)
| Err (err : go_error).
Arguments Ok {A} val.
Arguments Err {A} err.

Definition is_err {A} (r : result A) : bool :=
  match r with Ok _ => false | Err _ => true end.

(** [if err != nil { return fmt.Errorf("msg: %w", err) }] *)
Definition wrap_err {A} (msg : string) (r : result A) : result A :=
  match r with Ok v => Ok v | Err e => Err (ErrWrap msg e) end.

#[export] Instance go_error_eq_dec : EqDecision go_error.
Proof. solve_decision. Defined.

#[export] Instance result_eq_dec {A} `{EqDecision A} : EqDecision (result A).
Proof. solve_decision. Defined.

#[export] Instance result_ret : MRet result := @Ok.
#[export] Instance result_bind : MBind result := fun A B f r =>
  match r with Ok v => f v | Err e => Err e end.
#[export] Instance result_fmap : FMap result := fun A B f r =>
  match r with Ok v => Ok (f v) | Err e => Err e end.

(** A loop that appends [f x] for each element and returns the first error. *)
Fixpoint result_mapM {A B} (f : A -> result B) (l : list A) : result (list B) :=
  match l with
  | [] => Ok []
  | x :: l' =>
      match f x with
      | Err e => Err e
      | Ok y => match result_mapM f l' with Err e => Err e | Ok ys => Ok (y :: ys) end
      end
  end.

(** ** Machine integers *)

(** Conversion to a signed [w]-bit integer: two's complement wrap-around. *)
Definition wrap_signed (w : Z) (z : Z) : Z :=
  let m := z mod 2 ^ w in if m <? 2 ^ (w - 1) then m else m - 2 ^ w.

(** Go's [int32(z)], [int64(z)] and C's [int]. *)
Definition int32 (z : Z) : Z := wrap_signed 32 z.
Definition int64 (z : Z) : Z := wrap_signed 64 z.

(** ** Notations and automation *)

Create HintDb nsqlite discriminated.

Declare Scope nsqlite_scope.
Delimit Scope nsqlite_scope with nsqlite.
Notation "s1 =s? s2" := (String.eqb s1 s2) (at level 70) : nsqlite_scope.
#[global] Open Scope nsqlite_scope.

(** Case analysis on the scrutinee of an innermost [match] of the goal. *)
Ltac break_match :=
  match goal with
  | |- context [match ?x with _ => _ end] =>
      lazymatch x with
      | context [match _ with _ => _ end] => fail
      | _ => let E := fresh "E" in destruct x eqn:E
      end
  end.

(** The same in a hypothesis. *)
Ltac break_match_in H :=
  match type of H with
  | context [match ?x with _ => _ end] =>
      lazymatch x with
      | context [match _ with _ => _ end] => fail
      | _ => let E := fresh "E" in destruct x eqn:E
      end
  end.

(** Boolean string tests as propositions. *)
Ltac string_cases :=
  repeat match goal with
  | H : (_ =s? _) = true |- _ => apply String.eqb_eq in H; subst
  | H : (_ =s? _) = false |- _ => apply String.eqb_neq in H
  end.

(** ** Lemmas shared by the components *)

Lemma result_mapM_ok {A B} (f : A -> result B) l ys :
  result_mapM f l = Ok ys <-> Forall2 (fun x y => f x = Ok y) l ys.
Proof.
  revert ys; induction l as [|x l IH]; intros ys; cbn.
  - split; [intros [= <-]; constructor | inversion 1; reflexivity].
  - split.
    + destruct (f x) eqn:Ex; [|discriminate].
      destruct (result_mapM f l); [|discriminate].
      intros [= <-]. constructor; [done|]. by apply IH.
    + inversion 1 as [|? y ? ys' Hx Hl]; subst. rewrite Hx.
      apply IH in Hl. by rewrite Hl.
Qed.

Lemma result_mapM_length {A B} (f : A -> result B) l ys :
  result_mapM f l = Ok ys -> length ys = length l.
Proof. intros H%result_mapM_ok. symmetry. by eapply Forall2_length. Qed.

Lemma wrap_signed_range w z : 0 < w -> - 2 ^ (w - 1) <= wrap_signed w z < 2 ^ (w - 1).
Proof.
  intros Hw. unfold wrap_signed.
  assert (Hp : 2 ^ w = 2 * 2 ^ (w - 1)).
  { rewrite <- Z.pow_succ_r by lia. f_equal; lia. }
  assert (0 < 2 ^ (w - 1)) by (apply Z.pow_pos_nonneg; lia).
  pose proof (Z.mod_pos_bound z (2 ^ w) ltac:(lia)).
  destruct (Z.ltb_spec (z mod 2 ^ w) (2 ^ (w - 1))); lia.
Qed.

Lemma wrap_signed_small w z :
  0 < w -> - 2 ^ (w - 1) <= z < 2 ^ (w - 1) -> wrap_signed w z = z.
Proof.
  intros Hw Hz. unfold wrap_signed.
  assert (Hp : 2 ^ w = 2 * 2 ^ (w - 1)).
  { rewrite <- Z.pow_succ_r by lia. f_equal; lia. }
  destruct (decide (0 <= z)) as [Hpos|Hneg].
  - rewrite Z.mod_small by lia. destruct (Z.ltb_spec z (2 ^ (w - 1))); lia.
  - assert (Hm : z mod 2 ^ w = z + 2 ^ w).
    { symmetry. apply (Z.mod_unique_pos z (2 ^ w) (-1)); lia. }
    rewrite Hm. destruct (Z.ltb_spec (z + 2 ^ w) (2 ^ (w - 1))); lia.
Qed.

(** The wrap-around is the identity exactly on the representable range. *)
Lemma wrap_signed_id_iff w z :
  0 < w -> wrap_signed w z = z <-> - 2 ^ (w - 1) <= z < 2 ^ (w - 1).
Proof.
  intros Hw; split.
  - intros <-. by apply wrap_signed_range.
  - by apply wrap_signed_small.
Qed.

Lemma int64_small z : - 2 ^ 63 <= z < 2 ^ 63 -> int64 z = z.
Proof. intros. by apply wrap_signed_small. Qed.

Lemma int32_small z : - 2 ^ 31 <= z < 2 ^ 31 -> int32 z = z.
Proof. intros. by apply wrap_signed_small. Qed.

#[export] Hint Resolve int64_small int32_small : nsqlite.

(** Replacing one element of a list moves a sum by the difference. *)
Lemma sum_list_with_insert {A} (f : A -> nat) (l : list A) i x y :
  l !! i = Some x ->
  (sum_list_with f (<[i := y]> l) + f x = sum_list_with f l + f y)%nat.
Proof.
  revert i; induction l as [|z l IH]; intros [|i]; simpl; intros Hi; try done.
  - injection Hi as ->. lia.
  - specialize (IH i Hi). lia.
Qed.

Lemma sum_list_with_lookup_le {A} (f : A -> nat) (l : list A) i x :
  l !! i = Some x -> (f x <= sum_list_with f l)%nat.
Proof.
  revert i; induction l as [|z l IH]; intros [|i]; simpl; intros Hi; try done.
  - injection Hi as ->. lia.
  - specialize (IH i Hi). lia.
Qed.

(** A positive sum has a positive summand. *)
Lemma sum_list_with_pos {A} (f : A -> nat) (l : list A) :
  (0 < sum_list_with f l)%nat -> exists i x, l !! i = Some x /\ (0 < f x)%nat.
Proof.
  induction l as [|z l IH]; simpl; [lia|]. intros H.
  destruct (decide (0 < f z)%nat) as [Hz|Hz]; [by exists 0%nat, z|].
  destruct IH as (i & x & ? & ?); [lia|]. by exists (S i), x.
Qed.

(** Two distinct positions contribute to a sum independently. *)
Lemma sum_list_with_lookup2_le {A} (f : A -> nat) (l : list A) i j x y :
  i <> j -> l !! i = Some x -> l !! j = Some y ->
  (f x + f y <= sum_list_with f l)%nat.
Proof.
  revert i j; induction l as [|z l IH]; intros [|i] [|j]; simpl; intros Hn Hi Hj; try done.
  - injection Hi as ->. pose proof (sum_list_with_lookup_le f l j y Hj). lia.
  - injection Hj as ->. pose proof (sum_list_with_lookup_le f l i x Hi). lia.
  - assert (i <> j) by congruence. specialize (IH i j ltac:(done) Hi Hj). lia.
Qed.
