(* ===== verification/GoStrings.v ===== *)
(** * Go's [strings] package, as the sources use it

    A Go string (and a [[]byte]) is a sequence of bytes: here a [string], one
    [ascii] per byte.  White space is Unicode white space in its UTF-8 encoding,
    as [unicode.IsSpace] defines it.  Case mapping is the ASCII mapping extended
    with the only non-ASCII runes whose mapping is an ASCII letter (U+0130 and
    U+212A for lower case, U+0131 and U+017F for upper case); every other
    non-ASCII byte is left alone, which no test of the sources can observe, since
    they all look for ASCII words in the mapped text. *)
From S2P Require Import Prelude.

(** The byte [n] (0 to 255). *)
Definition byte_chr (n : nat) : ascii := Ascii.ascii_of_nat n.
(** The double quote and the newline, as one-byte strings. *)
Definition dquote : string := String (byte_chr 34) "".
Definition newline : string := String (byte_chr 10) "".
Definition byte_ord (a : ascii) : nat := Ascii.nat_of_ascii a.

(** [unicode.IsSpace] on a one-byte, a two-byte and a three-byte encoding. *)
Definition is_space1 (a : ascii) : bool :=
  let n := byte_ord a in ((9 <=? n) && (n <=? 13) || (n =? 32))%nat.
Definition is_space2 (a b : ascii) : bool :=
  let n := byte_ord a in let m := byte_ord b in
  ((n =? 194) && ((m =? 133) || (m =? 160)))%nat.
Definition is_space3 (a b c : ascii) : bool :=
  let n := byte_ord a in let m := byte_ord b in let k := byte_ord c in
  ((n =? 225) && (m =? 154) && (k =? 128)
   || (n =? 226) && (m =? 128)
      && ((128 <=? k) && (k <=? 138) || (k =? 168) || (k =? 169) || (k =? 175))
   || (n =? 226) && (m =? 129) && (k =? 159)
   || (n =? 227) && (m =? 128) && (k =? 128))%nat.

(** Drop the leading white space; [flip] reads the encodings backwards, so that
    the same function trims a reversed string from its end. *)
Fixpoint trim_left_space (flip : bool) (s : string) : string :=
  match s with
  | EmptyString => s
  | String a s1 =>
      if is_space1 a then trim_left_space flip s1
      else match s1 with
           | EmptyString => s
           | String b s2 =>
               if (if flip then is_space2 b a else is_space2 a b)
               then trim_left_space flip s2
               else match s2 with
                    | EmptyString => s
                    | String c s3 =>
                        if (if flip then is_space3 c b a else is_space3 a b c)
                        then trim_left_space flip s3 else s
                    end
           end
  end.

(** [strings.TrimSpace] and [bytes.TrimSpace]. *)
Definition TrimSpace (s : string) : string :=
  String.rev (trim_left_space true (String.rev (trim_left_space false s))).

(** [strings.Fields]: [cur] is the current word, reversed. *)
Fixpoint fields_aux (cur : string) (s : string) : list string :=
  let flush (rest : list string) :=
    match cur with EmptyString => rest | _ => String.rev cur :: rest end in
  match s with
  | EmptyString => flush []
  | String a s1 =>
      if is_space1 a then flush (fields_aux EmptyString s1)
      else match s1 with
           | String b s2 =>
               if is_space2 a b then flush (fields_aux EmptyString s2)
               else match s2 with
                    | String c s3 =>
                        if is_space3 a b c then flush (fields_aux EmptyString s3)
                        else fields_aux (String a cur) s1
                    | EmptyString => fields_aux (String a cur) s1
                    end
           | EmptyString => fields_aux (String a cur) s1
           end
  end.
Definition Fields (s : string) : list string := fields_aux EmptyString s.

Definition lower_ascii (a : ascii) : ascii :=
  let n := byte_ord a in
  if ((65 <=? n) && (n <=? 90))%nat then byte_chr (n + 32) else a.
Definition upper_ascii (a : ascii) : ascii :=
  let n := byte_ord a in
  if ((97 <=? n) && (n <=? 122))%nat then byte_chr (n - 32) else a.

(** [strings.ToLower]. *)
Fixpoint ToLower (s : string) : string :=
  match s with
  | EmptyString => EmptyString
  | String a s1 =>
      match s1 with
      | String b s2 =>
          if ((byte_ord a =? 196) && (byte_ord b =? 176))%nat
          then String "i" (ToLower s2)
          else match s2 with
               | String c s3 =>
                   if ((byte_ord a =? 226) && (byte_ord b =? 132) && (byte_ord c =? 170))%nat
                   then String "k" (ToLower s3)
                   else String (lower_ascii a) (ToLower s1)
               | EmptyString => String (lower_ascii a) (ToLower s1)
               end
      | EmptyString => String (lower_ascii a) EmptyString
      end
  end.

(** [strings.ToUpper]. *)
Fixpoint ToUpper (s : string) : string :=
  match s with
  | EmptyString => EmptyString
  | String a s1 =>
      match s1 with
      | String b s2 =>
          if ((byte_ord a =? 196) && (byte_ord b =? 177))%nat
          then String "I" (ToUpper s2)
          else if ((byte_ord a =? 197) && (byte_ord b =? 191))%nat
          then String "S" (ToUpper s2)
          else String (upper_ascii a) (ToUpper s1)
      | EmptyString => String (upper_ascii a) EmptyString
      end
  end.

(** [strings.HasPrefix] and [bytes.HasPrefix]. *)
Definition HasPrefix (s prefix : string) : bool := String.prefix prefix s.

(** [s[n:]]. *)
Fixpoint str_drop (n : nat) (s : string) : string :=
  match n, s with
  | O, _ => s
  | S n', String _ s' => str_drop n' s'
  | S _, EmptyString => EmptyString
  end.

(** [s[:n]]. *)
Fixpoint str_take (n : nat) (s : string) : string :=
  match n, s with
  | S n', String a s' => String a (str_take n' s')
  | _, _ => EmptyString
  end.

(** [strings.TrimPrefix]. *)
Definition TrimPrefix (s prefix : string) : string :=
  if HasPrefix s prefix then str_drop (String.length prefix) s else s.

(** [strings.Contains]. *)
Fixpoint Contains (s substr : string) : bool :=
  String.prefix substr s ||
  match s with EmptyString => false | String _ s' => Contains s' substr end.

Fixpoint char_in (a : ascii) (s : string) : bool :=
  match s with
  | EmptyString => false
  | String b s' => Ascii.eqb a b || char_in a s'
  end.

(** [strings.ContainsAny], for an ASCII [chars]. *)
Fixpoint ContainsAny (s chars : string) : bool :=
  match s with
  | EmptyString => false
  | String a s' => char_in a chars || ContainsAny s' chars
  end.

(** [strings.TrimLeft] and [strings.TrimRight], for a one-byte ASCII cutset. *)
Fixpoint TrimLeftByte (s : string) (a : ascii) : string :=
  match s with
  | String b s' => if Ascii.eqb a b then TrimLeftByte s' a else s
  | EmptyString => EmptyString
  end.
Definition TrimRightByte (s : string) (a : ascii) : string :=
  String.rev (TrimLeftByte (String.rev s) a).

(** [strings.ReplaceAll] for a one-byte pattern. *)
Fixpoint ReplaceAllByte (s : string) (old : ascii) (new : string) : string :=
  match s with
  | EmptyString => EmptyString
  | String a s' =>
      if Ascii.eqb a old then new +:+ ReplaceAllByte s' old new
      else String a (ReplaceAllByte s' old new)
  end.

(** [strings.Cut] for a one-byte separator. *)
Fixpoint CutByte (s : string) (sep : ascii) : option (string * string) :=
  match s with
  | EmptyString => None
  | String a s' =>
      if Ascii.eqb a sep then Some (EmptyString, s')
      else match CutByte s' sep with
           | Some (before, after) => Some (String a before, after)
           | None => None
           end
  end.

(** [strings.Split(s, sep)[0]] for a one-byte separator. *)
Definition SplitFirst (s : string) (sep : ascii) : string :=
  match CutByte s sep with Some (before, _) => before | None => s end.

(** [strings.Join]. *)
Fixpoint Join (l : list string) (sep : string) : string :=
  match l with
  | [] => EmptyString
  | [s] => s
  | s :: l' => s +:+ sep +:+ Join l' sep
  end.

(** [strings.Split] for a one-byte separator. *)
Fixpoint SplitByte (s : string) (sep : ascii) : list string :=
  match s with
  | EmptyString => [EmptyString]
  | String a s' =>
      if Ascii.eqb a sep then EmptyString :: SplitByte s' sep
      else match SplitByte s' sep with
           | w :: ws => String a w :: ws
           | [] => [String a EmptyString]
           end
  end.

(** [filepath.Clean], on Unix: [out] is the path so far, last element first. *)
Fixpoint clean_elements (rooted : bool) (elements out : list string) : list string :=
  match elements with
  | [] => out
  | e :: es =>
      if String.eqb e "" || String.eqb e "." then clean_elements rooted es out
      else if String.eqb e ".." then
        match out with
        | o :: out' =>
            if String.eqb o ".." then clean_elements rooted es (e :: out)
            else clean_elements rooted es out'
        | [] => clean_elements rooted es (if rooted then [] else [e])
        end
      else clean_elements rooted es (e :: out)
  end.
Definition Clean (path : string) : string :=
  let slash := byte_chr 47 in
  let rooted := String.prefix "/" path in
  let body := Join (rev (clean_elements rooted (SplitByte path slash) [])) "/" in
  if rooted then "/" +:+ body else if String.eqb body "" then "." else body.

(** [filepath.Join(dir, name)], for a [dir] and a [name] that are not empty, and
    [filepath.Dir(path)]. *)
Definition filepath_Join (dir name : string) : string := Clean (dir +:+ "/" +:+ name).
Definition filepath_Dir (path : string) : string :=
  Clean (String.rev (
    (fix drop (s : string) : string :=
       match s with
       | EmptyString => EmptyString
       | String a s' => if Ascii.eqb a (byte_chr 47) then s else drop s'
       end) (String.rev path))).

(** The decimal digits of a natural number, as [fmt.Sprintf("%d", n)] prints it. *)
Definition digit_chr (d : Z) : ascii := byte_chr (Z.to_nat (48 + d)).
Fixpoint dec_digits (fuel : nat) (n : Z) (acc : string) : string :=
  match fuel with
  | O => acc
  | S fuel' =>
      let acc' := String (digit_chr (n mod 10)) acc in
      if n <? 10 then acc' else dec_digits fuel' (n / 10) acc'
  end.

(** [%d]: a Go integer has at most 20 decimal digits. *)
Definition print_int (z : Z) : string :=
  if z <? 0 then String "-" (dec_digits 20 (- z) EmptyString)
  else dec_digits 20 z EmptyString.

(** Reading decimal digits. *)
Definition is_digit (a : ascii) : bool :=
  let n := byte_ord a in ((48 <=? n) && (n <=? 57))%nat.
Fixpoint all_digits (s : string) : bool :=
  match s with EmptyString => true | String a s' => is_digit a && all_digits s' end.
Fixpoint digits_value (acc : Z) (s : string) : Z :=
  match s with
  | EmptyString => acc
  | String a s' => digits_value (acc * 10 + (Z.of_nat (byte_ord a) - 48)) s'
  end.
(** [ParseUint(literal, 10, _)], unbounded. *)
Definition parse_digits (literal : string) : option Z :=
  if negb (literal =s? "") && all_digits literal then Some (digits_value 0 literal) else None.

(** [%q]: control characters, the quote and the backslash are escaped; the bytes of
    non-ASCII text are kept, as for printable runes. *)
Definition hex_digit (n : nat) : ascii :=
  byte_chr (if (n <? 10)%nat then 48 + n else 87 + n).
Definition quote_byte (a : ascii) : string :=
  let n := byte_ord a in
  let esc c := String (byte_chr 92) (String c "") in
  if (n =? 34)%nat || (n =? 92)%nat then esc a
  else if (n =? 7)%nat then esc "a"%char
  else if (n =? 8)%nat then esc "b"%char
  else if (n =? 9)%nat then esc "t"%char
  else if (n =? 10)%nat then esc "n"%char
  else if (n =? 11)%nat then esc "v"%char
  else if (n =? 12)%nat then esc "f"%char
  else if (n =? 13)%nat then esc "r"%char
  else if (n <? 32)%nat || (n =? 127)%nat
  then esc "x"%char +:+ String (hex_digit (n / 16)) (String (hex_digit (n mod 16)) "")
  else String a "".
Fixpoint quote_bytes (s : string) : string :=
  match s with
  | EmptyString => EmptyString
  | String a s' => quote_byte a +:+ quote_bytes s'
  end.
Definition Quote (s : string) : string := dquote +:+ quote_bytes s +:+ dquote.

(** ** Lemmas *)

Lemma byte_ord_chr n : (n < 256)%nat -> byte_ord (byte_chr n) = n.
Proof. apply Ascii.nat_ascii_embedding. Qed.

Lemma byte_chr_ord a : byte_chr (byte_ord a) = a.
Proof. apply Ascii.ascii_nat_embedding. Qed.

Lemma byte_ord_lt a : (byte_ord a < 256)%nat.
Proof. apply Ascii.nat_ascii_bounded. Qed.

Lemma string_app_assoc (s1 s2 s3 : string) : (s1 +:+ s2) +:+ s3 = s1 +:+ (s2 +:+ s3).
Proof. induction s1 as [|a s1 IH]; [done|]. cbn. by rewrite IH. Qed.

Lemma string_app_nil_r (s : string) : s +:+ EmptyString = s.
Proof. induction s as [|a s IH]; [done|]. cbn. by rewrite IH. Qed.

Lemma string_length_app (s1 s2 : string) :
  String.length (s1 +:+ s2) = (String.length s1 + String.length s2)%nat.
Proof. induction s1 as [|a s1 IH]; [done|]. cbn. by rewrite IH. Qed.

Lemma HasPrefix_spec s p : HasPrefix s p = true <-> exists r, s = p +:+ r.
Proof.
  unfold HasPrefix. revert s; induction p as [|a p IH]; intros s; cbn.
  - split; [intros _; by exists s | intros _; by destruct s].
  - destruct s as [|b s]; cbn.
    + split; [done | by intros [r ?]].
    + destruct (Ascii.ascii_dec a b) as [->|Hne].
      * rewrite IH. split; intros [r Hr]; exists r; [by subst | cbn in Hr; congruence].
      * split; [done | intros [r Hr]; cbn in Hr; congruence].
Qed.

Lemma HasPrefix_app p r : HasPrefix (p +:+ r) p = true.
Proof. apply HasPrefix_spec. by exists r. Qed.

Lemma str_drop_app p r : str_drop (String.length p) (p +:+ r) = r.
Proof. by induction p. Qed.

Lemma TrimPrefix_app p r : TrimPrefix (p +:+ r) p = r.
Proof. unfold TrimPrefix. rewrite HasPrefix_app. apply str_drop_app. Qed.

Lemma Ascii_eqb_refl a : Ascii.eqb a a = true.
Proof. by apply Ascii.eqb_eq. Qed.

(** A key without the separator is recovered by [strings.Cut]. *)
Lemma CutByte_app key val sep :
  char_in sep key = false -> CutByte (key +:+ String sep val) sep = Some (key, val).
Proof.
  induction key as [|a key IH]; intros Hin; [cbn; by rewrite Ascii_eqb_refl|].
  cbn in Hin. apply orb_false_iff in Hin as [Ha Hkey].
  cbn. rewrite Ascii.eqb_sym, Ha. by rewrite (IH Hkey).
Qed.

Lemma CutByte_some s sep before after :
  CutByte s sep = Some (before, after) ->
  s = before +:+ String sep after /\ char_in sep before = false.
Proof.
  revert before; induction s as [|a s IH]; intros before H; [done|]. cbn in H.
  destruct (Ascii.eqb a sep) eqn:E.
  - injection H as <- ->. apply Ascii.eqb_eq in E. by subst.
  - destruct (CutByte s sep) as [[b r]|] eqn:C; [|done]. injection H as <- ->.
    destruct (IH b eq_refl) as [-> Hb]. cbn. split; [done|].
    by rewrite Ascii.eqb_sym, E, Hb.
Qed.

(** Trimming stops at a visible ASCII character, on either side. *)
Definition visible (a : ascii) : Prop := (33 <= byte_ord a <= 126)%nat.

Lemma visible_spec a : ((33 <=? byte_ord a) && (byte_ord a <=? 126))%nat = true -> visible a.
Proof. intros [H1 H2]%andb_true_iff. apply Nat.leb_le in H1, H2. by split. Qed.

Lemma trim_left_visible flip a s : visible a -> trim_left_space flip (String a s) = String a s.
Proof.
  unfold visible. intros Ha. cbn [trim_left_space].
  assert (Hk : forall k, (k < 33 \/ 126 < k)%nat -> (byte_ord a =? k)%nat = false)
    by (intros k Hk; apply Nat.eqb_neq; lia).
  assert (H1 : is_space1 a = false).
  { unfold is_space1. cbn zeta. rewrite (Hk 32%nat), (proj2 (Nat.leb_gt _ 13)) by lia.
    by rewrite andb_false_r. }
  assert (H2 : forall b, is_space2 a b = false /\ is_space2 b a = false).
  { intros b. unfold is_space2. cbn zeta. rewrite !Hk by lia. by rewrite andb_false_r. }
  assert (H3 : forall b c, is_space3 a b c = false /\ is_space3 c b a = false).
  { intros b c. unfold is_space3. cbn zeta. rewrite (proj2 (Nat.leb_gt 128 (byte_ord a))) by lia.
    rewrite !Hk by lia. cbn. by rewrite !andb_false_r. }
  rewrite H1. destruct s as [|b s]; [done|]. destruct (H2 b) as [-> ->].
  destruct s as [|c s]; [by destruct flip|]. destruct (H3 b c) as [-> ->]. by destruct flip.
Qed.

Lemma rev_app_app s1 s2 acc :
  String.rev_app (s1 +:+ s2) acc = String.rev_app s2 (String.rev_app s1 acc).
Proof. revert acc. induction s1 as [|a s1 IH]; intros acc; cbn; [done|apply IH]. Qed.

Lemma rev_app_acc s acc : String.rev_app s acc = String.rev_app s "" +:+ acc.
Proof.
  revert acc. induction s as [|a s IH]; intros acc; cbn; [done|].
  rewrite (IH (String a acc)), (IH (String a "")), string_app_assoc. done.
Qed.

Lemma string_rev_involutive s : String.rev (String.rev s) = s.
Proof.
  unfold String.rev. induction s as [|a s IH]; [done|]. cbn.
  rewrite (rev_app_acc s (String a "")), rev_app_app, IH. done.
Qed.

Lemma TrimSpace_visible a s b :
  visible a -> visible b -> TrimSpace (String a (s +:+ String b "")) = String a (s +:+ String b "").
Proof.
  intros Ha Hb. unfold TrimSpace. rewrite trim_left_visible by done.
  assert (Hr : String.rev (String a (s +:+ String b "")) = String b (String.rev_app s (String a ""))).
  { unfold String.rev. cbn. by rewrite rev_app_app. }
  rewrite Hr, trim_left_visible by done. rewrite <- Hr. apply string_rev_involutive.
Qed.

Lemma str_take_app s1 s2 : str_take (String.length s1) (s1 +:+ s2) = s1.
Proof. induction s1 as [|a s1 IH]; cbn; [by destruct s2|]. by rewrite IH. Qed.

Lemma get_app_last s b : String.get (String.length s) (s +:+ String b "") = Some b.
Proof. by induction s. Qed.

(** *** Decimal digits *)

Lemma is_digit_chr d : 0 <= d < 10 -> is_digit (digit_chr d) = true /\ byte_ord (digit_chr d) = Z.to_nat (48 + d).
Proof.
  intros Hd. unfold is_digit, digit_chr. rewrite byte_ord_chr by lia. split; [|done].
  apply andb_true_iff. split; apply Nat.leb_le; lia.
Qed.

Lemma digits_value_app a s1 s2 : digits_value a (s1 +:+ s2) = digits_value (digits_value a s1) s2.
Proof. revert a. induction s1 as [|c s1 IH]; intros a; cbn; [done|apply IH]. Qed.

Lemma all_digits_app s1 s2 : all_digits (s1 +:+ s2) = all_digits s1 && all_digits s2.
Proof. induction s1 as [|c s1 IH]; cbn; [done|]. by rewrite IH, andb_assoc. Qed.

(** What [dec_digits] prepends reads back as the number. *)
Lemma dec_digits_spec fuel n acc :
  (0 < fuel)%nat -> 0 <= n < 10 ^ Z.of_nat fuel ->
  exists ds, dec_digits fuel n acc = ds +:+ acc /\ all_digits ds = true
    /\ (ds =s? "") = false /\ digits_value 0 ds = n.
Proof.
  revert n acc. induction fuel as [|fuel IH]; intros n acc Hf Hn; [lia|]. cbn [dec_digits].
  pose proof (Z.mod_pos_bound n 10 ltac:(lia)) as Hm.
  destruct (is_digit_chr (n mod 10) Hm) as [Hd Hv].
  destruct (Z.ltb_spec n 10) as [Hlt|Hge].
  - exists (String (digit_chr (n mod 10)) ""). cbn [String.append all_digits digits_value]. rewrite Hd, Hv.
    split_and!; [done|done|done|]. rewrite Z.mod_small by lia. lia.
  - destruct fuel as [|fuel]; [lia|].
    destruct (IH (n / 10) (String (digit_chr (n mod 10)) acc)) as (ds & He & Ha & Hne & Hds); [lia| |].
    { split; [apply Z.div_pos; lia|]. apply Z.div_lt_upper_bound; [lia|].
      rewrite (Nat2Z.inj_succ (S fuel)), Z.pow_succ_r in Hn by lia. lia. }
    exists (ds +:+ String (digit_chr (n mod 10)) "").
    rewrite He, string_app_assoc, all_digits_app, digits_value_app, Ha, Hds. cbn [String.append all_digits digits_value].
    rewrite Hd, Hv. split_and!; [done|done|by destruct ds|].
    pose proof (Z.div_mod n 10 ltac:(lia)). lia.
Qed.

Lemma parse_digits_print n : 0 <= n < 10 ^ 20 -> parse_digits (dec_digits 20 n "") = Some n.
Proof.
  intros Hn. destruct (dec_digits_spec 20 n "") as (ds & -> & Ha & Hne & Hv); [lia|lia|].
  rewrite string_app_nil_r. unfold parse_digits. by rewrite Hne, Ha, Hv.
Qed.

(** The first character of a number without a sign is a digit. *)
Lemma dec_digits_not_minus n :
  0 <= n < 10 ^ 20 ->
  match dec_digits 20 n "" with String a _ => Ascii.eqb a "-" = false | EmptyString => True end.
Proof.
  intros Hn. destruct (dec_digits_spec 20 n "") as (ds & -> & Ha & _ & _); [lia|lia|].
  rewrite string_app_nil_r. destruct ds as [|a ds]; [done|]. cbn in Ha.
  apply andb_true_iff in Ha as [Ha _]. destruct (Ascii.eqb_spec a "-") as [->|]; [done|done].
Qed.

#[export] Hint Resolve HasPrefix_app byte_ord_chr byte_ord_lt : nsqlite.
Create Rewrite HintDb go_strings.
#[export] Hint Rewrite string_app_assoc string_app_nil_r string_length_app
  str_drop_app TrimPrefix_app Ascii_eqb_refl : go_strings.
