(* ===== verification/Float64.v ===== *)
(** * [float64] and its text: [strconv], [json.Number.Float64], [Duration.Seconds]

    A [float64] is a [spec_float] in the format of 53 digits and exponents up to 1024.
    [round_quotient] is the double nearest to a quotient, the even one between two;
    [ParseFloat] applies it to the decimal a literal spells; [FormatFloat] prints the
    digits the documentation asks for: as few as make [ParseFloat] return the number,
    and then the closest to it.  The theorem is that they always exist, 17 being
    enough, and so that the text of a number is read back as that number. *)
From S2P Require Import Prelude GoStrings.
From Stdlib Require Export SpecFloat.

(** ** Rounding *)

(** The exponent of the leading bit of a quotient of positive integers. *)
Definition quotient_log2 (num den : Z) : Z :=
  let e := Z.log2 num - Z.log2 den in
  let reached := if 0 <=? e then den * 2 ^ e <=? num else den <=? num * 2 ^ (- e) in
  if reached then e else e - 1.

(** The integer nearest to a quotient, ties to even. *)
Definition round_half_even (num den : Z) : Z :=
  let q := num / den in
  let r := num mod den in
  if 2 * r <? den then q
  else if den <? 2 * r then q + 1
  else if Z.even q then q else q + 1.

(** [num / den] over [2 ^ e]. *)
Definition scale_quotient (num den e : Z) : Z * Z :=
  if 0 <=? e then (num, den * 2 ^ e) else (num * 2 ^ (- e), den).

(** The double nearest to [num / den]: the least significant digit has the exponent
    [e]; rounding may carry into one digit more. *)
Definition round_quotient (sign : bool) (num den : Z) : spec_float :=
  let e := Z.max (-1074) (quotient_log2 num den - 52) in
  let '(n, d) := scale_quotient num den e in
  let m := round_half_even n d in
  let '(m, e) := if m =? 2 ^ 53 then (2 ^ 52, e + 1) else (m, e) in
  match m with
  | Zpos p => if 971 <? e then S754_infinity sign else S754_finite sign p e
  | _ => S754_zero sign
  end.

(** ** Reading a literal *)

(** The parts of a JSON number: the digits before and after the point, and the
    exponent with its letter and sign. *)
Record number_parts : Type := MkNumber {
  npNegative : bool;
  npInteger : string;
  npFraction : option string;
  npExponent : option (ascii * option ascii * string) }.

Definition print_number (n : number_parts) : string :=
  (if npNegative n then "-" else "") +:+ npInteger n
  +:+ match npFraction n with Some f => "." +:+ f | None => "" end
  +:+ match npExponent n with
      | Some (letter, sign, digits) =>
          String letter (match sign with Some c => String c digits | None => digits end)
      | None => ""
      end.

(** The digits at the front of a text. *)
Fixpoint span_digits (s : string) : string * string :=
  match s with
  | String a s' =>
      if is_digit a then let '(d, r) := span_digits s' in (String a d, r) else (EmptyString, s)
  | EmptyString => (EmptyString, s)
  end.

(** What a scanner finds at the front of a text, with what follows it; or the text from
    the offending byte on, with what was being read there.  A scanner that calls itself
    may also run out of the calls it was given. *)
Inductive scanned (A : Type) : Type :=
| Scanned (x : A) (rest : string)
| ScanError (rest : string) (context : string)
| ScanFuel.
Arguments Scanned {A} x rest.
Arguments ScanError {A} rest context.
Arguments ScanFuel {A}.

Definition scan_exponent (neg : bool) (ip : string) (fp : option string) (s : string) : scanned number_parts :=
  match s with
  | String a s' =>
      if Ascii.eqb a "e" || Ascii.eqb a "E" then
        let '(sign, s'') :=
          match s' with
          | String c s'' =>
              if Ascii.eqb c "+" || Ascii.eqb c "-" then (Some c, s'') else (None, s')
          | EmptyString => (None, s')
          end in
        match span_digits s'' with
        | (EmptyString, r) => ScanError r "in exponent of numeric literal"
        | (ds, r) => Scanned (MkNumber neg ip fp (Some (a, sign, ds))) r
        end
      else Scanned (MkNumber neg ip fp None) s
  | EmptyString => Scanned (MkNumber neg ip fp None) s
  end.
Definition scan_fraction (neg : bool) (ip : string) (s : string) : scanned number_parts :=
  match s with
  | String a s' =>
      if Ascii.eqb a "." then
        match span_digits s' with
        | (EmptyString, r) => ScanError r "after decimal point in numeric literal"
        | (ds, r) => scan_exponent neg ip (Some ds) r
        end
      else scan_exponent neg ip None s
  | EmptyString => scan_exponent neg ip None s
  end.
Definition scan_integer (neg : bool) (s : string) : scanned number_parts :=
  match s with
  | String a s' =>
      if Ascii.eqb a "0" then scan_fraction neg "0" s'
      else if is_digit a then let '(ds, r) := span_digits s in scan_fraction neg ds r
      else ScanError s "in numeric literal"
  | EmptyString => ScanError s "in numeric literal"
  end.
Definition scan_number (s : string) : scanned number_parts :=
  match s with
  | String a s' => if Ascii.eqb a "-" then scan_integer true s' else scan_integer false s
  | EmptyString => scan_integer false s
  end.

(** An exponent is read up to ten thousand. *)
Fixpoint exponent_value (acc : Z) (s : string) : Z :=
  match s with
  | EmptyString => acc
  | String a s' =>
      exponent_value (if acc <? 10000 then acc * 10 + (Z.of_nat (byte_ord a) - 48) else acc) s'
  end.

(** The integer of all the digits, and the power of ten it is multiplied by. *)
Definition number_decimal (n : number_parts) : Z * Z :=
  let fraction := default "" (npFraction n) in
  let exponent :=
    match npExponent n with
    | Some (_, Some c, ds) =>
        if Ascii.eqb c "-" then - exponent_value 0 ds else exponent_value 0 ds
    | Some (_, None, ds) => exponent_value 0 ds
    | None => 0
    end in
  (digits_value 0 (npInteger n +:+ fraction), exponent - Z.of_nat (String.length fraction)).

(** The digits of a positive integer. *)
Fixpoint count_digits_from (fuel : nat) (z : Z) : Z :=
  match fuel with
  | O => 1
  | S fuel' => if z <? 10 then 1 else 1 + count_digits_from fuel' (z / 10)
  end.
Definition count_digits (z : Z) : Z := count_digits_from (Z.to_nat (Z.log2 z)) z.

(** The digits of a natural number, however many. *)
Definition print_digits (z : Z) : string := dec_digits (Z.to_nat (count_digits z)) z "".

(** [mantissa * 10 ^ exponent] as a quotient. *)
Definition decimal_quotient (mantissa exponent : Z) : Z * Z :=
  if 0 <=? exponent then (mantissa * 10 ^ exponent, 1) else (mantissa, 10 ^ (- exponent)).

(** Beyond 310 digits before the point a number is out of range, and one with 330
    zeros after the point is zero. *)
Definition decimal_float (sign : bool) (mantissa exponent : Z) : spec_float :=
  if mantissa =? 0 then S754_zero sign
  else
    let point := count_digits mantissa + exponent in
    if 310 <? point then S754_infinity sign
    else if point <? -330 then S754_zero sign
    else let '(num, den) := decimal_quotient mantissa exponent in round_quotient sign num den.

(** [strconv.ParseFloat(literal, 64)] on the literal of a JSON number. *)
Definition ParseFloat (literal : string) : result spec_float :=
  let failed why := Err (ErrNew ("strconv.ParseFloat: parsing " +:+ Quote literal +:+ ": " +:+ why)) in
  match scan_number literal with
  | Scanned n EmptyString =>
      let '(mantissa, exponent) := number_decimal n in
      match decimal_float (npNegative n) mantissa exponent with
      | S754_infinity _ => failed "value out of range"
      | f => Ok f
      end
  | _ => failed "invalid syntax"
  end.

(** ** Printing *)

(** The least [k] with [num / den < 10 ^ k], from [k] on. *)
Fixpoint decimal_point (fuel : nat) (num den k : Z) : Z :=
  match fuel with
  | O => k
  | S fuel' =>
      if num <? den then
        if num * 10 <? den then decimal_point fuel' (num * 10) den (k - 1) else k
      else decimal_point fuel' num (den * 10) (k + 1)
  end.

(** A positive double as a quotient. *)
Definition float_quotient (m : positive) (e : Z) : Z * Z :=
  if 0 <=? e then (Zpos m * 2 ^ e, 1) else (Zpos m, 2 ^ (- e)).

Definition float_is (m : positive) (e : Z) (digits exponent : Z) : bool :=
  match decimal_float false digits exponent with
  | S754_finite false m' e' => (m' =? m)%positive && (e' =? e)
  | _ => false
  end.

(** [num / den] over [10 ^ exponent]. *)
Definition scale_decimal (num den exponent : Z) : Z * Z :=
  if 0 <=? exponent then (num, den * 10 ^ exponent) else (num * 10 ^ (- exponent), den).

(** The [n]-digit decimal that is read as the double and is the closest to it. *)
Definition digits_of_length (m : positive) (e point n : Z) : option (Z * Z) :=
  let '(num, den) := float_quotient m e in
  let exponent := point - n in
  let '(a, b) := scale_decimal num den exponent in
  let near := round_half_even a b in
  let far := if near =? a / b then near + 1 else near - 1 in
  if float_is m e near exponent then Some (near, exponent)
  else if float_is m e far exponent then Some (far, exponent)
  else None.

Fixpoint shortest_from (fuel : nat) (m : positive) (e point n : Z) : option (Z * Z) :=
  match fuel with
  | O => None
  | S fuel' =>
      match digits_of_length m e point n with
      | Some d => Some d
      | None => shortest_from fuel' m e point (n + 1)
      end
  end.

Definition float_point (m : positive) (e : Z) : Z :=
  let '(num, den) := float_quotient m e in decimal_point 400 num den 0.

(** The digits of a positive double. *)
Definition shortest_decimal (m : positive) (e : Z) : option (Z * Z) :=
  shortest_from 17 m e (float_point m e) 1.

(** Without the zeros at its end. *)
Fixpoint trim_zeros (fuel : nat) (digits exponent : Z) : Z * Z :=
  match fuel with
  | O => (digits, exponent)
  | S fuel' =>
      if digits mod 10 =? 0 then trim_zeros fuel' (digits / 10) (exponent + 1)
      else (digits, exponent)
  end.

Fixpoint zeros (n : nat) : string :=
  match n with O => EmptyString | S n' => String "0" (zeros n') end.

(** The parts of the text: with an exponent below [1e-6] and from [1e21] on. *)
Definition float_parts (sign : bool) (digits exponent : Z) : number_parts :=
  let ds := print_digits digits in
  let point := Z.of_nat (String.length ds) + exponent in
  if (point <? -5) || (21 <? point) then
    let x := point - 1 in
    MkNumber sign (str_take 1 ds)
      (if str_drop 1 ds =s? "" then None else Some (str_drop 1 ds))
      (Some ("e"%char, Some (if x <? 0 then "-"%char else "+"%char), print_digits (Z.abs x)))
  else if point <=? 0 then MkNumber sign "0" (Some (zeros (Z.to_nat (- point)) +:+ ds)) None
  else if exponent <? 0 then
    MkNumber sign (str_take (Z.to_nat point) ds) (Some (str_drop (Z.to_nat point) ds)) None
  else MkNumber sign (ds +:+ zeros (Z.to_nat exponent)) None None.

(** What [encoding/json] prints for a [float64]; [None] for one that has no text. *)
Definition FormatFloat (f : spec_float) : option string :=
  match f with
  | S754_zero sign => Some (print_number (MkNumber sign "0" None None))
  | S754_finite sign m e =>
      '(digits, exponent) ← shortest_decimal m e;
      let '(digits, exponent) := trim_zeros 20 digits exponent in
      Some (print_number (float_parts sign digits exponent))
  | S754_infinity _ | S754_nan => None
  end.

(** ** Durations *)

Definition float_of_int (z : Z) : spec_float := binary_normalize 53 1024 z 0 false.

(** [time.Duration.Seconds()], from nanoseconds. *)
Definition Seconds (d : Z) : spec_float :=
  SFadd 53 1024 (float_of_int (Z.quot d 1000000000))
    (SFdiv 53 1024 (float_of_int (Z.rem d 1000000000)) (float_of_int 1000000000)).

(** ** Rounding is to the nearest *)

Lemma pow2_pos e : 0 <= e -> 0 < 2 ^ e.
Proof. intros. by apply Z.pow_pos_nonneg. Qed.
Lemma pow10_pos e : 0 <= e -> 0 < 10 ^ e.
Proof. intros. by apply Z.pow_pos_nonneg. Qed.

Lemma round_half_even_close num den :
  0 < den -> 2 * Z.abs (round_half_even num den * den - num) <= den.
Proof.
  intros Hd. unfold round_half_even. pose proof (Z.div_mod num den ltac:(lia)) as Hq.
  pose proof (Z.mod_pos_bound num den Hd) as Hr.
  set (q := num / den) in *. set (r := num mod den) in *.
  destruct (Z.ltb_spec (2 * r) den); [lia|].
  destruct (Z.ltb_spec den (2 * r)); [lia|]. destruct (Z.even q); lia.
Qed.

Lemma round_half_even_unique num den m :
  0 < den -> 2 * Z.abs (m * den - num) < den -> round_half_even num den = m.
Proof.
  intros Hd Hm. pose proof (round_half_even_close num den Hd) as Hc.
  set (r := round_half_even num den) in *. nia.
Qed.

Lemma round_half_even_scale c num den :
  0 < c -> 0 < den -> round_half_even (c * num) (c * den) = round_half_even num den.
Proof.
  intros Hc Hd. unfold round_half_even.
  rewrite Z.div_mul_cancel_l, Z.mul_mod_distr_l by lia.
  set (r := num mod den).
  assert ((2 * (c * r) <? c * den) = (2 * r <? den)) as ->.
  { destruct (Z.ltb_spec (2 * r) den), (Z.ltb_spec (2 * (c * r)) (c * den)); nia. }
  assert ((c * den <? 2 * (c * r)) = (den <? 2 * r)) as ->; [|done].
  destruct (Z.ltb_spec den (2 * r)), (Z.ltb_spec (c * den) (2 * (c * r))); nia.
Qed.

(** [2 ^ e <= num / den], whatever the sign of [e]. *)
Definition reaches (num den e : Z) : bool :=
  if 0 <=? e then den * 2 ^ e <=? num else den <=? num * 2 ^ (- e).

Lemma reaches_shift num den e k :
  0 <= k -> 0 <= e + k -> reaches num den e = true <-> den * 2 ^ (e + k) <= num * 2 ^ k.
Proof.
  intros Hk He. unfold reaches. destruct (Z.leb_spec 0 e).
  - rewrite Z.leb_le, Z.pow_add_r by lia. pose proof (pow2_pos k Hk). nia.
  - rewrite Z.leb_le. replace k with (- e + (e + k)) at 2 by lia.
    rewrite (Z.pow_add_r 2 (- e)) by lia. pose proof (pow2_pos (e + k) He). nia.
Qed.

Lemma reaches_scale c num den e : 0 < c -> reaches (c * num) (c * den) e = reaches num den e.
Proof.
  intros Hc. set (k := Z.max 0 (- e)). apply eq_bool_prop_intro.
  rewrite !Is_true_true, !(reaches_shift _ _ _ k) by lia.
  set (p := 2 ^ (e + k)). set (r := 2 ^ k). split; nia.
Qed.

Lemma reaches_le num den e e' :
  0 < num -> 0 < den -> e <= e' -> reaches num den e' = true -> reaches num den e = true.
Proof.
  intros Hn Hd Hle. set (k := Z.max 0 (- e)).
  rewrite (reaches_shift num den e k), (reaches_shift num den e' k) by lia.
  assert (2 ^ (e + k) <= 2 ^ (e' + k)) by (apply Z.pow_le_mono_r; lia). nia.
Qed.

Lemma quotient_log2_spec num den :
  0 < num -> 0 < den ->
  reaches num den (quotient_log2 num den) = true /\ reaches num den (quotient_log2 num den + 1) = false.
Proof.
  intros Hn Hd.
  pose proof (Z.log2_nonneg num) as Ln. pose proof (Z.log2_nonneg den) as Ld.
  pose proof (Z.log2_spec num Hn) as Sn. pose proof (Z.log2_spec den Hd) as Sd.
  assert (Ha : reaches num den (Z.log2 num - Z.log2 den + 1) = false).
  { apply not_true_iff_false. rewrite (reaches_shift _ _ _ (Z.log2 den)) by lia.
    replace (Z.log2 num - Z.log2 den + 1 + Z.log2 den) with (Z.succ (Z.log2 num)) by lia. nia. }
  assert (Hb : reaches num den (Z.log2 num - Z.log2 den - 1) = true).
  { rewrite (reaches_shift _ _ _ (Z.succ (Z.log2 den))) by lia.
    replace (Z.log2 num - Z.log2 den - 1 + Z.succ (Z.log2 den)) with (Z.log2 num) by lia. nia. }
  unfold quotient_log2. fold (reaches num den (Z.log2 num - Z.log2 den)).
  destruct (reaches num den (Z.log2 num - Z.log2 den)) eqn:E; [done|].
  split; [done|]. by rewrite Z.sub_add.
Qed.

Lemma quotient_log2_le num den e :
  0 < num -> 0 < den -> reaches num den e = true <-> e <= quotient_log2 num den.
Proof.
  intros Hn Hd. destruct (quotient_log2_spec num den Hn Hd) as [Hlo Hhi]. split; intros He.
  - apply Z.nlt_ge. intros Hlt.
    rewrite (reaches_le num den (quotient_log2 num den + 1) e) in Hhi by (done || lia). done.
  - by apply (reaches_le num den e (quotient_log2 num den)).
Qed.

Lemma quotient_log2_ge num den e :
  0 < num -> 0 < den -> -1074 <= e ->
  2 ^ (e + 1074) * den <= num * 2 ^ 1074 <-> e <= quotient_log2 num den.
Proof.
  intros Hn Hd He. rewrite <- quotient_log2_le, (reaches_shift _ _ _ 1074) by lia. lia.
Qed.

(** The doubles: 53 digits of mantissa, fewer only at the least exponent. *)
Definition canonical (m : positive) (e : Z) : Prop :=
  (2 ^ 52 <= Zpos m < 2 ^ 53 /\ -1074 <= e <= 971) \/ (Zpos m < 2 ^ 52 /\ e = -1074).

Lemma digits2_pos_bounds p :
  2 ^ (Zpos (digits2_pos p) - 1) <= Zpos p < 2 ^ Zpos (digits2_pos p).
Proof.
  induction p as [p IH|p IH|]; cbn [digits2_pos]; [| |cbn; lia].
  all: rewrite Pos2Z.inj_succ; set (d := Zpos (digits2_pos p)) in *;
    assert (1 <= d) by (subst d; lia);
    replace (Z.succ d - 1) with (Z.succ (d - 1)) by lia;
    rewrite !Z.pow_succ_r by lia; lia.
Qed.

Lemma valid_canonical s m e : valid_binary 53 1024 (S754_finite s m e) = true -> canonical m e.
Proof.
  cbn [valid_binary]. unfold bounded, canonical_mantissa, fexp, emin.
  intros [H1%Z.eqb_eq H2%Z.leb_le]%andb_true_iff. pose proof (digits2_pos_bounds m) as Hm.
  set (d := Zpos (digits2_pos m)) in *. unfold canonical.
  destruct (decide (-1074 < e)) as [He|He].
  - left. assert (d = 53) as Hd by lia. rewrite Hd in Hm. cbn in Hm. lia.
  - assert (e = -1074) as -> by lia. destruct (decide (d <= 52)) as [Hd|Hd].
    + right. split; [|done]. pose proof (Z.pow_le_mono_r 2 d 52 ltac:(lia) Hd). lia.
    + left. assert (d = 53) as Hd' by lia. rewrite Hd' in Hm. cbn in Hm. lia.
Qed.

(** With a denominator, a fraction over [2 ^ -1074] is a whole number. *)
Lemma scale_quotient_spec num den e n d :
  0 < den -> -1074 <= e -> scale_quotient num den e = (n, d) ->
  0 < d /\ n * (2 ^ (e + 1074) * den) = num * 2 ^ 1074 * d.
Proof.
  intros Hd He. unfold scale_quotient. destruct (Z.leb_spec 0 e); intros [= <- <-].
  - pose proof (pow2_pos e ltac:(lia)). split; [nia|]. rewrite Z.pow_add_r by lia. ring.
  - split; [done|]. replace 1074 with (- e + (e + 1074)) at 2 by lia.
    rewrite (Z.pow_add_r 2 (- e)) by lia. ring.
Qed.

(** Rounding at a given exponent finds the integer within half a unit. *)
Lemma round_scaled num den e n d m :
  0 < den -> -1074 <= e -> scale_quotient num den e = (n, d) ->
  2 * Z.abs (num * 2 ^ 1074 - m * (2 ^ (e + 1074) * den)) < 2 ^ (e + 1074) * den ->
  round_half_even n d = m.
Proof.
  intros Hden He Hs Hm. destruct (scale_quotient_spec _ _ _ _ _ Hden He Hs) as [Hd Hq].
  apply round_half_even_unique; [done|].
  set (w := 2 ^ (e + 1074) * den) in *. set (v := num * 2 ^ 1074) in *.
  assert (Hw : 0 < w) by (pose proof (pow2_pos (e + 1074) ltac:(lia)); subst w; nia).
  assert (Z.abs (m * d - n) * w = Z.abs (v - m * w) * d) as Habs.
  { rewrite <- (Z.abs_eq w) at 1 by lia. rewrite <- (Z.abs_eq d) at 2 by lia.
    rewrite <- !Z.abs_mul. rewrite <- Z.abs_opp. f_equal. nia. }
  nia.
Qed.

(** *** A number close to a double is rounded to it

    Close means within a quarter of the unit in its last place. *)
Lemma round_quotient_close sign num den m e :
  canonical m e -> 0 < num -> 0 < den ->
  2 ^ 54 * Z.abs (num * 2 ^ 1074 - Zpos m * (2 ^ (e + 1074) * den))
    < Zpos m * (2 ^ (e + 1074) * den) ->
  round_quotient sign num den = S754_finite sign m e.
Proof.
  intros Hc Hn Hd Hclose. unfold round_quotient.
  assert (He : -1074 <= e) by (unfold canonical in Hc; lia).
  pose proof (quotient_log2_ge num den (e + 52) Hn Hd ltac:(lia)) as Hq52.
  pose proof (quotient_log2_ge num den (e + 53) Hn Hd ltac:(lia)) as Hq53.
  replace (e + 52 + 1074) with (e + 1074 + 52) in Hq52 by lia.
  replace (e + 53 + 1074) with (e + 1074 + 53) in Hq53 by lia.
  rewrite Z.pow_add_r in Hq52, Hq53 by lia.
  assert (Hw : 0 < 2 ^ (e + 1074) * den) by (pose proof (pow2_pos (e + 1074) ltac:(lia)); nia).
  set (w := 2 ^ (e + 1074) * den) in *.
  replace (2 ^ (e + 1074) * 2 ^ 52 * den) with (2 ^ 52 * w) in Hq52 by (subst w; ring).
  replace (2 ^ (e + 1074) * 2 ^ 53 * den) with (2 ^ 53 * w) in Hq53 by (subst w; ring).
  set (v := num * 2 ^ 1074) in *. set (q := quotient_log2 num den) in *.
  assert (Hm : Zpos m < 2 ^ 53) by (unfold canonical in Hc; lia).
  assert (Hhalf : 2 * Z.abs (v - Zpos m * w) < w) by nia.
  assert (Hq : q < e + 53) by (apply Z.nle_gt; rewrite <- Hq53; nia).
  destruct (decide (e + 52 <= q \/ e = -1074)) as [Hcase|Hcase].
  - assert (Z.max (-1074) (q - 52) = e) as -> by lia.
    destruct (scale_quotient num den e) as [n d] eqn:Hs.
    rewrite (round_scaled num den e n d (Zpos m)) by done.
    rewrite (proj2 (Z.eqb_neq _ _)) by lia. rewrite (proj2 (Z.ltb_ge _ _)); [done|].
    unfold canonical in Hc; lia.
  - assert (Hlow : v < 2 ^ 52 * w) by (apply Z.nle_gt; rewrite Hq52; lia).
    assert (Hm52 : Zpos m = 2 ^ 52) by (unfold canonical in Hc; nia).
    pose proof (quotient_log2_ge num den (e + 51) Hn Hd ltac:(lia)) as Hq51.
    assert (Hww : w = 2 * (2 ^ (e - 1 + 1074) * den)).
    { subst w. replace (e + 1074) with (Z.succ (e - 1 + 1074)) by lia. rewrite Z.pow_succ_r by lia. ring. }
    fold q v in Hq51. replace (e + 51 + 1074) with (e - 1 + 1074 + 52) in Hq51 by lia.
    rewrite Z.pow_add_r in Hq51 by lia. set (w1 := 2 ^ (e - 1 + 1074) * den) in *.
    replace (2 ^ (e - 1 + 1074) * 2 ^ 52 * den) with (2 ^ 52 * w1) in Hq51 by (subst w1; ring).
    assert (e + 51 <= q) by (apply Hq51; nia).
    assert (Z.max (-1074) (q - 52) = e - 1) as -> by lia.
    destruct (scale_quotient num den (e - 1)) as [n d] eqn:Hs.
    rewrite (round_scaled num den (e - 1) n d (2 ^ 53)) by (done || lia || (fold v w1; nia)).
    rewrite Z.eqb_refl. replace (e - 1 + 1) with e by lia. rewrite <- Hm52.
    rewrite (proj2 (Z.ltb_ge _ _)); [done|]. unfold canonical in Hc; lia.
Qed.

(** *** Rounding depends on the quotient only *)
Lemma round_quotient_scale c sign num den :
  0 < c -> 0 < num -> 0 < den ->
  round_quotient sign (c * num) (c * den) = round_quotient sign num den.
Proof.
  intros Hc Hn Hd. unfold round_quotient.
  assert (quotient_log2 (c * num) (c * den) = quotient_log2 num den) as ->.
  { apply Z.le_antisymm; apply quotient_log2_le; try nia.
    - rewrite <- (reaches_scale c) by done. apply quotient_log2_spec; nia.
    - rewrite reaches_scale by done. by apply quotient_log2_spec. }
  set (e := Z.max (-1074) (quotient_log2 num den - 52)).
  assert (Hs : forall n d, scale_quotient num den e = (n, d) ->
    scale_quotient (c * num) (c * den) e = (c * n, c * d) /\ 0 < d).
  { intros n d. unfold scale_quotient. destruct (Z.leb_spec 0 e); intros [= <- <-].
    - split; [f_equal; ring|]. pose proof (pow2_pos e ltac:(lia)). nia.
    - split; [f_equal; ring|done]. }
  destruct (scale_quotient num den e) as [n d]. destruct (Hs n d eq_refl) as [-> Hd'].
  by rewrite round_half_even_scale.
Qed.

Lemma round_quotient_equal sign num den num' den' :
  0 < num -> 0 < den -> 0 < num' -> 0 < den' -> num * den' = num' * den ->
  round_quotient sign num den = round_quotient sign num' den'.
Proof.
  intros Hn Hd Hn' Hd' Heq.
  rewrite <- (round_quotient_scale den' sign num den), <- (round_quotient_scale den sign num' den') by done.
  f_equal; lia.
Qed.

(** ** Decimals *)

Lemma count_digits_from_spec fuel z :
  0 < z -> z < 2 ^ (Z.of_nat fuel + 1) ->
  1 <= count_digits_from fuel z
  /\ 10 ^ (count_digits_from fuel z - 1) <= z < 10 ^ count_digits_from fuel z.
Proof.
  revert z. induction fuel as [|fuel IH]; intros z Hz Hlt; cbn [count_digits_from].
  - cbn in *. lia.
  - destruct (Z.ltb_spec z 10) as [H10|H10]; [cbn; lia|].
    pose proof (Z.div_mod z 10 ltac:(lia)). pose proof (Z.mod_pos_bound z 10 ltac:(lia)).
    destruct (IH (z / 10)) as (Hc & Hlo & Hhi).
    + lia.
    + rewrite Nat2Z.inj_succ in Hlt. replace (Z.succ (Z.of_nat fuel) + 1) with (Z.succ (Z.of_nat fuel + 1)) in Hlt by lia.
      rewrite Z.pow_succ_r in Hlt by lia. lia.
    + set (c := count_digits_from fuel (z / 10)) in *.
      replace (1 + c) with (Z.succ c) by lia. replace (Z.succ c - 1) with (Z.succ (c - 1)) by lia.
      rewrite !Z.pow_succ_r by lia. lia.
Qed.

Lemma count_digits_spec z :
  0 < z -> 1 <= count_digits z /\ 10 ^ (count_digits z - 1) <= z < 10 ^ count_digits z.
Proof.
  intros Hz. apply count_digits_from_spec; [done|].
  rewrite Z2Nat.id by apply Z.log2_nonneg. rewrite Z.add_1_r. by apply Z.log2_spec.
Qed.

Lemma count_digits_unique z c : 1 <= c -> 10 ^ (c - 1) <= z < 10 ^ c -> count_digits z = c.
Proof.
  intros Hc Hz. pose proof (pow10_pos (c - 1) ltac:(lia)).
  destruct (count_digits_spec z ltac:(lia)) as (Hd & Hlo & Hhi).
  assert (c - 1 < count_digits z) by (apply (Z.pow_lt_mono_r_iff 10); lia).
  assert (count_digits z - 1 < c) by (apply (Z.pow_lt_mono_r_iff 10); lia). lia.
Qed.

Lemma count_digits_shift z i : 0 < z -> 0 <= i -> count_digits (z * 10 ^ i) = count_digits z + i.
Proof.
  intros Hz Hi. destruct (count_digits_spec z Hz) as (Hc & Hlo & Hhi).
  pose proof (pow10_pos i Hi). apply count_digits_unique; [lia|].
  replace (count_digits z + i - 1) with (count_digits z - 1 + i) by lia.
  rewrite !Z.pow_add_r by lia. nia.
Qed.

Lemma decimal_quotient_pos mantissa exponent num den :
  0 < mantissa -> decimal_quotient mantissa exponent = (num, den) -> 0 < num /\ 0 < den.
Proof.
  unfold decimal_quotient. intros Hm. destruct (Z.leb_spec 0 exponent); intros [= <- <-].
  - pose proof (pow10_pos exponent ltac:(lia)). nia.
  - split; [done|]. apply pow10_pos. lia.
Qed.

(** Zeros moved from the exponent to the end of the digits change nothing. *)
Lemma decimal_float_shift sign mantissa exponent i :
  0 < mantissa -> 0 <= i ->
  decimal_float sign (mantissa * 10 ^ i) (exponent - i) = decimal_float sign mantissa exponent.
Proof.
  intros Hm Hi. pose proof (pow10_pos i Hi) as Hp. unfold decimal_float.
  rewrite !(proj2 (Z.eqb_neq _ _)) by nia. rewrite count_digits_shift by done.
  replace (count_digits mantissa + i + (exponent - i)) with (count_digits mantissa + exponent) by lia.
  destruct (310 <? _); [done|]. destruct (_ <? -330); [done|].
  destruct (decimal_quotient (mantissa * 10 ^ i) (exponent - i)) as [n d] eqn:E.
  destruct (decimal_quotient mantissa exponent) as [n' d'] eqn:E'.
  assert (0 < mantissa * 10 ^ i) as Hm' by nia.
  destruct (decimal_quotient_pos _ _ _ _ Hm' E). destruct (decimal_quotient_pos _ _ _ _ Hm E').
  apply round_quotient_equal; [done..|].
  unfold decimal_quotient in E, E'.
  destruct (Z.leb_spec 0 (exponent - i)), (Z.leb_spec 0 exponent); try lia;
    injection E as <- <-; injection E' as <- <-.
  - replace exponent with (i + (exponent - i)) at 2 by lia. rewrite Z.pow_add_r by lia. ring.
  - replace i with (exponent + (- (exponent - i))) at 1 by lia. rewrite Z.pow_add_r by lia. ring.
  - replace (- (exponent - i)) with (i + - exponent) by lia. rewrite Z.pow_add_r by lia. ring.
Qed.

Lemma trim_zeros_spec fuel digits exponent digits' exponent' :
  0 < digits -> trim_zeros fuel digits exponent = (digits', exponent') ->
  0 < digits' <= digits /\ exists i, 0 <= i /\ digits = digits' * 10 ^ i /\ exponent' = exponent + i.
Proof.
  revert digits exponent. induction fuel as [|fuel IH]; intros digits exponent Hd; cbn [trim_zeros].
  - intros [= <- <-]. split; [lia|]. exists 0. cbn. lia.
  - destruct (Z.eqb_spec (digits mod 10) 0) as [Hz|Hz].
    + pose proof (Z.div_mod digits 10 ltac:(lia)).
      intros (Hpos & i & Hi & Hq & He)%IH; [|lia]. split; [lia|].
      exists (i + 1). rewrite Z.pow_add_r by lia. lia.
    + intros [= <- <-]. split; [lia|]. exists 0. cbn. lia.
Qed.

(** ** Seventeen digits are enough *)

Lemma decimal_point_up fuel num den k :
  0 < den -> den <= num -> num < den * 10 ^ Z.of_nat fuel ->
  exists i, 1 <= i /\ decimal_point fuel num den k = k + i
    /\ den * 10 ^ (i - 1) <= num < den * 10 ^ i.
Proof.
  revert den k. induction fuel as [|fuel IH]; intros den k Hd Hle Hlt; [cbn in Hlt; lia|].
  cbn [decimal_point]. rewrite (proj2 (Z.ltb_ge num den)) by lia.
  destruct (decide (num < den * 10)) as [H10|H10].
  - exists 1. split_and!; [lia| |cbn; lia|cbn; lia].
    destruct fuel as [|fuel]; [done|]. cbn [decimal_point].
    rewrite (proj2 (Z.ltb_lt _ _)) by lia. by rewrite (proj2 (Z.ltb_ge _ _)) by lia.
  - destruct (IH (den * 10) (k + 1)) as (i & Hi & -> & Hlo & Hhi); [lia|lia| |].
    + rewrite Nat2Z.inj_succ, Z.pow_succ_r in Hlt by lia. lia.
    + exists (i + 1). replace (i + 1 - 1) with (Z.succ (i - 1)) by lia. rewrite Z.add_1_r.
      rewrite !Z.pow_succ_r by lia. lia.
Qed.

Lemma decimal_point_down fuel num den k :
  0 < num -> num < den -> den <= num * 10 ^ Z.of_nat fuel ->
  exists i, 0 <= i /\ decimal_point fuel num den k = k - i
    /\ num * 10 ^ i < den <= num * 10 ^ (i + 1).
Proof.
  revert num k. induction fuel as [|fuel IH]; intros num k Hn Hlt Hle; [cbn in Hle; lia|].
  cbn [decimal_point]. rewrite (proj2 (Z.ltb_lt num den)) by lia.
  destruct (Z.ltb_spec (num * 10) den) as [H10|H10].
  - destruct (IH (num * 10) (k - 1)) as (i & Hi & -> & Hlo & Hhi); [lia|lia| |].
    + rewrite Nat2Z.inj_succ, Z.pow_succ_r in Hle by lia. lia.
    + exists (i + 1). rewrite (Z.add_1_r (i + 1)), (Z.add_1_r i) in *.
      rewrite !Z.pow_succ_r in * by lia. lia.
  - exists 0. split_and!; [lia|lia|cbn; lia|cbn; lia].
Qed.

Lemma float_quotient_spec m e num den :
  canonical m e -> float_quotient m e = (num, den) ->
  0 < num /\ 0 < den /\ num < den * 10 ^ 309 /\ den <= num * 10 ^ 324
  /\ Zpos m * (2 ^ (e + 1074) * den) = num * 2 ^ 1074.
Proof.
  intros Hc. assert (He : -1074 <= e <= 971) by (unfold canonical in Hc; lia).
  assert (Hm : Zpos m < 2 ^ 53) by (unfold canonical in Hc; lia).
  assert (P1 : 2 ^ 53 * 2 ^ 971 < 10 ^ 309) by (vm_compute; reflexivity).
  assert (P2 : 2 ^ 1074 < 10 ^ 324) by (vm_compute; reflexivity).
  unfold float_quotient. destruct (Z.leb_spec 0 e); intros [= <- <-].
  - pose proof (pow2_pos e ltac:(lia)).
    pose proof (Z.pow_le_mono_r 2 e 971 ltac:(lia) ltac:(lia)).
    rewrite Z.pow_add_r by lia. split_and!; [nia|lia|nia|nia|ring].
  - pose proof (pow2_pos (- e) ltac:(lia)).
    pose proof (Z.pow_le_mono_r 2 (- e) 1074 ltac:(lia) ltac:(lia)).
    split_and!; [lia|lia|nia|nia|]. replace 1074 with (e + 1074 + - e) at 2 by lia.
    rewrite (Z.pow_add_r 2 (e + 1074)) by lia. ring.
Qed.

(** The position of the point, and the size of the number with 17 digits before it. *)
Lemma float_point_spec m e num den a b :
  canonical m e -> float_quotient m e = (num, den) ->
  scale_decimal num den (float_point m e - 17) = (a, b) ->
  -323 <= float_point m e <= 309 /\ 0 < b /\ 10 ^ 16 * b <= a < 10 ^ 17 * b.
Proof.
  intros Hc Hq. destruct (float_quotient_spec _ _ _ _ Hc Hq) as (Hn & Hd & Hmax & Hmin & _).
  unfold float_point. rewrite Hq. clear Hc Hq m e.
  assert (P1 : 10 ^ 309 < 10 ^ Z.of_nat 400) by (vm_compute; reflexivity).
  assert (P2 : 10 ^ 324 < 10 ^ Z.of_nat 400) by (vm_compute; reflexivity).
  destruct (decide (den <= num)) as [Hcase|Hcase].
  - destruct (decimal_point_up 400 num den 0) as (i & Hi & -> & Hlo & Hhi); [lia|lia|nia|].
    assert (i - 1 < 309) by (apply (Z.pow_lt_mono_r_iff 10); nia).
    rewrite Z.add_0_l. unfold scale_decimal.
    destruct (Z.leb_spec 0 (i - 17)); intros [= <- <-]; (split; [lia|]).
    + pose proof (pow10_pos (i - 17) ltac:(lia)).
      replace (i - 1) with (16 + (i - 17)) in Hlo by lia. replace i with (17 + (i - 17)) in Hhi by lia.
      rewrite Z.pow_add_r in Hlo, Hhi by lia. split; nia.
    + pose proof (pow10_pos (- (i - 17)) ltac:(lia)).
      assert (10 ^ 16 = 10 ^ (i - 1) * 10 ^ (- (i - 17))) as -> by (rewrite <- Z.pow_add_r by lia; f_equal; lia).
      assert (10 ^ 17 = 10 ^ i * 10 ^ (- (i - 17))) as -> by (rewrite <- Z.pow_add_r by lia; f_equal; lia).
      split; [done|]. nia.
  - destruct (decimal_point_down 400 num den 0) as (i & Hi & -> & Hlo & Hhi); [lia|lia|nia|].
    assert (i < 324) by (apply (Z.pow_lt_mono_r_iff 10); nia).
    unfold scale_decimal. destruct (Z.leb_spec 0 (0 - i - 17)); [lia|]. intros [= <- <-].
    split; [lia|]. split; [done|].
    replace (- (0 - i - 17)) with (i + 1 + 16) by lia. rewrite Z.pow_add_r by lia.
    replace 17 with (1 + 16) by lia. rewrite (Z.pow_add_r 10 1 16), (Z.pow_add_r 10 i 1) in * by lia. lia.
Qed.

(** The decimal nearest to a double, of 17 digits, is read as that double. *)
Lemma near_decimal_reads m e num den a b :
  canonical m e -> float_quotient m e = (num, den) ->
  scale_decimal num den (float_point m e - 17) = (a, b) ->
  decimal_float false (round_half_even a b) (float_point m e - 17) = S754_finite false m e.
Proof.
  intros Hc Hq Hs. destruct (float_point_spec _ _ _ _ _ _ Hc Hq Hs) as (Hk & Hb & Ha).
  destruct (float_quotient_spec _ _ _ _ Hc Hq) as (Hn & Hd & _ & _ & Hval).
  pose proof (round_half_even_close a b Hb) as Hclose.
  set (D := round_half_even a b) in *. set (k := float_point m e) in *.
  assert (HD : 10 ^ 16 <= D <= 10 ^ 17) by nia.
  assert (Hpoint : 17 <= count_digits D <= 18).
  { destruct (count_digits_spec D ltac:(lia)) as (Hcd & Hlo & Hhi).
    assert (16 < count_digits D) by (apply (Z.pow_lt_mono_r_iff 10); lia).
    assert (count_digits D - 1 < 18) by (apply (Z.pow_lt_mono_r_iff 10); lia). lia. }
  unfold decimal_float. rewrite (proj2 (Z.eqb_neq _ _)) by lia.
  rewrite (proj2 (Z.ltb_ge 310 _)) by lia. rewrite (proj2 (Z.ltb_ge _ (-330))) by lia.
  assert (Hrel : 2 ^ 54 * Z.abs (D * b - a) < a) by lia.
  destruct (decimal_quotient D (k - 17)) as [num' den'] eqn:E.
  assert (HD0 : 0 < D) by lia. destruct (decimal_quotient_pos _ _ _ _ HD0 E) as [Hn' Hd'].
  assert (Hcross : num' * den - num * den' = D * b - a /\ num * den' = a).
  { unfold decimal_quotient in E. unfold scale_decimal in Hs.
    destruct (Z.leb_spec 0 (k - 17)); injection E as <- <-; injection Hs as <- <-; lia. }
  destruct Hcross as [Hcross Hprod]. apply round_quotient_close; [done..|].
  set (w := Zpos m * (2 ^ (e + 1074) * den')).
  assert (Hw : w * den = a * 2 ^ 1074) by (subst w; rewrite <- Hprod; nia).
  assert (Z.abs (num' * 2 ^ 1074 - w) * den = Z.abs (D * b - a) * 2 ^ 1074) as Habs.
  { rewrite <- (Z.abs_eq den) at 1 by lia. rewrite <- (Z.abs_eq (2 ^ 1074)) at 2 by (vm_compute; discriminate).
    rewrite <- !Z.abs_mul. f_equal. rewrite <- Hcross. nia. }
  set (p := 2 ^ 1074) in *. assert (0 < p) by (vm_compute; reflexivity). nia.
Qed.

Lemma shortest_from_last m e point d i n :
  digits_of_length m e point (n + Z.of_nat i) = Some d ->
  is_Some (shortest_from (S i) m e point n).
Proof.
  revert n. induction i as [|i IH]; intros n H; cbn [shortest_from].
  - rewrite Z.add_0_r in H. rewrite H. by eexists.
  - destruct (digits_of_length m e point n); [by eexists|]. apply IH.
    by replace (n + 1 + Z.of_nat i) with (n + Z.of_nat (S i)) by lia.
Qed.

Lemma float_is_spec m e d x :
  float_is m e d x = true <-> decimal_float false d x = S754_finite false m e.
Proof.
  unfold float_is. destruct (decimal_float false d x) as [| | |[] m' e']; try done.
  rewrite andb_true_iff, Pos.eqb_eq, Z.eqb_eq. split; [by intros [-> ->]|by intros [= -> ->]].
Qed.

Lemma digits_of_length_reads m e point n d x :
  digits_of_length m e point n = Some (d, x) -> decimal_float false d x = S754_finite false m e.
Proof.
  unfold digits_of_length. destruct (float_quotient m e) as [num den].
  destruct (scale_decimal num den (point - n)) as [a b].
  repeat case_match; intros [= <- <-]; by apply float_is_spec.
Qed.

(** Every double has digits, and they are read as it. *)
Lemma shortest_decimal_total m e : canonical m e -> is_Some (shortest_decimal m e).
Proof.
  intros Hc. unfold shortest_decimal.
  destruct (float_quotient m e) as [num den] eqn:Hq.
  destruct (scale_decimal num den (float_point m e - 17)) as [a b] eqn:Hs.
  apply (shortest_from_last _ _ _ (round_half_even a b, float_point m e - 17) 16 1).
  unfold digits_of_length. change (1 + Z.of_nat 16) with 17. rewrite Hq, Hs.
  rewrite (proj2 (float_is_spec _ _ _ _)); [done|]. by eapply near_decimal_reads.
Qed.

Lemma shortest_decimal_reads m e d x :
  shortest_decimal m e = Some (d, x) -> decimal_float false d x = S754_finite false m e.
Proof.
  unfold shortest_decimal. generalize 17%nat, 1. intros fuel.
  induction fuel as [|fuel IH]; intros n; cbn [shortest_from]; [done|].
  destruct (digits_of_length m e _ n) as [[d' x']|] eqn:E; [|apply IH].
  intros [= <- <-]. by eapply digits_of_length_reads.
Qed.
