(* ===== verification/FloatText.v ===== *)
(** * The text of a number

    The scanner of number literals and its printer are inverse, and a [float64] that is
    printed is read back as itself. *)
From S2P Require Import Prelude GoStrings Float64.

(** ** Literals *)

(** The grammar of JSON numbers. *)
Definition digits_wf (s : string) : bool := all_digits s && negb (s =s? "").
Definition integer_wf (s : string) : bool :=
  digits_wf s
  && match s with
     | String a s' => negb (Ascii.eqb a "0") || (s' =s? "")
     | EmptyString => false
     end.
Definition exponent_wf (e : ascii * option ascii * string) : bool :=
  let '(letter, sign, digits) := e in
  (Ascii.eqb letter "e" || Ascii.eqb letter "E")
  && match sign with Some c => Ascii.eqb c "+" || Ascii.eqb c "-" | None => true end
  && digits_wf digits.
Definition number_wf (n : number_parts) : bool :=
  integer_wf (npInteger n)
  && match npFraction n with Some f => digits_wf f | None => true end
  && match npExponent n with Some e => exponent_wf e | None => true end.

(** What may follow a number: nothing the scanner could take for a part of it. *)
Definition no_digit (s : string) : bool :=
  match s with String a _ => negb (is_digit a) | EmptyString => true end.
Definition no_exponent (s : string) : bool :=
  match s with
  | String a _ => negb (Ascii.eqb a "e" || Ascii.eqb a "E")
  | EmptyString => true
  end.
Definition no_point (s : string) : bool :=
  match s with String a _ => negb (Ascii.eqb a ".") | EmptyString => true end.
Definition number_stops (s : string) : bool := no_digit s && no_exponent s && no_point s.

Lemma span_digits_app ds s :
  all_digits ds = true -> no_digit s = true -> span_digits (ds +:+ s) = (ds, s).
Proof.
  intros Hd Hs. induction ds as [|a ds IH]; cbn.
  - destruct s as [|a s]; [done|]. cbn in *. by destruct (is_digit a).
  - cbn in Hd. apply andb_true_iff in Hd as [-> Hd]. by rewrite (IH Hd).
Qed.

Lemma span_digits_spec s ds r :
  span_digits s = (ds, r) -> s = ds +:+ r /\ all_digits ds = true /\ no_digit r = true.
Proof.
  revert ds r. induction s as [|a s IH]; intros ds r; cbn; [by intros [= <- <-]|].
  destruct (is_digit a) eqn:Ha.
  - destruct (span_digits s) as [d r'] eqn:E. intros [= <- <-].
    destruct (IH d r' eq_refl) as (-> & Hd & Hr). cbn. by rewrite Ha, Hd.
  - intros [= <- <-]. cbn. by rewrite Ha.
Qed.

Lemma digits_wf_cons s : digits_wf s = true -> exists a s', s = String a s' /\ is_digit a = true /\ all_digits s' = true.
Proof.
  destruct s as [|a s']; unfold digits_wf; cbn; [done|].
  rewrite andb_true_r. intros [Ha Hs]%andb_true_iff. eauto.
Qed.

(** A digit is none of the other characters of a number. *)
Lemma digit_not a c : is_digit a = true -> is_digit c = false -> Ascii.eqb a c = false.
Proof. intros Ha Hc. apply Ascii.eqb_neq. intros ->. congruence. Qed.

Lemma scan_exponent_print neg ip fp ex s :
  match ex with Some e => exponent_wf e | None => true end = true -> number_stops s = true ->
  scan_exponent neg ip fp
    (match ex with
     | Some (letter, sign, digits) =>
         String letter (match sign with Some c => String c digits | None => digits end)
     | None => ""
     end +:+ s) = Scanned (MkNumber neg ip fp ex) s.
Proof.
  unfold number_stops. intros He [[Hd Hx]%andb_true_iff _]%andb_true_iff.
  destruct ex as [[[letter sign] digits]|].
  - cbn [exponent_wf] in He. apply andb_true_iff in He as [[Hl Hsg]%andb_true_iff Hds].
    destruct (digits_wf_cons _ Hds) as (a & ds & -> & Ha & Hall).
    assert (Hsp : span_digits (String a ds +:+ s) = (String a ds, s)).
    { apply span_digits_app; [|done]. cbn. by rewrite Ha, Hall. }
    unfold scan_exponent. destruct sign as [c|]; cbn [String.append] in *; rewrite Hl.
    + by rewrite Hsg, Hsp.
    + rewrite (digit_not a "+"), (digit_not a "-") by done. cbn [orb]. by rewrite Hsp.
  - destruct s as [|a s]; [done|]. cbn in Hx |- *. by destruct (Ascii.eqb a "e" || Ascii.eqb a "E").
Qed.

(** After the integer part: the text of the rest never starts with a digit. *)
Definition print_fraction (fp : option string) : string :=
  match fp with Some f => "." +:+ f | None => "" end.
Definition print_exponent (ex : option (ascii * option ascii * string)) : string :=
  match ex with
  | Some (letter, sign, digits) =>
      String letter (match sign with Some c => String c digits | None => digits end)
  | None => ""
  end.

Lemma exponent_no_digit ex s :
  match ex with Some e => exponent_wf e | None => true end = true -> number_stops s = true ->
  no_digit (print_exponent ex +:+ s) = true /\ no_point (print_exponent ex +:+ s) = true.
Proof.
  unfold number_stops. intros He [[Hd _]%andb_true_iff Hp]%andb_true_iff.
  destruct ex as [[[letter sign] digits]|]; [|done].
  cbn in He |- *. apply andb_true_iff in He as [[Hl _]%andb_true_iff _].
  apply orb_true_iff in Hl as [->%Ascii.eqb_eq | ->%Ascii.eqb_eq]; done.
Qed.

Lemma scan_fraction_print neg ip fp ex s :
  match fp with Some f => digits_wf f | None => true end = true ->
  match ex with Some e => exponent_wf e | None => true end = true -> number_stops s = true ->
  scan_fraction neg ip (print_fraction fp +:+ (print_exponent ex +:+ s))
    = Scanned (MkNumber neg ip fp ex) s.
Proof.
  intros Hf He Hs. destruct (exponent_no_digit ex s He Hs) as [Hnd Hnp].
  pose proof (scan_exponent_print neg ip fp ex s He Hs) as Hx.
  fold (print_exponent ex) in Hx. destruct fp as [f|].
  - unfold scan_fraction. cbn [print_fraction String.append]. rewrite Ascii_eqb_refl.
    destruct (digits_wf_cons _ Hf) as (a & ds & -> & Ha & Hall).
    rewrite span_digits_app; [done| |done]. cbn. by rewrite Ha, Hall.
  - unfold scan_fraction. cbn [print_fraction String.append].
    destruct (print_exponent ex +:+ s) as [|a r]; [done|]. cbn in Hnp.
    by destruct (Ascii.eqb a ".").
Qed.

Lemma fraction_no_digit fp ex s :
  match ex with Some e => exponent_wf e | None => true end = true -> number_stops s = true ->
  no_digit (print_fraction fp +:+ (print_exponent ex +:+ s)) = true.
Proof. intros He Hs. destruct fp as [f|]; [done|]. by apply exponent_no_digit. Qed.

Lemma print_number_eq n :
  print_number n = (if npNegative n then "-" else "") +:+ npInteger n
    +:+ print_fraction (npFraction n) +:+ print_exponent (npExponent n).
Proof. by destruct n. Qed.

(** A literal is scanned back to its parts, whatever follows. *)
Lemma scan_number_print n s :
  number_wf n = true -> number_stops s = true -> scan_number (print_number n +:+ s) = Scanned n s.
Proof.
  destruct n as [neg ip fp ex]. unfold number_wf. cbn [npInteger npFraction npExponent].
  intros [[Hi Hf]%andb_true_iff He]%andb_true_iff Hs.
  pose proof (fraction_no_digit fp ex s He Hs) as Hnd.
  pose proof (scan_fraction_print neg ip fp ex s Hf He Hs) as Hx.
  assert (Hint : scan_integer neg (ip +:+ (print_fraction fp +:+ (print_exponent ex +:+ s)))
                 = Scanned (MkNumber neg ip fp ex) s).
  { apply andb_true_iff in Hi as [Hds Hz]. destruct (digits_wf_cons _ Hds) as (a & ds & -> & Ha & Hall).
    unfold scan_integer. cbn [String.append]. destruct (Ascii.eqb_spec a "0") as [->|Hne].
    - cbn in Hz. apply String.eqb_eq in Hz as ->. apply Hx.
    - rewrite Ha. change (String a (ds +:+ ?r)) with (String a ds +:+ r).
      rewrite span_digits_app; [done| |done]. cbn. by rewrite Ha, Hall. }
  rewrite print_number_eq. cbn [npNegative npInteger npFraction npExponent]. rewrite !string_app_assoc.
  destruct neg; [exact Hint|]. cbn [String.append].
  apply andb_true_iff in Hi as [Hds _]. destruct (digits_wf_cons _ Hds) as (a & ds & -> & Ha & _).
  unfold scan_number. cbn [String.append] in *. by rewrite (digit_not a "-").
Qed.

(** What is scanned is a number, and its text with what follows is the input. *)
Lemma scan_exponent_sound neg ip fp s n r :
  scan_exponent neg ip fp s = Scanned n r ->
  exists ex, n = MkNumber neg ip fp ex /\ s = print_exponent ex +:+ r
    /\ match ex with Some e => exponent_wf e | None => true end = true.
Proof.
  unfold scan_exponent. destruct s as [|a s]; [intros [= <- <-]; by exists None|].
  destruct (Ascii.eqb a "e" || Ascii.eqb a "E") eqn:Ha; [|intros [= <- <-]; by exists None].
  set (split := match s with String c s'' => _ | EmptyString => _ end).
  assert (Hsplit : exists sign s'', split = (sign, s'')
    /\ s = match sign with Some c => String c s'' | None => s'' end
    /\ match sign with Some c => Ascii.eqb c "+" || Ascii.eqb c "-" | None => true end = true).
  { subst split. destruct s as [|c s]; [by eexists _, _|].
    destruct (Ascii.eqb c "+" || Ascii.eqb c "-") eqn:Hc; eexists _, _; split_and!; done. }
  destruct Hsplit as (sign & s'' & -> & -> & Hsg).
  destruct (span_digits s'') as [ds r'] eqn:Hs. destruct (span_digits_spec _ _ _ Hs) as (-> & Hd & _).
  destruct ds as [|d ds]; [done|]. intros [= <- <-].
  exists (Some (a, sign, String d ds)). cbn [print_exponent exponent_wf]. split_and!; [done| |].
  - by destruct sign.
  - rewrite Ha, Hsg. unfold digits_wf. by rewrite Hd.
Qed.

Lemma scan_fraction_sound neg ip s n r :
  scan_fraction neg ip s = Scanned n r ->
  exists fp ex, n = MkNumber neg ip fp ex /\ s = print_fraction fp +:+ print_exponent ex +:+ r
    /\ match fp with Some f => digits_wf f | None => true end = true
    /\ match ex with Some e => exponent_wf e | None => true end = true.
Proof.
  assert (Hno : scan_exponent neg ip None s = Scanned n r ->
    exists fp ex, n = MkNumber neg ip fp ex /\ s = print_fraction fp +:+ print_exponent ex +:+ r
    /\ match fp with Some f => digits_wf f | None => true end = true
    /\ match ex with Some e => exponent_wf e | None => true end = true).
  { intros (ex & -> & Hs & He)%scan_exponent_sound. by exists None, ex. }
  unfold scan_fraction. destruct s as [|a s]; [done|].
  destruct (Ascii.eqb_spec a ".") as [->|_]; [|done].
  destruct (span_digits s) as [ds r'] eqn:Hs. destruct (span_digits_spec _ _ _ Hs) as (-> & Hd & _).
  destruct ds as [|d ds]; [done|]. intros (ex & -> & -> & He)%scan_exponent_sound.
  exists (Some (String d ds)), ex. cbn [print_fraction].
  split_and!; [done|by rewrite string_app_assoc| |done]. unfold digits_wf. by rewrite Hd.
Qed.

Lemma scan_number_sound s n r :
  scan_number s = Scanned n r -> number_wf n = true /\ s = print_number n +:+ r.
Proof.
  assert (Hint : forall neg s, scan_integer neg s = Scanned n r ->
    exists ip fp ex, n = MkNumber neg ip fp ex /\ number_wf n = true
      /\ s = ip +:+ print_fraction fp +:+ print_exponent ex +:+ r).
  { intros neg s'. unfold scan_integer. destruct s' as [|a s']; [done|].
    destruct (Ascii.eqb_spec a "0") as [->|Hne].
    - intros (fp & ex & -> & -> & Hf & He)%scan_fraction_sound. exists "0", fp, ex.
      split_and!; [done| |done]. unfold number_wf. cbn [npInteger npFraction npExponent]. by rewrite Hf, He.
    - destruct (is_digit a) eqn:Ha; [|done].
      destruct (span_digits (String a s')) as [ds r'] eqn:Hs.
      destruct (span_digits_spec _ _ _ Hs) as (Heq & Hd & _).
      intros (fp & ex & -> & -> & Hf & He)%scan_fraction_sound. exists ds, fp, ex.
      split_and!; [done| |by rewrite Heq]. unfold number_wf. cbn [npInteger npFraction npExponent].
      rewrite Hf, He, !andb_true_r. destruct ds as [|d ds].
      + cbn in Heq. unfold span_digits in Hs. fold span_digits in Hs. rewrite Ha in Hs.
        by destruct (span_digits s').
      + injection Heq as -> _. unfold integer_wf, digits_wf. rewrite Hd.
        rewrite (proj2 (Ascii.eqb_neq d "0")) by done. done. }
  rewrite print_number_eq. unfold scan_number. destruct s as [|a s].
  - intros (ip & fp & ex & -> & Hwf & Hs)%Hint. split; [done|]. cbn [npNegative npInteger npFraction npExponent].
    by rewrite !string_app_assoc.
  - destruct (Ascii.eqb_spec a "-") as [->|_]; intros (ip & fp & ex & -> & Hwf & Hs)%Hint; (split; [done|]);
      cbn [npNegative npInteger npFraction npExponent String.append]; rewrite !string_app_assoc; [by f_equal|done].
Qed.

(** ** The digits of an integer *)

Lemma dec_digits_digits fuel z acc :
  0 < z < 10 ^ Z.of_nat fuel ->
  exists a ds, dec_digits fuel z acc = String a ds +:+ acc
    /\ all_digits (String a ds) = true /\ Ascii.eqb a "0" = false
    /\ digits_value 0 (String a ds) = z
    /\ 10 ^ Z.of_nat (String.length ds) <= z < 10 ^ Z.of_nat (S (String.length ds)).
Proof.
  revert z acc. induction fuel as [|fuel IH]; intros z acc Hz; [cbn in Hz; lia|].
  cbn [dec_digits]. pose proof (Z.mod_pos_bound z 10 ltac:(lia)) as Hm.
  destruct (is_digit_chr (z mod 10) Hm) as [Hd Hv].
  destruct (Z.ltb_spec z 10) as [Hlt|Hge].
  - exists (digit_chr (z mod 10)), "". cbn [String.append all_digits digits_value String.length].
    rewrite Hd, Hv. rewrite Z.mod_small in * by lia. split_and!; [done|done| |lia|cbn; lia|cbn; lia].
    apply Ascii.eqb_neq. intros E. apply (f_equal byte_ord) in E. rewrite Hv in E. change (byte_ord "0") with 48%nat in E. lia.
  - pose proof (Z.div_mod z 10 ltac:(lia)).
    destruct (IH (z / 10) (String (digit_chr (z mod 10)) acc)) as (a & ds & -> & Ha & H0 & Hds & Hl & Hh).
    { rewrite Nat2Z.inj_succ, Z.pow_succ_r in Hz by lia. lia. }
    exists a, (ds +:+ String (digit_chr (z mod 10)) ""). split_and!.
    + cbn [String.append]. by rewrite string_app_assoc.
    + change (String a (ds +:+ ?r)) with (String a ds +:+ r). rewrite all_digits_app, Ha. cbn. by rewrite Hd.
    + done.
    + change (String a (ds +:+ ?r)) with (String a ds +:+ r). rewrite digits_value_app, Hds.
      cbn [digits_value]. rewrite Hv. lia.
    + rewrite string_length_app. cbn [String.length]. rewrite Nat2Z.inj_add, Z.pow_add_r by lia. cbn. lia.
    + rewrite string_length_app. cbn [String.length]. rewrite Nat.add_1_r, Nat2Z.inj_succ, Z.pow_succ_r by lia. lia.
Qed.

Lemma print_digits_spec z :
  0 < z -> exists a ds, print_digits z = String a ds
    /\ all_digits (String a ds) = true /\ Ascii.eqb a "0" = false
    /\ digits_value 0 (String a ds) = z
    /\ Z.of_nat (S (String.length ds)) = count_digits z.
Proof.
  intros Hz. destruct (count_digits_spec z Hz) as (Hc & _ & Hhi). unfold print_digits.
  destruct (dec_digits_digits (Z.to_nat (count_digits z)) z "") as (a & ds & -> & Ha & H0 & Hv & Hl & Hh).
  { rewrite Z2Nat.id by lia. lia. }
  rewrite string_app_nil_r. exists a, ds. split_and!; [done..|].
  symmetry. apply count_digits_unique; [lia|]. split; [|done].
  by replace (Z.of_nat (S (String.length ds)) - 1) with (Z.of_nat (String.length ds)) by lia.
Qed.

(** ** Printing a decimal *)

Lemma zeros_digits n : all_digits (zeros n) = true /\ String.length (zeros n) = n.
Proof. induction n as [|n [IH1 IH2]]; [done|]. cbn. by rewrite IH1, IH2. Qed.
Lemma digits_value_zeros acc n : digits_value acc (zeros n) = acc * 10 ^ Z.of_nat n.
Proof.
  revert acc. induction n as [|n IH]; intros acc; [cbn; lia|].
  cbn [zeros digits_value]. rewrite IH, Nat2Z.inj_succ, Z.pow_succ_r by lia.
  change (Z.of_nat (byte_ord "0")) with 48. ring.
Qed.

Lemma str_take_drop n s : str_take n s +:+ str_drop n s = s.
Proof. revert s. induction n as [|n IH]; intros [|a s]; cbn; [done..|]. by rewrite IH. Qed.
Lemma str_drop_length n s : String.length (str_drop n s) = (String.length s - n)%nat.
Proof. revert s. induction n as [|n IH]; intros [|a s]; cbn; [done..|]. apply IH. Qed.

Lemma digits_value_mono acc s : all_digits s = true -> 0 <= acc -> acc <= digits_value acc s.
Proof.
  revert acc. induction s as [|a s IH]; intros acc; cbn; [lia|].
  intros [Ha Hs]%andb_true_iff Hacc. unfold is_digit in Ha.
  apply andb_true_iff in Ha as [Ha _]. apply Nat.leb_le in Ha.
  specialize (IH (acc * 10 + (Z.of_nat (byte_ord a) - 48)) Hs ltac:(lia)). lia.
Qed.

Lemma exponent_value_small acc s :
  all_digits s = true -> 0 <= acc -> digits_value acc s <= 10000 ->
  exponent_value acc s = digits_value acc s.
Proof.
  revert acc. induction s as [|a s IH]; intros acc; [done|]. cbn.
  intros [Ha Hs]%andb_true_iff Hacc Hv. unfold is_digit in Ha.
  apply andb_true_iff in Ha as [Ha _]. apply Nat.leb_le in Ha.
  pose proof (digits_value_mono (acc * 10 + (Z.of_nat (byte_ord a) - 48)) s Hs ltac:(lia)).
  destruct (Z.ltb_spec acc 10000); [apply IH; [done|lia|done]|lia].
Qed.

Lemma all_digits_take_drop n s :
  all_digits s = true -> all_digits (str_take n s) = true /\ all_digits (str_drop n s) = true.
Proof. rewrite <- (str_take_drop n s) at 1. rewrite all_digits_app. by intros []%andb_true_iff. Qed.

(** The text has the sign and the value of the decimal, in the grammar of numbers. *)
Definition spells (n : number_parts) (sign : bool) (d x : Z) : Prop :=
  number_wf n = true /\ npNegative n = sign
  /\ exists i, 0 <= i /\ number_decimal n = (d * 10 ^ i, x - i).

Lemma spells_exponent sign a ds d x :
  all_digits (String a ds) = true -> Ascii.eqb a "0" = false -> digits_value 0 (String a ds) = d ->
  let p := Z.of_nat (String.length ds) + x in
  p <> 0 -> Z.abs p <= 10000 ->
  spells (MkNumber sign (String a "") (if ds =s? "" then None else Some ds)
    (Some ("e"%char, Some (if p <? 0 then "-"%char else "+"%char), print_digits (Z.abs p)))) sign d x.
Proof.
  intros Hd H0 Hv p Hp Hmax. pose proof Hd as Hd'. cbn in Hd'. apply andb_true_iff in Hd' as [Ha Hds].
  destruct (print_digits_spec (Z.abs p) ltac:(lia)) as (b & es & -> & Hes & _ & Hev & _).
  unfold spells, number_wf, number_decimal. cbn [npInteger npFraction npExponent npNegative].
  assert (Hsign : forall c, Ascii.eqb (if p <? 0 then "-"%char else "+"%char) c
                            = if p <? 0 then Ascii.eqb "-" c else Ascii.eqb "+" c)
    by (intros c; by destruct (p <? 0)).
  split_and!; [| done |exists 0; split; [lia|]].
  - unfold integer_wf, digits_wf, exponent_wf. unfold digits_wf.
    rewrite !Hsign, Hes. cbn [all_digits]. rewrite Ha, H0. cbn.
    destruct (ds =s? "") eqn:E; destruct (p <? 0); cbn; rewrite ?Hds, ?E; done.
  - rewrite Hsign, exponent_value_small, Hev by (done || lia).
    assert (Hfr : default "" (if ds =s? "" then None else Some ds) = ds).
    { destruct ds; done. }
    rewrite Hfr. cbn [String.append]. rewrite Hv. f_equal; [lia|].
    destruct (Z.ltb_spec p 0); cbn; lia.
Qed.

Lemma float_parts_spells sign d x :
  0 < d -> -330 <= count_digits d + x <= 310 -> spells (float_parts sign d x) sign d x.
Proof.
  intros Hd Hp. destruct (print_digits_spec d Hd) as (a & ds & Hds & Hall & H0 & Hv & Hlen).
  unfold float_parts. rewrite Hds. cbn [String.length]. rewrite Hlen. clear Hds.
  set (point := count_digits d + x) in *.
  destruct (_ || _) eqn:Hfar; [|apply orb_false_iff in Hfar as [Hlo%Z.ltb_ge Hhi%Z.ltb_ge]].
  - cbn [str_take str_drop]. apply orb_true_iff in Hfar. rewrite !Z.ltb_lt in Hfar.
    replace (str_take 0 ds) with "" by (by destruct ds).
    replace (str_drop 0 ds) with ds by (by destruct ds).
    replace (point - 1) with (Z.of_nat (String.length ds) + x) in * by lia.
    by apply spells_exponent; [..|lia|lia].
  - pose proof (all_digits_take_drop (Z.to_nat point) (String a ds) Hall) as [Ht Hdr].
    pose proof (str_take_drop (Z.to_nat point) (String a ds)) as Htd.
    pose proof (str_drop_length (Z.to_nat point) (String a ds)) as Hdl. cbn [String.length] in Hdl.
    destruct (zeros_digits (Z.to_nat (- point))) as [Hz Hzl].
    destruct (zeros_digits (Z.to_nat x)) as [Hx Hxl].
    unfold spells, number_wf, number_decimal, integer_wf, digits_wf.
    destruct (Z.leb_spec point 0); [|destruct (Z.ltb_spec x 0)]; cbn [npInteger npFraction npExponent npNegative default from_option id].
    + split_and!; [|done|exists 0; split; [lia|]].
      * rewrite all_digits_app, Hz, Hall. by destruct (zeros _).
      * rewrite !digits_value_app, string_length_app, Hzl. cbn [String.length].
        change (digits_value 0 "0") with 0. rewrite digits_value_zeros, Z.mul_0_l, Hv. f_equal; lia.
    + split_and!; [|done|exists 0; split; [lia|]].
      * rewrite Ht, Hdr. destruct (Z.to_nat point) as [|k] eqn:Hk; [lia|]. cbn [str_take].
        rewrite H0. cbn. destruct (str_drop k ds) eqn:E; [|done]. cbn in Hdl. rewrite E in Hdl. cbn in Hdl. lia.
      * rewrite Htd, Hv, Hdl. f_equal; lia.
    + split_and!; [|done|exists x; split; [done|]].
      * rewrite all_digits_app, Hall, Hx. cbn. by rewrite H0.
      * rewrite string_app_nil_r, digits_value_app, digits_value_zeros, Hv. f_equal; [|cbn; lia].
        by rewrite Z2Nat.id by lia.
Qed.

(** ** The round trip *)

Lemma decimal_float_sign sign m x m' e :
  decimal_float false m x = S754_finite false m' e -> decimal_float sign m x = S754_finite sign m' e.
Proof.
  unfold decimal_float, round_quotient. repeat case_match; congruence.
Qed.

Lemma decimal_float_finite m x m' e :
  decimal_float false m x = S754_finite false m' e -> m <> 0 /\ -330 <= count_digits m + x <= 310.
Proof.
  unfold decimal_float. destruct (Z.eqb_spec m 0); [done|].
  destruct (Z.ltb_spec 310 (count_digits m + x)); [done|].
  destruct (Z.ltb_spec (count_digits m + x) (-330)); [done|]. lia.
Qed.

Lemma round_half_even_nonneg num den : 0 <= num -> 0 < den -> 0 <= round_half_even num den.
Proof. intros Hn Hd. pose proof (Z.div_pos num den Hn Hd). unfold round_half_even. repeat case_match; lia. Qed.

Lemma float_quotient_pos m e num den : float_quotient m e = (num, den) -> 0 < num /\ 0 < den.
Proof.
  unfold float_quotient. destruct (Z.leb_spec 0 e); intros [= <- <-].
  - pose proof (pow2_pos e ltac:(lia)). lia.
  - pose proof (pow2_pos (- e) ltac:(lia)). lia.
Qed.

Lemma digits_of_length_nonneg m e point n d x :
  digits_of_length m e point n = Some (d, x) -> 0 <= d.
Proof.
  unfold digits_of_length. destruct (float_quotient m e) as [num den] eqn:Hq.
  destruct (float_quotient_pos _ _ _ _ Hq) as [Hn Hd].
  destruct (scale_decimal num den (point - n)) as [a b] eqn:Hs.
  assert (Hab : 0 <= a /\ 0 < b).
  { unfold scale_decimal in Hs. destruct (Z.leb_spec 0 (point - n)); injection Hs as <- <-.
    - pose proof (pow10_pos (point - n) ltac:(lia)). nia.
    - pose proof (pow10_pos (- (point - n)) ltac:(lia)). nia. }
  destruct Hab as [Ha Hb]. pose proof (round_half_even_nonneg a b Ha Hb) as Hr.
  pose proof (Z.div_pos a b Ha Hb).
  case_match; [by intros [= <- <-]|]. case_match; [|done]. intros [= <- <-].
  unfold round_half_even in *. repeat case_match; lia.
Qed.

Lemma shortest_decimal_pos m e d x : shortest_decimal m e = Some (d, x) -> 0 < d.
Proof.
  intros Hd. pose proof (shortest_decimal_reads _ _ _ _ Hd) as [Hne _]%decimal_float_finite.
  cut (0 <= d); [lia|]. revert Hd. clear Hne. unfold shortest_decimal. generalize 17%nat, 1. intros fuel.
  induction fuel as [|fuel IH]; intros n; cbn [shortest_from]; [done|].
  destruct (digits_of_length m e _ n) as [[d' x']|] eqn:E; [|apply IH].
  intros [= <- <-]. by eapply digits_of_length_nonneg.
Qed.

(** The digits of a double, trimmed: they are read as it, and spelled by a number. *)
Lemma trimmed_decimal s m e d x d' x' :
  shortest_decimal m e = Some (d, x) -> trim_zeros 20 d x = (d', x') ->
  0 < d' /\ decimal_float false d' x' = S754_finite false m e
  /\ spells (float_parts s d' x') s d' x'.
Proof.
  intros Hd Ht. pose proof (shortest_decimal_pos _ _ _ _ Hd) as Hpos.
  pose proof (shortest_decimal_reads _ _ _ _ Hd) as Hr.
  destruct (trim_zeros_spec _ _ _ _ _ Hpos Ht) as (Hd' & i & Hi & -> & ->).
  assert (Hr' : decimal_float false d' (x + i) = S754_finite false m e).
  { rewrite <- (decimal_float_shift _ _ _ i) by lia. by replace (x + i - i) with x by lia. }
  split_and!; [lia|done|]. apply float_parts_spells; [lia|].
  by destruct (decimal_float_finite _ _ _ _ Hr').
Qed.

(** What is printed is a number of JSON. *)
Lemma FormatFloat_number f literal :
  FormatFloat f = Some literal -> exists n, literal = print_number n /\ number_wf n = true.
Proof.
  destruct f as [s| | |s m e]; cbn [FormatFloat]; [|done|done|].
  - intros [= <-]. eexists. split; [done|]. by destruct s.
  - destruct (shortest_decimal m e) as [[d x]|] eqn:Hd; [|done]. cbn [mbind option_bind].
    destruct (trim_zeros 20 d x) as [d' x'] eqn:Ht. intros [= <-]. eexists. split; [done|].
    by destruct (trimmed_decimal s _ _ _ _ _ _ Hd Ht) as (_ & _ & Hwf & _).
Qed.

Lemma ParseFloat_print n m e sign :
  number_wf n = true -> npNegative n = sign ->
  (let '(d, x) := number_decimal n in decimal_float sign d x) = S754_finite sign m e ->
  ParseFloat (print_number n) = Ok (S754_finite sign m e).
Proof.
  intros Hwf <- Hd. unfold ParseFloat.
  rewrite <- (string_app_nil_r (print_number n)), scan_number_print, string_app_nil_r by done.
  destruct (number_decimal n) as [d x]. by rewrite Hd.
Qed.

(** Every double but the infinities has a text, which is a number of JSON and is read
    back as that double: no printing and reading ever changes it. *)
Lemma FormatFloat_roundtrip f :
  valid_binary 53 1024 f = true -> (exists s, f = S754_zero s) \/ (exists s m e, f = S754_finite s m e) ->
  exists n, FormatFloat f = Some (print_number n) /\ number_wf n = true
    /\ ParseFloat (print_number n) = Ok f.
Proof.
  intros Hv [[s ->]|(s & m & e & ->)].
  - exists (MkNumber s "0" None None). by destruct s.
  - pose proof (valid_canonical s m e Hv) as Hc.
    destruct (shortest_decimal_total m e Hc) as [[d x] Hd].
    unfold FormatFloat. rewrite Hd. cbn [mbind option_bind].
    destruct (trim_zeros 20 d x) as [d' x'] eqn:Ht.
    destruct (trimmed_decimal s _ _ _ _ _ _ Hd Ht) as (Hpos & Hr & Hwf & Hs & j & Hj & Hdec).
    eexists. split; [done|]. split; [done|]. apply ParseFloat_print; [done|done|].
    rewrite Hdec. rewrite decimal_float_shift by lia. by apply decimal_float_sign.
Qed.
