(* ===== verification/JsonText.v ===== *)
(** * JSON texts: [encoding/json]

    A JSON value is a syntax tree whose numbers keep their literals, as with
    [UseNumber].  [stdjson_Decode] reads the first value of a text, as a [Decoder] does;
    [print_json] prints a tree the way [Marshal] does, or [MarshalIndent] with two
    spaces.  The strings of Go are bytes: what is not UTF-8 becomes the replacement
    character on either way. *)
From S2P Require Import Prelude GoStrings Float64.

Inductive json : Type :=
| JNull
| JBool (b : bool)
| JNumber (literal : string)
| JString (s : string)
| JArray (l : list json)
| JObject (l : list (string * json)).

(** ** Characters *)

Definition backslash : ascii := byte_chr 92.
Definition dquote_chr : ascii := byte_chr 34.
Definition code (a : ascii) : Z := Z.of_nat (byte_ord a).
Definition byte_of (z : Z) : ascii := byte_chr (Z.to_nat z).

(** An element of a string literal: a byte, escaped or not, or a [\u] escape. *)
Inductive str_item : Type := IByte (a : ascii) | IUnit (u : Z).

(** A character: its bytes, or the replacement of what is none. *)
Inductive rune : Type := Rune (s : string) | BadRune.

Definition between (lo a hi : Z) : bool := (lo <=? a) && (a <=? hi).

(** The sequences of UTF-8, by their length. *)
Definition utf8_2 (a b : Z) : bool := between 194 a 223 && between 128 b 191.
Definition utf8_3 (a b c : Z) : bool :=
  between 224 a 239
  && between (if a =? 224 then 160 else 128) b (if a =? 237 then 159 else 191)
  && between 128 c 191.
Definition utf8_4 (a b c d : Z) : bool :=
  between 240 a 244
  && between (if a =? 240 then 144 else 128) b (if a =? 244 then 143 else 191)
  && between 128 c 191 && between 128 d 191.

(** [utf8.EncodeRune] *)
Definition utf8_encode (r : Z) : string :=
  let tail k := byte_of (128 + Z.land (Z.shiftr r k) 63) in
  if r <? 128 then String (byte_of r) ""
  else if r <? 2048 then String (byte_of (192 + Z.shiftr r 6)) (String (tail 0) "")
  else if r <? 65536 then
    String (byte_of (224 + Z.shiftr r 12)) (String (tail 6) (String (tail 0) ""))
  else String (byte_of (240 + Z.shiftr r 18)) (String (tail 12) (String (tail 6) (String (tail 0) ""))).

(** The surrogates of UTF-16. *)
Definition high_surrogate (u : Z) : bool := between 55296 u 56319.
Definition low_surrogate (u : Z) : bool := between 56320 u 57343.

(** The characters of a literal: what is not UTF-8 is replaced byte by byte, and a
    surrogate that has no partner by itself. *)
Fixpoint runes (l : list str_item) : list rune :=
  match l with
  | [] => []
  | IUnit u :: l1 =>
      if high_surrogate u || low_surrogate u then
        match l1 with
        | IUnit v :: l2 =>
            if high_surrogate u && low_surrogate v
            then Rune (utf8_encode (65536 + (u - 55296) * 1024 + (v - 56320))) :: runes l2
            else BadRune :: runes l1
        | _ => BadRune :: runes l1
        end
      else Rune (utf8_encode u) :: runes l1
  | IByte a :: l1 =>
      if code a <? 128 then Rune (String a "") :: runes l1
      else
        match l1 with
        | IByte b :: l2 =>
            if utf8_2 (code a) (code b) then Rune (String a (String b "")) :: runes l2
            else
              match l2 with
              | IByte c :: l3 =>
                  if utf8_3 (code a) (code b) (code c)
                  then Rune (String a (String b (String c ""))) :: runes l3
                  else
                    match l3 with
                    | IByte d :: l4 =>
                        if utf8_4 (code a) (code b) (code c) (code d)
                        then Rune (String a (String b (String c (String d "")))) :: runes l4
                        else BadRune :: runes l1
                    | _ => BadRune :: runes l1
                    end
              | _ => BadRune :: runes l1
              end
        | _ => BadRune :: runes l1
        end
  end.

Definition raw_items (s : string) : list str_item := map IByte (String.list_ascii_of_string s).

Definition replacement : string := utf8_encode 65533.
Definition rune_text (r : rune) : string := match r with Rune s => s | BadRune => replacement end.
Fixpoint concat_map {A} (f : A -> string) (l : list A) : string :=
  match l with [] => EmptyString | x :: l' => f x +:+ concat_map f l' end.

(** [strings.ToValidUTF8(s, "\ufffd")], byte by byte. *)
Definition to_valid_utf8 (s : string) : string := concat_map rune_text (runes (raw_items s)).

(** ** Reading *)

Definition is_json_space (a : ascii) : bool :=
  let n := byte_ord a in (n =? 32)%nat || (n =? 9)%nat || (n =? 10)%nat || (n =? 13)%nat.
Fixpoint skip_space (s : string) : string :=
  match s with
  | String a s' => if is_json_space a then skip_space s' else s
  | EmptyString => s
  end.

Definition hex_value (a : ascii) : option Z :=
  let c := code a in
  if between 48 c 57 then Some (c - 48)
  else if between 97 c 102 then Some (c - 87)
  else if between 65 c 70 then Some (c - 55)
  else None.
Definition hex_unit (a b c d : ascii) : option Z :=
  a ← hex_value a; b ← hex_value b; c ← hex_value c; d ← hex_value d;
  Some (a * 4096 + b * 256 + c * 16 + d).
Fixpoint skip_hex (n : nat) (s : string) : string :=
  match n, s with
  | S n', String a s' => match hex_value a with Some _ => skip_hex n' s' | None => s end
  | _, _ => s
  end.

Definition simple_escape (a : ascii) : option ascii :=
  if Ascii.eqb a dquote_chr || Ascii.eqb a backslash || Ascii.eqb a "/" then Some a
  else if Ascii.eqb a "b" then Some (byte_chr 8)
  else if Ascii.eqb a "f" then Some (byte_chr 12)
  else if Ascii.eqb a "n" then Some (byte_chr 10)
  else if Ascii.eqb a "r" then Some (byte_chr 13)
  else if Ascii.eqb a "t" then Some (byte_chr 9)
  else None.

Definition scan_cons {A} (x : A) (r : scanned (list A)) : scanned (list A) :=
  match r with
  | Scanned l rest => Scanned (x :: l) rest
  | ScanError rest context => ScanError rest context
  | ScanFuel => ScanFuel
  end.

(** A string literal, after its opening quote. *)
Fixpoint scan_string (s : string) : scanned (list str_item) :=
  match s with
  | EmptyString => ScanError s ""
  | String a s1 =>
      if Ascii.eqb a dquote_chr then Scanned [] s1
      else if Ascii.eqb a backslash then
        match s1 with
        | EmptyString => ScanError s1 ""
        | String c s2 =>
            match simple_escape c with
            | Some b => scan_cons (IByte b) (scan_string s2)
            | None =>
                if Ascii.eqb c "u" then
                  match s2 with
                  | String h1 (String h2 (String h3 (String h4 s3))) =>
                      match hex_unit h1 h2 h3 h4 with
                      | Some u => scan_cons (IUnit u) (scan_string s3)
                      | None => ScanError (skip_hex 4 s2) "in \u hexadecimal character escape"
                      end
                  | _ => ScanError (skip_hex 4 s2) "in \u hexadecimal character escape"
                  end
                else ScanError s1 "in string escape code"
            end
        end
      else if code a <? 32 then ScanError s "in string literal"
      else scan_cons (IByte a) (scan_string s1)
  end.

Definition literal_text (l : list str_item) : string := concat_map rune_text (runes l).

(** The rest of the word [word] of which [s] has already its first letter. *)
Fixpoint scan_word (word rest_of_word s : string) : scanned unit :=
  match rest_of_word, s with
  | EmptyString, _ => Scanned tt s
  | String e _, EmptyString => ScanError s ""
  | String e w', String a s' =>
      if Ascii.eqb a e then scan_word word w' s'
      else ScanError s ("in literal " +:+ word +:+ " (expecting '" +:+ String e "')")
  end.

Definition scan_map {A B} (f : A -> B) (r : scanned A) : scanned B :=
  match r with
  | Scanned x rest => Scanned (f x) rest
  | ScanError rest context => ScanError rest context
  | ScanFuel => ScanFuel
  end.

Definition maxNestingDepth : Z := 10000.

(** A value inside [depth] arrays and objects; the elements of an array from one on,
    the members of an object from a key on. *)
Fixpoint parse_value (fuel : nat) (depth : Z) (s : string) {struct fuel} : scanned json :=
  match fuel with
  | O => ScanFuel
  | S fuel' =>
      let s := skip_space s in
      match s with
      | EmptyString => ScanError s ""
      | String a s1 =>
          if Ascii.eqb a dquote_chr then scan_map (fun l => JString (literal_text l)) (scan_string s1)
          else if Ascii.eqb a "[" then
            if maxNestingDepth <? depth + 1 then ScanError s "exceeded max depth"
            else
              match skip_space s1 with
              | String c s2 =>
                  if Ascii.eqb c "]" then Scanned (JArray []) s2
                  else scan_map JArray (parse_elements fuel' (depth + 1) s1)
              | EmptyString => ScanError EmptyString ""
              end
          else if Ascii.eqb a "{" then
            if maxNestingDepth <? depth + 1 then ScanError s "exceeded max depth"
            else
              match skip_space s1 with
              | String c s2 =>
                  if Ascii.eqb c "}" then Scanned (JObject []) s2
                  else scan_map JObject (parse_members fuel' (depth + 1) s1)
              | EmptyString => ScanError EmptyString ""
              end
          else if Ascii.eqb a "t" then scan_map (fun _ => JBool true) (scan_word "true" "rue" s1)
          else if Ascii.eqb a "f" then scan_map (fun _ => JBool false) (scan_word "false" "alse" s1)
          else if Ascii.eqb a "n" then scan_map (fun _ => JNull) (scan_word "null" "ull" s1)
          else if Ascii.eqb a "-" || is_digit a
          then scan_map (fun n => JNumber (print_number n)) (scan_number s)
          else ScanError s "looking for beginning of value"
      end
  end
with parse_elements (fuel : nat) (depth : Z) (s : string) {struct fuel} : scanned (list json) :=
  match fuel with
  | O => ScanFuel
  | S fuel' =>
      match parse_value fuel' depth s with
      | Scanned v rest =>
          match skip_space rest with
          | EmptyString => ScanError EmptyString ""
          | String c s1 =>
              if Ascii.eqb c "," then scan_cons v (parse_elements fuel' depth s1)
              else if Ascii.eqb c "]" then Scanned [v] s1
              else ScanError (String c s1) "after array element"
          end
      | ScanError rest context => ScanError rest context
      | ScanFuel => ScanFuel
      end
  end
with parse_members (fuel : nat) (depth : Z) (s : string) {struct fuel} :
    scanned (list (string * json)) :=
  match fuel with
  | O => ScanFuel
  | S fuel' =>
      let s := skip_space s in
      match s with
      | EmptyString => ScanError s ""
      | String a s1 =>
          if negb (Ascii.eqb a dquote_chr)
          then ScanError s "looking for beginning of object key string"
          else
            match scan_string s1 with
            | ScanError rest context => ScanError rest context
            | ScanFuel => ScanFuel
            | Scanned key s2 =>
                match skip_space s2 with
                | EmptyString => ScanError EmptyString ""
                | String c s3 =>
                    if negb (Ascii.eqb c ":") then ScanError (String c s3) "after object key"
                    else
                      match parse_value fuel' depth s3 with
                      | Scanned v rest =>
                          match skip_space rest with
                          | EmptyString => ScanError EmptyString ""
                          | String c s4 =>
                              if Ascii.eqb c ","
                              then scan_cons (literal_text key, v) (parse_members fuel' depth s4)
                              else if Ascii.eqb c "}" then Scanned [(literal_text key, v)] s4
                              else ScanError (String c s4) "after object key:value pair"
                          end
                      | ScanError rest context => ScanError rest context
                      | ScanFuel => ScanFuel
                      end
                end
            end
      end
  end.

(** [quoteChar(c)] *)
Definition quoteChar (a : ascii) : string :=
  let quoted :=
    if Ascii.eqb a "'" then String backslash "'"
    else if Ascii.eqb a dquote_chr then dquote
    else if code a <? 128 then quote_byte a
    else if (code a <? 161) || (code a =? 173)
    then String backslash ("u00" +:+ String (hex_digit (byte_ord a / 16)) (String (hex_digit (byte_ord a mod 16)) ""))
    else utf8_encode (code a) in
  "'" +:+ quoted +:+ "'".

Definition scan_error (rest context : string) : go_error :=
  ErrNew match rest with
         | EmptyString => "unexpected EOF"
         | String a _ => "invalid character " +:+ quoteChar a +:+ " " +:+ context
         end.

(** Two calls for each byte are enough. *)
Definition json_fuel (s : string) : nat := (2 * String.length s + 1)%nat.

(** [Decoder.Decode] of the first value; what follows it is not read. *)
Definition stdjson_Decode (s : string) : result json :=
  if skip_space s =s? "" then Err (ErrNew "EOF")
  else
    match parse_value (json_fuel s) 0 s with
    | Scanned v _ => Ok v
    | ScanError rest context => Err (scan_error rest context)
    | ScanFuel => Err (ErrNew "")
    end.

(** ** Printing *)

Definition hex_escape (a : ascii) : string :=
  String backslash ("u00" +:+ String (hex_digit (byte_ord a / 16)) (String (hex_digit (byte_ord a mod 16)) "")).

(** [appendString] with [escapeHTML]. *)
Definition print_byte (a : ascii) : string :=
  let escaped c := String backslash (String c "") in
  if Ascii.eqb a dquote_chr || Ascii.eqb a backslash then escaped a
  else if Ascii.eqb a (byte_chr 8) then escaped "b"%char
  else if Ascii.eqb a (byte_chr 12) then escaped "f"%char
  else if Ascii.eqb a (byte_chr 10) then escaped "n"%char
  else if Ascii.eqb a (byte_chr 13) then escaped "r"%char
  else if Ascii.eqb a (byte_chr 9) then escaped "t"%char
  else if (code a <? 32) || Ascii.eqb a "<" || Ascii.eqb a ">" || Ascii.eqb a "&" then hex_escape a
  else String a "".
Definition print_rune (r : rune) : string :=
  match r with
  | BadRune => String backslash "ufffd"
  | Rune (String a EmptyString) => print_byte a
  | Rune s =>
      if s =s? utf8_encode 8232 then String backslash "u2028"
      else if s =s? utf8_encode 8233 then String backslash "u2029"
      else s
  end.
Definition print_string (s : string) : string :=
  dquote +:+ concat_map print_rune (runes (raw_items s)) +:+ dquote.

(** The line break before an element, with its indentation. *)
Fixpoint spaces (n : nat) : string :=
  match n with O => EmptyString | S n' => "  " +:+ spaces n' end.
Definition line_break (pretty : bool) (depth : nat) : string :=
  if pretty then newline +:+ spaces depth else "".

Fixpoint print_json (pretty : bool) (depth : nat) (j : json) : string :=
  match j with
  | JNull => "null"
  | JBool b => if b then "true" else "false"
  | JNumber literal => literal
  | JString s => print_string s
  | JArray [] => "[]"
  | JArray l =>
      "[" +:+ line_break pretty (S depth)
      +:+ Join (map (print_json pretty (S depth)) l) ("," +:+ line_break pretty (S depth))
      +:+ line_break pretty depth +:+ "]"
  | JObject [] => "{}"
  | JObject l =>
      "{" +:+ line_break pretty (S depth)
      +:+ Join (map (fun '(k, v) => print_string k +:+ ":" +:+ (if pretty then " " else "")
                                    +:+ print_json pretty (S depth) v) l)
               ("," +:+ line_break pretty (S depth))
      +:+ line_break pretty depth +:+ "}"
  end.
