(* ===== verification/JsonTextSpec.v ===== *)
(** * JSON texts round trip

    What [print_json] prints, indented or not, is read back as the tree it was printed
    from, its strings made UTF-8; reading ends on every text within its fuel. *)
From S2P Require Import Prelude GoStrings Float64 FloatText JsonText.

(** ** Characters *)

(** A character of a text of Go: what [runes] finds in bytes. *)
Definition raw_rune (r : rune) : Prop :=
  match r with
  | BadRune => True
  | Rune (String a EmptyString) => code a < 128
  | Rune (String a (String b EmptyString)) => utf8_2 (code a) (code b) = true
  | Rune (String a (String b (String c EmptyString))) => utf8_3 (code a) (code b) (code c) = true
  | Rune (String a (String b (String c (String d EmptyString)))) =>
      utf8_4 (code a) (code b) (code c) (code d) = true
  | _ => False
  end.

Lemma between_spec lo a hi : between lo a hi = true <-> lo <= a <= hi.
Proof. unfold between. rewrite andb_true_iff, !Z.leb_le. lia. Qed.

Lemma runes_raw l : Forall raw_rune (runes (map IByte l)).
Proof.
  remember (length l) as n eqn:Hn. revert l Hn.
  induction n as [n IH] using lt_wf_ind. intros l ->.
  destruct l as [|a l1]; [constructor|]. cbn [map runes].
  assert (H1 : Forall raw_rune (runes (map IByte l1))) by (eapply IH; [|reflexivity]; cbn; lia).
  destruct (Z.ltb_spec (code a) 128); [by constructor|].
  destruct l1 as [|b l2]; [by constructor|]. cbn [map] in *.
  destruct (utf8_2 (code a) (code b)) eqn:H2.
  { constructor; [done|]. eapply IH; [|reflexivity]; cbn; lia. }
  destruct l2 as [|c l3]; [by constructor|]. cbn [map] in *.
  destruct (utf8_3 (code a) (code b) (code c)) eqn:H3.
  { constructor; [done|]. eapply IH; [|reflexivity]; cbn; lia. }
  destruct l3 as [|d l4]; [by constructor|]. cbn [map] in *.
  destruct (utf8_4 (code a) (code b) (code c) (code d)) eqn:H4; [|by constructor].
  constructor; [done|]. eapply IH; [|reflexivity]; cbn; lia.
Qed.

(** The first byte decides the length. *)
Lemma utf8_2_lead a b : utf8_2 a b = true -> 194 <= a <= 223 /\ 128 <= b.
Proof. unfold utf8_2. rewrite andb_true_iff, !between_spec. lia. Qed.
Lemma utf8_3_lead a b c : utf8_3 a b c = true -> 224 <= a <= 239 /\ 128 <= b /\ 128 <= c.
Proof. unfold utf8_3. rewrite !andb_true_iff, !between_spec. destruct (a =? 224); lia. Qed.
Lemma utf8_4_lead a b c d : utf8_4 a b c d = true -> 240 <= a <= 244 /\ 128 <= b /\ 128 <= c /\ 128 <= d.
Proof. unfold utf8_4. rewrite !andb_true_iff, !between_spec. destruct (a =? 240); lia. Qed.

Lemma utf8_2_false a b : 224 <= a -> utf8_2 a b = false.
Proof. intros H. apply not_true_iff_false. intros []%utf8_2_lead. lia. Qed.
Lemma utf8_3_false a b c : 240 <= a -> utf8_3 a b c = false.
Proof. intros H. apply not_true_iff_false. intros []%utf8_3_lead. lia. Qed.

(** The items a character is printed as. *)
Definition byte_item (a : ascii) : str_item :=
  if (code a <? 32) || Ascii.eqb a "<" || Ascii.eqb a ">" || Ascii.eqb a "&"
  then if bool_decide (byte_ord a ∈ [8%nat; 9%nat; 10%nat; 12%nat; 13%nat]) then IByte a else IUnit (code a)
  else IByte a.
Definition rune_items (r : rune) : list str_item :=
  match r with
  | BadRune => [IUnit 65533]
  | Rune (String a EmptyString) => [byte_item a]
  | Rune s => if s =s? utf8_encode 8232 then [IUnit 8232]
              else if s =s? utf8_encode 8233 then [IUnit 8233] else raw_items s
  end.

Definition scan_app {A} (l : list A) (r : scanned (list A)) : scanned (list A) :=
  foldr scan_cons r l.

Lemma scan_print_byte a s :
  scan_string (print_byte a +:+ s) = scan_cons (byte_item a) (scan_string s).
Proof. destruct a as [[] [] [] [] [] [] [] []]; reflexivity. Qed.

Lemma scan_high_byte a s : 128 <= code a -> scan_string (String a s) = scan_cons (IByte a) (scan_string s).
Proof.
  intros Ha. cbn [scan_string].
  rewrite (proj2 (Ascii.eqb_neq a dquote_chr)) by (intros ->; vm_compute in Ha; by apply Ha).
  rewrite (proj2 (Ascii.eqb_neq a backslash)) by (intros ->; vm_compute in Ha; by apply Ha).
  by rewrite (proj2 (Z.ltb_ge _ _)) by lia.
Qed.

Lemma scan_print_rune r s :
  raw_rune r -> scan_string (print_rune r +:+ s) = scan_app (rune_items r) (scan_string s).
Proof.
  destruct r as [[|a [|b [|c [|d [|e t]]]]]|]; cbn [raw_rune]; intros Hr; try done.
  - apply scan_print_byte.
  - apply utf8_2_lead in Hr. cbn [print_rune rune_items].
    rewrite !(proj2 (String.eqb_neq _ _)) by done.
    cbn [String.append]. rewrite !scan_high_byte by lia. done.
  - apply utf8_3_lead in Hr. cbn [print_rune rune_items].
    destruct (_ =s? utf8_encode 8232); [done|]. destruct (_ =s? utf8_encode 8233); [done|].
    cbn [String.append]. rewrite !scan_high_byte by lia. done.
  - apply utf8_4_lead in Hr. cbn [print_rune rune_items].
    rewrite !(proj2 (String.eqb_neq _ _)) by done.
    cbn [String.append]. rewrite !scan_high_byte by lia. done.
Qed.

Lemma runes_byte_item a l : code a < 128 -> runes (byte_item a :: l) = Rune (String a "") :: runes l.
Proof.
  intros Ha. assert (Hb : byte_item a = IByte a \/ byte_item a = IUnit (code a))
    by (unfold byte_item; repeat case_match; auto).
  destruct Hb as [-> | ->]; cbn [runes].
  - by rewrite (proj2 (Z.ltb_lt _ _)).
  - assert (Hs : high_surrogate (code a) || low_surrogate (code a) = false).
    { apply orb_false_iff. unfold high_surrogate, low_surrogate, between.
      split; apply andb_false_iff; left; apply Z.leb_gt; lia. }
    rewrite Hs. unfold utf8_encode. rewrite (proj2 (Z.ltb_lt _ _)) by done.
    unfold byte_of, code. by rewrite Nat2Z.id, byte_chr_ord.
Qed.

(** Read back, a printed character is itself, or the replacement of what is none. *)
Lemma runes_rune_items r l :
  raw_rune r -> runes (rune_items r ++ l) = Rune (rune_text r) :: runes l.
Proof.
  destruct r as [[|a [|b [|c [|d [|e t]]]]]|]; cbn [raw_rune]; intros Hr; try done.
  - by apply runes_byte_item.
  - pose proof (utf8_2_lead _ _ Hr). cbn [rune_items].
    rewrite !(proj2 (String.eqb_neq _ _)) by done. cbn [raw_items String.list_ascii_of_string map app runes].
    rewrite (proj2 (Z.ltb_ge _ _)) by lia. by rewrite Hr.
  - pose proof (utf8_3_lead _ _ _ Hr). cbn [rune_items].
    destruct (String.eqb_spec (String a (String b (String c ""))) (utf8_encode 8232)) as [->|_]; [done|].
    destruct (String.eqb_spec (String a (String b (String c ""))) (utf8_encode 8233)) as [->|_]; [done|].
    cbn [raw_items String.list_ascii_of_string map app runes].
    rewrite (proj2 (Z.ltb_ge _ _)) by lia. by rewrite utf8_2_false, Hr by lia.
  - pose proof (utf8_4_lead _ _ _ _ Hr). cbn [rune_items].
    rewrite !(proj2 (String.eqb_neq _ _)) by done. cbn [raw_items String.list_ascii_of_string map app runes].
    rewrite (proj2 (Z.ltb_ge _ _)) by lia. by rewrite utf8_2_false, utf8_3_false, Hr by lia.
Qed.

(** A printed string is read back, made UTF-8. *)
Lemma scan_print_runes l s :
  Forall raw_rune l ->
  exists items, scan_string (concat_map print_rune l +:+ String dquote_chr s) = Scanned items s
    /\ literal_text items = concat_map rune_text l.
Proof.
  induction 1 as [|r l Hr _ (items & Hs & Ht)].
  - exists []. done.
  - exists (rune_items r ++ items). cbn [concat_map]. rewrite string_app_assoc, scan_print_rune, Hs by done.
    split.
    + generalize (rune_items r). intros ri. induction ri as [|i ri IH]; cbn; [done|].
      unfold scan_app in IH. by rewrite IH.
    + unfold literal_text in *. rewrite runes_rune_items by done. cbn [concat_map rune_text]. by rewrite Ht.
Qed.

Lemma scan_print_string s rest :
  exists items, print_string s +:+ rest = String dquote_chr (concat_map print_rune (runes (raw_items s)) +:+ String dquote_chr rest)
    /\ scan_string (concat_map print_rune (runes (raw_items s)) +:+ String dquote_chr rest) = Scanned items rest
    /\ literal_text items = to_valid_utf8 s.
Proof.
  destruct (scan_print_runes (runes (raw_items s)) rest (runes_raw _)) as (items & Hs & Ht).
  exists items. split; [|done]. unfold print_string, dquote. cbn [String.append].
  by rewrite string_app_assoc.
Qed.

(** ** Trees *)

Section JsonInduction.
  Context (P : json -> Prop) (Hnull : P JNull) (Hbool : forall b, P (JBool b))
    (Hnumber : forall s, P (JNumber s)) (Hstring : forall s, P (JString s))
    (Harray : forall l, Forall P l -> P (JArray l))
    (Hobject : forall l, Forall (fun kv => P kv.2) l -> P (JObject l)).

Fixpoint json_induction (j : json) : P j :=
  match j with
  | JNull => Hnull
  | JBool b => Hbool b
  | JNumber s => Hnumber s
  | JString s => Hstring s
  | JArray l =>
      Harray l ((fix go l := match l return Forall P l with
                             | [] => Forall_nil_2 _
                             | v :: l' => Forall_cons_2 _ _ _ (json_induction v) (go l')
                             end) l)
  | JObject l =>
      Hobject l ((fix go l := match l return Forall (fun kv => P kv.2) l with
                              | [] => Forall_nil_2 _
                              | kv :: l' => Forall_cons_2 _ _ _ (json_induction kv.2) (go l')
                              end) l)
  end.
End JsonInduction.

(** The trees that have a text: their numbers are literals, and they are not nested
    deeper than a reader admits. *)
Definition number_literal (s : string) : bool :=
  match scan_number s with Scanned _ EmptyString => true | _ => false end.
Fixpoint json_valid (depth : Z) (j : json) : bool :=
  match j with
  | JNumber literal => number_literal literal
  | JArray l => (depth + 1 <=? maxNestingDepth) && forallb (json_valid (depth + 1)) l
  | JObject l => (depth + 1 <=? maxNestingDepth) && forallb (fun kv => json_valid (depth + 1) kv.2) l
  | _ => true
  end.

(** The tree with its strings made UTF-8. *)
Fixpoint json_utf8 (j : json) : json :=
  match j with
  | JString s => JString (to_valid_utf8 s)
  | JArray l => JArray (map json_utf8 l)
  | JObject l => JObject (map (fun kv => (to_valid_utf8 kv.1, json_utf8 kv.2)) l)
  | _ => j
  end.

Lemma skip_space_line_break pretty d s : skip_space (line_break pretty d +:+ s) = skip_space s.
Proof.
  destruct pretty; [|done]. unfold line_break. cbn.
  induction d as [|d IH]; [done|]. cbn. apply IH.
Qed.

Lemma skip_space_idem s : skip_space (skip_space s) = skip_space s.
Proof.
  induction s as [|a s IH]; [done|]. cbn. destruct (is_json_space a) eqn:E; [done|].
  cbn. by rewrite E.
Qed.

Lemma parse_value_skip fuel d s s' :
  skip_space s = skip_space s' -> parse_value fuel d s = parse_value fuel d s'.
Proof. intros Hs. destruct fuel as [|fuel]; [done|]. cbn [parse_value]. by rewrite Hs. Qed.
Lemma parse_members_skip fuel d s s' :
  skip_space s = skip_space s' -> parse_members fuel d s = parse_members fuel d s'.
Proof. intros Hs. destruct fuel as [|fuel]; [done|]. cbn [parse_members]. by rewrite Hs. Qed.
Lemma parse_elements_skip fuel d s s' :
  skip_space s = skip_space s' -> parse_elements fuel d s = parse_elements fuel d s'.
Proof.
  intros Hs. destruct fuel as [|fuel]; [done|]. cbn [parse_elements].
  by rewrite (parse_value_skip _ _ s s').
Qed.

(** What follows a value inside an array or an object. *)
Lemma stops_line_break pretty d c s :
  number_stops (String c s) = true -> number_stops (line_break pretty d +:+ String c s) = true.
Proof. by destruct pretty. Qed.

Lemma number_literal_spec s :
  number_literal s = true -> exists n, scan_number s = Scanned n "" /\ s = print_number n /\ number_wf n = true.
Proof.
  unfold number_literal. destruct (scan_number s) as [n [|]| |] eqn:E; try done. intros _.
  exists n. destruct (scan_number_sound _ _ _ E) as [Hwf Hs]. by rewrite string_app_nil_r in Hs.
Qed.

(** A text starts with a character that is no space and closes nothing. *)
Definition opens (s : string) : Prop :=
  exists a t, s = String a t /\ is_json_space a = false /\ Ascii.eqb a "]" = false /\ Ascii.eqb a "}" = false.

Lemma number_head n : number_wf n = true ->
  exists a t, print_number n = String a t /\ (a = "-"%char \/ is_digit a = true).
Proof.
  rewrite print_number_eq. unfold number_wf, integer_wf.
  intros [[[Hd _]%andb_true_iff _]%andb_true_iff _]%andb_true_iff.
  destruct (digits_wf_cons _ Hd) as (a & ds & -> & Ha & _).
  destruct (npNegative n); cbn [String.append]; eauto.
Qed.

Lemma digit_opens a : a = "-"%char \/ is_digit a = true ->
  is_json_space a = false /\ Ascii.eqb a "]" = false /\ Ascii.eqb a "}" = false
  /\ Ascii.eqb a dquote_chr = false /\ Ascii.eqb a "[" = false /\ Ascii.eqb a "{" = false
  /\ Ascii.eqb a "t" = false /\ Ascii.eqb a "f" = false /\ Ascii.eqb a "n" = false.
Proof.
  intros [-> | Ha]; [done|]. split; [|split_and!; by apply digit_not].
  unfold is_json_space. unfold is_digit in Ha. apply andb_true_iff in Ha as [Ha%Nat.leb_le _].
  rewrite !orb_false_iff, !Nat.eqb_neq. lia.
Qed.

Lemma print_json_opens pretty k d j : json_valid d j = true -> opens (print_json pretty k j).
Proof.
  destruct j as [|[]|s|s|[|]|[|]]; intros Hv; try (eexists _, _; split_and!; reflexivity).
  - destruct (number_literal_spec s Hv) as (n & _ & -> & Hwf). cbn [print_json].
    destruct (number_head n Hwf) as (a & t & -> & Ha). exists a, t.
    destruct (digit_opens a Ha) as (? & ? & ? & _). done.
Qed.

Lemma opens_app s t : opens s -> opens (s +:+ t).
Proof. intros (a & u & -> & Ha). exists a, (u +:+ t). done. Qed.
Lemma opens_skip s : opens s -> skip_space s = s.
Proof. intros (a & u & -> & Ha & _). cbn. by rewrite Ha. Qed.

(** ** Reading what is printed *)

Definition reads {A} (f : nat -> scanned A) (x : A) (rest : string) : Prop :=
  exists n, forall fuel, (n <= fuel)%nat -> f fuel = Scanned x rest.

(** Anything may follow a value, but a number must end where its text does. *)
Definition follows (j : json) (rest : string) : bool :=
  match j with JNumber _ => number_stops rest | _ => true end.
Lemma stops_follows j rest : number_stops rest = true -> follows j rest = true.
Proof. by destruct j. Qed.

Definition value_reads (d : Z) (j : json) : Prop :=
  forall pretty k rest, json_valid d j = true -> follows j rest = true ->
  reads (fun fuel => parse_value fuel d (print_json pretty k j +:+ rest)) (json_utf8 j) rest.

Lemma reads_elements pretty k k' d l rest :
  l <> [] -> Forall (value_reads d) l -> forallb (json_valid d) l = true ->
  reads (fun fuel => parse_elements fuel d
           (Join (map (print_json pretty k) l) ("," +:+ line_break pretty k)
            +:+ line_break pretty k' +:+ String "]" rest)) (map json_utf8 l) rest.
Proof.
  intros Hne Hr Hv. induction Hr as [|v l Hrv _ IH]; [done|].
  cbn [forallb] in Hv. apply andb_true_iff in Hv as [Hv Hvl].
  destruct l as [|w l].
  - destruct (Hrv pretty k (line_break pretty k' +:+ String "]" rest) Hv) as [n Hn];
      [by apply stops_follows, stops_line_break|].
    exists (S n). intros [|fuel] Hfuel; [lia|]. cbn [parse_elements map Join].
    rewrite Hn by lia. by rewrite skip_space_line_break.
  - destruct (IH ltac:(done) Hvl) as [n2 Hn2].
    cbn [map] in *. cbn [Join]. set (tail := Join _ _) in *.
    destruct (Hrv pretty k ("," +:+ line_break pretty k +:+ tail +:+ line_break pretty k' +:+ String "]" rest) Hv ltac:(by apply stops_follows)) as [n1 Hn1].
    exists (S (n1 + n2)). intros [|fuel] Hfuel; [lia|]. cbn [parse_elements].
    rewrite !string_app_assoc, Hn1 by lia. cbn [String.append skip_space].
    change (is_json_space ",") with false. cbn match. rewrite Ascii_eqb_refl.
    rewrite (parse_elements_skip _ _ _ (tail +:+ line_break pretty k' +:+ String "]" rest))
      by apply skip_space_line_break.
    rewrite Hn2 by lia. done.
Qed.

Definition print_member (pretty : bool) (k : nat) : string * json -> string :=
  fun '(key, v) => print_string key +:+ ":" +:+ (if pretty then " " else "") +:+ print_json pretty k v.
Definition member_utf8 (kv : string * json) : string * json := (to_valid_utf8 kv.1, json_utf8 kv.2).

(** One member, up to what follows its value. *)
Lemma parse_member pretty k d key v rest n fuel :
  (forall fuel, (n <= fuel)%nat -> parse_value fuel d (print_json pretty k v +:+ rest) = Scanned (json_utf8 v) rest) ->
  (n <= fuel)%nat ->
  parse_members (S fuel) d (print_member pretty k (key, v) +:+ rest)
  = match skip_space rest with
    | EmptyString => ScanError EmptyString ""
    | String c s4 =>
        if Ascii.eqb c "," then scan_cons (to_valid_utf8 key, json_utf8 v) (parse_members fuel d s4)
        else if Ascii.eqb c "}" then Scanned [(to_valid_utf8 key, json_utf8 v)] s4
        else ScanError (String c s4) "after object key:value pair"
    end.
Proof.
  intros Hn Hfuel. unfold print_member. rewrite !string_app_assoc.
  destruct (scan_print_string key (":" +:+ (if pretty then " " else "") +:+ print_json pretty k v +:+ rest))
    as (items & -> & Hs & Ht).
  cbn [parse_members skip_space]. change (is_json_space dquote_chr) with false. cbn match.
  rewrite Ascii_eqb_refl. cbn [negb]. rewrite Hs. cbn [String.append skip_space].
  change (is_json_space ":") with false. cbn match. rewrite Ascii_eqb_refl. cbn [negb].
  rewrite (parse_value_skip _ _ _ (print_json pretty k v +:+ rest)) by (by destruct pretty).
  by rewrite Hn, Ht by lia.
Qed.

Lemma reads_members pretty k k' d l rest :
  l <> [] -> Forall (fun kv => value_reads d kv.2) l -> forallb (fun kv => json_valid d kv.2) l = true ->
  reads (fun fuel => parse_members fuel d
           (Join (map (print_member pretty k) l) ("," +:+ line_break pretty k)
            +:+ line_break pretty k' +:+ String "}" rest)) (map member_utf8 l) rest.
Proof.
  intros Hne Hr Hv. induction Hr as [|[key v] l Hrv _ IH]; [done|]. cbn [snd] in Hrv.
  cbn [forallb snd] in Hv. apply andb_true_iff in Hv as [Hv Hvl].
  destruct l as [|w l].
  - destruct (Hrv pretty k (line_break pretty k' +:+ String "}" rest) Hv) as [n Hn];
      [by apply stops_follows, stops_line_break|].
    exists (S n). intros [|fuel] Hfuel; [lia|]. cbn [map Join].
    rewrite (parse_member _ _ _ _ _ _ n) by (done || lia). by rewrite skip_space_line_break.
  - destruct (IH ltac:(done) Hvl) as [n2 Hn2].
    cbn [map] in *. cbn [Join]. set (tail := Join _ _) in *.
    destruct (Hrv pretty k ("," +:+ line_break pretty k +:+ tail +:+ line_break pretty k' +:+ String "}" rest) Hv ltac:(by apply stops_follows)) as [n1 Hn1].
    exists (S (n1 + n2)). intros [|fuel] Hfuel; [lia|].
    rewrite !string_app_assoc, (parse_member _ _ _ _ _ _ n1) by (done || lia). cbn [String.append skip_space].
    change (is_json_space ",") with false. cbn match. rewrite Ascii_eqb_refl.
    rewrite (parse_members_skip _ _ _ (tail +:+ line_break pretty k' +:+ String "}" rest))
      by apply skip_space_line_break.
    rewrite Hn2 by lia. done.
Qed.

Lemma reads_map {A B} (g : A -> B) (f : nat -> scanned A) x rest :
  reads f x rest -> reads (fun fuel => scan_map g (f fuel)) (g x) rest.
Proof. intros [n Hn]. exists n. intros fuel Hf. by rewrite Hn. Qed.
Lemma reads_step {A} (f g : nat -> scanned A) x rest :
  (forall fuel, f (S fuel) = g fuel) -> reads g x rest -> reads f x rest.
Proof. intros Hfg [n Hn]. exists (S n). intros [|fuel] Hf; [lia|]. rewrite Hfg. apply Hn. lia. Qed.

(** The first element of an array does not close it, nor the first member an object. *)
Lemma join_opens pretty k d l sep tail :
  l <> [] -> forallb (json_valid d) l = true -> opens (Join (map (print_json pretty k) l) sep +:+ tail).
Proof.
  destruct l as [|v l]; [done|]. cbn [forallb map]. intros _ [Hv _]%andb_true_iff.
  apply opens_app. destruct l as [|w l]; [by eapply print_json_opens|].
  cbn [map Join]. apply opens_app. by eapply print_json_opens.
Qed.
Lemma join_members_opens pretty k l sep tail :
  l <> [] -> opens (Join (map (print_member pretty k) l) sep +:+ tail).
Proof.
  destruct l as [|[key v] l]; [done|]. intros _.
  destruct l as [|w l]; (eexists _, _; split_and!; reflexivity).
Qed.

Lemma value_reads_array d l : Forall (value_reads (d + 1)) l -> value_reads d (JArray l).
Proof.
  intros Hl pretty k rest Hv Hs. cbn [json_valid] in Hv. apply andb_true_iff in Hv as [Hd%Z.leb_le Hv].
  assert (Hdepth : (maxNestingDepth <? d + 1) = false) by by apply Z.ltb_ge.
  destruct l as [|v l].
  - exists 1%nat. intros [|fuel] Hf; [lia|]. cbn. by rewrite Hdepth.
  - pose proof (reads_elements pretty (S k) k (d + 1) (v :: l) rest ltac:(done) Hl Hv) as Hr.
    cbn [json_utf8]. eapply reads_step; [|exact (reads_map JArray _ _ _ Hr)]. intros fuel.
    cbn [print_json]. rewrite !string_app_assoc.
    pose proof (join_opens pretty (S k) (d + 1) (v :: l) ("," +:+ line_break pretty (S k))
      (line_break pretty k +:+ String "]" rest) ltac:(done) Hv) as Ho.
    change ("]" +:+ rest) with (String "]" rest). set (inner := Join _ _ +:+ _) in *.
    cbn [parse_value String.append skip_space]. change (is_json_space "[") with false. cbn match.
    change (Ascii.eqb "[" dquote_chr) with false. rewrite Ascii_eqb_refl, Hdepth, skip_space_line_break.
    rewrite (opens_skip _ Ho). rewrite (parse_elements_skip _ _ _ _ (skip_space_line_break _ _ _)).
    destruct Ho as (a & t & -> & _ & -> & _). done.
Qed.

Lemma value_reads_object d l :
  Forall (fun kv => value_reads (d + 1) kv.2) l -> value_reads d (JObject l).
Proof.
  intros Hl pretty k rest Hv Hs. cbn [json_valid] in Hv. apply andb_true_iff in Hv as [Hd%Z.leb_le Hv].
  assert (Hdepth : (maxNestingDepth <? d + 1) = false) by by apply Z.ltb_ge.
  destruct l as [|v l].
  - exists 1%nat. intros [|fuel] Hf; [lia|]. cbn. by rewrite Hdepth.
  - pose proof (reads_members pretty (S k) k (d + 1) (v :: l) rest ltac:(done) Hl Hv) as Hr.
    cbn [json_utf8]. eapply reads_step; [|exact (reads_map JObject _ _ _ Hr)]. intros fuel.
    change (print_json pretty k (JObject (v :: l))) with
      ("{" +:+ line_break pretty (S k) +:+ Join (map (print_member pretty (S k)) (v :: l)) ("," +:+ line_break pretty (S k))
       +:+ line_break pretty k +:+ "}").
    rewrite !string_app_assoc.
    pose proof (join_members_opens pretty (S k) (v :: l) ("," +:+ line_break pretty (S k))
      (line_break pretty k +:+ String "}" rest) ltac:(done)) as Ho.
    change ("}" +:+ rest) with (String "}" rest). set (inner := Join _ _ +:+ _) in *.
    cbn [parse_value String.append skip_space]. change (is_json_space "{") with false. cbn match.
    change (Ascii.eqb "{" dquote_chr) with false. change (Ascii.eqb "{" "[") with false.
    rewrite Ascii_eqb_refl, Hdepth, skip_space_line_break.
    rewrite (opens_skip _ Ho). rewrite (parse_members_skip _ _ _ _ (skip_space_line_break _ _ _)).
    destruct Ho as (a & t & -> & _ & _ & ->). done.
Qed.

Lemma value_reads_all d j : value_reads d j.
Proof.
  revert d. induction j as [|b|lit|s|l IH|l IH] using json_induction; intros d pretty k rest Hv Hs.
  - exists 1%nat. intros [|fuel] Hf; [lia|]. done.
  - exists 1%nat. intros [|fuel] Hf; [lia|]. by destruct b.
  - destruct (number_literal_spec lit Hv) as (n & _ & -> & Hwf).
    exists 1%nat. intros [|fuel] Hf; [lia|]. cbn [print_json json_utf8].
    pose proof (scan_number_print n rest Hwf Hs) as Hscan.
    destruct (number_head n Hwf) as (a & t & Ht & Ha). rewrite Ht in *. cbn [String.append] in *.
    destruct (digit_opens a Ha) as (H1 & _ & _ & H2 & H3 & H4 & H5 & H6 & H7).
    cbn [parse_value skip_space]. rewrite H1, H2, H3, H4, H5, H6, H7, Hscan.
    assert (Ascii.eqb a "-" || is_digit a = true) as ->
      by (apply orb_true_iff; destruct Ha as [->|Ha]; [by left|by right]).
    cbn [scan_map]. by rewrite Ht.
  - exists 1%nat. intros [|fuel] Hf; [lia|]. cbn [print_json json_utf8].
    destruct (scan_print_string s rest) as (items & -> & Hscan & Ht).
    cbn [parse_value skip_space]. change (is_json_space dquote_chr) with false. cbn match.
    rewrite Ascii_eqb_refl, Hscan. cbn [scan_map]. by rewrite Ht.
  - apply value_reads_array; [|done|done]. eapply Forall_impl; [exact IH|]. naive_solver.
  - apply value_reads_object; [|done|done]. eapply Forall_impl; [exact IH|]. naive_solver.
Qed.

(** ** Enough fuel *)

Lemma skip_space_length s : (String.length (skip_space s) <= String.length s)%nat.
Proof. induction s as [|a s IH]; cbn; [done|]. destruct (is_json_space a); cbn; lia. Qed.

Lemma scan_string_length s l r : scan_string s = Scanned l r -> (String.length r < String.length s)%nat.
Proof.
  remember (String.length s) as n eqn:Hn. revert s l r Hn.
  induction n as [n IH] using lt_wf_ind. intros s l r ->.
  assert (Hcons : forall i s', (String.length s' < String.length s)%nat ->
            scan_cons i (scan_string s') = Scanned l r -> (String.length r < String.length s)%nat).
  { intros i s' Hl Hc. destruct (scan_string s') as [l' r'| |] eqn:E; try done. injection Hc as _ <-.
    specialize (IH _ Hl s' l' r' eq_refl E). lia. }
  destruct s as [|a s1]; [done|]. cbn [scan_string].
  destruct (Ascii.eqb a dquote_chr); [intros [= _ <-]; cbn; lia|].
  destruct (Ascii.eqb a backslash).
  - destruct s1 as [|c s2]; [done|]. destruct (simple_escape c); [apply Hcons; cbn; lia|].
    destruct (Ascii.eqb c "u"); [|done]. destruct s2 as [|h1 [|h2 [|h3 [|h4 s3]]]]; try done.
    destruct (hex_unit h1 h2 h3 h4); [apply Hcons; cbn; lia|done].
  - destruct (code a <? 32); [done|]. apply Hcons. cbn; lia.
Qed.

Lemma scan_string_fuel s : scan_string s <> ScanFuel.
Proof.
  remember (String.length s) as n eqn:Hn. revert s Hn.
  induction n as [n IH] using lt_wf_ind. intros s ->.
  assert (Hcons : forall i s', (String.length s' < String.length s)%nat ->
            scan_cons i (scan_string s') <> ScanFuel).
  { intros i s' Hl. specialize (IH _ Hl s' eq_refl). by destruct (scan_string s'). }
  destruct s as [|a s1]; [done|]. cbn [scan_string].
  destruct (Ascii.eqb a dquote_chr); [done|]. destruct (Ascii.eqb a backslash).
  - destruct s1 as [|c s2]; [done|]. destruct (simple_escape c); [apply Hcons; cbn; lia|].
    destruct (Ascii.eqb c "u"); [|done]. destruct s2 as [|h1 [|h2 [|h3 [|h4 s3]]]]; try done.
    destruct (hex_unit h1 h2 h3 h4); [apply Hcons; cbn; lia|done].
  - destruct (code a <? 32); [done|]. apply Hcons. cbn; lia.
Qed.

(** More fuel changes nothing once there was enough. *)
Definition settled {A} (f : nat -> scanned A) (n : nat) : Prop :=
  forall m, m = S n -> f n <> ScanFuel -> f m = f n.

Lemma parse_settled n :
  (forall d s, settled (fun fuel => parse_value fuel d s) n)
  /\ (forall d s, settled (fun fuel => parse_elements fuel d s) n)
  /\ (forall d s, settled (fun fuel => parse_members fuel d s) n).
Proof.
  unfold settled. induction n as [|n (IHv & IHe & IHm)]; [done|].
  split_and!; intros d s [|m] [= Hm].
  - cbn [parse_value]. set (s' := skip_space s). destruct s' as [|a s1] eqn:Es; [done|]. cbn zeta.
    repeat (match goal with |- context [if ?c then _ else _] => destruct c end; try done).
    + destruct (skip_space s1) as [|c s2]; [done|]. destruct (Ascii.eqb c "]"); [done|].
      intros H. rewrite (IHe _ _ m); [done|done|]. intros E. by rewrite E in H.
    + destruct (skip_space s1) as [|c s2]; [done|]. destruct (Ascii.eqb c "}"); [done|].
      intros H. rewrite (IHm _ _ m); [done|done|]. intros E. by rewrite E in H.
  - cbn [parse_elements]. intros H.
    rewrite (IHv d s m Hm) by (intros E; by rewrite E in H).
    destruct (parse_value n d s) as [v rest| |]; try done.
    destruct (skip_space rest) as [|c s1]; [done|]. destruct (Ascii.eqb c ","); [|done].
    rewrite (IHe _ _ m); [done|done|]. intros E. by rewrite E in H.
  - cbn [parse_members]. destruct (skip_space s) as [|a s1]; [done|]. cbn zeta.
    destruct (negb _); [done|]. destruct (scan_string s1) as [key s2| |]; try done.
    destruct (skip_space s2) as [|c s3]; [done|]. destruct (negb _); [done|]. intros H.
    rewrite (IHv d s3 m Hm) by (intros E; by rewrite E in H).
    destruct (parse_value n d s3) as [v rest| |]; try done.
    destruct (skip_space rest) as [|c' s4]; [done|]. destruct (Ascii.eqb c' ","); [|done].
    rewrite (IHm _ _ m); [done|done|]. intros E. by rewrite E in H.
Qed.

Lemma settled_le {A} (f : nat -> scanned A) n m :
  (forall n, settled f n) -> (n <= m)%nat -> f n <> ScanFuel -> f m = f n.
Proof.
  intros Hs Hle Hn. induction Hle as [|m Hle IH]; [done|]. rewrite <- IH.
  apply (Hs m); [done|]. by rewrite IH.
Qed.

(** A scanner that never runs out and always reads something. *)
Definition progresses {A} (r : scanned A) (s : string) : Prop :=
  r <> ScanFuel /\ forall x rest, r = Scanned x rest -> (String.length rest < String.length s)%nat.

Lemma progresses_map {A B} (f : A -> B) r s s' :
  progresses r s -> (String.length s <= String.length s')%nat -> progresses (scan_map f r) s'.
Proof.
  intros [Hn Hs] Hl. split; [by destruct r|]. intros x rest. destruct r as [y r| |]; try done.
  intros [= _ <-]. specialize (Hs y r eq_refl). lia.
Qed.
Lemma progresses_cons {A} (x : A) r s s' :
  progresses r s -> (String.length s <= String.length s')%nat -> progresses (scan_cons x r) s'.
Proof.
  intros [Hn Hs] Hl. split; [by destruct r|]. intros y rest. destruct r as [l r| |]; try done.
  intros [= _ <-]. specialize (Hs l r eq_refl). lia.
Qed.
Lemma progresses_done {A} (x : A) r s : (String.length r < String.length s)%nat -> progresses (Scanned x r) s.
Proof. intros Hl. split; [done|]. by intros ? ? [= _ <-]. Qed.
Lemma progresses_error {A} r c s : progresses (@ScanError A r c) s.
Proof. by split. Qed.

Lemma progresses_string s : progresses (scan_string s) s.
Proof. split; [apply scan_string_fuel|]. apply scan_string_length. Qed.
Lemma progresses_word {A} (x : A) w l s a : progresses (scan_map (fun _ => x) (scan_word w l s)) (String a s).
Proof.
  revert s. assert (Hw : forall s, scan_word w l s <> ScanFuel
    /\ forall u r, scan_word w l s = Scanned u r -> (String.length r <= String.length s)%nat).
  { induction l as [|e l IH]; intros s; cbn; [split; [done|]; by intros u r [= _ <-]|].
    destruct s as [|b s]; [done|]. destruct (Ascii.eqb b e); [|done]. destruct (IH s) as [H1 H2].
    split; [done|]. intros u r Hr. cbn. specialize (H2 u r Hr). lia. }
  intros s. destruct (Hw s) as [H1 H2]. split; [by destruct (scan_word w l s)|]. intros y rest.
  destruct (scan_word w l s) as [u r| |]; try done. intros [= _ <-]. cbn. specialize (H2 u r eq_refl). lia.
Qed.
Lemma scan_number_fuel s : scan_number s <> ScanFuel.
Proof.
  unfold scan_number, scan_integer, scan_fraction, scan_exponent.
  repeat (case_match; simplify_eq); done.
Qed.

Lemma scan_number_progresses s : progresses (scan_number s) s.
Proof.
  split; [apply scan_number_fuel|]. intros n r H.
  destruct (scan_number_sound _ _ _ H) as [Hwf ->]. rewrite string_length_app.
  destruct (number_head n Hwf) as (a & t & -> & _). cbn. lia.
Qed.

(** After an element: the closing character or the next element. *)
Lemma progresses_rest {A} rest s (k : ascii -> string -> scanned A) :
  (String.length rest < String.length s)%nat ->
  (forall c s1, (String.length s1 < String.length rest)%nat -> progresses (k c s1) s) ->
  progresses (match skip_space rest with
              | EmptyString => ScanError EmptyString ""
              | String c s1 => k c s1
              end) s.
Proof.
  intros Hr Hk. pose proof (skip_space_length rest) as Hl.
  destruct (skip_space rest) as [|c s1]; [apply progresses_error|]. apply Hk. cbn in Hl. lia.
Qed.

Lemma parse_progresses n :
  (forall d s, (2 * String.length s + 1 <= n)%nat -> progresses (parse_value n d s) s)
  /\ (forall d s, (2 * String.length s + 2 <= n)%nat -> progresses (parse_elements n d s) s)
  /\ (forall d s, (2 * String.length s + 2 <= n)%nat -> progresses (parse_members n d s) s).
Proof.
  induction n as [|n (IHv & IHe & IHm)]; [split_and!; lia|].
  split_and!; intros d s Hn; pose proof (skip_space_length s) as Hl.
  - cbn [parse_value]. cbn zeta. destruct (skip_space s) as [|a s1] eqn:Es; [apply progresses_error|].
    cbn [String.length] in Hl. pose proof (skip_space_length s1) as Hl1.
    destruct (Ascii.eqb a dquote_chr); [eapply progresses_map; [apply progresses_string|lia]|].
    destruct (Ascii.eqb a "["); [|destruct (Ascii.eqb a "{")].
    + destruct (_ <? _); [apply progresses_error|].
      destruct (skip_space s1) as [|c s2]; [apply progresses_error|]. cbn [String.length] in Hl1.
      destruct (Ascii.eqb c "]"); [apply progresses_done; lia|].
      eapply progresses_map; [apply IHe; lia|lia].
    + destruct (_ <? _); [apply progresses_error|].
      destruct (skip_space s1) as [|c s2]; [apply progresses_error|]. cbn [String.length] in Hl1.
      destruct (Ascii.eqb c "}"); [apply progresses_done; lia|].
      eapply progresses_map; [apply IHm; lia|lia].
    + assert (Hw : forall (x : json) w l, progresses (scan_map (fun _ => x) (scan_word w l s1)) s).
      { intros x w l. destruct (progresses_word x w l s1 a) as [H1 H2]. split; [done|].
        intros y r Hr. specialize (H2 y r Hr). cbn [String.length] in H2. lia. }
      repeat (match goal with |- context [if ?c then _ else _] => destruct c end; try apply Hw).
      * eapply progresses_map; [apply scan_number_progresses|cbn [String.length]; lia].
      * apply progresses_error.
  - cbn [parse_elements]. destruct (IHv d s ltac:(lia)) as [Hf Hs].
    destruct (parse_value n d s) as [v rest| |]; [|apply progresses_error|done].
    specialize (Hs v rest eq_refl).
    apply progresses_rest; [done|]. intros c s1 Hs1.
    destruct (Ascii.eqb c ","); [eapply progresses_cons; [apply IHe; lia|lia]|].
    destruct (Ascii.eqb c "]"); [apply progresses_done; lia|apply progresses_error].
  - cbn [parse_members]. cbn zeta. destruct (skip_space s) as [|a s1]; [apply progresses_error|].
    cbn [String.length] in Hl. destruct (negb _); [apply progresses_error|].
    destruct (progresses_string s1) as [Hf Hs]. destruct (scan_string s1) as [key s2| |]; [|apply progresses_error|done].
    specialize (Hs key s2 eq_refl).
    apply progresses_rest; [lia|]. intros c s3 Hs3.
    destruct (negb _); [apply progresses_error|].
    destruct (IHv d s3 ltac:(lia)) as [Hf' Hs']. destruct (parse_value n d s3) as [v rest| |]; [|apply progresses_error|done].
    specialize (Hs' v rest eq_refl).
    apply progresses_rest; [lia|]. intros c' s4 Hs4.
    destruct (Ascii.eqb c' ","); [eapply progresses_cons; [apply IHm; lia|lia]|].
    destruct (Ascii.eqb c' "}"); [apply progresses_done; lia|apply progresses_error].
Qed.

Lemma parse_value_fuel d s : parse_value (json_fuel s) d s <> ScanFuel.
Proof. by apply parse_progresses. Qed.

(** Whatever the text, [Decode] answers with a value or with an error of the text. *)
Lemma Decode_answers s : exists r, parse_value (json_fuel s) 0 s = r /\ r <> ScanFuel.
Proof. eexists. split; [done|]. apply parse_value_fuel. Qed.

(** A value read at some fuel is the one [Decode] reads. *)
Lemma reads_Decode s j rest :
  reads (fun fuel => parse_value fuel 0 s) j rest -> stdjson_Decode s = Ok j.
Proof.
  intros [n Hn]. set (m := Nat.max n (json_fuel s)).
  assert (Hm : parse_value (json_fuel s) 0 s = Scanned j rest).
  { rewrite <- (Hn m) by lia. symmetry.
    apply (settled_le (fun fuel => parse_value fuel 0 s)); [|lia|apply parse_value_fuel].
    intros k. apply parse_settled. }
  unfold stdjson_Decode. rewrite Hm.
  destruct (String.eqb_spec (skip_space s) "") as [E|_]; [|done].
  unfold json_fuel in Hm. rewrite Nat.add_1_r in Hm. cbn [parse_value] in Hm. rewrite E in Hm. done.
Qed.

(** The round trip: what is printed, whether indented or not, and whatever follows it,
    is read back as the tree with its strings made UTF-8. *)
Lemma Decode_print pretty j rest :
  json_valid 0 j = true -> follows j rest = true ->
  stdjson_Decode (print_json pretty 0 j +:+ rest) = Ok (json_utf8 j).
Proof. intros Hv Hs. eapply reads_Decode. by apply value_reads_all. Qed.

(** ** Text that is UTF-8 is kept *)

Definition is_rune (r : rune) : bool := match r with Rune _ => true | BadRune => false end.
Definition valid_utf8 (s : string) : bool := forallb is_rune (runes (raw_items s)).

Lemma concat_runes l :
  forallb is_rune (runes (map IByte l)) = true ->
  concat_map rune_text (runes (map IByte l)) = String.string_of_list_ascii l.
Proof.
  remember (length l) as n eqn:Hn. revert l Hn.
  induction n as [n IH] using lt_wf_ind. intros l ->.
  assert (IHl : forall l', (length l' < length l)%nat -> forallb is_rune (runes (map IByte l')) = true ->
    concat_map rune_text (runes (map IByte l')) = String.string_of_list_ascii l')
    by (intros l' Hl; by eapply IH).
  destruct l as [|a l1]; [done|]. cbn [map runes].
  destruct (code a <? 128); [cbn; intros H; rewrite IHl; [done|cbn; lia|done]|].
  destruct l1 as [|b l2]; [done|]. cbn [map].
  destruct (utf8_2 _ _); [cbn; intros H; rewrite IHl; [done|cbn; lia|done]|].
  destruct l2 as [|c l3]; [done|]. cbn [map].
  destruct (utf8_3 _ _ _); [cbn; intros H; rewrite IHl; [done|cbn; lia|done]|].
  destruct l3 as [|d l4]; [done|]. cbn [map].
  destruct (utf8_4 _ _ _ _); [cbn; intros H; rewrite IHl; [done|cbn; lia|done]|done].
Qed.

Lemma to_valid_utf8_id s : valid_utf8 s = true -> to_valid_utf8 s = s.
Proof.
  unfold valid_utf8, to_valid_utf8, raw_items. intros H.
  rewrite concat_runes by done. apply String.string_of_list_ascii_of_string.
Qed.

Fixpoint json_text_utf8 (j : json) : bool :=
  match j with
  | JString s => valid_utf8 s
  | JArray l => forallb json_text_utf8 l
  | JObject l => forallb (fun kv => valid_utf8 kv.1 && json_text_utf8 kv.2) l
  | _ => true
  end.

Lemma json_utf8_id j : json_text_utf8 j = true -> json_utf8 j = j.
Proof.
  induction j as [|b|lit|s|l IH|l IH] using json_induction; cbn [json_utf8 json_text_utf8]; intros Hj; try done.
  - by rewrite to_valid_utf8_id.
  - f_equal. induction IH as [|v l Hv _ IH]; [done|]. cbn in Hj |- *.
    apply andb_true_iff in Hj as [H1 H2]. by rewrite Hv, IH.
  - f_equal. induction IH as [|[k v] l Hv _ IH]; [done|]. cbn [forallb map fst snd] in Hj, Hv |- *.
    apply andb_true_iff in Hj as [[H0 H1]%andb_true_iff H2].
    rewrite to_valid_utf8_id, Hv, IH by done. done.
Qed.
