(* ===== verification/Base64.v ===== *)
(** * Byte encodings of the Go standard library: [encoding/base64], [encoding/hex]

    [base64.StdEncoding] and [hex] as the server uses them on blobs: the alphabet,
    encoding, and decoding with the decoder's own rules on padding and newlines, and
    the byte offsets of its errors.  Decoding inverts encoding. *)
From S2P Require Import Prelude GoStrings.
From Stdlib Require Import ZifyNat.

(** ** Base64 *)

Definition b64_alphabet : string :=
  "ABCDEFGHIJKLMNOPQRSTUVWXYZabcdefghijklmnopqrstuvwxyz0123456789+/".

Definition b64_chr (v : nat) : ascii :=
  default (byte_chr 0) (String.get v b64_alphabet).

(** The value of a byte of the alphabet. *)
Definition b64_val (a : ascii) : option nat :=
  let n := byte_ord a in
  (if (65 <=? n) && (n <=? 90) then Some (n - 65)
   else if (97 <=? n) && (n <=? 122) then Some (n - 71)
   else if (48 <=? n) && (n <=? 57) then Some (n + 4)
   else if n =? 43 then Some 62
   else if n =? 47 then Some 63
   else None)%nat.

Definition pad : ascii := byte_chr 61.
Definition is_newline (a : ascii) : bool :=
  Ascii.eqb a (byte_chr 10) || Ascii.eqb a (byte_chr 13).

(** The sextets of one, two and three bytes. *)
Definition sextets3 (a b c : ascii) : nat * nat * nat * nat :=
  let '(x, y, z) := (byte_ord a, byte_ord b, byte_ord c) in
  (x / 4, (x mod 4) * 16 + y / 16, (y mod 16) * 4 + z / 64, z mod 64)%nat.

(** [StdEncoding.EncodeToString(src)] *)
Fixpoint EncodeToString (src : string) : string :=
  match src with
  | EmptyString => ""
  | String a EmptyString =>
      let '(s0, s1, _, _) := sextets3 a (byte_chr 0) (byte_chr 0) in
      String (b64_chr s0) (String (b64_chr s1) (String pad (String pad "")))
  | String a (String b EmptyString) =>
      let '(s0, s1, s2, _) := sextets3 a b (byte_chr 0) in
      String (b64_chr s0) (String (b64_chr s1) (String (b64_chr s2) (String pad "")))
  | String a (String b (String c src')) =>
      let '(s0, s1, s2, s3) := sextets3 a b c in
      String (b64_chr s0) (String (b64_chr s1) (String (b64_chr s2) (String (b64_chr s3)
        (EncodeToString src'))))
  end.

(** The bytes of a quantum of two, three or four sextets; leftover bits are ignored. *)
Definition quantum_bytes (q : list nat) : string :=
  (match q with
   | [s0; s1] => String (byte_chr (s0 * 4 + s1 / 16)) ""
   | [s0; s1; s2] =>
       String (byte_chr (s0 * 4 + s1 / 16)) (String (byte_chr (s1 mod 16 * 16 + s2 / 4)) "")
   | [s0; s1; s2; s3] =>
       String (byte_chr (s0 * 4 + s1 / 16)) (String (byte_chr (s1 mod 16 * 16 + s2 / 4))
         (String (byte_chr (s2 mod 4 * 64 + s3)) ""))
   | _ => ""
   end)%nat.

Definition CorruptInputError (offset : Z) : go_error :=
  ErrNew ("illegal base64 data at input byte " +:+ print_int offset).

(** Skip newlines, counting them. *)
Fixpoint skip_newlines (s : string) (si : Z) : string * Z :=
  match s with
  | String a s' => if is_newline a then skip_newlines s' (si + 1) else (s, si)
  | EmptyString => (s, si)
  end.

(** What may follow the first padding byte, at offset [si], of a quantum of [j]
    sextets. *)
Definition after_padding (q : list nat) (s : string) (si : Z) : result string :=
  let finish (s : string) (si : Z) :=
    match skip_newlines s si with
    | (EmptyString, _) => Ok (quantum_bytes q)
    | (_, si') => Err (CorruptInputError si')
    end in
  match length q with
  | O | 1%nat => Err (CorruptInputError (si - 1))
  | 2%nat =>
      match skip_newlines s si with
      | (EmptyString, si') => Err (CorruptInputError si')
      | (String a s', si') =>
          if Ascii.eqb a pad then finish s' (si' + 1) else Err (CorruptInputError (si' - 1))
      end
  | _ => finish s si
  end.

(** [decodeQuantum] over the whole input: [q] is the quantum being read, [si] the
    offset of [s]. *)
Fixpoint decode_from (q : list nat) (s : string) (si : Z) : result string :=
  match s with
  | EmptyString =>
      match q with
      | [] => Ok ""
      | _ => Err (CorruptInputError (si - Z.of_nat (length q)))
      end
  | String a s' =>
      match b64_val a with
      | Some v =>
          if (length q =? 3)%nat then
            match decode_from [] s' (si + 1) with
            | Ok rest => Ok (quantum_bytes (q ++ [v]) +:+ rest)
            | Err e => Err e
            end
          else decode_from (q ++ [v]) s' (si + 1)
      | None =>
          if is_newline a then decode_from q s' (si + 1)
          else if Ascii.eqb a pad then after_padding q s' (si + 1)
          else Err (CorruptInputError si)
      end
  end.

(** [StdEncoding.DecodeString(s)] *)
Definition DecodeString (s : string) : result string := decode_from [] s 0.

(** ** Hexadecimal *)

Definition hex_val (a : ascii) : option nat :=
  let n := byte_ord a in
  (if (48 <=? n) && (n <=? 57) then Some (n - 48)
   else if (97 <=? n) && (n <=? 102) then Some (n - 87)
   else if (65 <=? n) && (n <=? 70) then Some (n - 55)
   else None)%nat.
Definition hex_chr (v : nat) : ascii :=
  byte_chr (if (v <? 10)%nat then v + 48 else v + 87)%nat.

(** [fmt.Sprintf("%x", bytes)] *)
Fixpoint hex_encode (s : string) : string :=
  match s with
  | EmptyString => ""
  | String a s' =>
      String (hex_chr (byte_ord a / 16)) (String (hex_chr (byte_ord a mod 16)) (hex_encode s'))
  end.

(** [hex.DecodeString(s)]; its callers only ask whether it failed. *)
Fixpoint hex_decode (s : string) : option string :=
  match s with
  | EmptyString => Some ""
  | String a (String b s') =>
      match hex_val a, hex_val b, hex_decode s' with
      | Some x, Some y, Some rest => Some (String (byte_chr (x * 16 + y)) rest)
      | _, _, _ => None
      end
  | String _ EmptyString => None
  end.

(** ** Lemmas *)

Lemma string_ind3 (P : string -> Prop) :
  P "" -> (forall a, P (String a "")) -> (forall a b, P (String a (String b ""))) ->
  (forall a b c s, P s -> P (String a (String b (String c s)))) ->
  forall s, P s.
Proof.
  intros H0 H1 H2 H3. fix IH 1. intros [|a [|b [|c s]]]; [done|done|done|]. apply H3, IH.
Qed.

(** Checks of a property of the small numbers, by computation. *)
Fixpoint below (n : nat) (P : nat -> bool) : bool :=
  match n with O => true | S n' => P n' && below n' P end.
Lemma below_spec n P v : below n P = true -> (v < n)%nat -> P v = true.
Proof.
  induction n as [|n IH]; cbn; [lia|]. intros [H1 H2]%andb_true_iff Hv.
  destruct (decide (v = n)) as [->|]; [done|]. apply IH; [done|lia].
Qed.

Lemma b64_val_chr v : (v < 64)%nat -> b64_val (b64_chr v) = Some v.
Proof.
  intros Hv.
  pose proof (below_spec 64 (fun v => match b64_val (b64_chr v) with
    | Some w => (w =? v)%nat | None => false end) v ltac:(vm_compute; reflexivity) Hv) as H.
  cbv beta in H. destruct (b64_val (b64_chr v)); [|done]. apply Nat.eqb_eq in H. by subst.
Qed.

Lemma hex_val_chr v : (v < 16)%nat -> hex_val (hex_chr v) = Some v.
Proof.
  intros Hv.
  pose proof (below_spec 16 (fun v => match hex_val (hex_chr v) with
    | Some w => (w =? v)%nat | None => false end) v ltac:(vm_compute; reflexivity) Hv) as H.
  cbv beta in H. destruct (hex_val (hex_chr v)); [|done]. apply Nat.eqb_eq in H. by subst.
Qed.

Ltac nat_div := Zify.zify; Z.to_euclidean_division_equations; lia.

Lemma byte_chr_eq n a : n = byte_ord a -> byte_chr n = a.
Proof. intros ->. apply byte_chr_ord. Qed.

Lemma decode_chr q v s si :
  (v < 64)%nat -> (length q < 3)%nat ->
  decode_from q (String (b64_chr v) s) si = decode_from (q ++ [v]) s (si + 1).
Proof.
  intros Hv Hq. cbn [decode_from]. rewrite b64_val_chr by done.
  destruct (Nat.eqb_spec (length q) 3); [lia|done].
Qed.

Lemma decode_chr_last q v s si :
  (v < 64)%nat -> length q = 3%nat ->
  decode_from q (String (b64_chr v) s) si
  = match decode_from [] s (si + 1) with
    | Ok rest => Ok (quantum_bytes (q ++ [v]) +:+ rest)
    | Err e => Err e
    end.
Proof. intros Hv Hq. cbn [decode_from]. rewrite b64_val_chr by done. by rewrite Hq. Qed.

Lemma decode_encode s si : decode_from [] (EncodeToString s) si = Ok s.
Proof.
  revert si. induction s as [|a|a b|a b c s IH] using string_ind3; intros si; [done|..];
    cbn [EncodeToString sextets3];
    try (pose proof (byte_ord_lt a) as Ha); try (pose proof (byte_ord_lt b) as Hb);
    try (pose proof (byte_ord_lt c) as Hc).
  - change (byte_ord (byte_chr 0)) with 0%nat.
    rewrite decode_chr by (cbn [length]; nat_div). cbn [app].
    rewrite decode_chr by (cbn [length]; nat_div). cbn -[Nat.div Nat.modulo Nat.mul].
    f_equal. f_equal. apply byte_chr_eq. nat_div.
  - change (byte_ord (byte_chr 0)) with 0%nat.
    rewrite decode_chr by (cbn [length]; nat_div). cbn [app].
    rewrite decode_chr by (cbn [length]; nat_div). cbn [app].
    rewrite decode_chr by (cbn [length]; nat_div). cbn -[Nat.div Nat.modulo Nat.mul].
    f_equal. f_equal; [apply byte_chr_eq; nat_div|]. f_equal. apply byte_chr_eq. nat_div.
  - rewrite decode_chr by (cbn [length]; nat_div). cbn [app].
    rewrite decode_chr by (cbn [length]; nat_div). cbn [app].
    rewrite decode_chr by (cbn [length]; nat_div). cbn [app].
    rewrite decode_chr_last by (cbn [length]; nat_div). rewrite IH.
    cbn -[Nat.div Nat.modulo Nat.mul]. f_equal.
    f_equal; [apply byte_chr_eq; nat_div|]. f_equal; [apply byte_chr_eq; nat_div|].
    f_equal. apply byte_chr_eq. nat_div.
Qed.

(** Decoding inverts encoding, for base64 and for hexadecimal. *)
Lemma DecodeString_EncodeToString s : DecodeString (EncodeToString s) = Ok s.
Proof. apply decode_encode. Qed.

Lemma hex_decode_encode s : hex_decode (hex_encode s) = Some s.
Proof.
  induction s as [|a s IH]; [done|]. cbn [hex_encode hex_decode].
  pose proof (byte_ord_lt a) as Ha.
  rewrite !hex_val_chr by nat_div. rewrite IH. f_equal. f_equal. apply byte_chr_eq. nat_div.
Qed.

Lemma hex_encode_inj s1 s2 : hex_encode s1 = hex_encode s2 -> s1 = s2.
Proof. intros H. apply (f_equal hex_decode) in H. rewrite !hex_decode_encode in H. by injection H. Qed.

#[export] Hint Rewrite DecodeString_EncodeToString hex_decode_encode : go_strings.
