(* ===== verification/Sha256.v ===== *)
(** * SHA-256, as [crypto/sha256] computes it

    [Sum256] on byte strings: padding, message schedule and compression on 32-bit
    words kept as integers below [2^32]. *)
From S2P Require Import Prelude GoStrings Base64.

Definition w32 (z : Z) : Z := z mod 2 ^ 32.
Definition rotr (n x : Z) : Z := Z.lor (Z.shiftr x n) (w32 (Z.shiftl x (32 - n))).
Definition xor3 (a b c : Z) : Z := Z.lxor a (Z.lxor b c).
Definition small_sigma0 (x : Z) : Z := xor3 (rotr 7 x) (rotr 18 x) (Z.shiftr x 3).
Definition small_sigma1 (x : Z) : Z := xor3 (rotr 17 x) (rotr 19 x) (Z.shiftr x 10).
Definition big_sigma0 (x : Z) : Z := xor3 (rotr 2 x) (rotr 13 x) (rotr 22 x).
Definition big_sigma1 (x : Z) : Z := xor3 (rotr 6 x) (rotr 11 x) (rotr 25 x).
Definition choose (x y z : Z) : Z := Z.lxor z (Z.land x (Z.lxor y z)).
Definition majority (x y z : Z) : Z := Z.lor (Z.land x y) (Z.land z (Z.lor x y)).

(** The round constants and the initial state. *)
Definition sha_k : list Z :=
  [1116352408; 1899447441; 3049323471; 3921009573; 961987163; 1508970993;
   2453635748; 2870763221; 3624381080; 310598401; 607225278; 1426881987;
   1925078388; 2162078206; 2614888103; 3248222580; 3835390401; 4022224774;
   264347078; 604807628; 770255983; 1249150122; 1555081692; 1996064986;
   2554220882; 2821834349; 2952996808; 3210313671; 3336571891; 3584528711;
   113926993; 338241895; 666307205; 773529912; 1294757372; 1396182291;
   1695183700; 1986661051; 2177026350; 2456956037; 2730485921; 2820302411;
   3259730800; 3345764771; 3516065817; 3600352804; 4094571909; 275423344;
   430227734; 506948616; 659060556; 883997877; 958139571; 1322822218;
   1537002063; 1747873779; 1955562222; 2024104815; 2227730452; 2361852424;
   2428436474; 2756734187; 3204031479; 3329325298].
Definition sha_init : list Z :=
  [1779033703; 3144134277; 1013904242; 2773480762; 1359893119; 2600822924; 528734635; 1541459225].

(** Big-endian words. *)
Fixpoint be_bytes (n : nat) (z : Z) : list Z :=
  match n with O => [] | S n' => be_bytes n' (z / 256) ++ [z mod 256] end.
Fixpoint be_words (l : list Z) : list Z :=
  match l with
  | a :: b :: c :: d :: l' => (((a * 256 + b) * 256 + c) * 256 + d) :: be_words l'
  | _ => []
  end.

(** The message, a one bit, zeros, and the length in bits, in 64-byte blocks. *)
Definition sha_pad (msg : list Z) : list Z :=
  let n := length msg in
  let zeros := ((119 - n mod 64) mod 64)%nat in
  msg ++ [128] ++ repeat 0 zeros ++ be_bytes 8 (8 * Z.of_nat n).

(** The schedule, last word first: sixteen words of the block, then 48 more. *)
Fixpoint sha_schedule (n : nat) (rev_w : list Z) : list Z :=
  match n with
  | O => rev_w
  | S n' =>
      let w i := nth i rev_w 0 in
      sha_schedule n'
        (w32 (small_sigma1 (w 1%nat) + w 6%nat + small_sigma0 (w 14%nat) + w 15%nat) :: rev_w)
  end.

Definition sha_round (st : list Z) (kw : Z * Z) : list Z :=
  match st with
  | [a; b; c; d; e; f; g; h] =>
      let t1 := h + big_sigma1 e + choose e f g + fst kw + snd kw in
      let t2 := big_sigma0 a + majority a b c in
      [w32 (t1 + t2); a; b; c; w32 (d + t1); e; f; g]
  | _ => st
  end.

Definition sha_block (st : list Z) (block : list Z) : list Z :=
  let w := rev (sha_schedule 48 (rev (be_words block))) in
  zip_with (fun x y => w32 (x + y)) st (fold_left sha_round (combine sha_k w) st).

Fixpoint sha_blocks (fuel : nat) (st : list Z) (l : list Z) : list Z :=
  match fuel, l with
  | S fuel', _ :: _ => sha_blocks fuel' (sha_block st (take 64 l)) (drop 64 l)
  | _, _ => st
  end.

Definition bytes_of_string (s : string) : list Z :=
  map (fun a => Z.of_nat (byte_ord a)) (String.list_ascii_of_string s).
Definition string_of_bytes (l : list Z) : string :=
  String.string_of_list_ascii (map (fun z => byte_chr (Z.to_nat z)) l).

(** [sha256.Sum256(data)]; there are no more blocks than bytes in the padded message. *)
Definition Sum256 (data : string) : string :=
  let padded := sha_pad (bytes_of_string data) in
  string_of_bytes (flat_map (be_bytes 4) (sha_blocks (length padded) sha_init padded)).

(** The first two test vectors of FIPS 180, and a message of two blocks. *)
Example Sum256_empty : hex_encode (Sum256 "") =
  "e3b0c44298fc1c149afbf4c8996fb92427ae41e4649b934ca495991b7852b855".
Proof. vm_compute. reflexivity. Qed.
Example Sum256_abc : hex_encode (Sum256 "abc") =
  "ba7816bf8f01cfea414140de5dae2223b00361a396177a9cb410ff61f20015ad".
Proof. vm_compute. reflexivity. Qed.
Example Sum256_two_blocks :
  hex_encode (Sum256 "abcdbcdecdefdefgefghfghighijhijkijkljklmklmnlmnomnopnopq") =
  "248d6a61d20638b8e5c026930c3e6039a33ce45964ff2167f6ecedd419db06c1".
Proof. vm_compute. reflexivity. Qed.
