(* ===== verification/Goroutines.v ===== *)
(** * Goroutines over shared state

    A Go function that touches shared state is a [prog]: a tree of effects, one
    node per operation that other goroutines can observe, with plain Rocq
    functions in between.  The same tree is used three ways: [run] executes one
    goroutine alone, [gstep] interleaves any number of them, and [wp] is the
    weakest precondition of a typestate discipline, whose soundness for every
    interleaving is [reachable_typed]. *)
From S2P Require Import Prelude.

(** ** Programs *)

Inductive prog (E : Type -> Type) (A : Type) : Type :=
| Ret (a : A)
| Vis {B : Type} (e : E B) (k : B -> prog E A).
Arguments Ret {E A} a.
Arguments Vis {E A B} e k.

Fixpoint prog_bind {E A B} (f : A -> prog E B) (p : prog E A) : prog E B :=
  match p with
  | Ret a => f a
  | Vis e k => Vis e (fun b => prog_bind f (k b))
  end.

#[export] Instance prog_ret E : MRet (prog E) := @Ret E.
#[export] Instance prog_mbind E : MBind (prog E) := fun A B f p => prog_bind f p.

(** One effect. *)
Definition act {E B} (e : E B) : prog E B := Vis e Ret.

(** [defer fin()] placed before [body]: [fin] runs on every return of [body]. *)
Definition deferred {E A} (body : prog E A) (fin : prog E unit) : prog E A :=
  prog_bind (fun r => prog_bind (fun _ => Ret r) fin) body.

(** Go's short-circuit on an error: [if err != nil { return ..., wrap(err) }]. *)
Definition try_bind {E A B} (wrap : go_error -> go_error) (p : prog E (result A))
    (f : A -> prog E (result B)) : prog E (result B) :=
  prog_bind (fun r => match r with Ok a => f a | Err e => Ret (Err (wrap e)) end) p.

(** ** One goroutine alone *)

Inductive outcome (S A : Type) : Type :=
| Done (a : A) (s : S)
| Blocked (s : S).
Arguments Done {S A} a s.
Arguments Blocked {S A} s.

Section Run.
  Context {E : Type -> Type} {S : Type}.
  (** An effect in a state: its answer and the next state, or [None] when the
      goroutine has to wait. *)
  Context (handle : forall B, E B -> S -> option (B * S)).

Fixpoint run {A} (p : prog E A) (s : S) : outcome S A :=
  match p with
  | Ret a => Done a s
  | Vis e k =>
      match handle _ e s with
      | Some (b, s') => run (k b) s'
      | None => Blocked s
      end
  end.

(** The goroutine's next step. *)
Definition pstep {A} (p : prog E A) (s : S) : option (prog E A * S) :=
  match p with
  | Ret _ => None
  | Vis e k =>
      match handle _ e s with
      | Some (b, s') => Some (k b, s')
      | None => None
      end
  end.

Definition finished {A} (p : prog E A) : bool :=
  match p with Ret _ => true | Vis _ _ => false end.
End Run.

(** ** Any number of goroutines *)

(** The shared state and the goroutines, each with the request it serves. *)
Record config (S T E : Type) : Type := Config { shared : S; goroutines : list (T * E) }.
Arguments Config {S T E} shared goroutines.
Arguments shared {S T E} c.
Arguments goroutines {S T E} c.

Section Interleaving.
  Context {E : Type -> Type} {S T R : Type}.
  Context (handle : forall B, E B -> S -> option (B * S)).
  (** The programs that may be started, and what happens outside the process. *)
  Context (spawnable : T -> prog E R -> Prop) (env : S -> S -> Prop).

Inductive gstep : config S T (prog E R) -> config S T (prog E R) -> Prop :=
| gstep_run s s' gs i t p p' :
    gs !! i = Some (t, p) ->
    pstep handle p s = Some (p', s') ->
    gstep (Config s gs) (Config s' (<[i := (t, p')]> gs))
| gstep_spawn s gs t p :
    spawnable t p ->
    gstep (Config s gs) (Config s (gs ++ [(t, p)]))
| gstep_env s s' gs :
    env s s' ->
    gstep (Config s gs) (Config s' gs).

Inductive reachable (init : config S T (prog E R) -> Prop) : config S T (prog E R) -> Prop :=
| reach_init c : init c -> reachable init c
| reach_step c c' : reachable init c -> gstep c c' -> reachable init c'.
End Interleaving.

(** ** Typestates

    A typestate [L] is what one goroutine knows between two of its steps (the
    locks it holds, the connection it has).  [pre] is what an effect needs,
    [post] what its answer is known to satisfy, [upd] how the typestate changes. *)
Section Typestate.
  Context {E : Type -> Type} {S T L : Type}.
  Context (pre : L -> forall B, E B -> Prop).
  Context (post : forall B, E B -> B -> Prop).
  Context (upd : L -> forall B, E B -> B -> L).

Fixpoint wp {A} (l : L) (p : prog E A) (Q : L -> A -> Prop) : Prop :=
  match p with
  | Ret a => Q l a
  | Vis e k => pre l _ e /\ forall b, post _ e b -> wp (upd l _ e b) (k b) Q
  end.

Lemma wp_mono {A} l (p : prog E A) (Q Q' : L -> A -> Prop) :
  (forall l' a, Q l' a -> Q' l' a) -> wp l p Q -> wp l p Q'.
Proof.
  intros HQ. revert l. induction p as [a|B e k IH]; cbn; intros l H.
  - by apply HQ.
  - destruct H as [Hpre Hk]. split; [done|]. intros b Hb. apply IH, Hk, Hb.
Qed.

Lemma wp_bind {A B} l (p : prog E A) (f : A -> prog E B) Q :
  wp l p (fun l' a => wp l' (f a) Q) -> wp l (prog_bind f p) Q.
Proof.
  revert l. induction p as [a|B' e k IH]; cbn; intros l H; [done|].
  destruct H as [Hpre Hk]. split; [done|]. intros b Hb. apply IH, Hk, Hb.
Qed.

Lemma wp_ret {A} l (a : A) (Q : L -> A -> Prop) : Q l a -> wp l (Ret a) Q.
Proof. done. Qed.

Lemma wp_vis {A B} l (e : E B) (k : B -> prog E A) (Q : L -> A -> Prop) :
  pre l _ e -> (forall b, post _ e b -> wp (upd l _ e b) (k b) Q) -> wp l (Vis e k) Q.
Proof. intros Hp HQ. cbn. by split. Qed.

Lemma wp_act {B} l (e : E B) (Q : L -> B -> Prop) :
  pre l _ e -> (forall b, post _ e b -> Q (upd l _ e b) b) -> wp l (act e) Q.
Proof. intros Hp HQ. cbn. by split. Qed.

Lemma wp_deferred {A} l (body : prog E A) fin Q :
  wp l body (fun l' a => wp l' fin (fun l'' _ => Q l'' a)) ->
  wp l (deferred body fin) Q.
Proof.
  intros H. apply wp_bind. eapply wp_mono; [|exact H].
  intros l' a Ha. cbn. by apply wp_bind.
Qed.

Lemma wp_try {A B} l wrap (p : prog E (result A)) (f : A -> prog E (result B)) Q :
  wp l p (fun l' r => match r with
                      | Ok a => wp l' (f a) Q
                      | Err e => Q l' (Err (wrap e))
                      end) ->
  wp l (try_bind wrap p f) Q.
Proof.
  intros H. apply wp_bind. eapply wp_mono; [|exact H].
  intros l' [a|e]; cbn; done.
Qed.

  (** Soundness: the invariant relates the shared state to the typestates of all
      goroutines. *)
  Context {R : Type}.
  Context (handle : forall B, E B -> S -> option (B * S)).
  Context (spawnable : T -> prog E R -> Prop) (env : S -> S -> Prop).
  Context (init : config S T (prog E R) -> Prop).
  Context (Inv : S -> list L -> Prop) (start : T -> L) (final : L -> R -> Prop).
  Hypothesis env_inv : forall s s' ls, env s s' -> Inv s ls -> Inv s' ls.
  Hypothesis spawn_inv : forall s ls t p, spawnable t p -> Inv s ls -> Inv s (ls ++ [start t]).
  Hypothesis spawn_wp : forall t p, spawnable t p -> wp (start t) p final.
  Hypothesis effect_inv : forall B (e : E B) b s s' ls i l,
    Inv s ls -> ls !! i = Some l -> pre l _ e -> handle _ e s = Some (b, s') ->
    post _ e b /\ Inv s' (<[i := upd l _ e b]> ls).

  (** The typestates of a configuration; [tag] is the request a typestate is for. *)
  Context (tag : L -> T).
Definition typed (c : config S T (prog E R)) (ls : list L) : Prop :=
  Inv (shared c) ls
  /\ Forall2 (fun l tp => tag l = fst tp /\ wp l (snd tp) final) ls (goroutines c).
  Hypothesis init_typed : forall c, init c -> exists ls, typed c ls.
  Hypothesis start_tag : forall t, tag (start t) = t.
  Hypothesis upd_tag : forall l B (e : E B) b, tag (upd l _ e b) = tag l.

Lemma gstep_typed c c' ls :
  typed c ls -> gstep handle spawnable env c c' -> exists ls', typed c' ls'.
Proof using env_inv spawn_inv spawn_wp effect_inv start_tag upd_tag.
  intros [HI Hall] Hstep. destruct Hstep as [s s' gs i t p p' Hi Hp|s gs t p Hsp|s s' gs He].
  - destruct (Forall2_lookup_r _ _ _ _ _ Hall Hi) as (l & Hl & Ht & Hw). cbn in Ht, Hw, HI.
    destruct p as [a|B e k]; cbn in Hp; [done|]. cbn in Hw. destruct Hw as [Hpre Hk].
    destruct (handle B e s) as [[b s'']|] eqn:Eh; [|done]. injection Hp as <- <-.
    destruct (effect_inv _ _ _ _ _ _ _ _ HI Hl Hpre Eh) as [Hpost HI'].
    exists (<[i := upd l _ e b]> ls). split; [done|]. cbn.
    apply Forall2_insert; [done|]. cbn. rewrite upd_tag. split; [done | by apply Hk].
  - exists (ls ++ [start t]). split; [by eapply spawn_inv|]. cbn.
    apply Forall2_app; [done|]. constructor; [|constructor].
    split; [apply start_tag | by apply spawn_wp].
  - exists ls. split; [by eapply env_inv | done].
Qed.

(** Every reachable configuration is typed. *)
Lemma reachable_typed c :
  reachable handle spawnable env init c -> exists ls, typed c ls.
Proof using init_typed env_inv spawn_inv spawn_wp effect_inv start_tag upd_tag.
  induction 1 as [c Hc|c c' _ [ls Hty] Hstep].
  - by apply init_typed.
  - by eapply gstep_typed.
Qed.
End Typestate.

(** ** Lemmas on running one goroutine *)

Lemma run_bind {E S A B} (h : forall X, E X -> S -> option (X * S))
    (p : prog E A) (f : A -> prog E B) s :
  run h (prog_bind f p) s =
  match run h p s with Done a s' => run h (f a) s' | Blocked s' => Blocked s' end.
Proof.
  revert s. induction p as [a|X e k IH]; cbn; intros s; [done|].
  destruct (h X e s) as [[b s']|]; [apply IH | done].
Qed.

Lemma run_deferred {E S A} (h : forall X, E X -> S -> option (X * S))
    (body : prog E A) fin s :
  run h (deferred body fin) s =
  match run h body s with
  | Done a s' => match run h fin s' with Done _ s'' => Done a s'' | Blocked s'' => Blocked s'' end
  | Blocked s' => Blocked s'
  end.
Proof.
  unfold deferred. rewrite run_bind. destruct (run h body s); [|done].
  by rewrite run_bind.
Qed.

Lemma run_act_bind {E S A B} (h : forall X, E X -> S -> option (X * S))
    (e : E B) (f : B -> prog E A) s :
  run h (prog_bind f (act e)) s =
  match h B e s with Some (b, s') => run h (f b) s' | None => Blocked s end.
Proof. done. Qed.

(** A goroutine that runs alone to the end is a sequence of its steps. *)
Lemma run_done_steps {E S A} (h : forall X, E X -> S -> option (X * S))
    (p : prog E A) s a s' :
  run h p s = Done a s' ->
  rtc (fun x y => pstep h (fst x) (snd x) = Some y) (p, s) (Ret a, s').
Proof.
  revert s. induction p as [a0|X e k IH]; cbn; intros s H.
  - injection H as -> ->. apply rtc_refl.
  - destruct (h X e s) as [[b s1]|] eqn:Eh; [|done].
    eapply rtc_l; [|by apply IH]. cbn. by rewrite Eh.
Qed.

(** The discipline also holds of a goroutine that runs alone. *)
Lemma run_wp {E S A L} (h : forall X, E X -> S -> option (X * S))
    (pre : L -> forall B, E B -> Prop) (post : forall B, E B -> B -> Prop)
    (upd : L -> forall B, E B -> B -> L) (I : S -> L -> Prop) :
  (forall B (e : E B) b s s' l,
     I s l -> pre l B e -> h B e s = Some (b, s') -> post B e b /\ I s' (upd l B e b)) ->
  forall l (p : prog E A) Q s a s',
    I s l -> wp pre post upd l p Q -> run h p s = Done a s' -> exists l', Q l' a /\ I s' l'.
Proof.
  intros Hstep l p Q. revert l. induction p as [a0|X e k IH]; cbn; intros l s a s' HI Hw Hr.
  - injection Hr as -> ->. by exists l.
  - destruct Hw as [Hpre Hk]. destruct (h X e s) as [[b s1]|] eqn:Eh; [|done].
    destruct (Hstep _ _ _ _ _ _ HI Hpre Eh) as [Hb HI1]. eauto.
Qed.

(** A program that does not return waits for an effect. *)
Lemma run_blocked {E S A} (h : forall X, E X -> S -> option (X * S)) (p : prog E A) s s' :
  run h p s = Blocked s' -> exists X (e : E X), h X e s' = None.
Proof.
  revert s. induction p as [a|X e k IH]; intros s; cbn; [done|].
  destruct (h X e s) as [[b s1]|] eqn:Eh; [apply IH|]. intros [= <-]. by exists X, e.
Qed.

(** Several steps of one goroutine. *)
Fixpoint psteps {E S A} (h : forall X, E X -> S -> option (X * S)) (n : nat) (p : prog E A) (s : S) :
    option (prog E A * S) :=
  match n with
  | O => Some (p, s)
  | Datatypes.S n' =>
      match pstep h p s with Some (p', s') => psteps h n' p' s' | None => None end
  end.

Lemma psteps_reachable {E S T R} (h : forall X, E X -> S -> option (X * S))
    (spawnable : T -> prog E R -> Prop) env init n i t p p' (s s' : S) gs :
  reachable h spawnable env init (Config s gs) -> gs !! i = Some (t, p) ->
  psteps h n p s = Some (p', s') ->
  reachable h spawnable env init (Config s' (<[i := (t, p')]> gs)).
Proof.
  revert p s gs. induction n as [|n IH]; cbn; intros p s gs Hr Hi Hs.
  - injection Hs as <- <-. by rewrite list_insert_id.
  - destruct (pstep h p s) as [[p1 s1]|] eqn:Ep; [|done].
    rewrite <- (list_insert_insert_eq gs i (t, p') (t, p1)).
    eapply IH; [|apply list_lookup_insert_eq; by eapply lookup_lt_Some|exact Hs].
    eapply reach_step; [exact Hr|]. by eapply gstep_run.
Qed.
