(* ===== verification/Entrypoint.v ===== *)
(** * The container entrypoint: [cmd/entrypoint/main.go]

    The plan (which process replaces the entrypoint, with which arguments, files and
    environment), the quoting of the command line Litestream runs, and the merge of
    environments.  YAML is the class [YAML]; the operating system is the effects
    [osE]; [order] is the order in which Go ranges over a map. *)
From S2P Require Import Prelude GoStrings Goroutines.

Definition nsqliteBinary : string := "/usr/local/bin/nsqlite".
Definition litestreamBinary : string := "/usr/local/bin/litestream".
Definition defaultDataDir : string := "/data".
Definition defaultDatabaseName : string := "database.sqlite".
Definition defaultLitestreamConfigPath : string := "/tmp/litestream.yml".
Definition defaultLogLevel : string := "info".
Definition defaultLogFormat : string := "text".
Definition defaultSnapshotInterval : string := "24h".
Definition defaultSnapshotRetention : string := "168h".
Definition defaultSyncInterval : string := "1s".
Definition defaultValidationInterval : string := "5m".

(** [environment] *)
Abbreviation environment := (gmap string string).
Definition env_get (env : environment) (key : string) : string := default "" (env !! key).

Record entrypointPlan : Type := MkPlan {
  plPath : string;
  plArgs : list string;
  plDatabasePath : string;
  plConfigPath : string;
  plConfigBytes : string;
  plExtraEnv : environment }.

Record litestreamSettings : Type := MkSettings {
  lsBucket : string; lsPath : string; lsEndpoint : string; lsRegion : string;
  lsAccessKeyID : string; lsSecretAccessKey : string; lsSessionToken : string;
  lsConfigPath : string; lsLogLevel : string; lsLogFormat : string;
  lsSnapshotInterval : string; lsSnapshotRetention : string;
  lsSyncInterval : string; lsValidationInterval : string }.

(** The YAML document. *)
Record litestreamReplica : Type := MkReplica {
  lrType : string; lrBucket : string; lrPath : string; lrEndpoint : string; lrRegion : string;
  lrSyncInterval : string; lrValidationInterval : string }.
Record litestreamConfig : Type := MkLitestreamConfig {
  lcLevel : string; lcType : string; lcInterval : string; lcRetention : string;
  lcDBs : list (string * litestreamReplica) }.
Class YAML : Type := { yaml_Marshal : litestreamConfig -> result string }.

(** ** Environment variables *)

(** [(environment) required(key)] *)
Definition env_required (env : environment) (key : string) : result string :=
  let value := TrimSpace (env_get env key) in
  if value =s? ""
  then Err (ErrNew ("litestream requires " +:+ key
                    +:+ " when NSQLITE_LITESTREAM_ENABLED=true"))
  else Ok value.

(** [(environment) defaultValue(key, fallback)] *)
Definition env_defaultValue (env : environment) (key fallback : string) : string :=
  let value := TrimSpace (env_get env key) in
  if value =s? "" then fallback else value.

(** [parseBool(value)] *)
Definition parseBool (value : string) : result bool :=
  let v := ToLower (TrimSpace value) in
  if existsb (String.eqb v) ["1"; "true"; "yes"; "on"] then Ok true
  else if existsb (String.eqb v) ["0"; "false"; "no"; "off"] then Ok false
  else Err (ErrNew ("invalid boolean value " +:+ Quote value)).

(** [(environment) bool(key, fallback)] *)
Definition env_bool (env : environment) (key : string) (fallback : bool) : result bool :=
  let value := TrimSpace (env_get env key) in
  if value =s? "" then Ok fallback else parseBool value.

(** [loadEnvironment()], from [os.Environ()]. *)
Definition add_entry (env : environment) (entry : string) : environment :=
  match CutByte entry "=" with Some (key, value) => <[key := value]> env | None => env end.
Definition loadEnvironment (environ : list string) : environment := fold_left add_entry environ ∅.

(** [mergeExecEnvironment(base, overrides)] *)
Definition mergeExecEnvironment (order : environment -> list (string * string))
    (base : list string) (overrides : environment) : list string :=
  let merged : environment := overrides ∪ fold_left add_entry base ∅ in
  map (fun kv => fst kv +:+ "=" +:+ snd kv) (order merged).

(** ** Quoting *)

(** The characters after which a word is quoted. *)
Definition shell_special : string :=
  " " +:+ String (byte_chr 9) (String (byte_chr 10) (String (byte_chr 13)
  ("'" +:+ String (byte_chr 34) (String (byte_chr 92) "$`!#&()*;<>?[]{}|~")))).

(** [shellQuote(value)] *)
Definition shellQuote (value : string) : string :=
  if negb (value =s? "") && negb (ContainsAny value shell_special) then value
  else "'" +:+ ReplaceAllByte value "'" ("'" +:+ String (byte_chr 92) "''") +:+ "'".

(** [shellJoin(args)] *)
Definition shellJoin (args : list string) : string := Join (map shellQuote args) " ".

(** ** The plan *)

(** [loadLitestreamSettings(env)] *)
Definition loadLitestreamSettings (env : environment) : result litestreamSettings :=
  bucket ← env_required env "NSQLITE_LITESTREAM_S3_BUCKET";
  path ← env_required env "NSQLITE_LITESTREAM_S3_PATH";
  endpoint ← env_required env "NSQLITE_LITESTREAM_S3_ENDPOINT";
  region ← env_required env "NSQLITE_LITESTREAM_S3_REGION";
  accessKeyID ← env_required env "NSQLITE_LITESTREAM_S3_ACCESS_KEY_ID";
  secretAccessKey ← env_required env "NSQLITE_LITESTREAM_S3_SECRET_ACCESS_KEY";
  Ok (MkSettings bucket (TrimLeftByte path "/") endpoint region accessKeyID secretAccessKey
        (TrimSpace (env_get env "NSQLITE_LITESTREAM_S3_SESSION_TOKEN"))
        (env_defaultValue env "NSQLITE_LITESTREAM_CONFIG_PATH" defaultLitestreamConfigPath)
        (env_defaultValue env "NSQLITE_LITESTREAM_LOG_LEVEL" defaultLogLevel)
        (env_defaultValue env "NSQLITE_LITESTREAM_LOG_FORMAT" defaultLogFormat)
        (env_defaultValue env "NSQLITE_LITESTREAM_SNAPSHOT_INTERVAL" defaultSnapshotInterval)
        (env_defaultValue env "NSQLITE_LITESTREAM_SNAPSHOT_RETENTION" defaultSnapshotRetention)
        (env_defaultValue env "NSQLITE_LITESTREAM_SYNC_INTERVAL" defaultSyncInterval)
        (env_defaultValue env "NSQLITE_LITESTREAM_VALIDATION_INTERVAL" defaultValidationInterval)).

(** [(litestreamSettings) execEnvironment()] *)
Definition execEnvironment (settings : litestreamSettings) : environment :=
  let env := <["AWS_ACCESS_KEY_ID" := lsAccessKeyID settings]>
               (<["AWS_SECRET_ACCESS_KEY" := lsSecretAccessKey settings]> ∅) in
  if negb (lsSessionToken settings =s? "")
  then <["AWS_SESSION_TOKEN" := lsSessionToken settings]> env else env.

(** [resolveDatabasePath(dataDir)] *)
Definition resolveDatabasePath (dataDir : string) : string :=
  let cleanDataDir := TrimRightByte dataDir "/" in
  let cleanDataDir := if cleanDataDir =s? "" then defaultDataDir else cleanDataDir in
  filepath_Join cleanDataDir defaultDatabaseName.

Section Plan.
  Context `{Y : YAML}.

(** [renderLitestreamConfig(databasePath, settings)] *)
Definition renderLitestreamConfig (databasePath : string) (settings : litestreamSettings) :
    result string :=
  wrap_err "marshal Litestream config"
    (yaml_Marshal
       (MkLitestreamConfig (lsLogLevel settings) (lsLogFormat settings)
          (lsSnapshotInterval settings) (lsSnapshotRetention settings)
          [(databasePath,
            MkReplica "s3" (lsBucket settings) (lsPath settings) (lsEndpoint settings)
              (lsRegion settings) (lsSyncInterval settings) (lsValidationInterval settings))])).

(** [buildEntrypointPlan(env, args)] *)
Definition buildEntrypointPlan (env : environment) (args : list string) : result entrypointPlan :=
  let nsqliteArgs := nsqliteBinary :: args in
  enabled ← wrap_err "NSQLITE_LITESTREAM_ENABLED" (env_bool env "NSQLITE_LITESTREAM_ENABLED" false);
  if negb enabled then Ok (MkPlan nsqliteBinary nsqliteArgs "" "" "" ∅)
  else
    settings ← loadLitestreamSettings env;
    let databasePath := resolveDatabasePath (env_defaultValue env "NSQLITE_DATA_DIR" defaultDataDir) in
    configBytes ← renderLitestreamConfig databasePath settings;
    Ok (MkPlan litestreamBinary
          [litestreamBinary; "replicate"; "-config"; lsConfigPath settings; "-exec";
           shellJoin nsqliteArgs]
          databasePath (lsConfigPath settings) configBytes (execEnvironment settings)).

(** ** The process *)

Inductive osE : Type -> Type :=
| Environ : osE (list string)
| MkdirAll (path : string) (mode : Z) : osE (option go_error)
| WriteFile (path bytes : string) (mode : Z) : osE (option go_error)
| Logf (line : string) : osE unit
| SyscallExec (path : string) (args env : list string) : osE (option go_error).

(** [prepareRuntimePaths(configPath, databasePath, configBytes)]; the modes are octal
    755 and 600. *)
Definition prepareRuntimePaths (configPath databasePath configBytes : string) :
    prog osE (option go_error) :=
  e ← act (MkdirAll (filepath_Dir databasePath) 493);
  match e with
  | Some err => mret (Some (ErrWrap "create database directory" err))
  | None =>
      e ← act (MkdirAll (filepath_Dir configPath) 493);
      match e with
      | Some err => mret (Some (ErrWrap "create Litestream config directory" err))
      | None =>
          e ← act (WriteFile configPath configBytes 384);
          mret (match e with
                | Some err => Some (ErrWrap "write Litestream config file" err)
                | None => None
                end)
      end
  end.

(** [main()]; the value is the exit status, when the process was not replaced. *)
Definition entrypoint_main (order : environment -> list (string * string)) (args : list string) :
    prog osE (option Z) :=
  environ ← act Environ;
  match buildEntrypointPlan (loadEnvironment environ) args with
  | Err err => _ ← act (Logf ("error: " +:+ error_string err)); mret (Some 1)
  | Ok plan =>
      let exec :=
        environ' ← act Environ;
        e ← act (SyscallExec (plPath plan) (plArgs plan)
                   (mergeExecEnvironment order environ' (plExtraEnv plan)));
        match e with
        | Some err => _ ← act (Logf ("exec failed: " +:+ error_string err)); mret (Some 1)
        | None => mret None
        end in
      if plConfigBytes plan =s? "" then exec
      else
        e ← prepareRuntimePaths (plConfigPath plan) (plDatabasePath plan) (plConfigBytes plan);
        match e with
        | Some err =>
            _ ← act (Logf ("error preparing Litestream runtime files: " +:+ error_string err));
            mret (Some 1)
        | None =>
            _ ← act (Logf "starting NSQLite with Litestream replication");
            _ ← act (Logf ("database path: " +:+ plDatabasePath plan));
            _ ← act (Logf ("replica config: " +:+ plConfigPath plan));
            exec
        end
  end.
End Plan.

(** ** The command line survives the shell

    A POSIX shell splits a line into words: single quotes and the backslash quote;
    any other special character would be interpreted, here [None]. *)

Definition is_blank (a : ascii) : bool :=
  Ascii.eqb a " " || Ascii.eqb a (byte_chr 9) || Ascii.eqb a (byte_chr 10).
Definition push (cur : option string) (a : ascii) : option string :=
  Some (default "" cur +:+ String a "").

(** [cur] is the current word, if one has begun; [quoted] is inside single quotes. *)
Fixpoint sh_words (quoted : bool) (cur : option string) (s : string) : option (list string) :=
  match s with
  | EmptyString => if quoted then None else Some (option_list cur)
  | String a s' =>
      if quoted then
        if Ascii.eqb a "'" then sh_words false cur s' else sh_words true (push cur a) s'
      else if is_blank a then
        (fun ws => option_list cur ++ ws) <$> sh_words false None s'
      else if Ascii.eqb a "'" then sh_words true (Some (default "" cur)) s'
      else if Ascii.eqb a (byte_chr 92) then
        match s' with
        | String b s'' => sh_words false (push cur b) s''
        | EmptyString => None
        end
      else if char_in a shell_special then None
      else sh_words false (push cur a) s'
  end.

Lemma push_some w a : push (Some w) a = Some (w +:+ String a "").
Proof. done. Qed.

Lemma special_chars a :
  char_in a shell_special = false ->
  is_blank a = false /\ Ascii.eqb a "'" = false /\ Ascii.eqb a (byte_chr 92) = false.
Proof.
  intros H. unfold is_blank.
  assert (Hn : forall b, char_in b shell_special = true -> Ascii.eqb a b = false).
  { intros b Hb. destruct (Ascii.eqb_spec a b) as [->|]; [congruence|done]. }
  rewrite !Hn by reflexivity. done.
Qed.

(** A word without special characters. *)
Lemma sh_plain v w rest :
  ContainsAny v shell_special = false ->
  sh_words false (Some w) (v +:+ rest) = sh_words false (Some (w +:+ v)) rest.
Proof.
  revert w. induction v as [|a v IH]; intros w H; cbn [String.append].
  - by rewrite string_app_nil_r.
  - cbn [ContainsAny] in H. apply orb_false_iff in H as [Ha Hv].
    destruct (special_chars a Ha) as (H1 & H2 & H3). cbn [sh_words].
    rewrite H1, H2, H3, Ha, push_some, IH by done. by rewrite string_app_assoc.
Qed.

(** The inside of single quotes, up to the closing one. *)
Lemma sh_quoted v w rest :
  sh_words true (Some w) (ReplaceAllByte v "'" ("'" +:+ String (byte_chr 92) "''") +:+ "'" +:+ rest)
  = sh_words false (Some (w +:+ v)) rest.
Proof.
  revert w. induction v as [|a v IH]; intros w; cbn [ReplaceAllByte].
  - cbn. by rewrite string_app_nil_r.
  - destruct (Ascii.eqb a "'") eqn:E.
    + apply Ascii.eqb_eq in E as ->. etransitivity; [|etransitivity; [apply (IH (w +:+ "'"))|]].
      * reflexivity.
      * by rewrite string_app_assoc.
    + cbn [String.append sh_words]. rewrite E, push_some, IH. by rewrite string_app_assoc.
Qed.

Lemma sh_word v rest : sh_words false None (shellQuote v +:+ rest) = sh_words false (Some v) rest.
Proof.
  unfold shellQuote. destruct (negb (v =s? "") && negb (ContainsAny v shell_special)) eqn:E.
  - apply andb_true_iff in E as [H1 H2]. apply negb_true_iff in H1, H2.
    destruct v as [|a v]; [done|]. cbn [ContainsAny] in H2. apply orb_false_iff in H2 as [Ha Hv].
    destruct (special_chars a Ha) as (H3 & H4 & H5). cbn [String.append sh_words].
    rewrite H3, H4, H5, Ha. by apply (sh_plain v (String a "")).
  - rewrite !string_app_assoc. cbn [String.append sh_words]. by apply (sh_quoted v "").
Qed.


(** ** The environment of the child *)

Definition no_equals (key : string) : Prop := char_in "=" key = false.

Lemma add_entry_no_equals l env :
  (forall key, is_Some (env !! key) -> no_equals key) ->
  forall key, is_Some (fold_left add_entry l env !! key) -> no_equals key.
Proof.
  revert env. induction l as [|e l IH]; intros env He key; [apply He|]. cbn. apply IH.
  intros k. unfold add_entry. destruct (CutByte e "=") as [[k' v]|] eqn:Ec; [|apply He].
  apply CutByte_some in Ec as [_ Hk]. intros H. apply lookup_insert_is_Some in H as [->|[_ H]]; [done|by apply He].
Qed.

Lemma load_entries l env :
  (forall kv, kv ∈ l -> no_equals (fst kv)) ->
  fold_left add_entry (map (fun kv => fst kv +:+ "=" +:+ snd kv) l) env
  = fold_left (fun m kv => <[fst kv := snd kv]> m) l env.
Proof.
  revert env. induction l as [|[k v] l IH]; intros env Hl; [done|]. cbn.
  rewrite IH by (intros; apply Hl; by right). unfold add_entry.
  by rewrite (CutByte_app k v "=") by (apply (Hl (k, v)); left).
Qed.

Lemma fold_insert_map l (m0 : gmap string string) :
  NoDup (l.*1) ->
  fold_left (fun m kv => <[fst kv := snd kv]> m) l m0 = list_to_map l ∪ m0.
Proof.
  revert m0. induction l as [|[k v] l IH]; intros m0 Hn; cbn.
  - by rewrite (left_id_L ∅ (∪)).
  - apply NoDup_cons in Hn as [Hk Hn]. rewrite IH by done. cbn.
    rewrite <- insert_union_r by by apply not_elem_of_list_to_map_1.
    by rewrite insert_union_l.
Qed.

(** The process that is started sees exactly the merged environment.  Reading back
    the list the entrypoint passes on gives the overrides, and for every other
    variable the value it had; nothing is lost, added or split, in whatever order the
    map is ranged over. *)
Theorem mergeExecEnvironment_seen order base overrides :
  (forall m, order m ≡ₚ map_to_list m) ->
  (forall key, is_Some (overrides !! key) -> no_equals key) ->
  loadEnvironment (mergeExecEnvironment order base overrides) = overrides ∪ loadEnvironment base.
Proof.
  intros Hord Hov. unfold mergeExecEnvironment, loadEnvironment.
  set (merged := overrides ∪ _). rewrite load_entries.
  - rewrite fold_insert_map.
    + rewrite (right_id_L ∅ (∪)). rewrite (list_to_map_proper _ (map_to_list merged)).
      * apply list_to_map_to_list.
      * rewrite (Hord merged). apply NoDup_fst_map_to_list.
      * apply Hord.
    + rewrite (Hord merged). apply NoDup_fst_map_to_list.
  - intros [k v] Hk. rewrite (Hord merged) in Hk. apply elem_of_map_to_list in Hk. cbn.
    subst merged. apply lookup_union_Some_raw in Hk as [Hk|[_ Hk]]; [apply Hov; by eexists|].
    eapply add_entry_no_equals; [|by eexists]. intros key. rewrite lookup_empty. by intros [].
Qed.

Lemma mergeExecEnvironment_seen_witness :
  loadEnvironment (mergeExecEnvironment (fun m => map_to_list m) ["A=1"; "B=x=y"; "junk"] {["A" := "2"]})
  = {["A" := "2"]} ∪ {["A" := "1"; "B" := "x=y"]}.
Proof.
  rewrite (mergeExecEnvironment_seen (fun m => map_to_list m)).
  - vm_compute. reflexivity.
  - reflexivity.
  - intros key [v [<- _]%lookup_singleton_Some]. vm_compute. reflexivity.
Defined.

(** ** Credentials *)

Definition credential (key : string) : bool :=
  existsb (String.eqb key)
    ["NSQLITE_LITESTREAM_S3_ACCESS_KEY_ID"; "NSQLITE_LITESTREAM_S3_SECRET_ACCESS_KEY";
     "NSQLITE_LITESTREAM_S3_SESSION_TOKEN"].

Lemma result_bind_ok {A B} (r : result A) (f : A -> result B) b :
  r ≫= f = Ok b -> exists a, r = Ok a /\ f a = Ok b.
Proof. destruct r as [a|e]; [|done]. intros H. by exists a. Qed.

(** C34: credentials are only passed on in the environment.  Two environments that agree
    on everything but the access key, the secret key and the session token lead to
    the same program, arguments, database path and configuration file. *)
Theorem credentials_not_in_plan `{YAML} env1 env2 args p1 p2 :
  (forall key, credential key = false -> env1 !! key = env2 !! key) ->
  buildEntrypointPlan env1 args = Ok p1 -> buildEntrypointPlan env2 args = Ok p2 ->
  plPath p1 = plPath p2 /\ plArgs p1 = plArgs p2 /\ plDatabasePath p1 = plDatabasePath p2
  /\ plConfigPath p1 = plConfigPath p2 /\ plConfigBytes p1 = plConfigBytes p2.
Proof.
  intros Henv.
  assert (Hg : forall key, credential key = false -> env_get env1 key = env_get env2 key)
    by (intros key Hk; unfold env_get; by rewrite Henv).
  unfold buildEntrypointPlan, env_bool. rewrite (Hg "NSQLITE_LITESTREAM_ENABLED") by reflexivity.
  intros (enabled & He & H1)%result_bind_ok (enabled' & He' & H2)%result_bind_ok.
  rewrite He in He'. injection He' as <-. destruct enabled; cbn [negb] in *.
  2:{ injection H1 as <-. injection H2 as <-. done. }
  apply result_bind_ok in H1 as (s1 & Hs1 & (c1 & Hc1 & H1)%result_bind_ok).
  apply result_bind_ok in H2 as (s2 & Hs2 & (c2 & Hc2 & H2)%result_bind_ok).
  assert (Hs : exists a b c, s2 = MkSettings (lsBucket s1) (lsPath s1) (lsEndpoint s1) (lsRegion s1)
    a b c (lsConfigPath s1) (lsLogLevel s1) (lsLogFormat s1) (lsSnapshotInterval s1)
    (lsSnapshotRetention s1) (lsSyncInterval s1) (lsValidationInterval s1)).
  { unfold loadLitestreamSettings, env_required, env_defaultValue in Hs1, Hs2.
    repeat match type of Hs1 with context [env_get env1 ?k] =>
      rewrite (Hg k) in Hs1 by reflexivity end.
    repeat match type of Hs1 with _ ≫= _ = _ =>
      apply result_bind_ok in Hs1 as (? & ?Ha & Hs1); apply result_bind_ok in Hs2 as (? & ?Hb & Hs2) end.
    repeat match goal with H1 : ?e = Ok ?x, H2 : ?e = Ok ?y |- _ =>
      rewrite H1 in H2; injection H2 as <- end.
    injection Hs1 as <-. injection Hs2 as <-. by do 3 eexists. }
  destruct Hs as (a & b & c & ->).
  unfold env_defaultValue in *. rewrite (Hg "NSQLITE_DATA_DIR") in Hc1, H1 by reflexivity.
  unfold renderLitestreamConfig in *. cbn in *. rewrite Hc1 in Hc2. injection Hc2 as <-.
  injection H1 as <-. injection H2 as <-. done.
Qed.

(** ** A concrete plan *)

Definition show_config (c : litestreamConfig) : string :=
  Join (lcLevel c :: lcType c :: lcInterval c :: lcRetention c
        :: map (fun d => fst d +:+ " " +:+ lrBucket (snd d) +:+ " " +:+ lrPath (snd d)) (lcDBs c)) ";".
Definition show_yaml : YAML := {| yaml_Marshal c := Ok (show_config c) |}.
Definition sample_env (key secret : string) : environment :=
  <["NSQLITE_LITESTREAM_S3_ACCESS_KEY_ID" := key]>
  (<["NSQLITE_LITESTREAM_S3_SECRET_ACCESS_KEY" := secret]>
   (list_to_map
     [("NSQLITE_LITESTREAM_ENABLED", "yes"); ("NSQLITE_LITESTREAM_S3_BUCKET", "b");
      ("NSQLITE_LITESTREAM_S3_PATH", "/p"); ("NSQLITE_LITESTREAM_S3_ENDPOINT", "e");
      ("NSQLITE_LITESTREAM_S3_REGION", "r")])).
Definition sample_plan (key secret : string) : result entrypointPlan :=
  buildEntrypointPlan (Y := show_yaml) (sample_env key secret) ["--listen-port"; "80 81"].

Lemma sample_env_agrees k1 s1 k2 s2 key :
  credential key = false -> sample_env k1 s1 !! key = sample_env k2 s2 !! key.
Proof.
  intros Hk. unfold credential in Hk. cbn [existsb] in Hk.
  apply orb_false_iff in Hk as [Ha Hk]. apply orb_false_iff in Hk as [Hb _].
  apply String.eqb_neq in Ha, Hb. unfold sample_env.
  by rewrite !lookup_insert_ne by (intros <-; congruence).
Qed.

Lemma credentials_not_in_plan_witness : exists p1 p2,
  sample_plan "k" "s" = Ok p1 /\ sample_plan "key" "secret" = Ok p2
  /\ plArgs p1 = plArgs p2 /\ plConfigBytes p1 = plConfigBytes p2.
Proof.
  destruct (sample_plan "k" "s") as [p1|e] eqn:E1; [|vm_compute in E1; discriminate E1].
  destruct (sample_plan "key" "secret") as [p2|e] eqn:E2; [|vm_compute in E2; discriminate E2].
  exists p1, p2. split; [reflexivity|]. split; [reflexivity|].
  destruct (@credentials_not_in_plan show_yaml _ _ _ p1 p2
              (sample_env_agrees "k" "s" "key" "secret") E1 E2) as (_ & Ha & _ & _ & Hc).
  split; [exact Ha|exact Hc].
Defined.
