(* ===== verification/FetchSqlite.v ===== *)
(** * The download of SQLite's sources: [scripts/fetch-sqlite/main.go]

    The build script that installs the amalgamation: it downloads an archive, checks its
    digest and unpacks three files.  SHA3 and the zip reader are the class [FetchLib]; the
    network and the file system are effects; a panic is the error of the result. *)
From S2P Require Import Prelude GoStrings Base64 Goroutines.

(** An entry of an archive: its name, and what opening, reading and closing it answers. *)
Record zip_file : Type := MkZipFile {
  zfName : string; zfOpen : option go_error; zfRead : result string; zfClose : option go_error }.

Class FetchLib : Type := {
  sha3_Sum256 : string -> string;
  zip_NewReader : string -> result (list zip_file) }.

Inductive fetchE : Type -> Type :=
| NewRequest (url : string) : fetchE (option go_error)
| DoRequest : fetchE (option go_error)
| ReadResponse : fetchE (result string)
| FetchMkdirAll (dir : string) : fetchE (option go_error)
| FetchWriteFile (path data : string) : fetchE (option go_error).

Definition zipURL : string := "https://www.sqlite.org/2026/sqlite-amalgamation-3530100.zip".
Definition zipSHA : string := "3c07136e4f6b5dd0c395be86455014039597bc65b6851f7111e88f71b6e06114".
Definition destDir : string := "./internal/sqlite".
Definition extract : list string := ["sqlite3.c"; "sqlite3.h"; "sqlite3ext.h"].

(** [filepath.Base(path)] *)
Definition slash : ascii := byte_chr 47.
Definition filepath_Base (path : string) : string :=
  if path =s? "" then "."
  else
    let trimmed := TrimRightByte path slash in
    if trimmed =s? "" then "/" else default "" (last (SplitByte trimmed slash)).

Section Fetch.
  Context `{LIB : FetchLib}.

(** [if err != nil { panic(fmt.Errorf("msg: %w", err)) }] *)
Definition or_panic {A} (msg : string) (e : option go_error) (next : prog fetchE (result A)) :
    prog fetchE (result A) :=
  match e with Some err => mret (Err (ErrWrap msg err)) | None => next end.

(** The body of the loop over the archive, for an entry that is extracted. *)
Definition extract_file (f : zip_file) : prog fetchE (result unit) :=
  or_panic ("failed to open " +:+ zfName f +:+ " in zip") (zfOpen f)
    (or_panic ("failed to close " +:+ zfName f) (zfClose f)
       (match zfRead f with
        | Err err => mret (Err (ErrWrap ("failed to read " +:+ zfName f) err))
        | Ok data =>
            let destPath := filepath_Join destDir (filepath_Base (zfName f)) in
            e ← act (FetchWriteFile destPath data);
            or_panic ("failed to write " +:+ destPath) e (mret (Ok tt))
        end)).
Fixpoint extract_files (files : list zip_file) : prog fetchE (result unit) :=
  match files with
  | [] => mret (Ok tt)
  | f :: files' =>
      if negb (bool_decide (filepath_Base (zfName f) ∈ extract)) then extract_files files'
      else try_bind id (extract_file f) (fun _ => extract_files files')
  end.

(** [main()] *)
Definition fetch_main : prog fetchE (result unit) :=
  e ← act (NewRequest zipURL);
  or_panic "failed to create request" e
    (e ← act DoRequest;
     or_panic "failed to download" e
       (try_bind (ErrWrap "failed to read response") (act ReadResponse) (fun body =>
        let got := hex_encode (sha3_Sum256 body) in
        if negb (got =s? zipSHA)
        then mret (Err (ErrNew ("SHA3-256 mismatch: expected " +:+ zipSHA +:+ ", got " +:+ got)))
        else
          match zip_NewReader body with
          | Err err => mret (Err (ErrWrap "failed to open zip" err))
          | Ok files =>
              e ← act (FetchMkdirAll destDir);
              or_panic ("failed to create " +:+ destDir) e (extract_files files)
          end))).

(** ** The world of the script *)

(** What the network answers, and what a write leaves in a file, which is the data when
    it succeeds. *)
Record fetch_world : Type := MkFetchWorld {
  fwRequest : option go_error;
  fwDownload : option go_error;
  fwBody : result string;
  fwMkdir : option go_error;
  fwWrite : string -> string -> option go_error * string;
  fwWrite_ok path data : fst (fwWrite path data) = None -> snd (fwWrite path data) = data }.

Definition fetch_handle (w : fetch_world) (B : Type) (e : fetchE B) (fs : gmap string string) :
    option (B * gmap string string) :=
  match e in fetchE B return option (B * gmap string string) with
  | NewRequest _ => Some (fwRequest w, fs)
  | DoRequest => Some (fwDownload w, fs)
  | ReadResponse => Some (fwBody w, fs)
  | FetchMkdirAll _ => Some (fwMkdir w, fs)
  | FetchWriteFile path data =>
      let '(e, content) := fwWrite w path data in Some (e, <[path := content]> fs)
  end.

(** The files that the script may write. *)
Definition installed_paths : list string :=
  ["internal/sqlite/sqlite3.c"; "internal/sqlite/sqlite3.h"; "internal/sqlite/sqlite3ext.h"].

(** The content of the last entry of an archive with a base name. *)
Definition archived (name : string) (files : list zip_file) : option string :=
  last (omap (fun f => if filepath_Base (zfName f) =s? name
                       then match zfRead f with Ok d => Some d | Err _ => None end
                       else None) files).

Lemma extract_dest name : name ∈ extract -> filepath_Join destDir name ∈ installed_paths.
Proof.
  intros H. apply (bool_decide_unpack _). unfold extract in H.
  repeat (apply elem_of_cons in H as [->|H]; [vm_compute; exact I|]).
  by apply elem_of_nil in H.
Qed.

Lemma extract_inj n1 n2 :
  n1 ∈ extract -> n2 ∈ extract -> filepath_Join destDir n1 = filepath_Join destDir n2 -> n1 = n2.
Proof.
  intros H1 H2. unfold extract in H1, H2.
  repeat (apply elem_of_cons in H1 as [->|H1]);
    try (by apply elem_of_nil in H1);
    repeat (apply elem_of_cons in H2 as [->|H2]);
    try (by apply elem_of_nil in H2); try done; vm_compute; discriminate.
Qed.

#[local] Opaque filepath_Join filepath_Base destDir.

Lemma archived_cons f files name :
  archived name (f :: files)
  = match archived name files with
    | Some d => Some d
    | None => if filepath_Base (zfName f) =s? name
              then match zfRead f with Ok d => Some d | Err _ => None end else None
    end.
Proof.
  unfold archived. cbn. set (l := omap _ files).
  destruct (filepath_Base (zfName f) =s? name); [destruct (zfRead f) as [d|]|];
    try (by destruct (last l)).
  rewrite last_cons. by destruct (last l).
Qed.

Lemma fetch_act_run {A B} w (e : fetchE B) (p : B -> prog fetchE A) fs :
  run (fetch_handle w) (x ← act e; p x) fs
  = match fetch_handle w B e fs with
    | Some (b, fs') => run (fetch_handle w) (p b) fs'
    | None => Blocked fs
    end.
Proof. apply run_act_bind. Qed.

Lemma or_panic_run {A} w msg e (p : prog fetchE (result A)) fs :
  run (fetch_handle w) (or_panic msg e p) fs
  = match e with
    | Some err => Done (Err (ErrWrap msg err)) fs
    | None => run (fetch_handle w) p fs
    end.
Proof. by destruct e. Qed.

(** Unpacking one entry: nothing, or a write to its file, which holds its content unless
    the script panics. *)
Lemma extract_file_run w f fs :
  (exists e, run (fetch_handle w) (extract_file f) fs = Done (Err e) fs)
  \/ exists data content r,
      zfRead f = Ok data
      /\ run (fetch_handle w) (extract_file f) fs
         = Done r (<[filepath_Join destDir (filepath_Base (zfName f)) := content]> fs)
      /\ (r = Ok tt -> content = data).
Proof.
  unfold extract_file. rewrite or_panic_run. destruct (zfOpen f); [left; eauto|].
  rewrite or_panic_run. destruct (zfClose f); [left; eauto|].
  destruct (zfRead f) as [data|e]; [|left; eauto]. right.
  set (dest := filepath_Join _ _). clearbody dest. exists data, (snd (fwWrite w dest data)).
  pose proof (fwWrite_ok w dest data) as Hok.
  rewrite fetch_act_run. cbn [fetch_handle].
  destruct (fwWrite w dest data) as [e content]. cbn in *. rewrite or_panic_run.
  destruct e as [err|]; eexists; split_and!; try done. intros _. by apply Hok.
Qed.

(** The loop changes only the three files, and a loop that ends has unpacked each. *)
Lemma extract_files_run w files : forall fs,
  exists r fs', run (fetch_handle w) (extract_files files) fs = Done r fs'
  /\ (forall path, path ∉ installed_paths -> fs' !! path = fs !! path)
  /\ (r = Ok tt -> forall name, name ∈ extract ->
        fs' !! filepath_Join destDir name
        = match archived name files with
          | Some data => Some data
          | None => fs !! filepath_Join destDir name
          end).
Proof.
  induction files as [|f files IH]; intros fs; [by exists (Ok tt), fs|]. cbn [extract_files].
  destruct (bool_decide (filepath_Base (zfName f) ∈ extract)) eqn:Eb; cbn [negb].
  - apply bool_decide_eq_true in Eb. unfold try_bind. rewrite run_bind.
    destruct (extract_file_run w f fs) as [[e ->]|(data & content & r & Hread & -> & Hc)].
    { by exists (Err e), fs. }
    set (dest := filepath_Join destDir (filepath_Base (zfName f))).
    destruct r as [[]|e].
    + rewrite (Hc eq_refl). destruct (IH (<[dest := data]> fs)) as (r & fs' & -> & Hother & Hok).
      exists r, fs'. split; [done|]. split.
      * intros path Hp. rewrite (Hother path Hp). apply lookup_insert_ne.
        intros <-. by apply Hp, extract_dest.
      * intros Hr name Hn. rewrite (Hok Hr name Hn), archived_cons.
        destruct (archived name files); [done|].
        destruct (filepath_Base (zfName f) =s? name) eqn:En.
        -- apply String.eqb_eq in En as <-. rewrite Hread. apply lookup_insert_eq.
        -- apply lookup_insert_ne. intros E%extract_inj; try done. apply String.eqb_neq in En.
           by apply En.
    + exists (Err e), (<[dest := content]> fs). split; [done|]. split; [|done].
      intros path Hp. apply lookup_insert_ne. intros <-. by apply Hp, extract_dest.
  - apply bool_decide_eq_false in Eb. destruct (IH fs) as (r & fs' & Hrun & Hother & Hok).
    exists r, fs'. split; [exact Hrun|]. split; [done|]. intros Hr name Hn.
    rewrite (Hok Hr name Hn), archived_cons. destruct (archived name files); [done|].
    destruct (filepath_Base (zfName f) =s? name) eqn:En; [|done].
    apply String.eqb_eq in En. by subst.
Qed.

(** C38: the script installs only what it has verified, and only where it should: if any file
    changes, the archive has the pinned digest; whatever names the archive's entries
    have, no file but the three of [internal/sqlite] changes; and a run that ends without
    a panic leaves in each of them the content of its entry in the archive. *)
Theorem fetch_verified w fs :
  exists r fs', run (fetch_handle w) fetch_main fs = Done r fs'
  /\ (fs' <> fs -> exists body, fwBody w = Ok body /\ hex_encode (sha3_Sum256 body) = zipSHA)
  /\ (forall path, path ∉ installed_paths -> fs' !! path = fs !! path)
  /\ (r = Ok tt -> exists body files, fwBody w = Ok body /\ zip_NewReader body = Ok files
        /\ forall name data, name ∈ extract -> archived name files = Some data ->
             fs' !! filepath_Join destDir name = Some data).
Proof.
  unfold fetch_main. rewrite fetch_act_run. cbn [fetch_handle]. rewrite or_panic_run.
  destruct (fwRequest w) as [e|]; [by eexists _, fs|].
  rewrite fetch_act_run. cbn [fetch_handle]. rewrite or_panic_run.
  destruct (fwDownload w) as [e|]; [by eexists _, fs|].
  unfold try_bind. rewrite run_bind. cbn [run act fetch_handle].
  destruct (fwBody w) as [body|e] eqn:Ebody; [|by eexists _, fs].
  destruct (hex_encode (sha3_Sum256 body) =s? zipSHA) eqn:Esha; [|by eexists _, fs].
  apply String.eqb_eq in Esha. cbn [negb].
  destruct (zip_NewReader body) as [files|e] eqn:Ezip; [|by eexists _, fs].
  rewrite fetch_act_run. cbn [fetch_handle]. rewrite or_panic_run.
  destruct (fwMkdir w) as [e|]; [by eexists _, fs|].
  destruct (extract_files_run w files fs) as (r & fs' & -> & Hother & Hok).
  exists r, fs'. split; [done|]. split; [by exists body|]. split; [exact Hother|].
  intros Hr. exists body, files. split; [done|]. split; [done|].
  intros name data Hn Ha. by rewrite (Hok Hr name Hn), Ha.
Qed.
End Fetch.

(** An archive with the pinned digest, one source file, and an entry that points outside. *)
Definition toy_fetch : FetchLib := {|
  sha3_Sum256 body := default "" (hex_decode zipSHA);
  zip_NewReader body :=
    Ok [MkZipFile "sqlite-amalgamation/sqlite3.c" None (Ok body) None;
        MkZipFile "../../etc/passwd" None (Ok "root") None] |}.
Definition toy_fetch_world : fetch_world := {|
  fwRequest := None; fwDownload := None; fwBody := Ok "int x;"; fwMkdir := None;
  fwWrite path data := (None, data);
  fwWrite_ok path data H := eq_refl |}.

Definition leaves {A} (o : outcome (gmap string string) A) (fs : gmap string string) : bool :=
  match o with Done _ fs' => bool_decide (fs' = fs) | Blocked _ => false end.
Lemma toy_fetch_installs :
  leaves (run (fetch_handle toy_fetch_world) (fetch_main (LIB := toy_fetch)) ∅)
    {[ "internal/sqlite/sqlite3.c" := "int x;" ]} = true.
Proof. vm_compute. reflexivity. Qed.

Lemma fetch_verified_witness :
  exists r fs', run (fetch_handle toy_fetch_world) (fetch_main (LIB := toy_fetch)) ∅ = Done r fs'
  /\ fs' = {[ "internal/sqlite/sqlite3.c" := "int x;" ]}
  /\ (forall path, path ∉ installed_paths -> fs' !! path = (∅ : gmap string string) !! path).
Proof.
  destruct (fetch_verified (LIB := toy_fetch) toy_fetch_world ∅) as (r & fs' & Hr & _ & H & _).
  exists r, fs'. split; [exact Hr|]. split; [|exact H].
  pose proof toy_fetch_installs as Hf. rewrite Hr in Hf. by apply bool_decide_eq_true in Hf.
Defined.
