(* ===== verification/GoTime.v ===== *)
(** * Go's [time] package, as the sources use it

    A [time.Time] in UTC is its nanoseconds since the Unix epoch, a
    [time.Duration] its nanoseconds.  The sources print times with [time.RFC3339]
    in UTC and parse back only what they printed, so [ParseRFC3339] reads the
    shape [YYYY-MM-DDThh:mm:ssZ] (no fraction, no offset). *)
From S2P Require Import Prelude GoStrings.

Definition nanosecond : Z := 1.
Definition microsecond : Z := 1000.
Definition millisecond : Z := 1000000.
Definition second : Z := 1000000000.
Definition minute : Z := 60 * second.
Definition hour : Z := 60 * minute.

(** [t.Truncate(time.Minute)]. *)
Definition TruncateMinute (t : Z) : Z := t - t mod minute.

(** ** The proleptic Gregorian calendar *)

(** The day of a 400-year cycle starting on March 1, as year, month and day. *)
Definition civil_of_cycle (doe : Z) : Z * Z * Z :=
  let yoe := (doe - doe / 1460 + doe / 36524 - doe / 146096) / 365 in
  let doy := doe - (365 * yoe + yoe / 4 - yoe / 100) in
  let mp := (5 * doy + 2) / 153 in
  let d := doy - (153 * mp + 2) / 5 + 1 in
  let m := if mp <? 10 then mp + 3 else mp - 9 in
  (if m <=? 2 then yoe + 1 else yoe, m, d).

(** Days since 1970-01-01 to year, month, day. *)
Definition civil_from_days (days : Z) : Z * Z * Z :=
  let z := days + 719468 in
  let '(y, m, d) := civil_of_cycle (z mod 146097) in
  (y + 400 * (z / 146097), m, d).

(** Year, month, day to the day of its 400-year cycle and to days since 1970-01-01. *)
Definition cycle_of_civil (yoe m d : Z) : Z :=
  let doy := (153 * (if 2 <? m then m - 3 else m + 9) + 2) / 5 + d - 1 in
  yoe * 365 + yoe / 4 - yoe / 100 + doy.
Definition days_from_civil (y m d : Z) : Z :=
  let y' := if m <=? 2 then y - 1 else y in
  (y' / 400) * 146097 + cycle_of_civil (y' mod 400) m d - 719468.

(** ** RFC 3339 *)

(** A number in exactly [n] decimal digits. *)
Fixpoint fixed_digits (n : nat) (z : Z) : string :=
  match n with
  | O => EmptyString
  | S n' => fixed_digits n' (z / 10) +:+ String (digit_chr (z mod 10)) EmptyString
  end.

(** [t.Format(time.RFC3339)] for a UTC time of the years 0 to 9999. *)
Definition FormatRFC3339 (t : Z) : string :=
  let secs := t / second in
  let '(y, m, d) := civil_from_days (secs / 86400) in
  let sod := secs mod 86400 in
  fixed_digits 4 y +:+ "-" +:+ fixed_digits 2 m +:+ "-" +:+ fixed_digits 2 d +:+ "T" +:+
  fixed_digits 2 (sod / 3600) +:+ ":" +:+ fixed_digits 2 (sod / 60 mod 60) +:+ ":" +:+
  fixed_digits 2 (sod mod 60) +:+ "Z".

Definition digit_val (a : ascii) : option Z :=
  let n := Z.of_nat (byte_ord a) in
  if (48 <=? n) && (n <=? 57) then Some (n - 48) else None.

(** Read exactly [n] digits. *)
Fixpoint read_digits (n : nat) (acc : Z) (s : string) : option (Z * string) :=
  match n with
  | O => Some (acc, s)
  | S n' =>
      match s with
      | String a s' => v ← digit_val a; read_digits n' (10 * acc + v) s'
      | EmptyString => None
      end
  end.

Definition read_byte (a : ascii) (s : string) : option string :=
  match s with
  | String b s' => if Ascii.eqb a b then Some s' else None
  | EmptyString => None
  end.

Definition is_leap (y : Z) : bool :=
  (y mod 4 =? 0) && negb ((y mod 100 =? 0) && negb (y mod 400 =? 0)).
Definition days_in (m y : Z) : Z :=
  if m =? 2 then if is_leap y then 29 else 28
  else if (m =? 4) || (m =? 6) || (m =? 9) || (m =? 11) then 30 else 31.

(** [time.Parse(time.RFC3339, s)]. *)
Definition ParseRFC3339 (s : string) : option Z :=
  '(y, s) ← read_digits 4 0 s; s ← read_byte "-" s;
  '(m, s) ← read_digits 2 0 s; s ← read_byte "-" s;
  '(d, s) ← read_digits 2 0 s; s ← read_byte "T" s;
  '(hh, s) ← read_digits 2 0 s; s ← read_byte ":" s;
  '(mm, s) ← read_digits 2 0 s; s ← read_byte ":" s;
  '(ss, s) ← read_digits 2 0 s; s ← read_byte "Z" s;
  if (s =s? EmptyString) && (1 <=? m) && (m <=? 12) && (1 <=? d) && (d <=? days_in m y)
     && (hh <=? 23) && (mm <=? 59) && (ss <=? 59)
  then Some ((days_from_civil y m d * 86400 + hh * 3600 + mm * 60 + ss) * second)
  else None.

(** ** Durations *)

(** Decimal digits of [frac], a count of [10^-n] units, without trailing zeros. *)
Fixpoint trim_frac (n : nat) (frac : Z) : nat * Z :=
  match n with
  | O => (O, frac)
  | S n' => if frac mod 10 =? 0 then trim_frac n' (frac / 10) else (n, frac)
  end.
Definition print_frac (n : nat) (frac : Z) : string :=
  match trim_frac n frac with
  | (O, _) => EmptyString
  | (n', f) => String "." (fixed_digits n' f)
  end.

(** [d.String()]. *)
Definition DurationString (d : Z) : string :=
  let u := Z.abs d in
  let body :=
    if u =? 0 then "0s"
    else if u <? microsecond then print_int u +:+ "ns"
    else if u <? millisecond then
      print_int (u / microsecond) +:+ print_frac 3 (u mod microsecond) +:+
      String (byte_chr 194) (String (byte_chr 181) "s")
    else if u <? second then
      print_int (u / millisecond) +:+ print_frac 6 (u mod millisecond) +:+ "ms"
    else
      let secs := u / second in
      let s := print_int (secs mod 60) +:+ print_frac 9 (u mod second) +:+ "s" in
      let mins := secs / 60 in
      if mins =? 0 then s
      else
        let s := print_int (mins mod 60) +:+ "m" +:+ s in
        let hours := mins / 60 in
        if hours =? 0 then s else print_int hours +:+ "h" +:+ s in
  if d <? 0 then String "-" body else body.

(** [d.Round(time.Second)] for a non-negative duration: halves round up. *)
Definition RoundSecond (d : Z) : Z :=
  let r := d mod second in if r + r <? second then d - r else d + (second - r).

(** The times the calendar prints in four-digit years: 0000-01-01 to 9999-12-31. *)
Definition time_in_range (t : Z) : Prop := -719528 * 86400 * second <= t < 2932897 * 86400 * second.

(** ** The calendar round trip *)

(** The first day of year [y] of the cycle. *)
Definition year_start (y : Z) : Z := 365 * y + y / 4 - y / 100 + y / 400.
Definition yoe_of (doe : Z) : Z := (doe - doe / 1460 + doe / 36524 - doe / 146096) / 365.

(** The month and day of a day of the year that starts on March 1. *)
Definition md_of (doy : Z) : Z * Z :=
  let mp := (5 * doy + 2) / 153 in
  (if mp <? 10 then mp + 3 else mp - 9, doy - (153 * mp + 2) / 5 + 1).

(** What the check below establishes for every day of a year. *)
Definition md_ok (doy : Z) : bool :=
  let '(m, d) := md_of doy in
  ((153 * (if 2 <? m then m - 3 else m + 9) + 2) / 5 + d - 1 =? doy)
  && (1 <=? m) && (m <=? 12) && (1 <=? d)
  && (d <=? (if (m =? 2) && (doy =? 365) then 29 else days_in m 1)).

Fixpoint md_all (n : nat) : bool :=
  match n with O => true | S n' => md_ok (Z.of_nat n') && md_all n' end.

Lemma md_all_spec n doy : md_all n = true -> 0 <= doy < Z.of_nat n -> md_ok doy = true.
Proof.
  induction n as [|n IH]; intros H Hr; [lia|].
  cbn [md_all] in H. apply andb_true_iff in H as [H1 H2].
  destruct (decide (doy = Z.of_nat n)) as [->|]; [done | apply IH; [done | lia]].
Qed.

Lemma md_checked doy : 0 <= doy < 366 -> md_ok doy = true.
Proof. apply (md_all_spec 366). vm_compute. reflexivity. Qed.

(** The year of a day of the cycle is the one whose days include it. *)
Lemma yoe_of_spec doe :
  0 <= doe < 146097 ->
  0 <= yoe_of doe < 400 /\ year_start (yoe_of doe) <= doe < year_start (yoe_of doe + 1).
Proof.
  intros H. assert (Hs : year_start (yoe_of doe) <= doe < year_start (yoe_of doe + 1)).
  { unfold year_start, yoe_of. Z.to_euclidean_division_equations. lia. }
  split; [|done]. revert Hs. generalize (yoe_of doe). unfold year_start.
  intros y Hs. Z.to_euclidean_division_equations. lia.
Qed.

Lemma year_start_leap y :
  0 <= y < 400 -> year_start (y + 1) - year_start y = if is_leap (y + 1) then 366 else 365.
Proof.
  intros Hy. unfold year_start, is_leap.
  destruct (Z.eqb_spec ((y + 1) mod 4) 0), (Z.eqb_spec ((y + 1) mod 100) 0),
    (Z.eqb_spec ((y + 1) mod 400) 0); cbn; Z.to_euclidean_division_equations; lia.
Qed.

Lemma is_leap_400 y k : is_leap (y + 400 * k) = is_leap y.
Proof.
  unfold is_leap.
  replace ((y + 400 * k) mod 4) with (y mod 4) by (Z.to_euclidean_division_equations; lia).
  replace ((y + 400 * k) mod 100) with (y mod 100) by (Z.to_euclidean_division_equations; lia).
  replace ((y + 400 * k) mod 400) with (y mod 400) by (Z.to_euclidean_division_equations; lia).
  done.
Qed.

Lemma days_in_le m y : days_in m 1 <= days_in m y.
Proof.
  unfold days_in. change (is_leap 1) with false.
  destruct (m =? 2); [destruct (is_leap y); lia | lia].
Qed.

(** A day of the cycle is the day its civil date names, and the date is valid. *)
Lemma civil_of_cycle_spec doe y m d :
  0 <= doe < 146097 -> civil_of_cycle doe = (y, m, d) ->
  let yoe := if m <=? 2 then y - 1 else y in
  cycle_of_civil yoe m d = doe /\ 0 <= yoe < 400 /\
  1 <= m <= 12 /\ 1 <= d <= days_in m y.
Proof.
  intros H. unfold civil_of_cycle. fold (yoe_of doe).
  destruct (yoe_of_spec doe H) as [Hy Hs]. pose proof (year_start_leap _ Hy) as Hleap.
  revert Hy Hs Hleap. generalize (yoe_of doe). intros yoe Hy Hs Hleap.
  set (doy := doe - (365 * yoe + yoe / 4 - yoe / 100)).
  assert (Hst : year_start yoe = 365 * yoe + yoe / 4 - yoe / 100).
  { unfold year_start. rewrite (Z.div_small yoe 400) by lia. lia. }
  assert (Hdoy : 0 <= doy < 366) by (unfold doy; destruct (is_leap _); lia).
  pose proof (md_checked doy Hdoy) as Hmd. unfold md_ok, md_of in Hmd. cbn zeta in Hmd.
  revert Hmd. generalize (5 * doy + 2) as X. intros X Hmd.
  cbn zeta. remember (if X / 153 <? 10 then X / 153 + 3 else X / 153 - 9) as m' eqn:Em.
  remember (doy - (153 * (X / 153) + 2) / 5 + 1) as d' eqn:Ed. intros [= <- -> ->].
  rewrite !andb_true_iff, !Z.leb_le, Z.eqb_eq in Hmd.
  destruct Hmd as [[[[Hdoe Hm1] Hm2] Hd1] Hd2].
  assert (Hyoe : (if m <=? 2 then (if m <=? 2 then yoe + 1 else yoe) - 1
                  else if m <=? 2 then yoe + 1 else yoe) = yoe)
    by (destruct (m <=? 2); lia).
  rewrite Hyoe. split; [unfold cycle_of_civil; cbn zeta; lia|].
  split; [done|]. split; [lia|]. split; [done|].
  etrans; [exact Hd2|]. destruct (Z.eqb_spec m 2) as [->|Hm]; cbn [andb].
  - destruct (Z.eqb_spec doy 365) as [E|]; [|apply days_in_le].
    unfold days_in. cbn. destruct (is_leap (yoe + 1)); lia.
  - apply days_in_le.
Qed.

Lemma civil_from_days_spec days y m d :
  civil_from_days days = (y, m, d) ->
  days_from_civil y m d = days /\ 1 <= m <= 12 /\ 1 <= d <= days_in m y.
Proof.
  unfold civil_from_days. set (z := days + 719468).
  destruct (civil_of_cycle (z mod 146097)) as [[y0 m0] d0] eqn:E. intros [= <- -> ->].
  destruct (civil_of_cycle_spec _ _ _ _ (Z.mod_pos_bound z 146097 ltac:(lia)) E)
    as (Hdoe & Hy & Hm & Hd).
  assert (Hdays : days_in m (y0 + 400 * (z / 146097)) = days_in m y0)
    by (unfold days_in; by rewrite is_leap_400).
  rewrite Hdays. split; [|done]. unfold days_from_civil.
  set (yoe := if m <=? 2 then y0 - 1 else y0) in *.
  assert (Hyy : (if m <=? 2 then y0 + 400 * (z / 146097) - 1 else y0 + 400 * (z / 146097))
                = yoe + (z / 146097) * 400) by (unfold yoe; destruct (m <=? 2); lia).
  rewrite Hyy, Z.div_add, Z.mod_add, (Z.div_small yoe), (Z.mod_small yoe), Hdoe by lia.
  pose proof (Z.div_mod z 146097 ltac:(lia)). unfold z in *. lia.
Qed.

(** The days of the years 0 to 9999. *)
Lemma civil_year_range days y m d :
  civil_from_days days = (y, m, d) -> -719528 <= days < 2932897 -> 0 <= y < 10000.
Proof.
  intros (Hday & Hm & Hd)%civil_from_days_spec Hr.
  assert (Hd31 : d <= 31) by (unfold days_in in Hd; repeat case_match; lia).
  assert (Hd1 : 1 <= d) by lia. clear Hd. revert Hday.
  unfold days_from_civil, cycle_of_civil. cbn zeta.
  destruct (Z.leb_spec m 2), (Z.ltb_spec 2 m); try lia; intros <-;
    Z.to_euclidean_division_equations; lia.
Qed.

Lemma digit_val_chr v : 0 <= v < 10 -> digit_val (digit_chr v) = Some v.
Proof.
  intros H. unfold digit_val, digit_chr. rewrite byte_ord_chr by lia.
  rewrite Z2Nat.id by lia.
  destruct (Z.leb_spec 48 (48 + v)), (Z.leb_spec (48 + v) 57); try lia. cbn. f_equal. lia.
Qed.

Lemma read_digits_app n m acc z rest :
  0 <= z < 10 ^ Z.of_nat n ->
  read_digits (n + m) acc (fixed_digits n z +:+ rest) =
  read_digits m (acc * 10 ^ Z.of_nat n + z) rest.
Proof.
  revert m acc z rest. induction n as [|n IH]; intros m acc z rest Hz.
  - cbn in *. f_equal. lia.
  - rewrite Nat2Z.inj_succ, Z.pow_succ_r in * by lia. cbn [fixed_digits].
    rewrite string_app_assoc. replace (S n + m)%nat with (n + S m)%nat by lia.
    rewrite IH by (Z.to_euclidean_division_equations; lia).
    cbn. rewrite digit_val_chr by (apply Z.mod_pos_bound; lia). cbn. f_equal.
    pose proof (Z.div_mod z 10 ltac:(lia)). lia.
Qed.

Lemma read_fixed_digits n z rest :
  0 <= z < 10 ^ Z.of_nat n ->
  read_digits n 0 (fixed_digits n z +:+ rest) = Some (z, rest).
Proof.
  intros Hz. replace n with (n + 0)%nat at 1 by lia. by rewrite read_digits_app.
Qed.

#[local] Arguments read_digits : simpl never.
#[local] Arguments fixed_digits : simpl never.

(** Parsing what [Format] printed gives the time back, to the second. *)
Lemma ParseRFC3339_Format t :
  time_in_range t -> ParseRFC3339 (FormatRFC3339 t) = Some (t - t mod second).
Proof.
  intros Ht. unfold FormatRFC3339.
  set (secs := t / second).
  assert (Hs : -719528 * 86400 <= secs < 2932897 * 86400).
  { unfold secs, time_in_range, second in *. Z.to_euclidean_division_equations. lia. }
  destruct (civil_from_days (secs / 86400)) as [[y m] d] eqn:E.
  assert (Hy : 0 <= y < 10000).
  { eapply civil_year_range; [exact E|]. Z.to_euclidean_division_equations. lia. }
  apply civil_from_days_spec in E as (Hdays & Hm & Hd).
  assert (Hd31 : d <= 31) by (unfold days_in in Hd; repeat case_match; lia).
  set (sod := secs mod 86400).
  assert (Hsod : 0 <= sod < 86400) by (apply Z.mod_pos_bound; lia).
  assert (Hh : 0 <= sod / 3600 < 24) by (Z.to_euclidean_division_equations; lia).
  assert (Hmin : 0 <= sod / 60 mod 60 < 60) by (apply Z.mod_pos_bound; lia).
  assert (Hsec : 0 <= sod mod 60 < 60) by (apply Z.mod_pos_bound; lia).
  unfold ParseRFC3339.
  do 5 (rewrite read_fixed_digits by (cbn; lia); cbn [mbind option_bind read_byte]; cbn).
  rewrite read_fixed_digits by (cbn; lia). cbn.
  rewrite !(proj2 (Z.leb_le _ _)) by lia. cbn. f_equal. rewrite Hdays.
  assert (sod = sod / 3600 * 3600 + sod / 60 mod 60 * 60 + sod mod 60)
    by (Z.to_euclidean_division_equations; lia).
  pose proof (Z.div_mod secs 86400 ltac:(lia)). fold sod in H0.
  pose proof (Z.div_mod t second ltac:(done)). fold secs in H1. lia.
Qed.

Lemma TruncateMinute_range t : time_in_range t -> time_in_range (TruncateMinute t).
Proof.
  unfold time_in_range, TruncateMinute, minute, second.
  intros H. Z.to_euclidean_division_equations. lia.
Qed.

Lemma TruncateMinute_second t : TruncateMinute t mod second = 0.
Proof.
  unfold TruncateMinute, minute, second. Z.to_euclidean_division_equations. lia.
Qed.

#[export] Hint Resolve TruncateMinute_range : nsqlite.
