(* ===== verification/Util.v ===== *)
(** * Small utilities: [numutil], [syncutil], [validate] *)
From S2P Require Import Prelude GoStrings Base64 GoTime.

(** ** [numutil.IntWithCommas]

    On a signed type of [w] bits, where [-i] wraps around; the recursion is followed
    for [fuel] calls. *)
Fixpoint IntWithCommas (fuel : nat) (w : Z) (i : Z) : option string :=
  match fuel with
  | O => None
  | S fuel' =>
      if i <? 0 then (fun s => "-" +:+ s) <$> IntWithCommas fuel' w (wrap_signed w (- i))
      else if i <? 1000 then Some (print_int i)
      else
        (fun s => s +:+ "," +:+ fixed_digits 3 (i mod 1000)) <$> IntWithCommas fuel' w (i / 1000)
  end.

(** ** [syncutil.Atomic]: the value of an [atomic.Value] holding a [T] *)

Definition Atomic (A : Type) : Type := option A.
Definition Atomic_Load {A} (zero : A) (a : Atomic A) : A :=
  match a with Some v => v | None => zero end.
Definition Atomic_Store {A} (value : A) (a : Atomic A) : Atomic A := Some value.
Definition NewAtomic {A} (initial : A) : Atomic A := Atomic_Store initial None.
Definition NewAtomicString (initial : string) : Atomic string := Atomic_Store initial None.
Definition NewAtomicTime (initial : Z) : Atomic Z := Atomic_Store initial None.

(** ** [validate] *)

(** One to [n] digits. *)
Definition digits_1_to (n : nat) (s : string) : bool :=
  ((1 <=? String.length s) && (String.length s <=? n))%nat && all_digits s.

(** The last component of an address: digits, and possibly a mask of two digits. *)
Definition host_tail (s : string) : bool :=
  match CutByte s "/" with
  | None => digits_1_to 3 s
  | Some (d, mask) => digits_1_to 3 d && (String.length mask =? 2)%nat && all_digits mask
  end.

(** [ListenHost(addr)]: the regular expression, component by component. *)
Definition ListenHost (addr : string) : bool :=
  match CutByte addr "." with
  | Some (a, r) =>
      digits_1_to 3 a &&
      match CutByte r "." with
      | Some (b, r) =>
          digits_1_to 3 b &&
          match CutByte r "." with
          | Some (c, d) => digits_1_to 3 c && host_tail d
          | None => false
          end
      | None => false
      end
  | None => false
  end.

(** [Port(port)] *)
Definition Port (port : string) : bool :=
  if negb (digits_1_to 5 port) then false
  else
    match parse_digits port with
    | None => false
    | Some portInt => negb ((portInt <? 1) || (65535 <? portInt))
    end.

(** [ContentType(contentTypeTarget, allowedContentTypes...)] *)
Definition ContentType (contentTypeTarget : string) (allowedContentTypes : list string) : bool :=
  existsb (fun allowed => contentTypeTarget =s? allowed) allowedContentTypes.

(** ** Properties *)

Fixpoint concat_strings (l : list string) : string :=
  match l with [] => "" | s :: l' => s +:+ concat_strings l' end.

(** [s] is the number [i] in groups of three digits, the first of one to three. *)
Definition grouped (i : Z) (s : string) : Prop :=
  exists g gs, s = Join (g :: gs) ","
  /\ (1 <= String.length g <= 3)%nat /\ Forall (fun x => String.length x = 3%nat) gs
  /\ parse_digits (concat_strings (g :: gs)) = Some i.

Lemma Join_snoc g gs x sep : Join ((g :: gs) ++ [x]) sep = Join (g :: gs) sep +:+ sep +:+ x.
Proof.
  revert g. induction gs as [|h gs IH]; intros g; [done|]. cbn [app] in *.
  change (Join (g :: h :: gs ++ [x]) sep) with (g +:+ sep +:+ Join (h :: gs ++ [x]) sep).
  rewrite IH. change (Join (g :: h :: gs) sep) with (g +:+ sep +:+ Join (h :: gs) sep).
  by rewrite !string_app_assoc.
Qed.

Lemma concat_strings_snoc l x : concat_strings (l ++ [x]) = concat_strings l +:+ x.
Proof.
  induction l as [|s l IH]; cbn; [apply string_app_nil_r|]. by rewrite IH, string_app_assoc.
Qed.

Lemma fixed_digits_spec n z :
  0 <= z -> String.length (fixed_digits n z) = n /\ all_digits (fixed_digits n z) = true
  /\ forall a, digits_value a (fixed_digits n z) = a * 10 ^ Z.of_nat n + z mod 10 ^ Z.of_nat n.
Proof.
  revert z. induction n as [|n IH]; intros z Hz.
  - cbn. split_and!; [done|done|]. intros a. rewrite Z.mod_1_r. lia.
  - cbn [fixed_digits]. destruct (IH (z / 10)) as (Hl & Ha & Hv); [by apply Z.div_pos|].
    pose proof (Z.mod_pos_bound z 10 ltac:(lia)) as Hm.
    destruct (is_digit_chr (z mod 10) Hm) as [Hd Hb].
    rewrite string_length_app, Hl, all_digits_app, Ha. cbn [String.length all_digits]. rewrite Hd.
    split_and!; [lia|done|]. intros a. rewrite digits_value_app, Hv. cbn [digits_value].
    rewrite Hb, Nat2Z.inj_succ, Z.pow_succ_r by lia.
    assert (Hp : 0 < 10 ^ Z.of_nat n) by (apply Z.pow_pos_nonneg; lia).
    rewrite (Z.rem_mul_r z 10 (10 ^ Z.of_nat n)) by lia. lia.
Qed.

Lemma parse_digits_some s v :
  parse_digits s = Some v <-> s <> "" /\ all_digits s = true /\ digits_value 0 s = v.
Proof.
  unfold parse_digits. destruct (s =s? "") eqn:E1; string_cases; [by split; [|intros [? _]]|].
  cbn [negb andb]. destruct (all_digits s); [|by split; [|intros (_ & ? & _)]].
  split; [intros [= <-]; by split_and!|]. by intros (_ & _ & <-).
Qed.

(** A number below a thousand is one group. *)
Lemma small_group i : 0 <= i < 1000 ->
  (1 <= String.length (print_int i) <= 3)%nat /\ parse_digits (print_int i) = Some i.
Proof.
  intros Hi.
  pose proof (below_spec 1000 (fun n =>
    let s := print_int (Z.of_nat n) in
    ((1 <=? String.length s) && (String.length s <=? 3))%nat
    && match parse_digits s with Some v => v =? Z.of_nat n | None => false end)
    (Z.to_nat i) ltac:(vm_compute; reflexivity) ltac:(lia)) as H.
  cbn zeta beta in H. rewrite Z2Nat.id in H by lia.
  apply andb_true_iff in H as [[H1 H2]%andb_true_iff H3]. apply Nat.leb_le in H1, H2.
  split; [done|]. destruct (parse_digits (print_int i)) as [v|]; [|done].
  apply Z.eqb_eq in H3. by subst.
Qed.

Lemma IntWithCommas_nonneg fuel w i :
  0 <= i < 1000 ^ Z.of_nat fuel -> (0 < fuel)%nat ->
  exists s, IntWithCommas fuel w i = Some s /\ grouped i s.
Proof.
  revert i. induction fuel as [|fuel IH]; intros i Hi Hf; [lia|]. cbn [IntWithCommas].
  rewrite (proj2 (Z.ltb_ge i 0)) by lia. destruct (Z.ltb_spec i 1000) as [Hlt|Hge].
  - destruct (small_group i) as [Hl Hp]; [lia|].
    exists (print_int i). split; [done|]. exists (print_int i), []. cbn [Join concat_strings].
    split; [done|]. split; [exact Hl|]. split; [constructor|]. by rewrite string_app_nil_r.
  - rewrite Nat2Z.inj_succ, Z.pow_succ_r in Hi by lia. destruct fuel as [|fuel]; [cbn in Hi; lia|].
    destruct (IH (i / 1000)) as (s & -> & g & gs & -> & Hg & Hgs & Hv).
    { split; [by apply Z.div_pos; lia|]. apply Z.div_lt_upper_bound; lia. }
    { lia. }
    pose proof (Z.mod_pos_bound i 1000 ltac:(lia)) as Hm.
    destruct (fixed_digits_spec 3 (i mod 1000)) as (Hl & Ha & Hd); [lia|].
    eexists. split; [reflexivity|]. exists g, (gs ++ [fixed_digits 3 (i mod 1000)]).
    split; [exact (eq_sym (Join_snoc _ _ _ _))|]. split; [exact Hg|]. split.
    + apply Forall_app. split; [done|]. by repeat constructor.
    + change (g :: gs ++ ?x) with ((g :: gs) ++ x). rewrite concat_strings_snoc.
      apply parse_digits_some in Hv as (Hne & Had & Hdv). apply parse_digits_some.
      rewrite all_digits_app, digits_value_app, Had, Hd, Hdv, Ha.
      split_and!; [by destruct (concat_strings (g :: gs))|done|].
      rewrite (Z.mod_small (i mod 1000)) by (cbn; lia).
      pose proof (Z.div_mod i 1000 ltac:(lia)). change (10 ^ Z.of_nat 3) with 1000. lia.
Qed.

Lemma IntWithCommas_neg fuel w i :
  i < 0 ->
  IntWithCommas (S fuel) w i
  = (fun s => "-" +:+ s) <$> IntWithCommas fuel w (wrap_signed w (- i)).
Proof. intros Hi. cbn [IntWithCommas]. by rewrite (proj2 (Z.ltb_lt i 0)). Qed.

(** A number is printed in groups of three digits that read back as the number.  It
    holds of every integer of 64 bits but the least one, in at most nine calls. *)
Theorem IntWithCommas_grouped i :
  - 2 ^ 63 < i < 2 ^ 63 ->
  exists s, IntWithCommas 9 64 i = Some (if i <? 0 then "-" +:+ s else s) /\ grouped (Z.abs i) s.
Proof.
  intros Hi. destruct (Z.ltb_spec i 0) as [Hneg|Hpos].
  - rewrite (IntWithCommas_neg 8) by lia. rewrite wrap_signed_small by lia.
    destruct (IntWithCommas_nonneg 8 64 (- i)) as (s & -> & Hs); [cbn; lia|lia|].
    exists s. split; [done|]. by replace (Z.abs i) with (- i) by lia.
  - destruct (IntWithCommas_nonneg 9 64 i) as (s & -> & Hs); [cbn; lia|lia|].
    exists s. split; [done|]. by replace (Z.abs i) with i by lia.
Qed.

Lemma IntWithCommas_grouped_witness :
  exists s, IntWithCommas 9 64 (-1234567) = Some s /\ s = "-1,234,567".
Proof.
  destruct (IntWithCommas_grouped (-1234567)) as (s & H & _); [lia|].
  eexists. split; [exact H|]. vm_compute in H. apply (inj Some) in H. exact (eq_sym H).
Defined.

(** On the least integer of any width the function calls itself for ever: its
    negation is itself. *)
Theorem IntWithCommas_diverges w fuel : 0 < w -> IntWithCommas fuel w (- 2 ^ (w - 1)) = None.
Proof.
  intros Hw. induction fuel as [|fuel IH]; [done|]. cbn [IntWithCommas].
  assert (Hp : 0 < 2 ^ (w - 1)) by (apply Z.pow_pos_nonneg; lia).
  assert (H2 : 2 ^ w = 2 * 2 ^ (w - 1)) by (rewrite <- Z.pow_succ_r by lia; f_equal; lia).
  rewrite (proj2 (Z.ltb_lt _ 0)) by lia.
  assert (Hwrap : wrap_signed w (- - 2 ^ (w - 1)) = - 2 ^ (w - 1)).
  { unfold wrap_signed. rewrite Z.opp_involutive, Z.mod_small by lia.
    destruct (Z.ltb_spec (2 ^ (w - 1)) (2 ^ (w - 1))); lia. }
  by rewrite Hwrap, IH.
Qed.

Lemma IntWithCommas_diverges_witness : 0 < 64 /\ IntWithCommas 1000 64 (- 2 ^ 63) = None.
Proof. split; [lia|]. apply (IntWithCommas_diverges 64 1000). lia. Defined.

(** The ports that are accepted are exactly the numbers from 1 to 65535 written in
    at most five digits, leading zeros included. *)
Theorem Port_accepts port :
  Port port = true <->
  (String.length port <= 5)%nat /\ exists n, parse_digits port = Some n /\ 1 <= n <= 65535.
Proof.
  unfold Port, digits_1_to. split.
  - destruct (negb _) eqn:E; [done|]. apply negb_false_iff, andb_true_iff in E as [[H1 H2]%andb_true_iff _].
    apply Nat.leb_le in H1, H2. destruct (parse_digits port) as [n|]; [|done].
    intros H%negb_true_iff. apply orb_false_iff in H as [H3 H4]. apply Z.ltb_ge in H3, H4.
    split; [done|]. by exists n.
  - intros [Hl (n & Hp & Hn)]. rewrite Hp. apply parse_digits_some in Hp as (Hne & Ha & _).
    rewrite Ha, (proj2 (Nat.leb_le _ 5)) by done.
    rewrite (proj2 (Nat.leb_le 1 _)) by (destruct port; cbn; [done|lia]). cbn [negb andb].
    apply negb_true_iff, orb_false_iff. split; apply Z.ltb_ge; lia.
Qed.
