(* ===== verification/Config.v ===== *)
(** * Configuration: [internal/config/config.go], [internal/version/version.go]

    The command-line library (go-arg), which fills in flags, environment variables and
    defaults, is the class [ArgParser]; what the code checks afterwards is here.  The
    library that draws the banner (tinta) is the class [Tinta]. *)
From S2P Require Import Prelude GoStrings GoTime Util.

Record Config : Type := MkConfig {
  AuthToken : string;
  AuthTokenRW : string;
  AuthTokenRO : string;
  DataDir : string;
  cfListenHost : string;
  cfListenPort : string;
  TxIdleTimeout : Z;
  MaxReadConns : Z;
  CacheSizeKB : Z;
  BusyTimeout : Z;
  MaxRequestSizeMB : Z }.

Class ArgParser : Type := { arg_Parse : list string -> result Config }.

(** [args = append(args, name, value)] under a condition. *)
Definition flag_if (present : bool) (name value : string) : list string :=
  if present then [name; value] else [].

(** [(Config) ToArgs()] *)
Definition ToArgs (c : Config) : list string :=
  flag_if (negb (AuthToken c =s? "")) "--auth-token" (AuthToken c)
  ++ flag_if (negb (AuthTokenRW c =s? "")) "--auth-token-rw" (AuthTokenRW c)
  ++ flag_if (negb (AuthTokenRO c =s? "")) "--auth-token-ro" (AuthTokenRO c)
  ++ flag_if (negb (DataDir c =s? "")) "--data-dir" (DataDir c)
  ++ flag_if (negb (cfListenHost c =s? "")) "--listen-host" (cfListenHost c)
  ++ flag_if (negb (cfListenPort c =s? "")) "--listen-port" (cfListenPort c)
  ++ flag_if (negb (TxIdleTimeout c =? 0)) "--tx-idle-timeout" (DurationString (TxIdleTimeout c))
  ++ flag_if (negb (MaxReadConns c =? 0)) "--max-read-conns" (print_int (MaxReadConns c))
  ++ flag_if (negb (CacheSizeKB c =? 0)) "--cache-size-kb" (print_int (CacheSizeKB c))
  ++ flag_if (negb (BusyTimeout c =? 0)) "--busy-timeout" (DurationString (BusyTimeout c))
  ++ flag_if (negb (MaxRequestSizeMB c =? 0)) "--max-request-size-mb"
       (print_int (MaxRequestSizeMB c)).

(** [validateTransactionTimeout], [validateBusyTimeout], [validateCacheSize] *)
Definition validateTransactionTimeout (timeout : Z) : option go_error :=
  if timeout <=? 0
  then Some (ErrNew ("invalid transaction timeout " +:+ DurationString timeout
                     +:+ ", must be greater than zero"))
  else None.
Definition validateBusyTimeout (timeout : Z) : option go_error :=
  if timeout <=? 0
  then Some (ErrNew ("invalid busy timeout " +:+ DurationString timeout
                     +:+ ", must be greater than zero"))
  else None.
Definition validateCacheSize (size : Z) : option go_error :=
  if size <=? 0
  then Some (ErrNew ("invalid cache size " +:+ print_int size +:+ " KB, must be greater than zero"))
  else None.

(** [Parse(args)] *)
Definition Config_Parse `{ArgParser} (args : list string) : result Config :=
  match arg_Parse args with
  | Err err => Err err
  | Ok cfg =>
      if negb (ListenHost (cfListenHost cfg))
      then Err (ErrNew ("invalid listen address " +:+ cfListenHost cfg))
      else if negb (Port (cfListenPort cfg))
      then Err (ErrNew ("invalid listen port " +:+ cfListenPort cfg +:+ ", valid values are 1-65535"))
      else
        match validateTransactionTimeout (TxIdleTimeout cfg) with
        | Some err => Err err
        | None =>
            match validateBusyTimeout (BusyTimeout cfg) with
            | Some err => Err err
            | None =>
                match validateCacheSize (CacheSizeKB cfg) with
                | Some err => Err err
                | None => Ok cfg
                end
            end
        end
  end.

(** [MustParse(args)]; an error ends the process with its message. *)
Definition Config_MustParse `{ArgParser} (args : list string) : result Config :=
  Config_Parse args.

(** [splitAuthTokens(value)] and the three token lists *)
Definition splitAuthTokens (value : string) : list string :=
  if value =s? "" then [] else Fields value.
Definition AuthTokens (c : Config) : list string := splitAuthTokens (AuthToken c).
Definition ReadWriteAuthTokens (c : Config) : list string := splitAuthTokens (AuthTokenRW c).
Definition ReadOnlyAuthTokens (c : Config) : list string := splitAuthTokens (AuthTokenRO c).

(** The version of the build, without white space and its "v" ([init] of
    [version.go]). *)
Definition version_init (ldflags : string) : string := TrimPrefix (TrimSpace ldflags) "v".

(** Styles and boxes, by the names of the methods that were called on them. *)
Class Tinta : Type := {
  tinta_String : list string -> string -> string;
  tinta_Box : list string -> list Z -> string -> string;
  tinta_Canvas : list (string * Z * Z) -> string }.

Definition asciiLogo : list string :=
  ["    _   _______ ____    __    _ __     ";
   "   / | / / ___// __ \  / /   (_) /____ ";
   "  /  |/ /\__ \/ / / / / /   / / __/ _ \";
   " / /|  /___/ / /_/ / / /___/ / /_/  __/";
   "/_/ |_//____/\___\_\/_____/_/\__/\___/ "].

(** [AsciiArt]: the banner.  It is the initial value of a package variable, computed before
    [init] runs, so [version] is the one of the build, as it was given. *)
Definition newline : string := String (byte_chr 10) EmptyString.
Definition banner_content `{Tinta} (version : string) : string :=
  let textBold := tinta_String ["White"; "Bold"] in
  let textCyan := tinta_String ["Cyan"; "Bold"] in
  let textGreen := tinta_String ["Green"; "Bold"] in
  let textLink := tinta_String ["Cyan"; "Bold"; "Underline"] in
  foldr (fun line rest => textCyan line +:+ newline +:+ rest) "" asciiLogo
  +:+ textGreen ("v" +:+ version) +:+ newline +:+ newline
  +:+ textBold "Star the repo: " +:+ textLink "https://github.com/varavelio/nsqlite" +:+ newline
  +:+ textBold "Show usage:    " +:+ "nsqlite --help" +:+ newline
  +:+ textBold "Show version:  " +:+ "nsqlite --version".
Definition AsciiArt `{Tinta} (version : string) : string :=
  let content := banner_content version in
  let centered := map Z.of_nat (seq 0 (length asciiLogo + 1)) in
  let mainBox := tinta_Box ["BorderHeavy"; "Blue"; "Bold"; "PaddingX 1"] centered content in
  let shadowBox := tinta_Box ["BorderDouble"; "Blue"; "PaddingX 1"] [] content in
  tinta_Canvas [(shadowBox, 1, 1); (mainBox, 0, 0)].

(** [(Config) Version()] *)
Definition Config_Version `{Tinta} (version : string) : string := AsciiArt version +:+ newline.

(** ** Reading the arguments back *)

(** The value of a flag in a list of flags and values. *)
Fixpoint flag_value (name : string) (args : list string) : option string :=
  match args with
  | n :: v :: args' => if n =s? name then Some v else flag_value name args'
  | _ => None
  end.

Lemma flag_value_if name present n v rest :
  flag_value name (flag_if present n v ++ rest)
  = if present && (n =s? name) then Some v else flag_value name rest.
Proof. by destruct present. Qed.

(** The arguments of a configuration say what it says: each flag is there with its
    printed value exactly when its field is not zero. *)
Theorem ToArgs_flags c :
  map (fun name => flag_value name (ToArgs c))
    ["--auth-token"; "--data-dir"; "--listen-host"; "--listen-port"; "--max-read-conns";
     "--max-request-size-mb"]
  = [(if AuthToken c =s? "" then None else Some (AuthToken c));
     (if DataDir c =s? "" then None else Some (DataDir c));
     (if cfListenHost c =s? "" then None else Some (cfListenHost c));
     (if cfListenPort c =s? "" then None else Some (cfListenPort c));
     (if MaxReadConns c =? 0 then None else Some (print_int (MaxReadConns c)));
     (if MaxRequestSizeMB c =? 0 then None else Some (print_int (MaxRequestSizeMB c)))].
Proof.
  unfold ToArgs. cbn [map]. rewrite !flag_value_if.
  rewrite <- (app_nil_r (flag_if (negb (MaxRequestSizeMB c =? 0)) _ _)), !flag_value_if.
  cbn [String.eqb Ascii.eqb Bool.eqb]. rewrite ?andb_false_r, ?andb_true_r. cbn [flag_value].
  repeat f_equal; match goal with |- context [negb ?b] => by destruct b end.
Qed.
