(* ===== verification/Stats.v ===== *)
(** * Statistics: [internal/stats]

    The per-minute counters, the queue gauges, the cleanup worker and
    [LoadStats].  The [sync.Map] from minute keys to counters is a [gmap]; the
    counters are [atomic.Int64], so every addition wraps at 64 bits.  The current
    time is an argument of the operations that call [time.Now]. *)
From S2P Require Import Prelude GoStrings GoTime.

(** ** The state *)

Record minuteData : Type := MkMinuteData {
  reads : Z; writes : Z; begins : Z; commits : Z; rollbacks : Z; errors : Z; httpRequests : Z }.

Definition zero_minute : minuteData := MkMinuteData 0 0 0 0 0 0 0.

Record DBStats : Type := MkDBStats {
  startedAt : Z;
  minutes : gmap string minuteData;
  queuedBegins : Z;
  queuedWrites : Z;
  queuedHTTPRequests : Z;
  stopped : bool }.

(** [NewDBStats] at time [now]; [stopped] is the closed [stopChan]. *)
Definition NewDBStats (now : Z) : DBStats := MkDBStats now ∅ 0 0 0 false.

(** [Close]: closing an already closed channel panics. *)
Definition Stats_Close (db : DBStats) : option DBStats :=
  if stopped db then None
  else Some (MkDBStats (startedAt db) (minutes db) (queuedBegins db) (queuedWrites db)
                       (queuedHTTPRequests db) true).

Definition set_minutes (f : gmap string minuteData -> gmap string minuteData) (db : DBStats) : DBStats :=
  MkDBStats (startedAt db) (f (minutes db)) (queuedBegins db) (queuedWrites db)
            (queuedHTTPRequests db) (stopped db).

(** ** Counters *)

Definition minuteKey (now : Z) : string := FormatRFC3339 (TruncateMinute now).

(** The key and counters of the current minute, and the state in which they exist. *)
Definition getOrCreateMinuteData (now : Z) (db : DBStats) : string * minuteData * DBStats :=
  let key := minuteKey now in
  match minutes db !! key with
  | Some md => (key, md, db)
  | None => (key, zero_minute, set_minutes (fun m => <[key := zero_minute]> m) db)
  end.

(** [md := db.getOrCreateMinuteData(); md.counter.Add(1)] *)
Definition bump (f : minuteData -> minuteData) (now : Z) (db : DBStats) : DBStats :=
  let '(key, md, db') := getOrCreateMinuteData now db in
  set_minutes (fun m => <[key := f md]> m) db'.

Definition IncReads : Z -> DBStats -> DBStats := bump (fun md =>
  MkMinuteData (int64 (reads md + 1)) (writes md) (begins md) (commits md) (rollbacks md)
    (errors md) (httpRequests md)).
Definition IncWrites : Z -> DBStats -> DBStats := bump (fun md =>
  MkMinuteData (reads md) (int64 (writes md + 1)) (begins md) (commits md) (rollbacks md)
    (errors md) (httpRequests md)).
Definition IncBegins : Z -> DBStats -> DBStats := bump (fun md =>
  MkMinuteData (reads md) (writes md) (int64 (begins md + 1)) (commits md) (rollbacks md)
    (errors md) (httpRequests md)).
Definition IncCommits : Z -> DBStats -> DBStats := bump (fun md =>
  MkMinuteData (reads md) (writes md) (begins md) (int64 (commits md + 1)) (rollbacks md)
    (errors md) (httpRequests md)).
Definition IncRollbacks : Z -> DBStats -> DBStats := bump (fun md =>
  MkMinuteData (reads md) (writes md) (begins md) (commits md) (int64 (rollbacks md + 1))
    (errors md) (httpRequests md)).
Definition IncErrors : Z -> DBStats -> DBStats := bump (fun md =>
  MkMinuteData (reads md) (writes md) (begins md) (commits md) (rollbacks md)
    (int64 (errors md + 1)) (httpRequests md)).
Definition IncHTTPRequests : Z -> DBStats -> DBStats := bump (fun md =>
  MkMinuteData (reads md) (writes md) (begins md) (commits md) (rollbacks md)
    (errors md) (int64 (httpRequests md + 1))).

(** The gauges of what is queued. *)
Definition add_queuedBegins (d : Z) (db : DBStats) : DBStats :=
  MkDBStats (startedAt db) (minutes db) (int64 (queuedBegins db + d)) (queuedWrites db)
            (queuedHTTPRequests db) (stopped db).
Definition add_queuedWrites (d : Z) (db : DBStats) : DBStats :=
  MkDBStats (startedAt db) (minutes db) (queuedBegins db) (int64 (queuedWrites db + d))
            (queuedHTTPRequests db) (stopped db).
Definition add_queuedHTTPRequests (d : Z) (db : DBStats) : DBStats :=
  MkDBStats (startedAt db) (minutes db) (queuedBegins db) (queuedWrites db)
            (int64 (queuedHTTPRequests db + d)) (stopped db).

Definition IncQueuedBegins : DBStats -> DBStats := add_queuedBegins 1.
Definition DecQueuedBegins : DBStats -> DBStats := add_queuedBegins (-1).
Definition IncQueuedWrites : DBStats -> DBStats := add_queuedWrites 1.
Definition DecQueuedWrites : DBStats -> DBStats := add_queuedWrites (-1).
Definition IncQueuedHTTPRequests : DBStats -> DBStats := add_queuedHTTPRequests 1.
Definition DecQueuedHTTPRequests : DBStats -> DBStats := add_queuedHTTPRequests (-1).

(** The calls the other components make, as data. *)
Inductive stat_op : Type :=
| StIncReads | StIncWrites | StIncBegins | StIncCommits | StIncRollbacks | StIncErrors
| StIncHTTPRequests
| StIncQueuedBegins | StDecQueuedBegins | StIncQueuedWrites | StDecQueuedWrites
| StIncQueuedHTTPRequests | StDecQueuedHTTPRequests.

Definition stat_apply (op : stat_op) (now : Z) (db : DBStats) : DBStats :=
  match op with
  | StIncReads => IncReads now db
  | StIncWrites => IncWrites now db
  | StIncBegins => IncBegins now db
  | StIncCommits => IncCommits now db
  | StIncRollbacks => IncRollbacks now db
  | StIncErrors => IncErrors now db
  | StIncHTTPRequests => IncHTTPRequests now db
  | StIncQueuedBegins => IncQueuedBegins db
  | StDecQueuedBegins => DecQueuedBegins db
  | StIncQueuedWrites => IncQueuedWrites db
  | StDecQueuedWrites => DecQueuedWrites db
  | StIncQueuedHTTPRequests => IncQueuedHTTPRequests db
  | StDecQueuedHTTPRequests => DecQueuedHTTPRequests db
  end.

(** ** The cleanup worker *)

(** What one tick of [runCleanupWorker] keeps: the [Range] callback deletes the
    keys that parse to a time before the cutoff. *)
Definition keep_minute (cutoff : Z) (key : string) : bool :=
  match ParseRFC3339 key with
  | None => true
  | Some t => negb (t <? cutoff)
  end.
Definition cleanup_tick (now : Z) (db : DBStats) : DBStats :=
  let cutoff := now - 24 * hour in
  set_minutes (filter (fun kv => keep_minute cutoff (fst kv) = true)) db.

(** The worker's loop over the events its [select] receives: ticks at given
    times, then the closed [stopChan]; [n] bounds the iterations. *)
Inductive cleanup_event : Type :=
| CleanupTick (now : Z)
| CleanupStop.
Fixpoint runCleanupWorker (events : list cleanup_event) (db : DBStats) : DBStats :=
  match events with
  | [] => db
  | CleanupStop :: _ => db
  | CleanupTick now :: events' => runCleanupWorker events' (cleanup_tick now db)
  end.

(** ** Loading *)

Record Totals : Type := MkTotals {
  totReads : Z; totWrites : Z; totBegins : Z; totCommits : Z; totRollbacks : Z;
  totErrors : Z; totHTTPRequests : Z }.

Record Stat : Type := MkStat {
  Minute : string;
  stReads : Z; stWrites : Z; stBegins : Z; stCommits : Z; stRollbacks : Z;
  stErrors : Z; stHTTPRequests : Z }.

Record LoadedStats : Type := MkLoadedStats {
  ldStartedAt : string;
  ldUptime : string;
  ldQueuedBegins : Z;
  ldQueuedWrites : Z;
  ldQueuedHTTPRequests : Z;
  ldTotals : Totals;
  ldStats : list Stat }.

Definition zero_totals : Totals := MkTotals 0 0 0 0 0 0 0.

(** The body of the [Range] callback. *)
Definition add_totals (md : minuteData) (tot : Totals) : Totals :=
  MkTotals (int64 (totReads tot + reads md)) (int64 (totWrites tot + writes md))
    (int64 (totBegins tot + begins md)) (int64 (totCommits tot + commits md))
    (int64 (totRollbacks tot + rollbacks md)) (int64 (totErrors tot + errors md))
    (int64 (totHTTPRequests tot + httpRequests md)).
Definition minute_stat (kv : string * minuteData) : Stat :=
  let '(k, md) := kv in
  MkStat k (reads md) (writes md) (begins md) (commits md) (rollbacks md) (errors md)
    (httpRequests md).

(** [time.Parse] of a key, the zero time (January 1, year 1) when it fails. *)
Definition zero_time : Z := days_from_civil 1 1 1 * 86400 * second.
Definition stat_time (s : Stat) : Z := default zero_time (ParseRFC3339 (Minute s)).

(** [sort.Slice] with [tj.Before(ti)]: latest minute first. *)
Definition stat_later (s1 s2 : Stat) : Prop := stat_time s2 <= stat_time s1.
#[export] Instance stat_later_dec s1 s2 : Decision (stat_later s1 s2).
Proof. unfold stat_later. apply _. Defined.

Definition LoadStats (now : Z) (db : DBStats) : LoadedStats :=
  let entries := map_to_list (minutes db) in
  MkLoadedStats
    (FormatRFC3339 (startedAt db))
    (DurationString (RoundSecond (now - startedAt db)))
    (queuedBegins db) (queuedWrites db) (queuedHTTPRequests db)
    (foldl (fun tot kv => add_totals (snd kv) tot) zero_totals entries)
    (merge_sort stat_later (map minute_stat entries)).

(** ** Specification of the totals *)

(** The effect of an operation on the totals: one more completed operation. *)
Definition totals_bump (op : stat_op) (t : Totals) : Totals :=
  let inc z := int64 (z + 1) in
  let '(MkTotals r w b c rb e h) := t in
  match op with
  | StIncReads => MkTotals (inc r) w b c rb e h
  | StIncWrites => MkTotals r (inc w) b c rb e h
  | StIncBegins => MkTotals r w (inc b) c rb e h
  | StIncCommits => MkTotals r w b (inc c) rb e h
  | StIncRollbacks => MkTotals r w b c (inc rb) e h
  | StIncErrors => MkTotals r w b c rb (inc e) h
  | StIncHTTPRequests => MkTotals r w b c rb e (inc h)
  | _ => t
  end.

Fixpoint Zsum (l : list Z) : Z :=
  match l with [] => 0 | z :: l' => z + Zsum l' end.

(** The sum of a counter over the minutes of a map. *)
Definition minutes_sum (f : minuteData -> Z) (m : gmap string minuteData) : Z :=
  Zsum (map (fun kv => f (snd kv)) (map_to_list m)).

(** The totals as sums modulo [2^64]. *)
Definition totals_of (m : gmap string minuteData) : Totals :=
  MkTotals (int64 (minutes_sum reads m)) (int64 (minutes_sum writes m))
    (int64 (minutes_sum begins m)) (int64 (minutes_sum commits m))
    (int64 (minutes_sum rollbacks m)) (int64 (minutes_sum errors m))
    (int64 (minutes_sum httpRequests m)).

(** The totals a list of per-minute entries adds up to. *)
Definition sum_stats (l : list Stat) : Totals :=
  MkTotals (int64 (Zsum (map stReads l))) (int64 (Zsum (map stWrites l)))
    (int64 (Zsum (map stBegins l))) (int64 (Zsum (map stCommits l)))
    (int64 (Zsum (map stRollbacks l))) (int64 (Zsum (map stErrors l)))
    (int64 (Zsum (map stHTTPRequests l))).

(** ** Lemmas *)

Lemma Zsum_Permutation l1 l2 : l1 ≡ₚ l2 -> Zsum l1 = Zsum l2.
Proof. induction 1; cbn; lia. Qed.

Lemma minutes_sum_insert_new f m k x :
  m !! k = None -> minutes_sum f (<[k := x]> m) = f x + minutes_sum f m.
Proof.
  intros Hk. unfold minutes_sum.
  rewrite (Zsum_Permutation _ (map (fun kv => f (snd kv)) ((k, x) :: map_to_list m))); [done|].
  apply Permutation_map. by apply map_to_list_insert.
Qed.

Lemma minutes_sum_insert f m k x y :
  m !! k = Some y -> minutes_sum f (<[k := x]> m) = minutes_sum f m - f y + f x.
Proof.
  intros Hk.
  assert (Hm : minutes_sum f m = f y + minutes_sum f (delete k m)).
  { rewrite <- (minutes_sum_insert_new f (delete k m) k y) by apply lookup_delete_eq.
    by rewrite insert_delete_eq, insert_id. }
  assert (Hi : minutes_sum f (<[k := x]> m) = f x + minutes_sum f (delete k m)).
  { rewrite <- (minutes_sum_insert_new f (delete k m) k x) by apply lookup_delete_eq.
    by rewrite insert_delete_eq. }
  lia.
Qed.

Lemma int64_eq_mod a b : (a - b) mod 2 ^ 64 = 0 -> int64 a = int64 b.
Proof.
  intros H. unfold int64, wrap_signed. replace (a mod 2 ^ 64) with (b mod 2 ^ 64); [done|].
  replace a with (b + (a - b)) by lia. rewrite Z.add_mod, H by lia.
  rewrite Z.add_0_r. by rewrite Z.mod_mod by lia.
Qed.

Lemma int64_mod z : exists k, int64 z = z + k * 2 ^ 64.
Proof.
  unfold int64, wrap_signed. pose proof (Z.div_mod z (2 ^ 64) ltac:(lia)).
  destruct (_ <? _); [exists (- (z / 2 ^ 64)) | exists (- (z / 2 ^ 64) - 1)]; lia.
Qed.

Lemma int64_add_l a b : int64 (int64 a + b) = int64 (a + b).
Proof.
  destruct (int64_mod a) as [k ->]. apply int64_eq_mod.
  replace (a + k * 2 ^ 64 + b - (a + b)) with (k * 2 ^ 64) by lia. by apply Z.mod_mul.
Qed.

Lemma int64_idem a : int64 (int64 a) = int64 a.
Proof. pose proof (int64_add_l a 0) as H. by rewrite !Z.add_0_r in H. Qed.

Lemma add_totals_foldl l tot :
  (forall z, z = totReads tot \/ z = totWrites tot \/ z = totBegins tot \/ z = totCommits tot
             \/ z = totRollbacks tot \/ z = totErrors tot \/ z = totHTTPRequests tot ->
             int64 z = z) ->
  let s f := Zsum (map (fun kv : string * minuteData => f (snd kv)) l) in
  foldl (fun tot kv => add_totals (snd kv) tot) tot l =
  MkTotals (int64 (totReads tot + s reads)) (int64 (totWrites tot + s writes))
    (int64 (totBegins tot + s begins)) (int64 (totCommits tot + s commits))
    (int64 (totRollbacks tot + s rollbacks)) (int64 (totErrors tot + s errors))
    (int64 (totHTTPRequests tot + s httpRequests)).
Proof.
  revert tot; induction l as [|[k md] l IH]; intros tot Hid; cbn.
  - rewrite !Z.add_0_r. destruct tot; cbn in *. f_equal; symmetry; apply Hid; tauto.
  - rewrite IH.
    + cbn. rewrite !int64_add_l. f_equal; f_equal; lia.
    + unfold add_totals; cbn. intros z Hz.
      destruct_or! Hz; subst z; apply int64_idem.
Qed.

(** [LoadStats] sums each counter over the retained minutes. *)
Lemma LoadStats_totals now db : ldTotals (LoadStats now db) = totals_of (minutes db).
Proof.
  cbn. rewrite add_totals_foldl; [done|].
  cbn. intros z Hz. destruct_or! Hz; by subst z.
Qed.

(** Adding one to a counter of the current minute. *)
Lemma minutes_sum_bump f g now db :
  f zero_minute = 0 ->
  minutes_sum f (minutes (bump g now db)) =
  minutes_sum f (minutes db)
  + (let md := default zero_minute (minutes db !! minuteKey now) in f (g md) - f md).
Proof.
  intros Hf. unfold bump, getOrCreateMinuteData.
  destruct (minutes db !! minuteKey now) as [md|] eqn:E; cbn.
  - rewrite (minutes_sum_insert _ _ _ _ _ E). lia.
  - rewrite insert_insert_eq, minutes_sum_insert_new by done.
    change (MkMinuteData 0 0 0 0 0 0 0) with zero_minute in *. lia.
Qed.

Lemma int64_sub_add a z : int64 (z + (int64 (a + 1) - a)) = int64 (int64 z + 1).
Proof.
  rewrite int64_add_l. destruct (int64_mod (a + 1)) as [k ->]. apply int64_eq_mod.
  replace (z + (a + 1 + k * 2 ^ 64 - a) - (z + 1)) with (k * 2 ^ 64) by lia.
  by apply Z.mod_mul.
Qed.

(** Each counted operation adds one to its own total and to no other. *)
Lemma totals_of_stat_apply op now db :
  totals_of (minutes (stat_apply op now db)) = totals_bump op (totals_of (minutes db)).
Proof.
  destruct op; try reflexivity;
    unfold stat_apply, IncReads, IncWrites, IncBegins, IncCommits, IncRollbacks, IncErrors,
      IncHTTPRequests, totals_of, totals_bump;
    rewrite !minutes_sum_bump by done; cbn zeta;
    destruct (default zero_minute (minutes db !! minuteKey now));
    cbn [reads writes begins commits rollbacks errors httpRequests];
    rewrite ?Z.sub_diag, ?Z.add_0_r, int64_sub_add; reflexivity.
Qed.

(** ** Properties *)

(** Every counted operation increments exactly its own cumulative total. *)
Theorem LoadStats_counts op now t db :
  ldTotals (LoadStats t (stat_apply op now db)) =
  totals_bump op (ldTotals (LoadStats t db)).
Proof. rewrite !LoadStats_totals. apply totals_of_stat_apply. Qed.

#[local] Instance stat_later_total : Total stat_later.
Proof. intros s1 s2. unfold stat_later. lia. Qed.

#[local] Instance stat_later_trans : Transitive stat_later.
Proof. intros s1 s2 s3. unfold stat_later. lia. Qed.


(** The cleanup keeps exactly the minutes that are at most 24 hours old, with
    their counters: reading any minute of the years 0 to 9999 afterwards finds
    what was there, or nothing when the minute lies before the cutoff. *)
Theorem cleanup_tick_lookup now t db :
  time_in_range t ->
  minutes (cleanup_tick now db) !! minuteKey t =
  if TruncateMinute t <? now - 24 * hour then None else minutes db !! minuteKey t.
Proof.
  intros Ht. unfold cleanup_tick, set_minutes. cbn [minutes].
  set (cutoff := now - 24 * hour).
  assert (Hk : keep_minute cutoff (minuteKey t) = negb (TruncateMinute t <? cutoff)).
  { unfold keep_minute, minuteKey. rewrite ParseRFC3339_Format by auto with nsqlite.
    by rewrite TruncateMinute_second, Z.sub_0_r. }
  rewrite map_lookup_filter.
  destruct (minutes db !! minuteKey t) as [md|]; cbn [mbind option_bind];
    [|by destruct (_ <? _)].
  case_guard as Hg; assert (Hg' := Hg); cbn [fst] in Hg'; rewrite Hk in Hg';
    by destruct (_ <? _).
Qed.

Lemma cleanup_tick_lookup_witness :
  time_in_range (90 * minute) /\
  minutes (cleanup_tick (26 * hour) (IncReads (90 * minute) (NewDBStats 0)))
    !! minuteKey (90 * minute) = None.
Proof.
  assert (H : time_in_range (90 * minute)) by (vm_compute; split; congruence).
  split; [exact H|]. rewrite (cleanup_tick_lookup (26 * hour) (90 * minute) _ H).
  vm_compute. reflexivity.
Defined.
