(* ===== verification/Authorizer.v ===== *)
(** * The SQLite authorizer: [internal/sqlite/sqlite.c]

    The callback that decides, action by action, what a statement being prepared
    may do under the role of its connection.  C strings that may be [NULL] are
    [option string]; [int] results are the two codes the callback returns. *)
From S2P Require Import Prelude GoStrings.

(** The action codes of [sqlite3.h] that the callback names, and all others. *)
Inductive sqlite_action : Type :=
| SQLITE_SELECT | SQLITE_READ | SQLITE_RECURSIVE | SQLITE_FUNCTION | SQLITE_PRAGMA
| SQLITE_TRANSACTION | SQLITE_SAVEPOINT
| SQLITE_INSERT | SQLITE_UPDATE | SQLITE_DELETE
| SQLITE_OTHER (code : Z).

Inductive auth_code : Type := AUTH_OK | AUTH_DENY.

#[export] Instance sqlite_action_eq_dec : EqDecision sqlite_action.
Proof. solve_decision. Defined.
#[export] Instance auth_code_eq_dec : EqDecision auth_code.
Proof. solve_decision. Defined.

Definition CUST_AUTHORIZER_ROLE_ADMIN : Z := 0.
Definition CUST_AUTHORIZER_ROLE_READ_WRITE : Z := 1.
Definition CUST_AUTHORIZER_ROLE_READ_ONLY : Z := 2.

(** [strcmp(name, s) == 0] and [strncmp(name, s, strlen(s)) == 0] on a non-NULL name. *)
Definition c_is (name : string) (s : string) : bool := name =s? s.

Definition cust_authorizer_is_internal_table (name : option string) : bool :=
  match name with Some n => HasPrefix n "sqlite_" | None => false end.

Definition allowed_function_names : list string :=
  ["abs"; "avg"; "changes"; "char"; "coalesce"; "concat"; "concat_ws"; "count"; "date";
   "datetime"; "format"; "glob"; "group_concat"; "hex"; "if"; "ifnull"; "iif"; "instr";
   "json"; "json_array"; "json_array_insert"; "json_array_length"; "json_each";
   "json_error_position"; "json_extract"; "json_group_array"; "json_group_object";
   "json_insert"; "json_object"; "json_patch"; "json_pretty"; "json_quote"; "json_remove";
   "json_replace"; "json_set"; "json_tree"; "json_type"; "json_valid"; "jsonb";
   "jsonb_array"; "jsonb_array_insert"; "jsonb_each"; "jsonb_extract"; "jsonb_group_array";
   "jsonb_group_object"; "jsonb_insert"; "jsonb_object"; "jsonb_patch"; "jsonb_remove";
   "jsonb_replace"; "jsonb_set"; "jsonb_tree"; "julianday"; "last_insert_rowid"; "length";
   "like"; "likelihood"; "likely"; "lower"; "ltrim"; "max"; "min"; "nullif";
   "octet_length"; "printf"; "quote"; "random"; "randomblob"; "replace"; "round"; "rtrim";
   "sign"; "sqlite_compileoption_get"; "sqlite_compileoption_used"; "sqlite_source_id";
   "sqlite_version"; "strftime"; "substr"; "substring"; "sum"; "time"; "timediff"; "total";
   "total_changes"; "trim"; "typeof"; "unhex"; "unicode"; "unistr"; "unistr_quote";
   "unixepoch"; "unlikely"; "upper"; "zeroblob"].

Definition cust_authorizer_is_allowed_function (name : option string) : bool :=
  match name with
  | None => false
  | Some n => existsb (c_is n) allowed_function_names
  end.

Definition introspection_pragmas : list string :=
  ["table_info"; "table_xinfo"; "index_info"; "index_xinfo"; "index_list";
   "foreign_key_list"].

Definition stateless_pragmas : list string :=
  ["collation_list"; "compile_options"; "data_version"; "database_list";
   "defer_foreign_keys"; "freelist_count"; "function_list"; "module_list"; "page_count";
   "page_size"; "pragma_list"; "schema_version"; "user_version"].

Definition cust_authorizer_is_readonly_pragma (name arg : option string) : bool :=
  match name with
  | None => false
  | Some n =>
      if existsb (c_is n) introspection_pragmas then true
      else if existsb (c_is n) stateless_pragmas
      then match arg with None => true | Some _ => false end
      else false
  end.

(** The actions that both restricted roles share, [None] for the others. *)
Definition authorize_read (action : sqlite_action) (arg3 arg4 : option string) : option auth_code :=
  match action with
  | SQLITE_SELECT | SQLITE_READ | SQLITE_RECURSIVE => Some AUTH_OK
  | SQLITE_FUNCTION =>
      Some (if cust_authorizer_is_allowed_function arg4 then AUTH_OK else AUTH_DENY)
  | SQLITE_PRAGMA =>
      Some (if cust_authorizer_is_readonly_pragma arg3 arg4 then AUTH_OK else AUTH_DENY)
  | _ => None
  end.

(** [cust_sqlite3_authorizer]: [ctx] is the context's role, [None] a NULL context. *)
Definition cust_sqlite3_authorizer (ctx : option Z) (action : sqlite_action)
    (arg3 arg4 arg5 arg6 : option string) : auth_code :=
  match ctx with
  | None => AUTH_DENY
  | Some role =>
      if role =? CUST_AUTHORIZER_ROLE_ADMIN then AUTH_OK
      else if role =? CUST_AUTHORIZER_ROLE_READ_WRITE then
        match authorize_read action arg3 arg4 with
        | Some code => code
        | None =>
            match action with
            | SQLITE_TRANSACTION | SQLITE_SAVEPOINT => AUTH_OK
            | SQLITE_INSERT | SQLITE_UPDATE | SQLITE_DELETE =>
                if cust_authorizer_is_internal_table arg3 then AUTH_DENY else AUTH_OK
            | _ => AUTH_DENY
            end
        end
      else if role =? CUST_AUTHORIZER_ROLE_READ_ONLY then
        match authorize_read action arg3 arg4 with
        | Some code => code
        | None => AUTH_DENY
        end
      else AUTH_DENY
  end.

(** [cust_authorizer_ctx_new] and [cust_authorizer_ctx_set_role]. *)
Definition cust_authorizer_ctx_new (calloc_ok : bool) : option Z :=
  if calloc_ok then Some CUST_AUTHORIZER_ROLE_ADMIN else None.
Definition cust_authorizer_ctx_set_role (ctx : option Z) (role : Z) : option (option Z) :=
  match ctx with
  | None => None (* SQLITE_MISUSE *)
  | Some _ => Some (Some role)
  end.

(** ** What the roles promise *)

(** The actions that read and neither change the database nor run arbitrary code. *)
Inductive reading_action : sqlite_action -> option string -> option string -> Prop :=
| ra_select a3 a4 : reading_action SQLITE_SELECT a3 a4
| ra_read a3 a4 : reading_action SQLITE_READ a3 a4
| ra_recursive a3 a4 : reading_action SQLITE_RECURSIVE a3 a4
| ra_function a3 f :
    In f allowed_function_names -> reading_action SQLITE_FUNCTION a3 (Some f)
| ra_introspection p a4 :
    In p introspection_pragmas -> reading_action SQLITE_PRAGMA (Some p) a4
| ra_stateless p :
    In p stateless_pragmas -> reading_action SQLITE_PRAGMA (Some p) None.

(** The actions that change rows of user tables or control a transaction. *)
Inductive writing_action : sqlite_action -> option string -> Prop :=
| wa_transaction a3 : writing_action SQLITE_TRANSACTION a3
| wa_savepoint a3 : writing_action SQLITE_SAVEPOINT a3
| wa_dml a a3 :
    In a [SQLITE_INSERT; SQLITE_UPDATE; SQLITE_DELETE] ->
    (forall t r, a3 = Some t -> t <> "sqlite_" +:+ r) ->
    writing_action a a3.

Lemma existsb_c_is n l : existsb (c_is n) l = true <-> In n l.
Proof.
  rewrite existsb_exists. split.
  - intros (x & Hx & ->%String.eqb_eq). done.
  - intros H. exists n. split; [done | apply String.eqb_refl].
Qed.

Lemma existsb_c_is_false n l : existsb (c_is n) l = false <-> ~ In n l.
Proof. rewrite <- existsb_c_is. by destruct (existsb _ _). Qed.

Lemma authorize_read_ok a a3 a4 :
  authorize_read a a3 a4 = Some AUTH_OK <-> reading_action a a3 a4.
Proof.
  split.
  - destruct a; cbn; try done; try (intros _; constructor).
    + destruct a4 as [f|]; cbn [cust_authorizer_is_allowed_function]; [|done].
      destruct (existsb (c_is f) allowed_function_names) eqn:E; [|done].
      intros _. constructor. by apply existsb_c_is.
    + destruct a3 as [p|]; cbn [cust_authorizer_is_readonly_pragma]; [|done].
      destruct (existsb (c_is p) introspection_pragmas) eqn:E1.
      { intros _. constructor. by apply existsb_c_is. }
      destruct (existsb (c_is p) stateless_pragmas) eqn:E2; [|done].
      destruct a4; [done|]. intros _. apply ra_stateless. by apply existsb_c_is.
  - destruct 1 as [| | |a3 f Hf|p a4 Hp|p Hp]; try done;
      cbn [authorize_read cust_authorizer_is_allowed_function
           cust_authorizer_is_readonly_pragma].
    + by rewrite (proj2 (existsb_c_is _ _) Hf).
    + by rewrite (proj2 (existsb_c_is _ _) Hp).
    + rewrite (proj2 (existsb_c_is _ _) Hp). by destruct (existsb _ _).
Qed.

Lemma authorize_read_none a a3 a4 :
  authorize_read a a3 a4 = None <->
  ~ In a [SQLITE_SELECT; SQLITE_READ; SQLITE_RECURSIVE; SQLITE_FUNCTION; SQLITE_PRAGMA].
Proof. destruct a; cbn; split; intuition (try discriminate; try congruence). Qed.

Lemma internal_table_spec a3 :
  cust_authorizer_is_internal_table a3 = false <->
  (forall t r, a3 = Some t -> t <> "sqlite_" +:+ r).
Proof.
  destruct a3 as [t|]; [|by split].
  cbn [cust_authorizer_is_internal_table]. rewrite <- not_true_iff_false, HasPrefix_spec.
  split.
  - intros Hn t' r [= <-] ->. apply Hn. by exists r.
  - intros Hn [r ->]. by apply (Hn _ r eq_refl).
Qed.

(** The read-only role. *)
Lemma authorize_read_only_ok a a3 a4 a5 a6 :
  cust_sqlite3_authorizer (Some CUST_AUTHORIZER_ROLE_READ_ONLY) a a3 a4 a5 a6 = AUTH_OK <->
  reading_action a a3 a4.
Proof.
  cbn. rewrite <- authorize_read_ok.
  destruct (authorize_read a a3 a4) as [[]|]; split; congruence.
Qed.

(** The read-write role. *)
Lemma authorize_read_write_ok a a3 a4 a5 a6 :
  cust_sqlite3_authorizer (Some CUST_AUTHORIZER_ROLE_READ_WRITE) a a3 a4 a5 a6 = AUTH_OK <->
  reading_action a a3 a4 \/ writing_action a a3.
Proof.
  cbn. rewrite <- authorize_read_ok. split.
  - destruct (authorize_read a a3 a4) as [code|] eqn:E; [by intros ->; left|].
    intros H. right. destruct a; try discriminate; try constructor;
      try (cbn; tauto); apply internal_table_spec; by destruct (cust_authorizer_is_internal_table a3).
  - intros [->|H]; [done|].
    destruct H as [a3|a3|a a3 Ha Hn]; [done|done|].
    assert (E : authorize_read a a3 a4 = None)
      by (apply authorize_read_none; intros Hin; cbn in Ha, Hin; intuition congruence).
    rewrite E. apply internal_table_spec in Hn.
    cbn in Ha. destruct Ha as [<-|[<-|[<-|[]]]]; by rewrite Hn.
Qed.

(** ** Properties *)

(** What each role may do.  The read-only role admits exactly the reading actions; the
    read-write role admits exactly the reading actions, transaction control, and row
    changes of tables whose name does not start with [sqlite_]; the administrator may do
    everything; with any other role, and without a context, nothing is allowed. *)
Theorem authorizer_by_role a a3 a4 a5 a6 :
  (cust_sqlite3_authorizer (Some CUST_AUTHORIZER_ROLE_READ_ONLY) a a3 a4 a5 a6 = AUTH_OK <->
     reading_action a a3 a4)
  /\ (cust_sqlite3_authorizer (Some CUST_AUTHORIZER_ROLE_READ_WRITE) a a3 a4 a5 a6 = AUTH_OK <->
        reading_action a a3 a4 \/ writing_action a a3)
  /\ cust_sqlite3_authorizer (Some CUST_AUTHORIZER_ROLE_ADMIN) a a3 a4 a5 a6 = AUTH_OK
  /\ cust_sqlite3_authorizer None a a3 a4 a5 a6 = AUTH_DENY
  /\ forall role, role < 0 \/ 2 < role ->
       cust_sqlite3_authorizer (Some role) a a3 a4 a5 a6 = AUTH_DENY.
Proof.
  split; [apply authorize_read_only_ok|]. split; [apply authorize_read_write_ok|].
  split; [done|]. split; [done|]. intros role Hr. cbn.
  unfold CUST_AUTHORIZER_ROLE_ADMIN, CUST_AUTHORIZER_ROLE_READ_WRITE,
    CUST_AUTHORIZER_ROLE_READ_ONLY.
  by rewrite !(proj2 (Z.eqb_neq _ _)) by lia.
Qed.

(** The roles are ordered: what read-only may do, read-write may do. *)
Lemma authorizer_roles_ordered a a3 a4 a5 a6 :
  cust_sqlite3_authorizer (Some CUST_AUTHORIZER_ROLE_READ_ONLY) a a3 a4 a5 a6 = AUTH_OK ->
  cust_sqlite3_authorizer (Some CUST_AUTHORIZER_ROLE_READ_WRITE) a a3 a4 a5 a6 = AUTH_OK.
Proof. rewrite authorize_read_only_ok, authorize_read_write_ok. by left. Qed.

#[export] Hint Resolve authorize_read_ok : nsqlite.
