(* ===== verification/Sqlite.v ===== *)
(** * The SQLite wrapper: [internal/sqlite/sqlite.go]

    Connections and prepared statements over the SQLite C library.  The library
    itself is not part of the repository: it is the class [SqliteLib], an argument
    of every definition, one field per C function the wrapper calls, threading the
    state [sworld] of databases and connections.  A NULL pointer is [None]. *)
From S2P Require Import Prelude GoStrings Authorizer.
From Stdlib Require Export SpecFloat.

(** ** Go values

    The dynamic values of an [any] that the wrapper inspects.  Floats are
    [spec_float]s, that is values without a format: widening a [float32] is exact. *)
Inductive gany : Type :=
| GNil
| GBool (b : bool)
| GInt (z : Z) | GInt8 (z : Z) | GInt16 (z : Z) | GInt32 (z : Z) | GInt64 (z : Z)
| GUint (z : Z) | GUint8 (z : Z) | GUint16 (z : Z) | GUint32 (z : Z) | GUint64 (z : Z)
| GFloat32 (f : spec_float) | GFloat64 (f : spec_float)
| GString (s : string)
| GBytes (s : string)
| GOther (typeName printed : string).

(** What is bound to a parameter. *)
Inductive bind_value : Type :=
| BInt (z : Z) | BInt64 (z : Z) | BDouble (f : spec_float) | BText (s : string)
| BBlob (s : string) | BNull.

Definition SQLITE_OK : Z := 0.
Definition SQLITE_MISUSE : Z := 21.
Definition SQLITE_ROW : Z := 100.
Definition SQLITE_DONE : Z := 101.

(** The authorizer callback as the library sees it. *)
Definition authorizer_fn : Type :=
  sqlite_action -> option string -> option string -> option string -> option string -> auth_code.

Class SqliteLib : Type := {
  sworld : Type;
  dbh : Type;
  stmt : Type;
  sqlite3_errstr : Z -> string;
  sqlite3_errmsg : dbh -> sworld -> string;
  sqlite3_open : string -> sworld -> Z * option dbh * sworld;
  sqlite3_close : option dbh -> sworld -> sworld;
  sqlite3_close_v2 : dbh -> sworld -> Z * sworld;
  calloc_authorizer_ctx : sworld -> bool;
  sqlite3_set_authorizer : dbh -> sworld -> Z * sworld;
  sqlite3_prepare_v2 : option dbh -> authorizer_fn -> string -> sworld -> Z * option stmt * sworld;
  sqlite3_stmt_readonly : option stmt -> Z;
  sqlite3_bind : option stmt -> Z -> bind_value -> Z * option stmt;
  sqlite3_bind_parameter_index : option stmt -> string -> Z;
  sqlite3_step : option stmt -> sworld -> Z * option stmt * sworld;
  sqlite3_finalize : option stmt -> sworld -> Z * sworld;
  sqlite3_column_count : option stmt -> Z;
  sqlite3_column_name : option stmt -> Z -> string;
  sqlite3_column_decltype : option stmt -> Z -> option string;
  sqlite3_column_type : option stmt -> Z -> Z;
  sqlite3_column_bytes : option stmt -> Z -> Z;
  sqlite3_column_int : option stmt -> Z -> Z;
  sqlite3_column_int64 : option stmt -> Z -> Z;
  sqlite3_column_double : option stmt -> Z -> spec_float;
  sqlite3_column_text : option stmt -> Z -> option string;
  sqlite3_column_blob : option stmt -> Z -> option string;
  sqlite3_last_insert_rowid : option dbh -> sworld -> Z;
  sqlite3_changes : option dbh -> sworld -> Z }.

(** [C.CString] and [C.GoString]: a C string ends at the first NUL byte. *)
Fixpoint CString (s : string) : string :=
  match s with
  | EmptyString => EmptyString
  | String a s' => if Ascii.eqb a (byte_chr 0) then EmptyString else String a (CString s')
  end.
Definition GoString (s : option string) : string := default EmptyString s.

(** ** Authorizer roles *)

Definition AuthorizerRoleAdmin : Z := 0.
Definition AuthorizerRoleReadWrite : Z := 1.
Definition AuthorizerRoleReadOnly : Z := 2.

(** [role.isValid()] *)
Definition isValid (role : Z) : bool :=
  (role =? AuthorizerRoleAdmin) || (role =? AuthorizerRoleReadWrite)
  || (role =? AuthorizerRoleReadOnly).

Record QueryParam : Type := MkQueryParam { ParamName : string; ParamValue : gany }.

(** [sqlite.QueryResult] *)
Record SqlResult : Type := MkSqlResult {
  sqLastInsertID : Z;
  sqRowsAffected : Z;
  sqColumns : list string;
  sqTypes : list string;
  sqRows : list (list gany) }.

(** [stmt.ColumnValueType(value)] *)
Definition ColumnValueType (value : gany) : string :=
  match value with
  | GNil => "NULL"
  | GBool _ | GInt _ | GInt8 _ | GInt16 _ | GInt32 _ | GInt64 _
  | GUint _ | GUint8 _ | GUint16 _ | GUint32 _ | GUint64 _ => "INTEGER"
  | GFloat32 _ | GFloat64 _ => "REAL"
  | GString _ => "TEXT"
  | GBytes _ => "BLOB"
  | GOther _ _ => ""
  end.

Section Wrapper.
  Context `{LIB : SqliteLib}.

(** [getResCodeStr] *)
Definition getResCodeStr (resCode : Z) : string :=
  print_int resCode +:+ ": " +:+ sqlite3_errstr resCode.

(** [Conn]: the handle, and the role held by the C authorizer context. *)
Record Conn : Type := MkConn { cDB : option dbh; authorizerCtx : option Z }.

(** [conn.getLastError()] *)
Definition getLastError (conn : Conn) (w : sworld) : go_error :=
  match cDB conn with
  | None => ErrNew "failed to get last error: database connection is nil"
  | Some db => ErrNew (sqlite3_errmsg db w)
  end.

(** [sqlite.Open] *)
Definition Open (filePath : string) (w : sworld) : result Conn * sworld :=
  let '(resCode, db, w) := sqlite3_open (CString filePath) w in
  if negb (resCode =? SQLITE_OK) then
    let errMsg := getLastError (MkConn db None) w in
    (Err (ErrWrap ("failed to open database: " +:+ getResCodeStr resCode) errMsg),
     sqlite3_close db w)
  else
    match db with
    | None => (* an OK result has a handle *)
        (Err (ErrNew "failed to allocate SQLite authorizer context"), w)
    | Some h =>
        match cust_authorizer_ctx_new (calloc_authorizer_ctx w) with
        | None => (Err (ErrNew "failed to allocate SQLite authorizer context"),
                   sqlite3_close db w)
        | Some role =>
            let '(resCode, w) := sqlite3_set_authorizer h w in
            if negb (resCode =? SQLITE_OK) then
              let errMsg := getLastError (MkConn db None) w in
              (Err (ErrWrap ("failed to register SQLite authorizer: " +:+ getResCodeStr resCode)
                      errMsg),
               sqlite3_close db w)
            else (Ok (MkConn db (Some role)), w)
        end
    end.

(** [conn.Close()]: the connection afterwards and the error. *)
Definition Conn_Close (conn : Conn) (w : sworld) : result unit * Conn * sworld :=
  match cDB conn with
  | None => (Ok tt, conn, w)
  | Some h =>
      let '(resCode, w) := sqlite3_close_v2 h w in
      if negb (resCode =? SQLITE_OK) then
        (Err (ErrWrap ("failed to close database: " +:+ getResCodeStr resCode)
                (getLastError conn w)), conn, w)
      else (Ok tt, MkConn None None, w)
  end.

(** [conn.SetAuthorizerRole(role)] *)
Definition SetAuthorizerRole (conn : Conn) (role : Z) : result Conn :=
  match cDB conn with
  | None => Err (ErrNew "failed to set authorizer role: database connection is nil")
  | Some _ =>
      match authorizerCtx conn with
      | None => Err (ErrNew "failed to set authorizer role: authorizer context is nil")
      | Some r =>
          if negb (isValid role) then
            Err (ErrNew ("failed to set authorizer role: invalid role " +:+ print_int role))
          else
            match cust_authorizer_ctx_set_role (Some r) role with
            | None => Err (ErrNew ("failed to set authorizer role: " +:+ getResCodeStr SQLITE_MISUSE))
            | Some ctx => Ok (MkConn (cDB conn) ctx)
            end
      end
  end.

(** [conn.Prepare(query)]: the statement, NULL for a query without SQL. *)
Definition Prepare (conn : Conn) (query : string) (w : sworld) : result (option stmt) * sworld :=
  let '(resCode, st, w) :=
    sqlite3_prepare_v2 (cDB conn) (cust_sqlite3_authorizer (authorizerCtx conn))
      (CString query) w in
  if negb (resCode =? SQLITE_OK) then
    (Err (ErrWrap ("failed to prepare statement: " +:+ getResCodeStr resCode)
            (getLastError conn w)), w)
  else (Ok st, w).

(** [stmt.ReadOnly()] *)
Definition ReadOnly (st : option stmt) : bool := negb (sqlite3_stmt_readonly st =? 0).

(** [stmt.Finalize()]; its error is ignored by every caller. *)
Definition Finalize (st : option stmt) (w : sworld) : sworld :=
  match st with
  | None => w
  | Some _ => snd (sqlite3_finalize st w)
  end.

(** ** Binding *)

Definition BindParameterIndex (st : option stmt) (name : string) : Z :=
  sqlite3_bind_parameter_index st (CString name).

Definition bind_prefixes : list string := [":"; "@"; "$"; "?"].

(** The second loop: the first prefix with which the name is a parameter, else 0. *)
Fixpoint first_prefixed_index (st : option stmt) (name : string) (ps : list string) : Z :=
  match ps with
  | [] => 0
  | p :: ps' =>
      let index := BindParameterIndex st (p +:+ name) in
      if negb (index =? 0) then index else first_prefixed_index st name ps'
  end.

(** [stmt.BindParameterIndexSafe(name)] *)
Definition BindParameterIndexSafe (st : option stmt) (name : string) : Z :=
  if name =s? "" then 0
  else if existsb (HasPrefix name) bind_prefixes then BindParameterIndex st name
  else first_prefixed_index st name bind_prefixes.

(** [stmt.BindInt], [BindInt64], [BindDouble], [BindText], [BindBlob], [BindNull]. *)
Definition bind_checked (what : string) (st : option stmt) (index : Z) (v : bind_value) :
    result unit * option stmt :=
  match st with
  | None => (Err (ErrNew "cannot bind to a nil statement"), st)
  | Some _ =>
      let '(resCode, st') := sqlite3_bind st (int32 index) v in
      if negb (resCode =? SQLITE_OK)
      then (Err (ErrNew ("failed to bind " +:+ what +:+ ": " +:+ getResCodeStr resCode)), st')
      else (Ok tt, st')
  end.
Definition BindInt st index (value : Z) := bind_checked "int" st index (BInt value).
Definition BindInt64 st index (value : Z) := bind_checked "int64" st index (BInt64 value).
Definition BindDouble st index (value : spec_float) := bind_checked "float64" st index (BDouble value).
Definition BindText st index (value : string) := bind_checked "text" st index (BText (CString value)).
Definition BindNull st index := bind_checked "null" st index BNull.
Definition BindBlob (st : option stmt) (index : Z) (data : string) : result unit * option stmt :=
  match st with
  | None => (Err (ErrNew "cannot bind to a nil statement"), st)
  | Some _ => if data =s? "" then BindNull st index
              else bind_checked "blob" st index (BBlob data)
  end.

(** [stmt.BindDynamic(index, value)] *)
Definition BindDynamic (st : option stmt) (index : Z) (value : gany) : result unit * option stmt :=
  match value with
  | GBool b => if b then BindInt st index 1 else BindInt st index 0
  | GInt8 v | GUint8 v | GInt16 v | GUint16 v => BindInt st index (int32 v)
  | GInt32 v => BindInt st index v
  | GUint32 v => BindInt st index (int32 v)
  | GInt v | GUint v => BindInt64 st index (int64 v)
  | GInt64 v => BindInt64 st index v
  | GUint64 v => BindInt64 st index (int64 v)
  | GFloat64 v => BindDouble st index v
  | GFloat32 v => BindDouble st index v
  | GString v => BindText st index v
  | GBytes v => BindBlob st index v
  | GNil => BindNull st index
  | GOther ty printed =>
      (Err (ErrNew ("unsupported bind " +:+ ty +:+ " type: " +:+ printed)), st)
  end.

(** The parameter loop of [Query]; [i] is the loop index. *)
Fixpoint bind_params (st : option stmt) (i : Z) (ps : list QueryParam) :
    result unit * option stmt :=
  match ps with
  | [] => (Ok tt, st)
  | param :: ps' =>
      if ParamName param =s? "" then
        match BindDynamic st (i + 1) (ParamValue param) with
        | (Err e, st') => (Err (ErrWrap "failed to bind nameless parameter" e), st')
        | (Ok _, st') => bind_params st' (i + 1) ps'
        end
      else
        let index := BindParameterIndexSafe st (ParamName param) in
        if index =? 0 then
          (Err (ErrNew ("failed to find named parameter index: " +:+ ParamName param)), st)
        else
          match BindDynamic st index (ParamValue param) with
          | (Err e, st') => (Err (ErrWrap "failed to bind named parameter" e), st')
          | (Ok _, st') => bind_params st' (i + 1) ps'
          end
  end.

(** ** Stepping and reading columns *)

(** [stmt.Step()] *)
Definition Step (st : option stmt) (w : sworld) : result bool * option stmt * sworld :=
  let '(resCode, st', w') := sqlite3_step st w in
  (if resCode =? SQLITE_DONE then Ok false
   else if resCode =? SQLITE_ROW then Ok true
   else Err (ErrNew ("failed to step statement: " +:+ getResCodeStr resCode)), st', w').

(** [stmt.ColumnCount], [stmt.ColumnName(colIndex)] and [stmt.ColumnDecltype(colIndex)] *)
Definition ColumnCount (st : option stmt) : Z := sqlite3_column_count st.
Definition ColumnName (st : option stmt) (i : Z) : string := sqlite3_column_name st i.
Definition ColumnDecltype (st : option stmt) (i : Z) : string :=
  ToUpper (GoString (sqlite3_column_decltype st i)).

(** [ColumnType] codes. *)
Definition ColumnTypeInteger : Z := 1.
Definition ColumnTypeFloat : Z := 2.
Definition ColumnTypeText : Z := 3.
Definition ColumnTypeBlob : Z := 4.
Definition ColumnTypeNull : Z := 5.

Definition ColumnType (st : option stmt) (i : Z) : Z := sqlite3_column_type st i.
Definition ColumnBytes (st : option stmt) (i : Z) : Z := sqlite3_column_bytes st i.
Definition ColumnFloat64 (st : option stmt) (i : Z) : spec_float := sqlite3_column_double st i.
Definition ColumnInt (st : option stmt) (i : Z) : Z := sqlite3_column_int st i.
Definition ColumnInt64 (st : option stmt) (i : Z) : Z := sqlite3_column_int64 st i.

(** [stmt.ColumnText] and [stmt.ColumnBlob]: an empty or NULL value is empty. *)
Definition ColumnText (st : option stmt) (i : Z) : string :=
  let size := ColumnBytes st i in
  if size <=? 0 then ""
  else match sqlite3_column_text st i with
       | None => ""
       | Some text => str_take (Z.to_nat size) text
       end.
Definition ColumnBlob (st : option stmt) (i : Z) : string :=
  let size := ColumnBytes st i in
  if size <=? 0 then ""
  else match sqlite3_column_blob st i with
       | None => ""
       | Some data => str_take (Z.to_nat size) data
       end.

(** [stmt.ColumnDynamic(colIndex)] *)
Definition ColumnDynamic (st : option stmt) (i : Z) : result gany :=
  let columnType := ColumnType st i in
  if columnType =? ColumnTypeInteger then Ok (GInt (ColumnInt st i))
  else if columnType =? ColumnTypeFloat then Ok (GFloat64 (ColumnFloat64 st i))
  else if columnType =? ColumnTypeText then Ok (GString (ColumnText st i))
  else if columnType =? ColumnTypeBlob then Ok (GBytes (ColumnBlob st i))
  else if columnType =? ColumnTypeNull then Ok GNil
  else Err (ErrNew ("unsupported column type: " +:+ print_int columnType)).

(** One row: the columns [ids], and the types with the empty ones inferred on the
    first row. *)
Fixpoint read_row (st : option stmt) (isFirstIter : bool) (ids : list nat) (types : list string) :
    result (list gany * list string) :=
  match ids with
  | [] => Ok ([], types)
  | i :: ids' =>
      match ColumnDynamic st (Z.of_nat i) with
      | Err e => Err (ErrWrap "failed to get column value" e)
      | Ok col =>
          let types' :=
            if isFirstIter && (default "" (types !! i) =s? "")
            then <[i := ColumnValueType col]> types else types in
          match read_row st isFirstIter ids' types' with
          | Err e => Err e
          | Ok (row, types'') => Ok (col :: row, types'')
          end
      end
  end.

(** The loop of a statement without columns; [None] when [fuel] runs out. *)
Fixpoint step_all (fuel : nat) (st : option stmt) (w : sworld) :
    option (result unit * option stmt * sworld) :=
  match fuel with
  | O => None
  | S fuel' =>
      match Step st w with
      | (Err e, st', w') => Some (Err (ErrWrap "failed to step statement" e), st', w')
      | (Ok false, st', w') => Some (Ok tt, st', w')
      | (Ok true, st', w') => step_all fuel' st' w'
      end
  end.

(** The loop of a statement with columns, one row per iteration. *)
Fixpoint step_rows (fuel : nat) (ids : list nat) (isFirstIter : bool) (types : list string)
    (st : option stmt) (w : sworld) :
    option (result (list string * list (list gany)) * option stmt * sworld) :=
  match fuel with
  | O => None
  | S fuel' =>
      match Step st w with
      | (Err e, st', w') => Some (Err (ErrWrap "failed to step statement" e), st', w')
      | (Ok false, st', w') => Some (Ok (types, []), st', w')
      | (Ok true, st', w') =>
          match read_row st' isFirstIter ids types with
          | Err e => Some (Err e, st', w')
          | Ok (row, types') =>
              match step_rows fuel' ids false types' st' w' with
              | Some (Ok (types'', rows), st'', w'') =>
                  Some (Ok (types'', row :: rows), st'', w'')
              | other => other
              end
          end
      end
  end.

(** [conn.LastInsertRowID()] and [conn.RowsAffected()] *)
Definition LastInsertRowID (conn : Conn) (w : sworld) : Z := sqlite3_last_insert_rowid (cDB conn) w.
Definition RowsAffected (conn : Conn) (w : sworld) : Z := sqlite3_changes (cDB conn) w.

(** What follows the binding of the parameters. *)
Definition fetch (fuel : nat) (conn : Conn) (columnCount : Z) (st : option stmt) (w : sworld) :
    option (result SqlResult * option stmt * sworld) :=
  if columnCount =? 0 then
    match step_all fuel st w with
    | None => None
    | Some (Err e, st', w') => Some (Err e, st', w')
    | Some (Ok _, st', w') =>
        Some (Ok (MkSqlResult (LastInsertRowID conn w') (RowsAffected conn w') [] [] []), st', w')
    end
  else if 0 <? columnCount then
    let ids := seq 0 (Z.to_nat columnCount) in
    let columns := map (fun i => ColumnName st (Z.of_nat i)) ids in
    let types := map (fun i => ColumnDecltype st (Z.of_nat i)) ids in
    match step_rows fuel ids true types st w with
    | None => None
    | Some (Err e, st', w') => Some (Err e, st', w')
    | Some (Ok (types', rows), st', w') =>
        Some (Ok (MkSqlResult 0 0 columns types' rows), st', w')
    end
  else Some (Ok (MkSqlResult 0 0 [] [] []), st, w).

(** [conn.Query(query, parameters)] *)
Definition Conn_Query (fuel : nat) (conn : Conn) (query : string) (ps : list QueryParam)
    (w : sworld) : option (result SqlResult * sworld) :=
  match Prepare conn query w with
  | (Err e, w) => Some (Err (ErrWrap "failed to prepare query" e), w)
  | (Ok st, w) =>
      let columnCount := ColumnCount st in
      match bind_params st 0 ps with
      | (Err e, st') => Some (Err e, Finalize st' w)
      | (Ok _, st') =>
          match fetch fuel conn columnCount st' w with
          | None => None
          | Some (r, st'', w') => Some (r, Finalize st'' w')
          end
      end
  end.
End Wrapper.
