(* ===== verification/ToyEngine.v ===== *)
(** * A concrete SQLite library for the witnesses

    A table [t] with one column [v], transactions with one snapshot, and the few
    statements the witnesses run.  It instantiates [SqliteLib], and no theorem of
    the other files depends on it: it only shows that their hypotheses can hold. *)
From S2P Require Import Prelude GoStrings Authorizer Sqlite.

Inductive toy_kind : Type :=
| KSelect | KOne | KInsert | KBegin | KCommit | KRollback | KPragma | KConflict.

Record toy_stmt : Type := MkToyStmt {
  ts_kind : toy_kind;
  ts_param : option bind_value;
  ts_started : bool;
  ts_todo : list bind_value;
  ts_row : option bind_value }.

(** The table, and its content at the start of the open transaction. *)
Record toy_world : Type := MkToyWorld {
  tw_rows : list bind_value;
  tw_snapshot : option (list bind_value) }.

Definition toy_parse (q : string) : option toy_kind :=
  if q =s? "SELECT v FROM t LIMIT 5" then Some KSelect
  else if q =s? "SELECT 1" then Some KOne
  else if q =s? "INSERT INTO t VALUES (?)" then Some KInsert
  else if q =s? "BEGIN TRANSACTION" then Some KBegin
  else if (q =s? "COMMIT") || (q =s? "END") then Some KCommit
  else if q =s? "ROLLBACK" then Some KRollback
  else if q =s? "INSERT OR ROLLBACK INTO t VALUES (NULL)" then Some KConflict
  else if HasPrefix q "PRAGMA " then Some KPragma
  else None.

Definition toy_action : Type := sqlite_action * option string * option string.
Definition toy_actions_of (k : toy_kind) : list toy_action :=
  match k with
  | KSelect => [(SQLITE_SELECT, None, None); (SQLITE_READ, Some "t", Some "v")]
  | KOne => [(SQLITE_SELECT, None, None)]
  | KInsert | KConflict => [(SQLITE_INSERT, Some "t", None)]
  | KBegin => [(SQLITE_TRANSACTION, Some "BEGIN", None)]
  | KCommit => [(SQLITE_TRANSACTION, Some "COMMIT", None)]
  | KRollback => [(SQLITE_TRANSACTION, Some "ROLLBACK", None)]
  | KPragma => [(SQLITE_PRAGMA, Some "journal_mode", Some "WAL")]
  end.
Definition toy_actions (q : string) : list toy_action :=
  match toy_parse q with Some k => toy_actions_of k | None => [] end.

Definition toy_allowed (f : authorizer_fn) (a : toy_action) : bool :=
  let '(act, a3, a4) := a in
  match f act a3 a4 None None with AUTH_OK => true | AUTH_DENY => false end.

Definition toy_prepare (db : option unit) (f : authorizer_fn) (q : string) (w : toy_world) :
    Z * option toy_stmt * toy_world :=
  if q =s? "" then (SQLITE_OK, None, w)
  else match toy_parse q with
       | None => (1, None, w)
       | Some k =>
           if forallb (toy_allowed f) (toy_actions_of k)
           then (SQLITE_OK, Some (MkToyStmt k None false [] None), w)
           else (23, None, w)
       end.

Definition toy_readonly (st : option toy_stmt) : Z :=
  match st with
  | Some s => match ts_kind s with KInsert | KConflict => 0 | _ => 1 end
  | None => 1
  end.

Definition toy_bind (st : option toy_stmt) (i : Z) (v : bind_value) : Z * option toy_stmt :=
  match st with
  | Some s =>
      match ts_kind s with
      | KInsert => if i =? 1
                   then (SQLITE_OK, Some (MkToyStmt KInsert (Some v) false [] None))
                   else (25, st)
      | _ => (25, st)
      end
  | None => (SQLITE_MISUSE, None)
  end.

(** Return the next row of [rows], if there is one. *)
Definition toy_next (s : toy_stmt) (rows : list bind_value) (w : toy_world) :
    Z * option toy_stmt * toy_world :=
  match rows with
  | [] => (SQLITE_DONE, Some (MkToyStmt (ts_kind s) (ts_param s) true [] None), w)
  | v :: rows' => (SQLITE_ROW, Some (MkToyStmt (ts_kind s) (ts_param s) true rows' (Some v)), w)
  end.

Definition toy_step (st : option toy_stmt) (w : toy_world) : Z * option toy_stmt * toy_world :=
  match st with
  | None => (SQLITE_MISUSE, None, w)
  | Some s =>
      match ts_kind s with
      | KSelect => toy_next s (if ts_started s then ts_todo s else take 5 (tw_rows w)) w
      | KOne => toy_next s (if ts_started s then ts_todo s else [BInt64 1]) w
      | KInsert =>
          (SQLITE_DONE, st,
           MkToyWorld (tw_rows w ++ [default BNull (ts_param s)]) (tw_snapshot w))
      | KBegin =>
          match tw_snapshot w with
          | None => (SQLITE_DONE, st, MkToyWorld (tw_rows w) (Some (tw_rows w)))
          | Some _ => (1, st, w)
          end
      | KCommit =>
          match tw_snapshot w with
          | None => (1, st, w)
          | Some _ => (SQLITE_DONE, st, MkToyWorld (tw_rows w) None)
          end
      | KRollback =>
          match tw_snapshot w with
          | None => (1, st, w)
          | Some rows => (SQLITE_DONE, st, MkToyWorld rows None)
          end
      | KConflict => (* a conflict resolved by rolling the transaction back *)
          match tw_snapshot w with
          | None => (19, st, w)
          | Some rows => (19, st, MkToyWorld rows None)
          end
      | KPragma => (SQLITE_DONE, st, w)
      end
  end.

Definition toy_row (st : option toy_stmt) : bind_value :=
  match st with Some s => default BNull (ts_row s) | None => BNull end.

#[export] Instance toy_lib : SqliteLib := {|
  sworld := toy_world;
  dbh := unit;
  stmt := toy_stmt;
  sqlite3_errstr _ := "toy";
  sqlite3_errmsg _ _ := "toy error";
  sqlite3_open _ w := (SQLITE_OK, Some tt, w);
  sqlite3_close _ w := w;
  sqlite3_close_v2 _ w := (SQLITE_OK, w);
  calloc_authorizer_ctx _ := true;
  sqlite3_set_authorizer _ w := (SQLITE_OK, w);
  sqlite3_prepare_v2 := toy_prepare;
  sqlite3_stmt_readonly := toy_readonly;
  sqlite3_bind := toy_bind;
  sqlite3_bind_parameter_index _ name := if name =s? ":v" then 1 else 0;
  sqlite3_step := toy_step;
  sqlite3_finalize _ w := (SQLITE_OK, w);
  sqlite3_column_count st :=
    match st with
    | Some s => match ts_kind s with KSelect | KOne => 1 | _ => 0 end
    | None => 0
    end;
  sqlite3_column_name _ _ := "v";
  sqlite3_column_decltype _ _ := None;
  sqlite3_column_type st _ :=
    match toy_row st with
    | BInt _ | BInt64 _ => 1 | BDouble _ => 2 | BText _ => 3 | BBlob _ => 4 | BNull => 5
    end;
  sqlite3_column_bytes st _ :=
    match toy_row st with BText s | BBlob s => Z.of_nat (String.length s) | _ => 0 end;
  sqlite3_column_int st _ :=
    match toy_row st with BInt z | BInt64 z => int32 z | _ => 0 end;
  sqlite3_column_int64 st _ :=
    match toy_row st with BInt z | BInt64 z => z | _ => 0 end;
  sqlite3_column_double st _ := match toy_row st with BDouble f => f | _ => S754_zero false end;
  sqlite3_column_text st _ := match toy_row st with BText s => Some s | _ => None end;
  sqlite3_column_blob st _ := match toy_row st with BBlob s => Some s | _ => None end;
  sqlite3_last_insert_rowid _ w := Z.of_nat (length (tw_rows w));
  sqlite3_changes _ _ := 1
|}.

Definition toy_empty : toy_world := MkToyWorld [] None.
Definition toy_conn (role : Z) : Conn := MkConn (Some tt) (Some role).

Example toy_insert_select :
  (let '(r1, w1) := default (Err (ErrNew "fuel"), toy_empty)
     (Conn_Query 10 (toy_conn 0) "INSERT INTO t VALUES (?)" [MkQueryParam "" (GInt64 7)] toy_empty) in
   let '(r2, _) := default (Err (ErrNew "fuel"), w1)
     (Conn_Query 10 (toy_conn 2) "SELECT v FROM t LIMIT 5" [] w1) in
   (r1, r2)) =
  (Ok (MkSqlResult 1 1 [] [] []), Ok (MkSqlResult 0 0 ["v"] ["INTEGER"] [[GInt 7]])).
Proof. vm_compute. reflexivity. Qed.

(** Every statement of this library ends within ten steps. *)
Definition toy_todo (st : option toy_stmt) (w : toy_world) : nat :=
  match st with
  | Some s =>
      match ts_kind s with
      | KSelect => length (if ts_started s then ts_todo s else take 5 (tw_rows w))
      | KOne => length (if ts_started s then ts_todo s else [BInt64 1])
      | _ => 0
      end
  | None => 0
  end.

Lemma toy_Step st w :
  match Step (LIB := toy_lib) st w with
  | (Ok true, st', w') => (toy_todo st' w' < toy_todo st w)%nat
  | _ => True
  end.
Proof.
  unfold Step. cbn [sqlite3_step toy_lib]. unfold toy_step.
  destruct st as [[k p b todo r]|]; [|done]. cbn [ts_kind].
  destruct k; cbn [ts_started ts_todo]; try (by destruct (tw_snapshot w)); try done.
  - unfold toy_next. destruct (if b then todo else take 5 (tw_rows w)) eqn:E; [done|].
    cbn. destruct b; rewrite E; cbn; lia.
  - unfold toy_next. destruct (if b then todo else [BInt64 1]) eqn:E; [done|].
    cbn. destruct b; rewrite E; cbn; lia.
Qed.

Lemma toy_step_all n st w : (toy_todo st w < n)%nat -> step_all (LIB := toy_lib) n st w <> None.
Proof.
  revert st w. induction n as [|n IH]; intros st w Hn; [lia|]. cbn [step_all].
  pose proof (toy_Step st w) as H.
  destruct (Step (LIB := toy_lib) st w) as [[[[]|e] st'] w']; [|done|done]. apply IH. lia.
Qed.

Lemma toy_step_rows n ids b types st w :
  (toy_todo st w < n)%nat -> step_rows (LIB := toy_lib) n ids b types st w <> None.
Proof.
  revert ids b types st w. induction n as [|n IH]; intros ids b types st w Hn; [lia|].
  cbn [step_rows]. pose proof (toy_Step st w) as H.
  destruct (Step (LIB := toy_lib) st w) as [[[[]|e] st'] w']; [|done|done].
  destruct (read_row (LIB := toy_lib) st' b ids types) as [[row types']|e]; [|done].
  pose proof (IH ids false types' st' w' ltac:(lia)) as H'.
  by destruct (step_rows (LIB := toy_lib) n ids false types' st' w') as [[[[[? ?]|?] ?] ?]|].
Qed.

(** Statements that have not been stepped. *)
Definition toy_fresh (st : option toy_stmt) : Prop :=
  match st with Some s => ts_started s = false | None => True end.

Lemma toy_fresh_todo st w : toy_fresh st -> (toy_todo st w < 20)%nat.
Proof.
  destruct st as [[k p b todo r]|]; cbn; [intros ->|lia].
  destruct k; cbn; try lia. rewrite length_take. lia.
Qed.

Lemma toy_bind_fresh what st i v :
  toy_fresh st -> toy_fresh (snd (bind_checked (LIB := toy_lib) what st i v)).
Proof.
  unfold bind_checked. destruct st as [s|]; [|done]. intros H. cbn [sqlite3_bind toy_lib toy_bind].
  destruct (ts_kind s); try done. by destruct (int32 i =? 1).
Qed.

Lemma toy_BindDynamic_fresh st i v :
  toy_fresh st -> toy_fresh (snd (BindDynamic (LIB := toy_lib) st i v)).
Proof.
  intros H. destruct v as [|b| | | | | | | | | | | | | |s|]; cbn [BindDynamic];
    try (by apply toy_bind_fresh); try done.
  - destruct b; by apply toy_bind_fresh.
  - unfold BindBlob. destruct st; [|done]. destruct (s =s? ""); by apply toy_bind_fresh.
Qed.

Lemma toy_bind_params_fresh st i ps :
  toy_fresh st -> toy_fresh (snd (bind_params (LIB := toy_lib) st i ps)).
Proof.
  revert st i. induction ps as [|[n v] ps IH]; intros st i H; [done|]. cbn [bind_params ParamName ParamValue].
  destruct (n =s? "").
  - pose proof (toy_BindDynamic_fresh st (i + 1) v H) as H'.
    destruct (BindDynamic (LIB := toy_lib) st (i + 1) v) as [[u|e] st']; [by apply IH|done].
  - destruct (_ =? 0); [done|].
    match goal with |- context [BindDynamic st ?ix v] =>
      pose proof (toy_BindDynamic_fresh st ix v H) as H';
      destruct (BindDynamic (LIB := toy_lib) st ix v) as [[u|e] st'] end; [by apply IH|done].
Qed.

Lemma toy_Prepare_fresh conn q w st w' :
  Prepare (LIB := toy_lib) conn q w = (Ok st, w') -> toy_fresh st.
Proof.
  unfold Prepare. cbn [sqlite3_prepare_v2 toy_lib]. unfold toy_prepare.
  destruct (_ =s? ""); cbn; [by intros [= <- _]|].
  destruct (toy_parse _) as [k|]; cbn; [|done].
  destruct (forallb _ _); cbn; [by intros [= <- _]|done].
Qed.

Lemma toy_terminates conn q ps w : Conn_Query (LIB := toy_lib) 20 conn q ps w <> None.
Proof.
  unfold Conn_Query. destruct (Prepare conn q w) as [[st|e] w1] eqn:Ep; [|done].
  pose proof (toy_bind_params_fresh st 0 ps (toy_Prepare_fresh _ _ _ _ _ Ep)) as Hf.
  destruct (bind_params (LIB := toy_lib) st 0 ps) as [[u|e] st1]; [|done]. cbn in Hf.
  pose proof (toy_fresh_todo st1 w1 Hf) as Ht. unfold fetch.
  destruct (_ =? 0).
  - pose proof (toy_step_all 20 st1 w1 Ht).
    by destruct (step_all (LIB := toy_lib) 20 st1 w1) as [[[[?|?] ?] ?]|].
  - destruct (0 <? _); [|done]. match goal with |- context [step_rows 20 ?ids ?b ?ts st1 w1] =>
      pose proof (toy_step_rows 20 ids b ts st1 w1 Ht) end.
    by destruct (step_rows (LIB := toy_lib) 20 _ _ _ st1 w1) as [[[[[? ?]|?] ?] ?]|].
Qed.
