(* ===== verification/SqliteSpec.v ===== *)
(** * What the SQLite wrapper promises

    The documented behaviour of the C library that the wrapper relies on, as classes
    over [SqliteLib], and the theorems about [sqlite.go] they give: a restricted role
    confines what a statement may do, a query ends when its statement does, its
    result is a table, and which integers come back as they are stored. *)
From S2P Require Import Prelude GoStrings Authorizer Sqlite ToyEngine.

(** The authorizer is called while a statement is compiled, for every action the
    statement involves, and compiling fails unless every answer is [SQLITE_OK]. *)
Class AuthorizerLaw (LIB : SqliteLib) : Type := {
  statement_actions : string -> sworld -> list (sqlite_action * option string * option string);
  prepare_authorized : forall db f q w st w',
    sqlite3_prepare_v2 db f q w = (SQLITE_OK, st, w') ->
    Forall (fun '(a, a3, a4) => exists a5 a6, f a a3 a4 a5 a6 = AUTH_OK) (statement_actions q w) }.

(** [sqlite3_column_int] returns the lower 32 bits of the integer, as an [int]. *)
Class ColumnLaw (LIB : SqliteLib) : Prop := {
  column_int_truncates : forall st i,
    sqlite3_column_int st i = int32 (sqlite3_column_int64 st i) }.

Section Spec.
  Context {LIB : SqliteLib}.

(** ** Roles *)

Lemma Prepare_authorized `{!AuthorizerLaw LIB} conn q w st w' :
  Prepare conn q w = (Ok st, w') ->
  Forall (fun '(a, a3, a4) => exists a5 a6,
            cust_sqlite3_authorizer (authorizerCtx conn) a a3 a4 a5 a6 = AUTH_OK)
    (statement_actions (CString q) w).
Proof.
  unfold Prepare. intros H.
  destruct (sqlite3_prepare_v2 (cDB conn) (cust_sqlite3_authorizer (authorizerCtx conn))
              (CString q) w) as [[rc st'] w''] eqn:E.
  destruct (Z.eqb_spec rc SQLITE_OK) as [->|]; [|done]. by eapply prepare_authorized.
Qed.

Lemma Conn_Query_prepared fuel conn q ps w res w' :
  Conn_Query fuel conn q ps w = Some (Ok res, w') ->
  exists st w1, Prepare conn q w = (Ok st, w1).
Proof.
  unfold Conn_Query. destruct (Prepare conn q w) as [[st|e] w1]; [eauto|done].
Qed.

(** The actions of a query that succeeds are those its role admits. *)
Lemma query_confined `{!AuthorizerLaw LIB} fuel conn q ps w res w' :
  Conn_Query fuel conn q ps w = Some (Ok res, w') ->
  Forall (fun '(a, a3, a4) =>
    match authorizerCtx conn with
    | None => False
    | Some role =>
        (role = AuthorizerRoleReadOnly -> reading_action a a3 a4)
        /\ (role = AuthorizerRoleReadWrite -> reading_action a a3 a4 \/ writing_action a a3)
    end) (statement_actions (CString q) w).
Proof.
  intros (st & w1 & Hp)%Conn_Query_prepared. apply Prepare_authorized in Hp.
  eapply Forall_impl; [exact Hp|]. intros [[a a3] a4] (a5 & a6 & Ha).
  destruct (authorizerCtx conn) as [role|]; [|done]. split; intros ->; cbn in Ha.
  - apply authorize_read_ok. by destruct (authorize_read a a3 a4) as [[]|].
  - destruct (authorize_read a a3 a4) as [[]|] eqn:Er; [|done|].
    + left. by apply authorize_read_ok.
    + right. destruct a; try done; try constructor; try (cbn; tauto);
        apply internal_table_spec; by destruct (cust_authorizer_is_internal_table a3).
Qed.

(** C25: roles confine what runs.  A query that succeeds on a connection in the
    read-only role only reads, through allowed functions and pragmas; in the
    read-write role it also changes rows of user tables and controls transactions,
    and nothing else; without an authorizer context nothing with an action runs. *)
Theorem role_confines_query `{!AuthorizerLaw LIB} fuel conn q ps w res w' :
  Conn_Query fuel conn q ps w = Some (Ok res, w') ->
  Forall (fun '(a, a3, a4) =>
    match authorizerCtx conn with
    | None => False
    | Some role =>
        (role = AuthorizerRoleReadOnly -> reading_action a a3 a4)
        /\ (role = AuthorizerRoleReadWrite -> reading_action a a3 a4 \/ writing_action a a3)
    end) (statement_actions (CString q) w).
Proof. apply query_confined. Qed.

(** ** Termination *)

(** The statement returns at most [n] rows from here. *)
Fixpoint stops_within (n : nat) (st : option stmt) (w : sworld) : Prop :=
  match Step st w with
  | (Ok true, st', w') => match n with O => False | S n' => stops_within n' st' w' end
  | _ => True
  end.

Lemma step_all_iff fuel st w :
  step_all (S fuel) st w <> None <-> stops_within fuel st w.
Proof.
  revert st w. induction fuel as [|fuel IH]; intros st w.
  - cbn [step_all stops_within].
    destruct (Step st w) as [[[[]|e] st'] w']; split; try done; intros H; by destruct (H eq_refl).
  - cbn [stops_within]. unfold step_all at 1. fold (step_all (LIB := LIB)). destruct (Step st w) as [[[[]|e] st'] w']; [|done|done].
    apply IH.
Qed.

Lemma step_rows_S fuel ids b types st w :
  step_rows (S fuel) ids b types st w =
  match Step st w with
  | (Err e, st', w') => Some (Err (ErrWrap "failed to step statement" e), st', w')
  | (Ok false, st', w') => Some (Ok (types, []), st', w')
  | (Ok true, st', w') =>
      match read_row st' b ids types with
      | Err e => Some (Err e, st', w')
      | Ok (row, types') =>
          match step_rows fuel ids false types' st' w' with
          | Some (Ok (types'', rows), st'', w'') => Some (Ok (types'', row :: rows), st'', w'')
          | other => other
          end
      end
  end.
Proof. done. Qed.

(** Reading a row can fail, which ends the loop early. *)
Lemma step_rows_stops fuel ids b types st w :
  stops_within fuel st w -> step_rows (S fuel) ids b types st w <> None.
Proof.
  revert ids b types st w. induction fuel as [|fuel IH]; intros ids b types st w.
  - cbn [step_rows stops_within]. by destruct (Step st w) as [[[[]|e] st'] w'].
  - cbn [stops_within]. intros H. rewrite step_rows_S.
    destruct (Step st w) as [[[[]|e] st'] w']; [|done|done].
    destruct (read_row st' b ids types) as [[row types']|e]; [|done].
    specialize (IH ids false types' st' w' H).
    by destruct (step_rows (S fuel) ids false types' st' w') as [[[[[? ?]|?] ?] ?]|].
Qed.

(** C30: a query ends.  If the statement it compiles to, once its parameters are
    bound, returns at most [n] rows, the loops of [Query] end within [n + 1] steps,
    whatever the outcome of each. *)
Theorem query_terminates n conn q ps w :
  (forall st w1 st1, Prepare conn q w = (Ok st, w1) ->
     bind_params st 0 ps = (Ok tt, st1) -> stops_within n st1 w1) ->
  Conn_Query (S n) conn q ps w <> None.
Proof.
  intros Hstop. unfold Conn_Query. destruct (Prepare conn q w) as [[st|e] w1]; [|done].
  destruct (bind_params st 0 ps) as [[[]|e] st1] eqn:Eb; [|done].
  specialize (Hstop st w1 st1 eq_refl Eb). unfold fetch. destruct (_ =? 0).
  - pose proof (proj2 (step_all_iff n st1 w1) Hstop).
    by destruct (step_all _ _ _) as [[[[?|?] ?] ?]|].
  - destruct (0 <? _); [|done]. match goal with |- context [step_rows (S n) ?ids ?b ?ts st1 w1] =>
      pose proof (step_rows_stops n ids b ts st1 w1 Hstop) end.
    by destruct (step_rows _ _ _ _ _ _) as [[[[[? ?]|?] ?] ?]|].
Qed.

(** ** The shape of results *)

Lemma read_row_length st b ids types row types' :
  read_row st b ids types = Ok (row, types') ->
  length row = length ids /\ length types' = length types.
Proof.
  revert types row types'. induction ids as [|i ids IH]; intros types row types'; cbn.
  - by intros [= <- <-].
  - destruct (ColumnDynamic st (Z.of_nat i)) as [col|e]; [|done].
    destruct (read_row st b ids _) as [[row0 types0]|e] eqn:E; [|done].
    intros [= <- <-]. apply IH in E as [E1 E2]. split; [cbn; congruence|]. rewrite E2.
    destruct (b && _); [by rewrite length_insert|done].
Qed.

Lemma step_rows_shape fuel ids b types st w types' rows st' w' :
  step_rows fuel ids b types st w = Some (Ok (types', rows), st', w') ->
  length types' = length types /\ Forall (fun row => length row = length ids) rows.
Proof.
  revert b types st w types' rows st' w'.
  induction fuel as [|fuel IH]; intros b types st w types' rows st' w'; [done|].
  cbn [step_rows]. destruct (Step st w) as [[[[]|e] st1] w1]; [|by intros [= <- <- _ _]|done].
  destruct (read_row st1 b ids types) as [[row types1]|e] eqn:Er; [|done].
  apply read_row_length in Er as [Hr Ht].
  destruct (step_rows fuel ids false types1 st1 w1) as [[[[[types2 rows2]|e] st2] w2]|] eqn:Es; [|done|done].
  intros [= <- <- _ _]. apply IH in Es as [Ht2 Hf]. split; [congruence|]. by constructor.
Qed.

(** A result is a table.  It has one type per column and one value per column in
    every row; a statement without columns has no row, and one with columns reports
    neither an insert identifier nor affected rows. *)
Theorem query_result_shape fuel conn q ps w res w' :
  Conn_Query fuel conn q ps w = Some (Ok res, w') ->
  length (sqTypes res) = length (sqColumns res)
  /\ Forall (fun row => length row = length (sqColumns res)) (sqRows res)
  /\ (sqColumns res = [] \/ (sqLastInsertID res = 0 /\ sqRowsAffected res = 0)).
Proof.
  unfold Conn_Query. destruct (Prepare conn q w) as [[st|e] w1]; [|done].
  destruct (bind_params st 0 ps) as [[u|e] st1]; [|done].
  unfold fetch. destruct (_ =? 0).
  - destruct (step_all _ _ _) as [[[[?|?] ?] ?]|]; [|done|done].
    intros [= <- _]. cbn. auto.
  - destruct (0 <? _); [|by intros [= <- _]; cbn; auto].
    destruct (step_rows _ _ _ _ _ _) as [[[[[types rows]|?] ?] ?]|] eqn:E; [|done|done].
    intros [= <- _]. cbn. apply step_rows_shape in E as [Ht Hf].
    rewrite Ht, !length_map. split; [done|]. split; [|auto].
    eapply Forall_impl; [exact Hf|]. cbn. intros row ->. by rewrite length_seq.
Qed.

(** ** Values *)

(** C35: an integer column comes back as it is stored exactly when it fits 32 bits:
    [ColumnDynamic] reads it with [sqlite3_column_int], not the 64-bit accessor. *)
Theorem ColumnDynamic_integer `{!ColumnLaw LIB} st i :
  sqlite3_column_type st i = ColumnTypeInteger ->
  ColumnDynamic st i = Ok (GInt (int32 (ColumnInt64 st i)))
  /\ (ColumnDynamic st i = Ok (GInt (ColumnInt64 st i))
      <-> - 2 ^ 31 <= ColumnInt64 st i < 2 ^ 31).
Proof.
  intros Ht. unfold ColumnDynamic, ColumnType. rewrite Ht. cbn [Z.eqb ColumnTypeInteger Pos.eqb].
  unfold ColumnInt, ColumnInt64. rewrite column_int_truncates. split; [done|].
  rewrite <- (wrap_signed_id_iff 32) by lia. fold (int32 (sqlite3_column_int64 st i)).
  split; [by intros [= ->]|by intros ->].
Qed.

(** An empty blob is bound as NULL, and every other blob as it is. *)
Theorem BindDynamic_blob st i data :
  st <> None ->
  fst (BindDynamic st i (GBytes data))
  = (let v := if data =s? "" then BNull else BBlob data in
     let '(resCode, _) := sqlite3_bind st (int32 i) v in
     if resCode =? SQLITE_OK then Ok tt
     else Err (ErrNew ("failed to bind " +:+ (if data =s? "" then "null" else "blob")
                         +:+ ": " +:+ getResCodeStr resCode))).
Proof.
  intros Hs. destruct st as [s|]; [|done]. cbn. unfold BindBlob, BindNull, bind_checked.
  destruct (data =s? ""); by destruct (sqlite3_bind _ _ _) as [rc st']; destruct (rc =? SQLITE_OK).
Qed.
End Spec.

(** ** Witnesses on the concrete library *)

#[export] Instance toy_authorizer : AuthorizerLaw toy_lib.
Proof.
  refine {| statement_actions q _ := if q =s? "" then [] else
              map (fun '(a, a3, a4) => (a, a3, a4)) (toy_actions q) |}.
  intros db f q w st w' H. cbn in H. unfold toy_prepare in H. unfold toy_actions.
  destruct (q =s? ""); [constructor|]. destruct (toy_parse q) as [k|]; [|done].
  destruct (forallb (toy_allowed f) (toy_actions_of k)) eqn:E; [|done].
  rewrite forallb_forall in E. apply Forall_forall. intros [[a a3] a4] Hin.
  apply list_elem_of_In, in_map_iff in Hin as ([[b b3] b4] & [= -> -> ->] & Hin).
  specialize (E _ Hin). cbn in E. exists None, None. by destruct (f a a3 a4 None None).
Defined.

#[export] Instance toy_column : ColumnLaw toy_lib.
Proof. split. intros st i. cbn. by destruct (toy_row st). Qed.

Definition toy_select : option (result SqlResult * toy_world) :=
  Conn_Query (LIB := toy_lib) 20 (toy_conn 2) "SELECT v FROM t LIMIT 5" []
    (MkToyWorld [BInt64 4294967296; BText "a"] None).
Definition toy_select_result : SqlResult :=
  MkSqlResult 0 0 ["v"] ["INTEGER"] [[GInt 0]; [GString "a"]].

Lemma toy_select_ok :
  toy_select = Some (Ok toy_select_result, MkToyWorld [BInt64 4294967296; BText "a"] None).
Proof. vm_compute. reflexivity. Qed.

Lemma role_confines_query_witness :
  Forall (fun '(a, a3, a4) => reading_action a a3 a4)
    [(SQLITE_SELECT, None, None); (SQLITE_READ, Some "t", Some "v")].
Proof.
  pose proof (role_confines_query (LIB := toy_lib) 20 (toy_conn 2) _ _ _ _ _ toy_select_ok) as H.
  exact (Forall_impl _ _ _ H (fun '(a, a3, a4) Ha => proj1 Ha eq_refl)).
Defined.

Lemma query_terminates_witness :
  Conn_Query (LIB := toy_lib) 1 (toy_conn 0) "INSERT INTO t VALUES (?)" [MkQueryParam "" (GInt 1)]
    toy_empty <> None.
Proof.
  apply (query_terminates (LIB := toy_lib) 0). intros st w1 st1 Hp Hb.
  vm_compute in Hp. injection Hp as <- <-. vm_compute in Hb. injection Hb as <-. exact I.
Defined.

Lemma query_result_shape_witness :
  length (sqTypes toy_select_result) = length (sqColumns toy_select_result)
  /\ Forall (fun row => length row = length (sqColumns toy_select_result))
       (sqRows toy_select_result).
Proof.
  destruct (query_result_shape (LIB := toy_lib) 20 (toy_conn 2) _ _ _ _ _ toy_select_ok)
    as (H1 & H2 & _).
  exact (conj H1 H2).
Defined.

(** The integer 2{^32} comes back as zero. *)
Definition toy_big_row : option (stmt (SqliteLib := toy_lib)) :=
  Some (MkToyStmt KSelect None true [] (Some (BInt64 4294967296))).
Lemma ColumnDynamic_integer_witness :
  ColumnDynamic (LIB := toy_lib) toy_big_row 0 = Ok (GInt 0).
Proof. exact (proj1 (ColumnDynamic_integer (LIB := toy_lib) toy_big_row 0 eq_refl)). Defined.

Lemma BindDynamic_blob_witness :
  fst (BindDynamic (LIB := toy_lib) (Some (MkToyStmt KInsert None false [] None)) 1 (GBytes ""))
  = Ok tt.
Proof. exact (BindDynamic_blob (LIB := toy_lib) (Some _) 1 "" ltac:(discriminate)). Defined.
