(* ===== verification/Driver.v ===== *)
(** * Connections for the pools: [internal/sqlitedrv/driver.go] and
    [internal/db/connector.go]

    A connector opens a SQLite connection and runs the post-connect queries on it.
    The parts of the driver that are no-ops ([Prepare], [Begin], [ResetSession],
    [IsValid]) are the constants [database/sql] sees. *)
From S2P Require Import Prelude GoStrings GoTime Authorizer Sqlite.

Section Driver.
  Context `{LIB : SqliteLib}.

(** The loop of [newConn]: the first failing query ends it. *)
Fixpoint post_connect (fuel : nat) (conn : Conn) (qs : list string) (w : sworld) :
    option (result Conn * sworld) :=
  match qs with
  | [] => Some (Ok conn, w)
  | query :: qs' =>
      match Conn_Query fuel conn query [] w with
      | None => None
      | Some (Err e, w') =>
          Some (Err (ErrWrap ("failed to execute " +:+ dquote +:+ query +:+ dquote
                                +:+ " post-connect query") e), w')
      | Some (Ok _, w') => post_connect fuel conn qs' w'
      end
  end.

(** [newConn(dsn, postConnectQueries)] *)
Definition newConn (fuel : nat) (dsn : string) (postConnectQueries : list string) (w : sworld) :
    option (result Conn * sworld) :=
  match Open dsn w with
  | (Err e, w') => Some (Err (ErrWrap "failed to open connection" e), w')
  | (Ok conn, w') => post_connect fuel conn postConnectQueries w'
  end.

(** [sqlitedrv.Connector], built by [NewConnector] and its options. *)
Record Connector : Type := MkConnector { dsn : string; postConnectQueries : list string }.
Definition connectorOption : Type := Connector -> Connector.
Definition WithPostConnectQueries (queries : list string) : connectorOption :=
  fun connector => MkConnector (dsn connector) queries.
Definition NewConnector (d : string) (options : list connectorOption) : Connector :=
  foldl (fun connector option => option connector) (MkConnector d []) options.

Definition Connect (fuel : nat) (connector : Connector) (w : sworld) :
    option (result Conn * sworld) :=
  newConn fuel (dsn connector) (postConnectQueries connector) w.

(** [sqlitedrv.Conn.Close] *)
Definition drv_Close (conn : Conn) (w : sworld) : result unit * Conn * sworld :=
  match Conn_Close conn w with
  | (Err e, conn', w') => (Err (ErrWrap "failed to close connection" e), conn', w')
  | (Ok _, conn', w') => (Ok tt, conn', w')
  end.

(** [(Driver) Open(dsn)]: a connection without post-connect queries. *)
Definition Driver_Open (fuel : nat) (d : string) (w : sworld) : option (result Conn * sworld) :=
  Connect fuel (NewConnector d []) w.

(** [(Conn) RawConn()] and [SetAuthorizerRole(role)] *)
Definition drv_RawConn (conn : Conn) : Conn := conn.
Definition drv_SetAuthorizerRole (conn : Conn) (role : Z) : result Conn :=
  SetAuthorizerRole (drv_RawConn conn) role.

(** [Prepare], [Begin], [ResetSession] and [IsValid] do nothing: no statement, no
    transaction, no error, and every connection is valid. *)
Definition drv_Prepare (conn : Conn) (query : string) : result (option unit) := Ok None.
Definition drv_Begin (conn : Conn) : result (option unit) := Ok None.
Definition drv_ResetSession (conn : Conn) : option go_error := None.
Definition drv_IsValid (conn : Conn) : bool := true.

(** [time.Duration.Milliseconds]: division truncated towards zero. *)
Definition Milliseconds (d : Z) : Z := Z.quot d millisecond.

(** [newConnector(dbPath, readOnly, cacheSizeKB, busyTimeout)]; [cacheSizeKB] is an
    [int], whose negation wraps. *)
Definition newConnector (dbPath : string) (readOnly : bool) (cacheSizeKB busyTimeout : Z) :
    Connector :=
  let optimizations :=
    ["PRAGMA BUSY_TIMEOUT = " +:+ print_int (Milliseconds busyTimeout) +:+ ";";
     "PRAGMA CACHE_SIZE = -" +:+ print_int (Z.max cacheSizeKB (int64 (- cacheSizeKB))) +:+ ";";
     "PRAGMA JOURNAL_MODE = WAL;";
     "PRAGMA SYNCHRONOUS = NORMAL;";
     "PRAGMA FOREIGN_KEYS = true;";
     "PRAGMA TEMP_STORE = MEMORY;";
     "PRAGMA MMAP_SIZE = 2147483648;"] in
  let optimizations :=
    if readOnly then optimizations ++ ["PRAGMA QUERY_ONLY = true;"] else optimizations in
  NewConnector dbPath [WithPostConnectQueries optimizations].
End Driver.
