(* ===== verification/DbState.v ===== *)
(** * The shared state of the database component: [internal/db/db.go]

    The [DB] struct as one record, the two connection pools of [database/sql] it
    owns, and one effect per operation of [db.go] that another goroutine can
    observe.  [handle] executes an effect; [None] means that the goroutine waits. *)
From S2P Require Import Prelude GoStrings GoTime Stats Authorizer Sqlite Driver Goroutines.

(** ** The types of the package *)

Definition ErrTxNotFound : go_error :=
  ErrNew "transaction not found or timed out, check your settings".
Definition ErrTxNotMatch : go_error :=
  ErrNew "transaction ID does not match the currently active transaction".
Definition ErrTxWithinTx : go_error :=
  ErrNew "cannot start a transaction within a transaction".
Definition ErrTxIdRequired : go_error :=
  ErrNew "transaction ID is required for this operation".

(** [db.Config] without the logger. *)
Record DbConfig : Type := MkDbConfig {
  cfgDataDir : string;
  cfgTxIdleTimeout : Z;
  cfgMaxReadConns : Z;
  cfgCacheSizeKB : Z;
  cfgBusyTimeout : Z }.

(** [db.Query] *)
Record Query : Type := MkQuery {
  qTxID : string;
  qTxOwner : string;
  qQuery : string;
  qParams : list QueryParam;
  qRole : Z }.

Inductive QueryType : Type :=
| QueryTypeUnknown | QueryTypeRead | QueryTypeWrite
| QueryTypeBegin | QueryTypeCommit | QueryTypeRollback.
#[export] Instance QueryType_eq_dec : EqDecision QueryType.
Proof. solve_decision. Defined.

Definition QueryType_string (t : QueryType) : string :=
  match t with
  | QueryTypeUnknown => "unknown"
  | QueryTypeRead => "read"
  | QueryTypeWrite => "write"
  | QueryTypeBegin => "begin"
  | QueryTypeCommit => "commit"
  | QueryTypeRollback => "rollback"
  end.

(** [db.QueryResult] *)
Record QueryResult : Type := MkQueryResult {
  resType : QueryType;
  resTxID : string;
  resLastInsertID : Z;
  resRowsAffected : Z;
  resColumns : list string;
  resTypes : list string;
  resRows : list (list gany) }.

(** ** The connection pools *)

Inductive which_pool : Type := RW | RO.
#[export] Instance which_pool_eq_dec : EqDecision which_pool.
Proof. solve_decision. Defined.

Inductive mutex : Type := TxMu | TxOpMu | WriteMu.
#[export] Instance mutex_eq_dec : EqDecision mutex.
Proof. solve_decision. Defined.

(** A checked-out connection: what [poolConn] and the raw connection refer to. *)
Record checkout : Type := Checkout { coPool : which_pool; coConn : nat }.

(** A [*sql.DB]: its connector, its limits, the idle connections and the number of
    connections handed out.  Connections are named by their index in [conns]. *)
Record Pool : Type := MkPool {
  plConnector : Connector;
  plMaxOpen : Z;
  plMaxIdle : Z;
  plFree : list nat;
  plInUse : nat;
  plClosed : bool }.

(** [SetMaxOpenConns(n)]: at most zero is no limit.  [SetMaxIdleConns(n)]: at most
    zero keeps no idle connection. *)
Definition max_open (n : Z) : Z := Z.max n 0.
Definition max_idle (n : Z) : Z := Z.max n 0.
Definition pool_full (p : Pool) : bool :=
  (0 <? plMaxOpen p) && (plMaxOpen p <=? Z.of_nat (plInUse p + length (plFree p))).

(** What the code reads from outside: the clock, whether the request's context is
    cancelled, whether the ticker has fired, and which ready case a [select] takes. *)
Record External : Type := MkExternal {
  extNow : Z; extCtxDone : bool; extTick : bool; extPreferStop : bool }.

(** The [context.Context] a checkout waits under: that of the request, which its client
    may cancel, or [context.Background()], which nobody does. *)
Inductive go_context : Type := RequestContext | Background.

Section State.
  Context `{LIB : SqliteLib}.

(** The [DB] struct, with the state of what it points to. *)
Record DB : Type := MkDB {
  txID : string;
  txOwner : string;
  txLastUsed : Z;
  txMu : bool;
  txOpMu : bool;
  writeMu : bool;
  readWritePool : Pool;
  readOnlyPool : Pool;
  conns : gmap nat Conn;
  nextConn : nat;
  uuids : nat;
  dbStats : DBStats;
  world : sworld;
  idleStopClosed : bool;
  closeWg : Z;
  external : External }.

(** Field updates. *)
Definition set_txID (v : string) (s : DB) : DB :=
  MkDB v (txOwner s) (txLastUsed s) (txMu s) (txOpMu s) (writeMu s) (readWritePool s)
    (readOnlyPool s) (conns s) (nextConn s) (uuids s) (dbStats s) (world s)
    (idleStopClosed s) (closeWg s) (external s).
Definition set_txOwner (v : string) (s : DB) : DB :=
  MkDB (txID s) v (txLastUsed s) (txMu s) (txOpMu s) (writeMu s) (readWritePool s)
    (readOnlyPool s) (conns s) (nextConn s) (uuids s) (dbStats s) (world s)
    (idleStopClosed s) (closeWg s) (external s).
Definition set_txLastUsed (v : Z) (s : DB) : DB :=
  MkDB (txID s) (txOwner s) v (txMu s) (txOpMu s) (writeMu s) (readWritePool s)
    (readOnlyPool s) (conns s) (nextConn s) (uuids s) (dbStats s) (world s)
    (idleStopClosed s) (closeWg s) (external s).
Definition set_mutex (m : mutex) (v : bool) (s : DB) : DB :=
  MkDB (txID s) (txOwner s) (txLastUsed s)
    (match m with TxMu => v | _ => txMu s end)
    (match m with TxOpMu => v | _ => txOpMu s end)
    (match m with WriteMu => v | _ => writeMu s end)
    (readWritePool s)
    (readOnlyPool s) (conns s) (nextConn s) (uuids s) (dbStats s) (world s)
    (idleStopClosed s) (closeWg s) (external s).
Definition set_pool (w : which_pool) (p : Pool) (s : DB) : DB :=
  MkDB (txID s) (txOwner s) (txLastUsed s) (txMu s) (txOpMu s) (writeMu s)
    (match w with RW => p | RO => readWritePool s end)
    (match w with RO => p | RW => readOnlyPool s end)
    (conns s) (nextConn s) (uuids s) (dbStats s) (world s)
    (idleStopClosed s) (closeWg s) (external s).
Definition set_conns (m : gmap nat Conn) (n : nat) (s : DB) : DB :=
  MkDB (txID s) (txOwner s) (txLastUsed s) (txMu s) (txOpMu s) (writeMu s) (readWritePool s)
    (readOnlyPool s) m n (uuids s) (dbStats s) (world s)
    (idleStopClosed s) (closeWg s) (external s).
Definition set_uuids (v : nat) (s : DB) : DB :=
  MkDB (txID s) (txOwner s) (txLastUsed s) (txMu s) (txOpMu s) (writeMu s) (readWritePool s)
    (readOnlyPool s) (conns s) (nextConn s) v (dbStats s) (world s)
    (idleStopClosed s) (closeWg s) (external s).
Definition set_dbStats (v : DBStats) (s : DB) : DB :=
  MkDB (txID s) (txOwner s) (txLastUsed s) (txMu s) (txOpMu s) (writeMu s) (readWritePool s)
    (readOnlyPool s) (conns s) (nextConn s) (uuids s) v (world s)
    (idleStopClosed s) (closeWg s) (external s).
Definition set_world (v : sworld) (s : DB) : DB :=
  MkDB (txID s) (txOwner s) (txLastUsed s) (txMu s) (txOpMu s) (writeMu s) (readWritePool s)
    (readOnlyPool s) (conns s) (nextConn s) (uuids s) (dbStats s) v
    (idleStopClosed s) (closeWg s) (external s).
Definition set_stop (stop : bool) (wg : Z) (s : DB) : DB :=
  MkDB (txID s) (txOwner s) (txLastUsed s) (txMu s) (txOpMu s) (writeMu s) (readWritePool s)
    (readOnlyPool s) (conns s) (nextConn s) (uuids s) (dbStats s) (world s)
    stop wg (external s).
Definition set_external (v : External) (s : DB) : DB :=
  MkDB (txID s) (txOwner s) (txLastUsed s) (txMu s) (txOpMu s) (writeMu s) (readWritePool s)
    (readOnlyPool s) (conns s) (nextConn s) (uuids s) (dbStats s) (world s)
    (idleStopClosed s) (closeWg s) v.

Definition the_pool (w : which_pool) (s : DB) : Pool :=
  match w with RW => readWritePool s | RO => readOnlyPool s end.
Definition locked (m : mutex) (s : DB) : bool :=
  match m with TxMu => txMu s | TxOpMu => txOpMu s | WriteMu => writeMu s end.

(** ** [database/sql] *)

(** The most recently returned idle connection is reused first. *)
Definition pop_free (p : Pool) : option (nat * Pool) :=
  match plFree p with
  | [] => None
  | c :: rest =>
      Some (c, MkPool (plConnector p) (plMaxOpen p) (plMaxIdle p) rest
                 (S (plInUse p)) (plClosed p))
  end.

(** Whether the channel [ctx.Done()] is closed. *)
Definition ctx_done (ctx : go_context) (s : DB) : bool :=
  match ctx with RequestContext => extCtxDone (external s) | Background => false end.

(** [dbPool.Conn(ctx)]: an idle connection, else a new one, else wait. *)
Definition pool_Conn (fuel : nat) (ctx : go_context) (w : which_pool) (s : DB) :
    option (result checkout * DB) :=
  let p := the_pool w s in
  if plClosed p then Some (Err (ErrNew "sql: database is closed"), s)
  else if ctx_done ctx s then Some (Err (ErrNew "context canceled"), s)
  else
    match pop_free p with
    | Some (c, p') => Some (Ok (Checkout w c), set_pool w p' s)
    | None =>
        if pool_full p then None
        else
          match Connect fuel (plConnector p) (world s) with
          | None => None
          | Some (Err e, w') => Some (Err e, set_world w' s)
          | Some (Ok conn, w') =>
              let c := nextConn s in
              let p' := MkPool (plConnector p) (plMaxOpen p) (plMaxIdle p) (plFree p)
                          (S (plInUse p)) (plClosed p) in
              Some (Ok (Checkout w c), set_pool w p' (set_conns (<[c := conn]> (conns s)) (S c)
                                                  (set_world w' s)))
          end
    end.

(** Closing the connection [c]. *)
Definition close_conn (c : nat) (s : DB) : result unit * DB :=
  match conns s !! c with
  | None => (Ok tt, s)
  | Some conn =>
      let '(r, conn', w') := drv_Close conn (world s) in
      (r, set_conns (<[c := conn']> (conns s)) (nextConn s) (set_world w' s))
  end.

(** [poolConn.Close()] *)
Definition pool_Return (w : which_pool) (c : nat) (s : DB) : DB :=
  let p := the_pool w s in
  let keep := negb (plClosed p) && (Z.of_nat (length (plFree p)) <? plMaxIdle p) in
  let p' := MkPool (plConnector p) (plMaxOpen p) (plMaxIdle p)
              (if keep then c :: plFree p else plFree p) (pred (plInUse p)) (plClosed p) in
  let s' := set_pool w p' s in
  if keep then s' else snd (close_conn c s').

(** Closing a list of connections; the last error is returned. *)
Fixpoint close_all (cs : list nat) (s : DB) : result unit * DB :=
  match cs with
  | [] => (Ok tt, s)
  | c :: cs' =>
      let '(r, s1) := close_conn c s in
      let '(r', s2) := close_all cs' s1 in
      (match r' with Err e => Err e | Ok _ => r end, s2)
  end.

(** [dbPool.Close()] *)
Definition pool_Close (w : which_pool) (s : DB) : result unit * DB :=
  let p := the_pool w s in
  close_all (plFree p)
    (set_pool w (MkPool (plConnector p) (plMaxOpen p) (plMaxIdle p) [] (plInUse p) true) s).

(** ** Effects *)

Inductive dbE : Type -> Type :=
| Lock (m : mutex) : dbE unit
| Unlock (m : mutex) : dbE unit
| LoadTxID : dbE string
| StoreTxID (v : string) : dbE unit
| LoadTxOwner : dbE string
| StoreTxOwner (v : string) : dbE unit
| LoadTxLastUsed : dbE Z
| StoreTxLastUsed (t : Z) : dbE unit
| TimeNow : dbE Z
| UuidNewString : dbE string
| StatOp (op : stat_op) : dbE unit
| PoolConn (ctx : go_context) (w : which_pool) : dbE (result checkout)
| PoolReturn (c : checkout) : dbE unit
| ConnSetRole (c : checkout) (role : Z) : dbE (result unit)
| ConnPrepare (c : checkout) (query : string) : dbE (result (option stmt))
| StmtFinalize (st : option stmt) : dbE unit
| ConnQuery (c : checkout) (query : string) (ps : list QueryParam) : dbE (result SqlResult)
| SelectStop : dbE bool
| CloseStop : dbE unit
| WgDone : dbE unit
| WgWait : dbE unit
| PoolClose (w : which_pool) : dbE (result unit).

Definition nil_conn : Conn := MkConn None None.
Definition conn_of (s : DB) (c : nat) : Conn := default nil_conn (conns s !! c).
Definition set_conn (c : nat) (conn : Conn) (s : DB) : DB :=
  set_conns (<[c := conn]> (conns s)) (nextConn s) s.

(** Time moves on with every observable operation only through the environment; an
    [Unlock] of an unlocked mutex and a second [close] of the channel are fatal in
    Go: no answer. *)
Definition handle (fuel : nat) (uuid : nat -> string) (B : Type) (e : dbE B) (s : DB) :
    option (B * DB) :=
  match e in dbE B return option (B * DB) with
  | Lock m => if locked m s then None else Some (tt, set_mutex m true s)
  | Unlock m => if locked m s then Some (tt, set_mutex m false s) else None
  | LoadTxID => Some (txID s, s)
  | StoreTxID v => Some (tt, set_txID v s)
  | LoadTxOwner => Some (txOwner s, s)
  | StoreTxOwner v => Some (tt, set_txOwner v s)
  | LoadTxLastUsed => Some (txLastUsed s, s)
  | StoreTxLastUsed t => Some (tt, set_txLastUsed t s)
  | TimeNow => Some (extNow (external s), s)
  | UuidNewString => Some (uuid (uuids s), set_uuids (S (uuids s)) s)
  | StatOp op => Some (tt, set_dbStats (stat_apply op (extNow (external s)) (dbStats s)) s)
  | PoolConn ctx w => pool_Conn fuel ctx w s
  | PoolReturn c => Some (tt, pool_Return (coPool c) (coConn c) s)
  | ConnSetRole c role =>
      match SetAuthorizerRole (conn_of s (coConn c)) role with
      | Err e => Some (Err e, s)
      | Ok conn' => Some (Ok tt, set_conn (coConn c) conn' s)
      end
  | ConnPrepare c query =>
      let '(r, w') := Prepare (conn_of s (coConn c)) query (world s) in Some (r, set_world w' s)
  | StmtFinalize st => Some (tt, set_world (Finalize st (world s)) s)
  | ConnQuery c query ps =>
      match Conn_Query fuel (conn_of s (coConn c)) query ps (world s) with
      | None => None
      | Some (r, w') => Some (r, set_world w' s)
      end
  | SelectStop =>
      let ext := external s in
      if idleStopClosed s && (extPreferStop ext || negb (extTick ext)) then Some (true, s)
      else if extTick ext
      then Some (false, set_external (MkExternal (extNow ext) (extCtxDone ext) false
                                        (extPreferStop ext)) s)
      else None
  | CloseStop => if idleStopClosed s then None else Some (tt, set_stop true (closeWg s) s)
  | WgDone => Some (tt, set_stop (idleStopClosed s) (closeWg s - 1) s)
  | WgWait => if closeWg s =? 0 then Some (tt, s) else None
  | PoolClose w => let '(r, s') := pool_Close w s in Some (r, s')
  end.

(** What may happen between two steps: time passes, the ticker fires, contexts are
    cancelled; other components count in the same statistics. *)
Definition db_env (s s' : DB) : Prop :=
  exists ext st, extNow (external s) <= extNow ext /\ s' = set_dbStats st (set_external ext s).
End State.
