(* ===== verification/Db.v ===== *)
(** * The database component: [internal/db/db.go]

    Every function of the file that touches the shared state, as a program over the
    effects of [DbState], in the order and with the deferred calls of the source. *)
From S2P Require Import Prelude GoStrings GoTime Stats Authorizer Sqlite Driver Goroutines DbState.

Section Db.
  Context `{LIB : SqliteLib}.

Definition db_prog : Type -> Type := prog dbE.

(** ** Construction *)

(** [sql.OpenDB] followed by [PingContext]: one connection is opened and kept. *)
Definition open_pool (fuel : nat) (connector : Connector) (c : nat) (w : sworld) :
    option (result (Pool * Conn) * sworld) :=
  match Connect fuel connector w with
  | None => None
  | Some (Err e, w') => Some (Err e, w')
  | Some (Ok conn, w') => Some (Ok (MkPool connector 0 2 [c] 0 false, conn), w')
  end.

(** [SetMaxIdleConns(n)] and [SetMaxOpenConns(n)]. *)
Definition limit_pool (n : Z) (w : which_pool) (s : DB) : DB :=
  let p := the_pool w s in
  let keep := Z.to_nat (max_idle n) in
  let p' := MkPool (plConnector p) (max_open n) (max_idle n) (take keep (plFree p))
              (plInUse p) (plClosed p) in
  snd (close_all (drop keep (plFree p)) (set_pool w p' s)).

(** [NewDB(config)]; [mkdirErr] is the outcome of [os.MkdirAll].  The idle monitor,
    which [NewDB] starts, is [txIdleMonitor]. *)
Definition NewDB (fuel : nat) (config : DbConfig) (mkdirErr : option go_error) (now : External)
    (st : DBStats) (w : sworld) : option (result DB * sworld) :=
  if cfgDataDir config =s? "" then Some (Err (ErrNew "database directory is required"), w)
  else
    match mkdirErr with
    | Some e => Some (Err (ErrWrap "failed to create database directory" e), w)
    | None =>
        if cfgTxIdleTimeout config <=? 0
        then Some (Err (ErrNew "transaction idle timeout must be provided"), w)
        else
          let databasePath := filepath_Join (cfgDataDir config) "database.sqlite" in
          let connector ro := newConnector databasePath ro (cfgCacheSizeKB config)
                                (cfgBusyTimeout config) in
          match open_pool fuel (connector false) 0 w with
          | None => None
          | Some (Err e, w) => Some (Err (ErrWrap "failed to ping write connection" e), w)
          | Some (Ok (rw, rwConn), w) =>
              match open_pool fuel (connector true) 1 w with
              | None => None
              | Some (Err e, w) => Some (Err (ErrWrap "failed to ping read connection" e), w)
              | Some (Ok (ro, roConn), w) =>
                  let db := MkDB "" "" (extNow now) false false false rw ro
                              (<[0%nat := rwConn]> (<[1%nat := roConn]> ∅)) 2 0 st w
                              false 1 now in
                  let db := limit_pool 1 RW db in
                  let db := limit_pool (cfgMaxReadConns config) RO db in
                  Some (Ok db, world db)
              end
          end
    end.

(** ** Connections *)

(** The functions of a request take its [ctx]; the monitor and the shutdown pass
    [context.Background()]. *)
Section Calls.
  Context (ctx : go_context).

(** [getRawConn]: the connection of a checkout.  [Raw] runs its callback on a
    connection that was just checked out, whose driver type is the one the
    connector returns. *)
Definition getRawConn (w : which_pool) : db_prog (result checkout) :=
  r ← act (PoolConn ctx w);
  mret (wrap_err "failed to get connection from pool" r).
Definition getReadWriteRawConn : db_prog (result checkout) := getRawConn RW.
Definition getReadOnlyRawConn : db_prog (result checkout) := getRawConn RO.

(** ** Transactions and classification *)

(** [validateTxID(txID, txOwner)] *)
Definition validateTxID (id owner : string) : db_prog (result unit) :=
  if id =s? "" then mret (Ok tt)
  else
    currentTxID ← act LoadTxID;
    if currentTxID =s? "" then mret (Err ErrTxNotFound)
    else if negb (id =s? currentTxID) then mret (Err ErrTxNotMatch)
    else if negb (owner =s? "") then
      currentOwner ← act LoadTxOwner;
      mret (if negb (owner =s? currentOwner) then Err ErrTxNotMatch else Ok tt)
    else mret (Ok tt).

(** [classifyPreparedQuery(conn, query)] *)
Definition classifyPreparedQuery (c : checkout) (query : string) : db_prog (result QueryType) :=
  try_bind (ErrWrap "failed to set classification authorizer role")
    (act (ConnSetRole c AuthorizerRoleAdmin)) (fun _ =>
  try_bind (ErrWrap "failed to prepare statement") (act (ConnPrepare c query)) (fun st =>
  deferred (mret (Ok (if ReadOnly st then QueryTypeRead else QueryTypeWrite)))
    (act (StmtFinalize st)))).

Definition classifyQueryOnReadOnlyConn (query : string) : db_prog (result QueryType) :=
  try_bind (ErrWrap "failed to get read-only connection") getReadOnlyRawConn (fun c =>
  deferred (classifyPreparedQuery c query) (act (PoolReturn c))).

Definition classifyQueryOnReadWriteConn (query : string) : db_prog (result QueryType) :=
  _ ← act (Lock WriteMu);
  deferred
    (try_bind (ErrWrap "failed to get read-write connection") getReadWriteRawConn (fun c =>
     deferred (classifyPreparedQuery c query) (act (PoolReturn c))))
    (act (Unlock WriteMu)).

(** The prefixes [ClassifyQuery] recognises. *)
Definition classify_prefix (query : string) : option QueryType :=
  let trimmed := ToLower (TrimSpace query) in
  if HasPrefix trimmed "begin" then Some QueryTypeBegin
  else if HasPrefix trimmed "commit" then Some QueryTypeCommit
  else if HasPrefix trimmed "rollback" || HasPrefix trimmed "end transaction"
  then Some QueryTypeRollback
  else None.

(** [ClassifyQuery(ctx, query, txID)] *)
Definition ClassifyQuery (query id : string) : db_prog (result QueryType) :=
  match classify_prefix query with
  | Some t => mret (Ok t)
  | None =>
      if negb (id =s? "") then classifyQueryOnReadWriteConn query
      else classifyQueryOnReadOnlyConn query
  end.

(** ** Execution *)

(** [withReadWriteConn(ctx, role, fn)] *)
Definition withReadWriteConn {A} (role : Z) (fn : checkout -> db_prog (result A)) :
    db_prog (result A) :=
  _ ← act (Lock WriteMu);
  deferred
    (try_bind (ErrWrap "failed to get read-write connection from pool") getReadWriteRawConn (fun c =>
     deferred
       (try_bind (ErrWrap "failed to set write connection authorizer role")
          (act (ConnSetRole c role)) (fun _ => fn c))
       (act (PoolReturn c))))
    (act (Unlock WriteMu)).

(** A statement whose result is dropped: [_, err := conn.Query(sql, nil)]. *)
Definition exec_on (sql : string) (c : checkout) : db_prog (result unit) :=
  r ← act (ConnQuery c sql []);
  mret (match r with Ok _ => Ok tt | Err e => Err e end).

(** [executeBeginQuery]; the deferred unlock of [txMu] runs unless the transaction
    was opened, and before the deferred [DecQueuedBegins]. *)
Definition executeBeginQuery (queryTxID : string) (role : Z) (queryTxOwner : string) :
    db_prog (result QueryResult) :=
  if negb (queryTxID =s? "") then mret (Err ErrTxWithinTx)
  else
    _ ← act (StatOp StIncQueuedBegins);
    deferred
      (_ ← act (Lock TxMu);
       r ← withReadWriteConn role (exec_on "BEGIN TRANSACTION");
       match r with
       | Err e =>
           _ ← act (Unlock TxMu);
           mret (Err (ErrWrap "failed to begin transaction" e))
       | Ok _ =>
           id ← act UuidNewString;
           _ ← act (StoreTxID id);
           _ ← act (StoreTxOwner queryTxOwner);
           now ← act TimeNow;
           _ ← act (StoreTxLastUsed now);
           _ ← act (StatOp StIncBegins);
           mret (Ok (MkQueryResult QueryTypeBegin id 0 0 [] [] []))
       end)
      (act (StatOp StDecQueuedBegins)).

(** What a commit and a rollback do once the engine has accepted them. *)
Definition end_transaction (op : stat_op) (t : QueryType) : db_prog (result QueryResult) :=
  _ ← act (StoreTxID "");
  _ ← act (StoreTxOwner "");
  now ← act TimeNow;
  _ ← act (StoreTxLastUsed now);
  _ ← act (StatOp op);
  _ ← act (Unlock TxMu);
  mret (Ok (MkQueryResult t "" 0 0 [] [] [])).

(** [executeCommitQuery] *)
Definition executeCommitQuery (queryTxID : string) (role : Z) : db_prog (result QueryResult) :=
  if queryTxID =s? "" then mret (Err ErrTxIdRequired)
  else
    try_bind (ErrWrap "failed to commit transaction")
      (withReadWriteConn role (exec_on "COMMIT")) (fun _ =>
    end_transaction StIncCommits QueryTypeCommit).

(** [executeRollbackQuery] *)
Definition executeRollbackQuery (queryTxID : string) (role : Z) : db_prog (result QueryResult) :=
  if queryTxID =s? "" then mret (Err ErrTxIdRequired)
  else
    try_bind (ErrWrap "failed to rollback transaction")
      (withReadWriteConn role (exec_on "ROLLBACK")) (fun _ =>
    end_transaction StIncRollbacks QueryTypeRollback).

Definition write_result (res : SqlResult) : QueryResult :=
  MkQueryResult QueryTypeWrite "" (sqLastInsertID res) (sqRowsAffected res)
    (sqColumns res) (sqTypes res) (sqRows res).
Definition read_result (res : SqlResult) : QueryResult :=
  MkQueryResult QueryTypeRead "" 0 0 (sqColumns res) (sqTypes res) (sqRows res).

(** The request's own statement on a connection. *)
Definition query_on (msg : string) (f : SqlResult -> QueryResult) (query : Query) (c : checkout) :
    db_prog (result QueryResult) :=
  try_bind (ErrWrap msg) (act (ConnQuery c (qQuery query) (qParams query))) (fun res =>
  mret (Ok (f res))).

(** [executeWriteQuery] *)
Definition executeWriteQuery (query : Query) : db_prog (result QueryResult) :=
  _ ← act (StatOp StIncQueuedWrites);
  deferred
    (try_bind id
       (withReadWriteConn (qRole query)
          (query_on "failed to execute write query" write_result query)) (fun resQuery =>
     _ ← act (StatOp StIncWrites);
     mret (Ok resQuery)))
    (act (StatOp StDecQueuedWrites)).

(** [executeReadQuery] *)
Definition executeReadQuery (query : Query) : db_prog (result QueryResult) :=
  if qTxID query =s? "" then
    try_bind (ErrWrap "failed to get read-only connection") getReadOnlyRawConn (fun c =>
    deferred
      (try_bind (ErrWrap "failed to set read connection authorizer role")
         (act (ConnSetRole c (qRole query))) (fun _ =>
       try_bind id (query_on "failed to execute read query" read_result query c) (fun res =>
       _ ← act (StatOp StIncReads);
       mret (Ok res))))
      (act (PoolReturn c)))
  else
    try_bind id
      (withReadWriteConn (qRole query)
         (query_on "failed to execute read query" read_result query)) (fun resQuery =>
    _ ← act (StatOp StIncReads);
    mret (Ok resQuery)).

(** [executeClassifiedQuery] *)
Definition executeClassifiedQuery (query : Query) (queryType : QueryType) :
    db_prog (result QueryResult) :=
  match queryType with
  | QueryTypeBegin => executeBeginQuery (qTxID query) (qRole query) (qTxOwner query)
  | QueryTypeCommit => executeCommitQuery (qTxID query) (qRole query)
  | QueryTypeRollback => executeRollbackQuery (qTxID query) (qRole query)
  | QueryTypeRead => executeReadQuery query
  | QueryTypeWrite => executeWriteQuery query
  | QueryTypeUnknown =>
      mret (Err (ErrNew ("unknown query type: " +:+ QueryType_string queryType)))
  end.

(** [time.Now()] stored in [txLastUsed]. *)
Definition touch : db_prog unit :=
  now ← act TimeNow;
  act (StoreTxLastUsed now).

(** [queryWithType] *)
Definition queryWithType (query : Query) : db_prog (result QueryResult) :=
  try_bind id (validateTxID (qTxID query) (qTxOwner query)) (fun _ =>
    let body :=
      try_bind (ErrWrap "failed to detect query type")
        (ClassifyQuery (qQuery query) (qTxID query)) (executeClassifiedQuery query) in
    if negb (qTxID query =s? "") then
      _ ← touch;
      deferred body touch
    else body).

(** [query]; the mutexes it locks are released by deferred calls. *)
Definition query_ (query : Query) : db_prog (result QueryResult) :=
  if negb (qTxID query =s? "") then
    _ ← act (Lock TxOpMu);
    deferred (queryWithType query) (act (Unlock TxOpMu))
  else
    r ← ClassifyQuery (qQuery query) (qTxID query);
    match r with
    | Err e =>
        current ← act LoadTxID;
        if negb (current =s? "") then
          _ ← act (Lock TxMu);
          deferred
            (r' ← ClassifyQuery (qQuery query) (qTxID query);
             match r' with
             | Ok queryType => executeClassifiedQuery query queryType
             | Err e' => mret (Err (ErrWrap "failed to detect query type" e'))
             end)
            (act (Unlock TxMu))
        else mret (Err (ErrWrap "failed to detect query type" e))
    | Ok QueryTypeWrite =>
        _ ← act (Lock TxMu);
        deferred (executeClassifiedQuery query QueryTypeWrite) (act (Unlock TxMu))
    | Ok queryType => executeClassifiedQuery query queryType
    end.

(** [Query] *)
Definition Db_Query (query : Query) : db_prog (result QueryResult) :=
  r ← query_ query;
  match r with
  | Err e => _ ← act (StatOp StIncErrors); mret (Err e)
  | Ok res => mret (Ok res)
  end.

End Calls.

(** ** The idle monitor and the shutdown *)

(** One tick of [txIdleMonitor]. *)
Definition monitor_tick (timeout : Z) : db_prog unit :=
  _ ← act (Lock TxOpMu);
  id ← act LoadTxID;
  if id =s? "" then act (Unlock TxOpMu)
  else
    last ← act LoadTxLastUsed;
    now ← act TimeNow;
    if timeout <? now - last then
      _ ← executeRollbackQuery Background id AuthorizerRoleAdmin;
      act (Unlock TxOpMu)
    else act (Unlock TxOpMu).

(** [txIdleMonitor(timeout)]; its loop has no bound, and [rounds] is how many of its
    iterations are followed. *)
Fixpoint txIdleMonitor (rounds : nat) (timeout : Z) : db_prog unit :=
  match rounds with
  | O => mret tt
  | S rounds' =>
      stop ← act SelectStop;
      if (stop : bool) then act WgDone
      else _ ← monitor_tick timeout; txIdleMonitor rounds' timeout
  end.

(** [Close()] *)
Definition Db_Close : db_prog (result unit) :=
  _ ← act CloseStop;
  _ ← act WgWait;
  _ ← act (Lock TxOpMu);
  id ← act LoadTxID;
  _ ← (if negb (id =s? "")
       then (_ ← executeRollbackQuery Background id AuthorizerRoleAdmin; mret tt) else mret tt);
  _ ← act (Unlock TxOpMu);
  try_bind (ErrWrap "failed to close write connection") (act (PoolClose RW)) (fun _ =>
  try_bind (ErrWrap "failed to close read connections") (act (PoolClose RO)) (fun _ =>
  mret (Ok tt))).
End Db.
