(* ===== verification/DbConc.v ===== *)
(** * Concurrent requests on the database component

    Any number of requests, the idle monitor and the shutdown, interleaved at every
    observable operation.  The locking discipline of [db.go] is a typestate: what a
    goroutine holds ([held]), what each operation needs ([needs]), and the relation
    between the shared state and all the goroutines ([Inv]). *)
From S2P Require Import Prelude GoStrings Stats Authorizer Sqlite Driver Goroutines DbState Db.

(** ** The goroutines of the component *)

Inductive task : Type :=
| TQuery (q : Query)
| TMonitor (timeout : Z)
| TClose.

(** The role under which a task may run SQL. *)
Definition task_role (t : task) : Z :=
  match t with TQuery q => qRole q | _ => AuthorizerRoleAdmin end.

(** ** Typestates *)

Record held : Type := Held {
  h_task : task;
  h_txMu : bool;
  h_txOpMu : bool;
  h_writeMu : bool;
  h_conn : option (checkout * option Z);  (* with the role set on it, if known *)
  h_seen : option string }.               (* the open transaction, seen under [txOpMu] *)

Definition h_start (t : task) : held := Held t false false false None None.

Definition set_h_mutex (m : mutex) (v : bool) (l : held) : held :=
  Held (h_task l)
    (match m with TxMu => v | _ => h_txMu l end)
    (match m with TxOpMu => v | _ => h_txOpMu l end)
    (match m with WriteMu => v | _ => h_writeMu l end)
    (h_conn l)
    (match m with TxOpMu => None | _ => h_seen l end).
Definition set_h_conn (c : option (checkout * option Z)) (l : held) : held :=
  Held (h_task l) (h_txMu l) (h_txOpMu l) (h_writeMu l) c (h_seen l).
Definition set_h_seen (v : option string) (l : held) : held :=
  Held (h_task l) (h_txMu l) (h_txOpMu l) (h_writeMu l) (h_conn l) v.

(** Where a task may run SQL: outside transactions only with [txMu], inside only in
    the transaction it names, seen under [txOpMu]. *)
Definition may_run (l : held) (w : which_pool) : Prop :=
  match w, h_task l with
  | RW, TQuery q => if qTxID q =s? "" then h_txMu l = true else h_seen l = Some (qTxID q)
  | RW, _ => h_seen l <> None
  | RO, TQuery q => qTxID q = ""
  | RO, _ => False
  end.

(** The program of a task. *)
Definition task_prog `{SqliteLib} (rounds : nat) (t : task) : db_prog unit :=
  match t with
  | TQuery q => _ ← Db_Query RequestContext q; mret tt
  | TMonitor timeout => txIdleMonitor rounds timeout
  | TClose => _ ← Db_Close; mret tt
  end.

Section Conc.
  Context `{LIB : SqliteLib}.

(** What an operation needs. *)
Definition needs (l : held) (B : Type) (e : dbE B) : Prop :=
  match e with
  | Lock WriteMu => h_writeMu l = false /\ h_conn l = None
  | Lock _ => h_txMu l = false /\ h_txOpMu l = false /\ h_writeMu l = false /\ h_conn l = None
  | Unlock TxMu => h_txMu l = true
  | Unlock TxOpMu => h_txOpMu l = true
  | Unlock WriteMu => h_writeMu l = true /\ h_conn l = None
  | StoreTxID v => if v =s? "" then h_seen l <> None /\ h_txMu l = false else h_txMu l = true
  | PoolConn _ w => h_conn l = None /\ (w = RW -> h_writeMu l = true)
  | PoolReturn c | ConnSetRole c _ | ConnPrepare c _ => exists r, h_conn l = Some (c, r)
  | ConnQuery c _ _ => h_conn l = Some (c, Some (task_role (h_task l))) /\ may_run l (coPool c)
  | SelectStop | CloseStop | WgWait =>
      l = h_start (h_task l) /\ match h_task l with TQuery _ => False | _ => True end
  | _ => True
  end.

(** What an answer is known to satisfy. *)
Definition gives (B : Type) (e : dbE B) : B -> Prop :=
  match e in dbE B return B -> Prop with
  | UuidNewString => fun b => b <> ""
  | PoolConn _ w => fun b => match b with Ok c => coPool c = w | Err _ => True end
  | _ => fun _ => True
  end.

(** How it changes what the goroutine holds. *)
Definition after (l : held) (B : Type) (e : dbE B) : B -> held :=
  match e in dbE B return B -> held with
  | Lock m => fun _ => set_h_mutex m true l
  | Unlock m => fun _ => set_h_mutex m false l
  | LoadTxID => fun b =>
      if h_txOpMu l && negb (b =s? "") then set_h_seen (Some b) l else l
  | StoreTxID v => fun _ =>
      if v =s? "" then set_h_seen None (set_h_mutex TxMu true l) else set_h_mutex TxMu false l
  | PoolConn _ w => fun b => match b with Ok c => set_h_conn (Some (c, None)) l | Err _ => l end
  | PoolReturn c => fun _ => set_h_conn None l
  | ConnSetRole c role => fun b =>
      match b with Ok _ => set_h_conn (Some (c, Some role)) l | Err _ => l end
  | _ => fun _ => l
  end.

Lemma after_task l B (e : dbE B) b : h_task (after l B e b) = h_task l.
Proof. destruct e; cbn in *; repeat break_match; done. Qed.

Abbreviation wpd := (wp needs gives after).

(** ** The functions respect the discipline *)

(** Operations whose needs are evident, up to a case analysis or a call. *)
#[local] Arguments act {E B} e /.
#[local] Arguments deferred {E A} body fin /.
#[local] Arguments try_bind {E A B} wrap p f /.
#[local] Arguments set_h_conn c !l /.
#[local] Arguments set_h_seen v !l /.
#[local] Arguments set_h_mutex !m v !l /.
Ltac wpd_step :=
  match goal with
  | |- wp _ _ _ _ (mbind _ _) _ => apply wp_bind; cbn -[wp]
  | |- wp _ _ _ _ (Vis _ _) _ =>
      apply wp_vis; cbn -[wp];
      [solve [done | by eexists | by split_and!] | intros ?; cbn -[wp]; intros ?]
  | |- wp _ _ _ _ (prog_bind _ _) _ => apply wp_bind; cbn -[wp]
  | |- wp _ _ _ _ (mret _) _ => apply wp_ret; cbn -[wp]
  | |- wp _ _ _ _ (Ret _) _ => apply wp_ret; cbn -[wp]
  end.
Ltac units := repeat match goal with u : unit |- _ => destruct u end.
Ltac wpd_run := cbn -[wp]; repeat wpd_step.

Section Calls.
  Context (ctx : go_context).

(** Running [fn] on the read-write connection. *)
Lemma withReadWriteConn_wp {A} t m1 m2 sn role (fn : checkout -> db_prog (result A))
    (Q : held -> result A -> Prop) :
  let l := Held t m1 m2 false None sn in
  (forall e, Q l (Err e)) ->
  (forall c, coPool c = RW ->
     let lc := Held t m1 m2 true (Some (c, Some role)) sn in
     wpd lc (fn c) (fun l' r => l' = lc /\ Q l r)) ->
  wpd l (withReadWriteConn ctx role fn) Q.
Proof.
  cbn -[wp]. intros Herr Hfn.
  wpd_run. destruct b0 as [c|e]; wpd_run; [|by apply Herr].
  destruct b0 as [u|e]; cbn -[wp]; [|wpd_run; by apply Herr].
  eapply wp_mono; [|by apply Hfn]. cbn -[wp]. intros l' r [-> HQ]. by wpd_run.
Qed.

Lemma exec_on_wp l sql c (Q : held -> result unit -> Prop) :
  needs l _ (ConnQuery c sql []) -> (forall r, Q l r) -> wpd l (exec_on sql c) Q.
Proof. intros Hn HQ. apply wp_vis; [done|]. intros b _. cbn. apply HQ. Qed.

Lemma query_on_wp l msg f q c (Q : held -> result QueryResult -> Prop) :
  needs l _ (ConnQuery c (qQuery q) (qParams q)) -> (forall r, Q l r) ->
  wpd l (query_on msg f q c) Q.
Proof.
  intros Hn HQ. apply wp_vis; [done|]. intros [b|e] _; cbn; apply HQ.
Qed.

(** What classification may answer. *)
Definition classified (query : string) (r : result QueryType) : Prop :=
  match classify_prefix query, r with
  | Some t, _ => r = Ok t
  | None, Ok t => t = QueryTypeRead \/ t = QueryTypeWrite
  | None, Err _ => True
  end.

Lemma classifyPreparedQuery_wp t m1 m2 w sn c r query (Q : held -> result QueryType -> Prop) :
  classify_prefix query = None ->
  (forall r' res, classified query res -> Q (Held t m1 m2 w (Some (c, r')) sn) res) ->
  wpd (Held t m1 m2 w (Some (c, r)) sn) (classifyPreparedQuery c query) Q.
Proof.
  intros Hp HQ. unfold classified in *. rewrite Hp in HQ. cbn -[wp].
  wpd_run. destruct b; wpd_run; [|by apply HQ].
  destruct b as [st|]; wpd_run; [|by apply HQ].
  apply HQ. destruct (ReadOnly st); auto.
Qed.

#[local] Arguments classifyPreparedQuery : simpl never.

Lemma ClassifyQuery_wp t m1 m2 sn query id (Q : held -> result QueryType -> Prop) :
  let l := Held t m1 m2 false None sn in
  (forall r, classified query r -> Q l r) ->
  wpd l (ClassifyQuery ctx query id) Q.
Proof.
  cbn -[wp ClassifyQuery]. intros HQ. unfold ClassifyQuery.
  destruct (classify_prefix query) as [t0|] eqn:Hp.
  - cbn. apply HQ. unfold classified. by rewrite Hp.
  - assert (HE : forall e, Q (Held t m1 m2 false None sn) (Err e)).
    { intros e. apply HQ. unfold classified. by rewrite Hp. }
    destruct (id =s? ""); cbn -[wp].
    + wpd_run. destruct b as [c|e]; wpd_run; [|apply HE].
      apply classifyPreparedQuery_wp; [done|]. intros r' res Hr. wpd_run. by apply HQ.
    + wpd_run. destruct b0 as [c|e]; wpd_run; [|apply HE].
      apply classifyPreparedQuery_wp; [done|]. intros r' res Hr. wpd_run. by apply HQ.
Qed.

#[local] Arguments ClassifyQuery : simpl never.
#[local] Arguments withReadWriteConn : simpl never.
#[local] Arguments exec_on : simpl never.
#[local] Arguments query_on : simpl never.

(** The execution functions give back what they were called with, except that a
    begin hands [txMu] over to the transaction and a commit or rollback takes it
    back and releases it. *)
Definition tx_known (l : held) (q : Query) : Prop :=
  h_task l = TQuery q
  /\ if qTxID q =s? "" then h_txMu l = true else h_seen l = Some (qTxID q).

Lemma executeReadQuery_wp m1 m2 sn q (Q : held -> result QueryResult -> Prop) :
  let l := Held (TQuery q) m1 m2 false None sn in
  (qTxID q <> "" -> sn = Some (qTxID q)) ->
  (forall r, Q l r) ->
  wpd l (executeReadQuery ctx q) Q.
Proof.
  cbn -[wp executeReadQuery]. intros Htx HQ. unfold executeReadQuery.
  destruct (qTxID q =s? "") eqn:E; string_cases.
  - wpd_run. destruct b as [c|e]; wpd_run; [|apply HQ].
    destruct b as [u|e]; wpd_run; [|apply HQ].
    apply query_on_wp; [cbn; split; [done|]; rewrite H; apply E|].
    intros [r|e]; wpd_run; apply HQ.
  - cbn -[wp]. wpd_step. apply withReadWriteConn_wp; [intros e; wpd_run; apply HQ|].
    cbn -[wp]. intros c Hc. apply query_on_wp.
    + cbn. split; [done|]. rewrite Hc. cbn. rewrite (proj2 (String.eqb_neq _ _) E). auto.
    + intros r. split; [done|]. destruct r; wpd_run; apply HQ.
Qed.

Lemma executeWriteQuery_wp m1 m2 sn q (Q : held -> result QueryResult -> Prop) :
  let l := Held (TQuery q) m1 m2 false None sn in
  tx_known l q ->
  (forall r, Q l r) ->
  wpd l (executeWriteQuery ctx q) Q.
Proof.
  cbn -[wp executeWriteQuery]. intros [_ Htx] HQ. unfold executeWriteQuery. wpd_run.
  apply withReadWriteConn_wp; [intros e; wpd_run; apply HQ|].
  cbn -[wp]. intros c Hc. apply query_on_wp.
  - cbn. split; [done|]. by rewrite Hc.
  - intros r. split; [done|]. destruct r; wpd_run; apply HQ.
Qed.

Lemma executeBeginQuery_wp m2 sn q (Q : held -> result QueryResult -> Prop) :
  let l m := Held (TQuery q) m m2 false None sn in
  (qTxID q = "" -> m2 = false) ->
  (forall r, Q (l false) r) ->
  wpd (l false) (executeBeginQuery ctx (qTxID q) (qRole q) (qTxOwner q)) Q.
Proof.
  cbn -[wp executeBeginQuery]. intros Htx HQ. unfold executeBeginQuery.
  destruct (qTxID q =s? "") eqn:E; string_cases; [|wpd_run; apply HQ].
  rewrite (Htx E) in *. wpd_run. apply withReadWriteConn_wp; [intros e; wpd_run; apply HQ|].
  cbn -[wp]. intros c Hc. apply exec_on_wp.
  - cbn. split; [done|]. rewrite Hc. cbn. by rewrite E.
  - intros [r|e]; (split; [done|]); wpd_run; [|apply HQ].
    match goal with H : ?i <> "" |- _ => apply String.eqb_neq in H as Hi end.
    apply wp_vis; cbn -[wp]; [by rewrite Hi|].
    intros ? _. rewrite Hi. wpd_run. apply HQ.
Qed.

Lemma end_transaction_wp t sn op ty (Q : held -> result QueryResult -> Prop) :
  (forall r, Q (Held t false true false None None) r) ->
  sn <> None ->
  wpd (Held t false true false None sn) (end_transaction op ty) Q.
Proof. intros HQ Hsn. wpd_run. apply HQ. Qed.

Lemma end_query_wp t id msg sql op ty (Q : held -> result QueryResult -> Prop) :
  (forall r sn, Q (Held t false true false None sn) r) ->
  (match t with TQuery q => qTxID q = id | _ => True end) -> id <> "" ->
  wpd (Held t false true false None (Some id))
    (try_bind (ErrWrap msg) (withReadWriteConn ctx (task_role t) (exec_on sql)) (fun _ =>
     end_transaction op ty)) Q.
Proof.
  intros HQ Hid Hne. apply wp_try. apply withReadWriteConn_wp; [intros e; apply HQ|].
  cbn -[wp]. intros c Hc. apply exec_on_wp.
  - cbn. split; [done|]. rewrite Hc. destruct t as [q| |]; cbn; [|done..].
    rewrite Hid, (proj2 (String.eqb_neq _ _) Hne). done.
  - intros [r|e]; (split; [done|]); [|apply HQ].
    apply end_transaction_wp; [intros; apply HQ | done].
Qed.

Lemma executeRollbackQuery_wp t id (Q : held -> result QueryResult -> Prop) :
  (forall r sn, Q (Held t false true false None sn) r) ->
  (match t with TQuery q => qTxID q = id | _ => True end) -> id <> "" ->
  wpd (Held t false true false None (Some id)) (executeRollbackQuery ctx id (task_role t)) Q.
Proof.
  intros HQ Hid Hne. unfold executeRollbackQuery.
  rewrite (proj2 (String.eqb_neq _ _) Hne). by apply end_query_wp.
Qed.

Lemma executeCommitQuery_wp t id (Q : held -> result QueryResult -> Prop) :
  (forall r sn, Q (Held t false true false None sn) r) ->
  (match t with TQuery q => qTxID q = id | _ => True end) -> id <> "" ->
  wpd (Held t false true false None (Some id)) (executeCommitQuery ctx id (task_role t)) Q.
Proof.
  intros HQ Hid Hne. unfold executeCommitQuery.
  rewrite (proj2 (String.eqb_neq _ _) Hne). by apply end_query_wp.
Qed.

#[local] Arguments executeReadQuery : simpl never.
#[local] Arguments executeWriteQuery : simpl never.
#[local] Arguments executeBeginQuery : simpl never.
#[local] Arguments executeCommitQuery : simpl never.
#[local] Arguments executeRollbackQuery : simpl never.

Lemma validateTxID_wp t id owner (Q : held -> result unit -> Prop) :
  let l sn := Held t false true false None sn in
  id <> "" ->
  (forall e sn, Q (l sn) (Err e)) -> Q (l (Some id)) (Ok tt) ->
  wpd (l None) (validateTxID id owner) Q.
Proof.
  cbn -[wp validateTxID]. intros Hid He Hok. unfold validateTxID.
  apply String.eqb_neq in Hid. rewrite Hid. wpd_run.
  destruct (b =s? "") eqn:Eb; wpd_run; [apply He|].
  destruct (id =s? b) eqn:Ei; wpd_run; [|apply He]. string_cases.
  destruct (owner =s? ""); wpd_run; [done|]. string_cases.
  destruct (owner =s? _); wpd_run; [done | apply He].
Qed.

(** A request that names a transaction, once it is validated. *)
Lemma executeInTx_wp q ty (Q : held -> result QueryResult -> Prop) :
  let l sn := Held (TQuery q) false true false None sn in
  qTxID q <> "" ->
  (forall r sn, Q (l sn) r) ->
  wpd (l (Some (qTxID q))) (executeClassifiedQuery ctx q ty) Q.
Proof.
  cbn -[wp executeClassifiedQuery]. intros Hne HQ. destruct ty; cbn -[wp].
  - wpd_run. apply HQ.
  - apply executeReadQuery_wp; [done | intros; apply HQ].
  - apply executeWriteQuery_wp; [|intros; apply HQ].
    split; [done|]. cbn. by rewrite (proj2 (String.eqb_neq _ _) Hne).
  - apply executeBeginQuery_wp; [done | intros; apply HQ].
  - apply (executeCommitQuery_wp (TQuery q)); [intros; apply HQ | done..].
  - apply (executeRollbackQuery_wp (TQuery q)); [intros; apply HQ | done..].
Qed.

Lemma queryWithType_wp q (Q : held -> result QueryResult -> Prop) :
  let l sn := Held (TQuery q) false true false None sn in
  qTxID q <> "" ->
  (forall r sn, Q (l sn) r) ->
  wpd (l None) (queryWithType ctx q) Q.
Proof.
  cbn -[wp queryWithType]. intros Hne HQ. unfold queryWithType. apply wp_try.
  apply validateTxID_wp; [done | intros; apply HQ|].
  rewrite (proj2 (String.eqb_neq _ _) Hne). wpd_run.
  apply ClassifyQuery_wp. intros [ty|e] _; wpd_run; [|apply HQ].
  apply executeInTx_wp; [done|]. intros. wpd_run. apply HQ.
Qed.

(** A request outside transactions, once it is classified; [m] says whether it
    already has [txMu]. *)
Lemma executeOutside_wp q m ty (Q : held -> result QueryResult -> Prop) :
  let l := Held (TQuery q) m false false None None in
  qTxID q = "" -> (forall r, Q l r) ->
  (ty = QueryTypeWrite -> m = true) -> (ty = QueryTypeBegin -> m = false) ->
  wpd l (executeClassifiedQuery ctx q ty) Q.
Proof.
  cbn -[wp executeClassifiedQuery]. intros Htx HQ Hw Hb. destruct ty; cbn -[wp].
  - wpd_run. apply HQ.
  - apply executeReadQuery_wp; [done | intros; apply HQ].
  - rewrite Hw in * by done. apply executeWriteQuery_wp; [|intros; apply HQ].
    split; [done|]. cbn. by rewrite Htx.
  - rewrite Hb in * by done. apply executeBeginQuery_wp; [done | intros; apply HQ].
  - unfold executeCommitQuery. rewrite Htx. wpd_run. apply HQ.
  - unfold executeRollbackQuery. rewrite Htx. wpd_run. apply HQ.
Qed.

#[local] Arguments queryWithType : simpl never.
#[local] Arguments executeClassifiedQuery : simpl never.

Lemma Db_Query_wp q (Q : held -> result QueryResult -> Prop) :
  let l := h_start (TQuery q) in
  (forall r, Q l r) ->
  wpd l (Db_Query ctx q) Q.
Proof.
  intros l HQ. subst l. unfold h_start, Db_Query, query_ in *. wpd_step.
  assert (Hend : forall r, wpd (Held (TQuery q) false false false None None)
      (match r with
       | Ok res => mret (Ok res)
       | Err e => _ ← act (StatOp StIncErrors); mret (Err e)
       end) Q).
  { intros [r|e]; wpd_run; apply HQ. }
  destruct (qTxID q =s? "") eqn:E; string_cases.
  - cbn -[wp]. wpd_step. apply ClassifyQuery_wp. intros [ty|e] Hc; cbn -[wp].
    + unfold classified in Hc. destruct ty; cbn -[wp]; try first [
        apply executeOutside_wp; done].
      wpd_run. apply executeOutside_wp; [done| |done..]. intros r. wpd_run. apply Hend.
    + wpd_run. destruct (b =s? ""); wpd_run; [apply HQ|].
      apply ClassifyQuery_wp. intros [ty|e'] Hc'; wpd_run; [|apply HQ].
      apply executeOutside_wp; [done| |done|].
      * intros r. wpd_run. apply Hend.
      * intros ->. unfold classified in Hc, Hc'.
        destruct (classify_prefix (qQuery q)); [discriminate|]. by destruct Hc'.
  - cbn -[wp]. wpd_run. apply queryWithType_wp; [done|]. intros r sn. wpd_run. apply Hend.
Qed.
End Calls.

Lemma monitor_tick_wp t timeout (Q : held -> unit -> Prop) :
  t = TMonitor timeout \/ t = TClose ->
  let l := h_start t in
  Q l tt -> wpd l (monitor_tick timeout) Q.
Proof.
  intros Ht l HQ. subst l. unfold h_start, monitor_tick in *. wpd_run.
  destruct (_ =s? "") eqn:E; wpd_run; [by units|].
  destruct (timeout <? _); wpd_run; [|by units].
  string_cases.
  replace AuthorizerRoleAdmin with (task_role t) by (by destruct Ht as [-> | ->]).
  apply executeRollbackQuery_wp; [|by destruct Ht as [-> | ->]|done].
  intros r sn. wpd_run. by units.
Qed.

#[local] Arguments monitor_tick : simpl never.

Lemma txIdleMonitor_wp rounds timeout (Q : held -> unit -> Prop) :
  Q (h_start (TMonitor timeout)) tt ->
  wpd (h_start (TMonitor timeout)) (txIdleMonitor rounds timeout) Q.
Proof.
  intros HQ. induction rounds as [|n IH]; [done|]. wpd_run.
  destruct b; wpd_run; [by units|]. apply monitor_tick_wp; [by left|]. done.
Qed.

Lemma Db_Close_wp (Q : held -> result unit -> Prop) :
  (forall r, Q (h_start TClose) r) -> wpd (h_start TClose) Db_Close Q.
Proof.
  intros HQ. unfold Db_Close, h_start in *. wpd_run.
  destruct (_ =s? "") eqn:E; wpd_run.
  - do 2 (try match goal with r : result unit |- _ => destruct r; wpd_run end); apply HQ.
  - string_cases. apply (executeRollbackQuery_wp Background TClose); [|done..]. intros r sn. wpd_run.
    do 2 (try match goal with r : result unit |- _ => destruct r; wpd_run end); apply HQ.
Qed.

Lemma task_prog_wp rounds t :
  wpd (h_start t) (task_prog rounds t) (fun l _ => l = h_start (h_task l)).
Proof.
  destruct t as [q|timeout|]; cbn [task_prog].
  - wpd_step. apply Db_Query_wp. intros r. by apply wp_ret.
  - by apply txIdleMonitor_wp.
  - wpd_step. apply Db_Close_wp. intros r. by apply wp_ret.
Qed.
End Conc.
