(* ===== verification/DbInv.v ===== *)
(** * What holds in every interleaving of the database component

    The invariant between the [DB] struct and the goroutines and its preservation by
    every operation; the theorems it gives are in [DbSafety.v]. *)
From S2P Require Import Prelude GoStrings Stats Authorizer Sqlite Driver Goroutines DbState Db DbConc.

Definition b2n (b : bool) : nat := if b then 1%nat else 0%nat.
Definition cnt (f : held -> bool) (ls : list held) : nat := sum_list_with (fun l => b2n (f l)) ls.
Definition has_conn (w : which_pool) (l : held) : bool :=
  match h_conn l with Some (c, _) => bool_decide (coPool c = w) | None => false end.
Definition in_tx (id : string) : bool := negb (id =s? "").

(** [txMu] belongs to one goroutine or to the open transaction; what was seen of the
    transaction under [txOpMu] stays true. *)
Record lock_inv (id : string) (m1 m2 m3 : bool) (ls : list held) : Prop := {
  li_tx : (cnt h_txMu ls + b2n (in_tx id) = b2n m1)%nat;
  li_op : cnt h_txOpMu ls = b2n m2;
  li_write : cnt h_writeMu ls = b2n m3;
  li_seen : forall i l t, ls !! i = Some l -> h_seen l = Some t ->
              h_txOpMu l = true /\ id = t /\ t <> "" }.

(** A checked-out connection has one holder, and the role set on it stays. *)
Record conn_inv (rw ro : list nat) (nrw nro next : nat) (role_of : nat -> option Z)
    (ls : list held) : Prop := {
  ci_nodup : NoDup (rw ++ ro);
  ci_next : forall c, c ∈ (rw ++ ro) -> (c < next)%nat;
  ci_held : forall i l c r, ls !! i = Some l -> h_conn l = Some (c, r) ->
      (coConn c < next)%nat /\ ~ (coConn c ∈ rw ++ ro)
      /\ (r = None \/ r = role_of (coConn c))
      /\ (coPool c = RW -> h_writeMu l = true);
  ci_excl : forall i j li lj ci cj ri rj, ls !! i = Some li -> ls !! j = Some lj ->
      h_conn li = Some (ci, ri) -> h_conn lj = Some (cj, rj) -> coConn ci = coConn cj -> i = j;
  ci_rw : cnt (has_conn RW) ls = nrw;
  ci_ro : cnt (has_conn RO) ls = nro }.

(** ** Counting *)

Lemma b2n_decide (P : Prop) `{Decision P} : b2n (bool_decide P) = if decide P then 1%nat else 0%nat.
Proof. unfold bool_decide, decide. by destruct H. Qed.

Lemma cnt_insert f ls i l l' :
  ls !! i = Some l -> (cnt f (<[i:=l']> ls) + b2n (f l) = cnt f ls + b2n (f l'))%nat.
Proof. intros H. apply (sum_list_with_insert (fun l => b2n (f l)) ls i l l' H). Qed.

Lemma cnt_lookup f ls i l : ls !! i = Some l -> (b2n (f l) <= cnt f ls)%nat.
Proof. intros H. apply (sum_list_with_lookup_le (fun l => b2n (f l)) ls i l H). Qed.

Lemma cnt_pos f ls : (0 < cnt f ls)%nat -> exists i l, ls !! i = Some l /\ f l = true.
Proof.
  intros H. destruct (sum_list_with_pos _ _ H) as (i & l & Hi & Hl). exists i, l.
  split; [done|]. by destruct (f l); [|cbn in Hl; lia].
Qed.

Lemma cnt_unique f ls i j li lj :
  (cnt f ls <= 1)%nat -> ls !! i = Some li -> ls !! j = Some lj ->
  f li = true -> f lj = true -> i = j.
Proof.
  intros Hc Hi Hj Hfi Hfj. destruct (decide (i = j)) as [|Hne]; [done|].
  pose proof (sum_list_with_lookup2_le (fun l => b2n (f l)) ls i j li lj Hne Hi Hj) as Hle.
  cbn in Hle. rewrite Hfi, Hfj in Hle. cbn in Hle. unfold cnt in Hc. lia.
Qed.

Lemma cnt_app f ls ls' : cnt f (ls ++ ls') = (cnt f ls + cnt f ls')%nat.
Proof. unfold cnt. induction ls as [|l ls IH]; cbn; [done|]. rewrite IH. lia. Qed.

(** ** Each part is preserved *)

(** A step that changes neither what the goroutine holds nor the locks. *)
Lemma lock_inv_upd id m1 m2 m3 id' m1' m2' m3' ls i l l' :
  lock_inv id m1 m2 m3 ls -> ls !! i = Some l ->
  (b2n (h_txMu l') + b2n (in_tx id') + b2n m1 = b2n (h_txMu l) + b2n (in_tx id) + b2n m1')%nat ->
  (b2n (h_txOpMu l') + b2n m2 = b2n (h_txOpMu l) + b2n m2')%nat ->
  (b2n (h_writeMu l') + b2n m3 = b2n (h_writeMu l) + b2n m3')%nat ->
  (forall t, h_seen l' = Some t -> h_txOpMu l' = true /\ id' = t /\ t <> "") ->
  (id' = id \/ (forall j lj, ls !! j = Some lj -> j <> i -> h_seen lj = None)) ->
  lock_inv id' m1' m2' m3' (<[i:=l']> ls).
Proof.
  intros [H1 H2 H3 H4] Hi E1 E2 E3 Hs Hid. split.
  - pose proof (cnt_insert h_txMu ls i l l' Hi). lia.
  - pose proof (cnt_insert h_txOpMu ls i l l' Hi). lia.
  - pose proof (cnt_insert h_writeMu ls i l l' Hi). lia.
  - intros j lj t Hj Ht. apply list_lookup_insert_Some in Hj as [(<- & <- & _)|[Hne Hj]].
    + by apply Hs.
    + destruct Hid as [-> | Hid]; [by apply (H4 j lj)|].
      rewrite (Hid j lj Hj) in Ht by done. discriminate.
Qed.

(** A step that leaves the goroutine's connection as it is. *)
Lemma conn_inv_keep rw ro nrw nro next role_of ls i l l' :
  conn_inv rw ro nrw nro next role_of ls -> ls !! i = Some l ->
  h_conn l' = h_conn l ->
  (forall c r, h_conn l = Some (c, r) -> coPool c = RW ->
     h_writeMu l = true -> h_writeMu l' = true) ->
  conn_inv rw ro nrw nro next role_of (<[i:=l']> ls).
Proof.
  intros [H1 H2 H3 H4 H5 H6] Hi Hc Hw. split; [done|done|..].
  - intros j lj c r Hj Hcj. apply list_lookup_insert_Some in Hj as [(<- & <- & _)|[Hne Hj]].
    + rewrite Hc in Hcj. destruct (H3 _ _ _ _ Hi Hcj) as (? & ? & ? & ?).
      split_and!; [done..|]. intros Hp. eapply Hw; eauto.
    + by eapply H3.
  - intros j k lj lk cj ck rj rk Hj Hk Hcj Hck Heq.
    apply list_lookup_insert_Some in Hj as [(<- & <- & _)|[Hnj Hj]];
      apply list_lookup_insert_Some in Hk as [(<- & <- & _)|[Hnk Hk]];
      rewrite ?Hc in *; eauto.
  - pose proof (cnt_insert (has_conn RW) ls i l l' Hi) as E.
    assert (has_conn RW l' = has_conn RW l) as Ha by (unfold has_conn; by rewrite Hc).
    rewrite Ha in E. lia.
  - pose proof (cnt_insert (has_conn RO) ls i l l' Hi) as E.
    assert (has_conn RO l' = has_conn RO l) as Ha by (unfold has_conn; by rewrite Hc).
    rewrite Ha in E. lia.
Qed.

(** Roles may change on connections that nobody has set a role on, and idle
    connections may be dropped. *)
Lemma conn_inv_mono rw ro nrw nro next role_of rw' ro' role_of' ls :
  conn_inv rw ro nrw nro next role_of ls ->
  NoDup (rw' ++ ro') -> (forall c, c ∈ (rw' ++ ro') -> c ∈ (rw ++ ro)) ->
  (forall i l c r, ls !! i = Some l -> h_conn l = Some (c, Some r) ->
     role_of' (coConn c) = role_of (coConn c)) ->
  conn_inv rw' ro' nrw nro next role_of' ls.
Proof.
  intros [H1 H2 H3 H4 H5 H6] Hnd Hsub Hr. split; [done| by auto |..|done|done|done].
  intros i l c r Hi Hc. destruct (H3 _ _ _ _ Hi Hc) as (Hn & Hf & Hro & Hw).
  split_and!; [done|by auto| |done].
  destruct r as [r|]; [|by left]. destruct Hro as [Hro|Hro]; [done|]. right.
  rewrite Hro. symmetry. eapply Hr; eauto.
Qed.

(** Setting the role of the connection one has. *)
Lemma conn_inv_role rw ro nrw nro next role_of role_of' ls i l c r0 r :
  conn_inv rw ro nrw nro next role_of ls -> ls !! i = Some l ->
  h_conn l = Some (c, r0) -> role_of' (coConn c) = Some r ->
  (forall x, x <> coConn c -> role_of' x = role_of x) ->
  conn_inv rw ro nrw nro next role_of' (<[i := set_h_conn (Some (c, Some r)) l]> ls).
Proof.
  intros [H1 H2 H3 H4 H5 H6] Hi Hc Hr Hro.
  destruct (H3 _ _ _ _ Hi Hc) as (Hn & Hf & _ & Hw).
  assert (Hcnt : forall w, has_conn w (set_h_conn (Some (c, Some r)) l) = has_conn w l).
  { intros w. unfold has_conn. by rewrite Hc. }
  split; [done|done|..].
  - intros j lj cj rj Hj Hcj. apply list_lookup_insert_Some in Hj as [(<- & <- & _)|[Hne Hj]].
    + cbn in Hcj. injection Hcj as <- <-. split_and!; [done..| |done]. by right.
    + destruct (H3 _ _ _ _ Hj Hcj) as (? & ? & Hrj & ?). split_and!; [done..| |done].
      destruct Hrj as [|Hrj]; [by left|]. right. rewrite Hro; [done|].
      intros Heq. apply Hne. eapply H4; eauto.
  - intros j k lj lk cj ck rj rk Hj Hk Hcj Hck Heq.
    apply list_lookup_insert_Some in Hj as [(<- & <- & _)|[Hnj Hj]];
      apply list_lookup_insert_Some in Hk as [(<- & <- & _)|[Hnk Hk]]; [done|..].
    + cbn in Hcj. injection Hcj as <- <-. eapply (H4 i k); eauto.
    + cbn in Hck. injection Hck as <- <-. eapply (H4 j i); eauto.
    + eapply (H4 j k); eauto.
  - pose proof (cnt_insert (has_conn RW) ls i l (set_h_conn (Some (c, Some r)) l) Hi) as E. rewrite Hcnt in E. lia.
  - pose proof (cnt_insert (has_conn RO) ls i l (set_h_conn (Some (c, Some r)) l) Hi) as E. rewrite Hcnt in E. lia.
Qed.

(** Checking a connection out of a pool. *)
Lemma conn_inv_take rw ro nrw nro next role_of rw' ro' next' role_of' ls i l w c :
  conn_inv rw ro nrw nro next role_of ls -> ls !! i = Some l ->
  h_conn l = None -> (w = RW -> h_writeMu l = true) ->
  NoDup (rw' ++ ro') -> (forall x, x ∈ (rw' ++ ro') -> x ∈ (rw ++ ro)) ->
  c ∉ (rw' ++ ro') -> (next <= next')%nat -> (c < next')%nat ->
  (c ∈ (rw ++ ro) \/ c = next) ->
  (forall x, (x < next)%nat -> x ∉ (rw ++ ro) -> role_of' x = role_of x) ->
  conn_inv rw' ro' (if decide (w = RW) then S nrw else nrw) (if decide (w = RO) then S nro else nro)
    next' role_of' (<[i := set_h_conn (Some (Checkout w c, None)) l]> ls).
Proof.
  intros [H1 H2 H3 H4 H5 H6] Hi Hl Hw Hnd Hsub Hc Hle Hlt Hor Hro.
  assert (Hfresh : forall j lj cj rj, ls !! j = Some lj -> h_conn lj = Some (cj, rj) ->
            coConn cj <> c).
  { intros j lj cj rj Hj Hcj <-. destruct (H3 _ _ _ _ Hj Hcj) as (? & ? & _).
    destruct Hor as [?|?]; [done|lia]. }
  assert (Hcnt : forall w', b2n (has_conn w' (set_h_conn (Some (Checkout w c, None)) l))
                 = if decide (w = w') then 1%nat else 0%nat).
  { intros w'. apply b2n_decide. }
  assert (Hcl : forall w', b2n (has_conn w' l) = 0%nat) by (intros; unfold has_conn; by rewrite Hl).
  split; [done| |..].
  - intros x Hx. apply Hsub, H2 in Hx. lia.
  - intros j lj cj rj Hj Hcj. apply list_lookup_insert_Some in Hj as [(<- & <- & _)|[Hne Hj]].
    + cbn in Hcj. injection Hcj as <- <-. split_and!; cbn; [done|done|by left|done].
    + destruct (H3 _ _ _ _ Hj Hcj) as (? & ? & Hrj & ?). split_and!; [lia|by auto| |done].
      destruct Hrj as [|Hrj]; [by left|]. right. by rewrite Hro.
  - intros j k lj lk cj ck rj rk Hj Hk Hcj Hck Heq.
    apply list_lookup_insert_Some in Hj as [(<- & <- & _)|[Hnj Hj]];
      apply list_lookup_insert_Some in Hk as [(<- & <- & _)|[Hnk Hk]]; [done|..].
    + cbn in Hcj. injection Hcj as <- <-. cbn in Heq. exfalso.
      apply (Hfresh _ _ _ _ Hk Hck). done.
    + cbn in Hck. injection Hck as <- <-. cbn in Heq. exfalso.
      apply (Hfresh _ _ _ _ Hj Hcj). done.
    + eapply (H4 j k); eauto.
  - pose proof (cnt_insert (has_conn RW) ls i l (set_h_conn (Some (Checkout w c, None)) l) Hi) as E. rewrite Hcnt, Hcl in E.
    case_decide; lia.
  - pose proof (cnt_insert (has_conn RO) ls i l (set_h_conn (Some (Checkout w c, None)) l) Hi) as E. rewrite Hcnt, Hcl in E.
    case_decide; lia.
Qed.

(** Giving it back. *)
Lemma conn_inv_return rw ro nrw nro next role_of rw' ro' role_of' ls i l c r :
  conn_inv rw ro nrw nro next role_of ls -> ls !! i = Some l ->
  h_conn l = Some (c, r) ->
  NoDup (rw' ++ ro') -> (forall x, x ∈ (rw' ++ ro') -> x ∈ (rw ++ ro) \/ x = coConn c) ->
  (forall x, x <> coConn c -> role_of' x = role_of x) ->
  conn_inv rw' ro' (if decide (coPool c = RW) then pred nrw else nrw)
    (if decide (coPool c = RO) then pred nro else nro)
    next role_of' (<[i := set_h_conn None l]> ls).
Proof.
  intros [H1 H2 H3 H4 H5 H6] Hi Hl Hnd Hsub Hro.
  destruct (H3 _ _ _ _ Hi Hl) as (Hn & Hf & _ & _).
  assert (Hcnt : forall w', b2n (has_conn w' l) = if decide (coPool c = w') then 1%nat else 0%nat).
  { intros w'. unfold has_conn. rewrite Hl. apply b2n_decide. }
  assert (Hcl : forall w', b2n (has_conn w' (set_h_conn None l)) = 0%nat) by done.
  split; [done| |..].
  - intros x [Hx| ->]%Hsub; [by apply H2 | done].
  - intros j lj cj rj Hj Hcj. apply list_lookup_insert_Some in Hj as [(<- & <- & _)|[Hne Hj]].
    + done.
    + destruct (H3 _ _ _ _ Hj Hcj) as (? & ? & Hrj & ?).
      assert (Hne' : coConn cj <> coConn c) by (intros Heq; apply Hne; eapply H4; eauto).
      split_and!; [done| | |done].
      * intros [?|?]%Hsub; done.
      * by rewrite Hro.
  - intros j k lj lk cj ck rj rk Hj Hk Hcj Hck Heq.
    apply list_lookup_insert_Some in Hj as [(<- & <- & _)|[Hnj Hj]]; [done|].
    apply list_lookup_insert_Some in Hk as [(<- & <- & _)|[Hnk Hk]]; [done|].
    eapply (H4 j k); eauto.
  - pose proof (cnt_insert (has_conn RW) ls i l (set_h_conn None l) Hi) as E. rewrite Hcnt, Hcl in E.
    pose proof (cnt_lookup (has_conn RW) ls i l Hi) as E'. rewrite Hcnt in E'.
    case_decide; lia.
  - pose proof (cnt_insert (has_conn RO) ls i l (set_h_conn None l) Hi) as E. rewrite Hcnt, Hcl in E.
    pose proof (cnt_lookup (has_conn RO) ls i l Hi) as E'. rewrite Hcnt in E'.
    case_decide; lia.
Qed.

Section Inv.
  Context `{LIB : SqliteLib}.
  Context (uuid : nat -> string) (fuel : nat).
  Hypothesis uuid_nonempty : forall n, uuid n <> "".

Definition role_in (s : DB) (c : nat) : option Z := authorizerCtx (conn_of s c).

Definition Inv (s : DB) (ls : list held) : Prop :=
  lock_inv (txID s) (txMu s) (txOpMu s) (writeMu s) ls
  /\ conn_inv (plFree (readWritePool s)) (plFree (readOnlyPool s))
       (plInUse (readWritePool s)) (plInUse (readOnlyPool s)) (nextConn s) (role_in s) ls.

(** ** Closing connections touches nothing but them *)

Definition close_frame (cs : list nat) (s s' : DB) : Prop :=
  txID s' = txID s /\ txMu s' = txMu s /\ txOpMu s' = txOpMu s /\ writeMu s' = writeMu s
  /\ readWritePool s' = readWritePool s /\ readOnlyPool s' = readOnlyPool s
  /\ nextConn s' = nextConn s
  /\ forall c, ~ (c ∈ cs) -> role_in s' c = role_in s c.

Lemma close_conn_frame c s : close_frame [c] s (snd (close_conn c s)).
Proof.
  unfold close_conn. destruct (conns s !! c) as [conn|] eqn:Ec; cbn; [|by split_and!].
  destruct (drv_Close conn (world s)) as [[r conn'] w'] eqn:Ed. cbn.
  split_and!; cbn; try done. intros x Hx. unfold role_in, conn_of. cbn.
  rewrite lookup_insert_ne; [done|]. intros ->. apply Hx. by left.
Qed.

Lemma close_all_frame cs s : close_frame cs s (snd (close_all cs s)).
Proof.
  revert s. induction cs as [|c cs IH]; intros s; cbn; [by split_and!|].
  pose proof (close_conn_frame c s) as Hc. destruct (close_conn c s) as [r s1] eqn:E1.
  specialize (IH s1). destruct (close_all cs s1) as [r' s2] eqn:E2. cbn in *.
  destruct Hc as (A1&A2&A3&A4&A5&A6&A7&A8), IH as (B1&B2&B3&B4&B5&B6&B7&B8).
  split_and!; try congruence. intros x Hx. rewrite B8, A8; [done|..].
  - intros Hx'%list_elem_of_singleton. apply Hx. rewrite Hx'. by left.
  - intros Hx'. apply Hx. by right.
Qed.

(** A step that changes no lock, no connection and no idle list. *)
Lemma Inv_same s s' ls i l :
  Inv s ls -> ls !! i = Some l ->
  txID s' = txID s -> txMu s' = txMu s -> txOpMu s' = txOpMu s -> writeMu s' = writeMu s ->
  readWritePool s' = readWritePool s -> readOnlyPool s' = readOnlyPool s ->
  nextConn s' = nextConn s -> conns s' = conns s ->
  Inv s' (<[i:=l]> ls).
Proof.
  intros [HL HC] Hi E1 E2 E3 E4 E5 E6 E7 E8. rewrite list_insert_id by done.
  unfold Inv. rewrite E1, E2, E3, E4, E5, E6, E7. split; [done|].
  destruct HC as [? ? H3 ? ? ?]. split; try done.
  intros j lj c r Hj Hc. destruct (H3 _ _ _ _ Hj Hc) as (?&?&?&?). split_and!; try done.
  unfold role_in, conn_of. by rewrite E8.
Qed.

(** ** Every operation preserves the invariant *)

(** A locked mutex that a goroutine holds is not free, and only one holds it. *)
Lemma lock_inv_txid_seen id m1 m2 m3 ls i l :
  lock_inv id m1 m2 m3 ls -> ls !! i = Some l -> h_txMu l = true -> id = "".
Proof.
  intros [H1 _ _ _] Hi Hl. pose proof (cnt_lookup h_txMu ls i l Hi) as Hc.
  rewrite Hl in Hc. cbn in Hc. unfold in_tx in H1.
  destruct (id =s? "") eqn:E; string_cases; [done|]. destruct m1; cbn in *; lia.
Qed.

Lemma lock_inv_seen_none id m1 m2 m3 ls i l :
  lock_inv id m1 m2 m3 ls -> ls !! i = Some l -> h_txOpMu l = true ->
  forall j lj, ls !! j = Some lj -> j <> i -> h_seen lj = None.
Proof.
  intros [_ H2 _ H4] Hi Hl j lj Hj Hne. destruct (h_seen lj) as [t|] eqn:Ht; [|done].
  destruct (H4 _ _ _ Hj Ht) as (Hop & _ & _). exfalso. apply Hne.
  eapply (cnt_unique h_txOpMu); eauto. rewrite H2. by destruct m2; cbn; lia.
Qed.

Lemma lock_step m v s ls i l :
  Inv s ls -> ls !! i = Some l -> locked m s = negb v ->
  (match m with TxMu => h_txMu l | TxOpMu => h_txOpMu l | WriteMu => h_writeMu l end) = negb v ->
  (m = WriteMu -> h_conn l = None) ->
  Inv (set_mutex m v s) (<[i := set_h_mutex m v l]> ls).
Proof.
  intros [HL HC] Hi Hm Hl Hw. split.
  - eapply lock_inv_upd; [exact HL|exact Hi|..].
    1-3: destruct m; cbn in *; rewrite ?Hm, ?Hl; destruct v; cbn; lia.
    + intros t Ht. destruct m; cbn in Ht; [|done|];
        destruct HL as [_ _ _ H4]; cbn; by eapply H4.
    + by left.
  - eapply conn_inv_keep; [exact HC|exact Hi|done|]. destruct m; cbn; try done.
    intros c r Hc. rewrite Hw in Hc; done.
Qed.

(** Opening a transaction hands [txMu] over to it. *)
Lemma store_txid_step v s ls i l :
  Inv s ls -> ls !! i = Some l -> v <> "" -> h_txMu l = true ->
  Inv (set_txID v s) (<[i := set_h_mutex TxMu false l]> ls).
Proof.
  intros [HL HC] Hi Hv Hl. assert (Hid : txID s = "") by by eapply lock_inv_txid_seen.
  split; [|by eapply conn_inv_keep].
  assert (Hsn : forall j lj, ls !! j = Some lj -> h_seen lj = None).
  { intros j lj Hj. destruct (h_seen lj) as [t|] eqn:Ht; [|done].
    destruct (li_seen _ _ _ _ _ HL _ _ _ Hj Ht) as (_ & ? & ?). congruence. }
  eapply lock_inv_upd; [exact HL|exact Hi|..]; cbn; rewrite ?Hl, ?Hid.
  - unfold in_tx. rewrite (proj2 (String.eqb_neq _ _) Hv). cbn. lia.
  - lia.
  - lia.
  - intros t Ht. by rewrite (Hsn _ _ Hi) in Ht.
  - right. intros j lj Hj _. by eapply Hsn.
Qed.

(** Ending it takes [txMu] back. *)
Lemma clear_txid_step s ls i l :
  Inv s ls -> ls !! i = Some l -> h_seen l <> None -> h_txMu l = false ->
  Inv (set_txID "" s) (<[i := set_h_seen None (set_h_mutex TxMu true l)]> ls).
Proof.
  intros [HL HC] Hi Hs Hl. destruct (h_seen l) as [t|] eqn:Ht; [|done].
  destruct (li_seen _ _ _ _ _ HL _ _ _ Hi Ht) as (Hop & Hid & Hne).
  split; [|by eapply conn_inv_keep].
  eapply lock_inv_upd; [exact HL|exact Hi|..]; cbn; rewrite ?Hl.
  - unfold in_tx. rewrite Hid, (proj2 (String.eqb_neq _ _) Hne). cbn. lia.
  - lia.
  - lia.
  - done.
  - right. by eapply lock_inv_seen_none.
Qed.

Lemma load_txid_step s ls i l :
  Inv s ls -> ls !! i = Some l -> h_txOpMu l = true -> txID s <> "" ->
  Inv s (<[i := set_h_seen (Some (txID s)) l]> ls).
Proof.
  intros [HL HC] Hi Hop Hne. split; [|by eapply conn_inv_keep].
  eapply lock_inv_upd; [exact HL|exact Hi|cbn; lia..| |by left].
  cbn. intros t [= <-]. done.
Qed.

Lemma pool_Conn_step ctx w s ls i l r s' :
  Inv s ls -> ls !! i = Some l -> h_conn l = None -> (w = RW -> h_writeMu l = true) ->
  pool_Conn fuel ctx w s = Some (r, s') ->
  match r with
  | Ok c => coPool c = w /\ Inv s' (<[i := set_h_conn (Some (c, None)) l]> ls)
  | Err _ => Inv s' (<[i := l]> ls)
  end.
Proof.
  intros HI Hi Hc Hw Hp. pose proof HI as [HL HC]. unfold pool_Conn in Hp.
  destruct (plClosed _); [injection Hp as <- <-; by eapply Inv_same|].
  destruct (ctx_done ctx _); [injection Hp as <- <-; by eapply Inv_same|].
  assert (HLk : forall c, lock_inv (txID s) (txMu s) (txOpMu s) (writeMu s)
                  (<[i := set_h_conn c l]> ls)).
  { intros c. eapply lock_inv_upd; [exact HL|exact Hi|cbn; lia..| |by left].
    cbn. intros t Ht. by eapply (li_seen _ _ _ _ _ HL). }
  destruct (pop_free (the_pool w s)) as [[c p']|] eqn:Ep.
  - injection Hp as <- <-. split; [done|]. split; [by destruct w; apply HLk|].
    unfold pop_free in Ep. destruct (plFree (the_pool w s)) as [|c0 rest] eqn:Ef; [done|].
    injection Ep as -> <-. pose proof (ci_nodup _ _ _ _ _ _ _ HC) as Hnd.
    pose proof (ci_next _ _ _ _ _ _ _ HC) as Hnx.
    destruct w; cbn in *; rewrite ?Ef in Hnd, Hnx, HC.
    + cbn in Hnd. apply NoDup_cons in Hnd as [Hnin Hnd].
      eapply (conn_inv_take _ _ _ _ _ _ _ _ _ _ _ _ _ RW); [exact HC|exact Hi|done..| | | | | |].
      * intros x Hx. by right.
      * done.
      * lia.
      * apply Hnx. by left.
      * left. by left.
      * done.
    + pose proof Hnd as Hnd'. apply NoDup_app in Hnd' as (Hn1 & Hdisj & Hn2).
      apply NoDup_cons in Hn2 as [Hnin Hn2].
      eapply (conn_inv_take _ _ _ _ _ _ _ _ _ _ _ _ _ RO); [exact HC|exact Hi|done..| | | | | | |].
      * apply NoDup_app. split_and!; [done| |done]. intros x Hx Hx'. apply (Hdisj x Hx). by right.
      * intros x [Hx|Hx]%elem_of_app; apply elem_of_app; [by left|right; by right].
      * intros [Hx|Hx]%elem_of_app; [|done]. apply (Hdisj _ Hx). by left.
      * lia.
      * apply Hnx. apply elem_of_app. right. by left.
      * left. apply elem_of_app. right. by left.
      * done.
  - destruct (pool_full _); [done|].
    destruct (Connect fuel _ _) as [[[conn|e] w']|]; [| |done]; injection Hp as <- <-.
    + split; [done|]. split; [by destruct w; apply HLk|].
      pose proof (ci_nodup _ _ _ _ _ _ _ HC) as Hnd.
      pose proof (ci_next _ _ _ _ _ _ _ HC) as Hnx.
      assert (Hfresh : ~ (nextConn s ∈ plFree (readWritePool s) ++ plFree (readOnlyPool s))).
      { intros Hx%Hnx. lia. }
      assert (Hro : forall s2 x, conns s2 = <[nextConn s := conn]> (conns s) ->
                (x < nextConn s)%nat -> role_in s2 x = role_in s x).
      { intros s2 x E Hx. unfold role_in, conn_of. rewrite E, lookup_insert_ne; [done|lia]. }
      destruct w; cbn in *.
      * eapply (conn_inv_take _ _ _ _ _ _ _ _ _ _ _ _ _ RW);
          [exact HC|exact Hi|done|done|done|done|done|lia|lia|by right|].
        intros x Hx _. by apply Hro.
      * eapply (conn_inv_take _ _ _ _ _ _ _ _ _ _ _ _ _ RO);
          [exact HC|exact Hi|done|done|done|done|done|lia|lia|by right|].
        intros x Hx _. by apply Hro.
    + by eapply Inv_same.
Qed.

Lemma set_role_step s ls i l c r0 role conn' :
  Inv s ls -> ls !! i = Some l -> h_conn l = Some (c, r0) ->
  SetAuthorizerRole (conn_of s (coConn c)) role = Ok conn' ->
  Inv (set_conn (coConn c) conn' s) (<[i := set_h_conn (Some (c, Some role)) l]> ls).
Proof.
  intros [HL HC] Hi Hc Hr. split.
  - eapply lock_inv_upd; [exact HL|exact Hi|cbn; lia..| |by left].
    cbn. intros t Ht. by eapply (li_seen _ _ _ _ _ HL).
  - eapply conn_inv_role; [exact HC|exact Hi|exact Hc|..].
    + unfold role_in, conn_of. cbn. rewrite lookup_insert_eq. cbn.
      unfold SetAuthorizerRole in Hr.
      destruct (cDB _); [|done]. destruct (authorizerCtx _); [|done].
      destruct (negb _); [done|]. cbn in Hr. by injection Hr as <-.
    + intros x Hx. unfold role_in, conn_of. cbn. by rewrite lookup_insert_ne.
Qed.

Lemma pool_Return_step s ls i l c r :
  Inv s ls -> ls !! i = Some l -> h_conn l = Some (c, r) ->
  Inv (pool_Return (coPool c) (coConn c) s) (<[i := set_h_conn None l]> ls).
Proof.
  intros [HL HC] Hi Hc. unfold pool_Return.
  pose proof (ci_held _ _ _ _ _ _ _ HC _ _ _ _ Hi Hc) as (Hlt & Hnf & _ & _).
  pose proof (ci_nodup _ _ _ _ _ _ _ HC) as Hnd. apply NoDup_app in Hnd as (Hn1 & Hd & Hn2).
  assert (Hn : forall P, ~ (coConn c ∈ plFree (readWritePool s) ++ plFree (readOnlyPool s)) ->
      ((~ coConn c ∈ plFree (readWritePool s)) -> (~ coConn c ∈ plFree (readOnlyPool s)) -> P) -> P).
  { intros P H HP. rewrite elem_of_app in H. apply HP; tauto. }
  apply (Hn _ Hnf). intros Hnf1 Hnf2. clear Hn.
  assert (HLk : lock_inv (txID s) (txMu s) (txOpMu s) (writeMu s) (<[i := set_h_conn None l]> ls)).
  { eapply lock_inv_upd; [exact HL|exact Hi|cbn; lia..| |by left].
    cbn. intros t Ht. by eapply (li_seen _ _ _ _ _ HL). }
  destruct (negb _ && _) eqn:Ek.
  - split; [by destruct (coPool c); apply HLk|].
    destruct (coPool c) eqn:Ew; cbn in *.
    + pose proof (conn_inv_return _ _ _ _ _ _ (coConn c :: plFree (readWritePool s))
        (plFree (readOnlyPool s)) (role_in s) _ _ _ _ _ HC Hi Hc) as HR. rewrite Ew in HR.
      apply HR; [|set_solver|done]. cbn. apply NoDup_cons. split; [done|].
      by apply (ci_nodup _ _ _ _ _ _ _ HC).
    + pose proof (conn_inv_return _ _ _ _ _ _ (plFree (readWritePool s))
        (coConn c :: plFree (readOnlyPool s)) (role_in s) _ _ _ _ _ HC Hi Hc) as HR.
      rewrite Ew in HR. apply HR; [|set_solver|done].
      apply NoDup_app. split_and!; [done| |by constructor].
      intros x Hx [->|Hx']%elem_of_cons; [done|]. by eapply Hd.
  - match goal with |- Inv (snd (close_conn _ ?s1)) _ => set (s1' := s1) end.
    pose proof (close_conn_frame (coConn c) s1') as (A1&A2&A3&A4&A5&A6&A7&A8).
    unfold Inv. rewrite A1, A2, A3, A4, A5, A6, A7. subst s1'.
    assert (Hro : forall x, x <> coConn c ->
      role_in (snd (close_conn (coConn c) (set_pool (coPool c)
        (MkPool (plConnector (the_pool (coPool c) s)) (plMaxOpen (the_pool (coPool c) s))
           (plMaxIdle (the_pool (coPool c) s)) (plFree (the_pool (coPool c) s))
           (pred (plInUse (the_pool (coPool c) s))) (plClosed (the_pool (coPool c) s))) s))) x
      = role_in s x).
    { intros x Hx. rewrite A8; [done|]. by intros ?%list_elem_of_singleton. }
    split; [by destruct (coPool c); apply HLk|].
    pose proof (conn_inv_return _ _ _ _ _ _ (plFree (readWritePool s))
        (plFree (readOnlyPool s)) _ _ _ _ _ _ HC Hi Hc
        (ci_nodup _ _ _ _ _ _ _ HC) ltac:(auto) Hro) as HR.
    destruct (coPool c) eqn:Ew; cbn in *; apply HR.
Qed.

Lemma pool_Close_step w s ls i l :
  Inv s ls -> ls !! i = Some l -> Inv (snd (pool_Close w s)) (<[i := l]> ls).
Proof.
  intros [HL HC] Hi. rewrite list_insert_id by done. unfold pool_Close.
  match goal with |- Inv (snd (close_all ?cs ?s1)) _ =>
    pose proof (close_all_frame cs s1) as (A1&A2&A3&A4&A5&A6&A7&A8) end.
  unfold Inv. rewrite A1, A2, A3, A4, A5, A6, A7. split; [by destruct w|].
  pose proof (ci_nodup _ _ _ _ _ _ _ HC) as Hnd. apply NoDup_app in Hnd as (Hn1 & Hd & Hn2).
  assert (Hkeep : forall j lj c r, ls !! j = Some lj -> h_conn lj = Some (c, Some r) ->
    ~ (coConn c ∈ plFree (the_pool w s))).
  { intros j lj c r Hj Hc. destruct (ci_held _ _ _ _ _ _ _ HC _ _ _ _ Hj Hc) as (_ & Hf & _).
    intros Hx. apply Hf, elem_of_app. destruct w; [by left|by right]. }
  destruct w; cbn in *.
  - eapply conn_inv_mono; [exact HC|done|set_solver|]. intros j lj c r Hj Hc.
    rewrite A8; [done|by eapply Hkeep].
  - eapply conn_inv_mono; [exact HC|by rewrite app_nil_r|set_solver|]. intros j lj c r Hj Hc.
    rewrite A8; [done|by eapply Hkeep].
Qed.

Lemma effect_inv B (e : dbE B) b s s' ls i l :
  Inv s ls -> ls !! i = Some l -> needs l B e -> handle fuel uuid B e s = Some (b, s') ->
  gives B e b /\ Inv s' (<[i := after l B e b]> ls).
Proof.
  intros HI Hi Hn Hh. destruct e; cbn in *;
    try (injection Hh as <- <-; split; [done|]; by eapply Inv_same).
  - destruct (locked m s) eqn:El; [done|]. injection Hh as <- <-. split; [done|].
    apply lock_step; [done|done|done|..]; destruct m; cbn in *; try tauto; done.
  - destruct (locked m s) eqn:El; [|done]. injection Hh as <- <-. split; [done|].
    apply lock_step; [done|done|done|..]; destruct m; cbn in *; try tauto; done.
  - injection Hh as <- <-. split; [done|].
    destruct (h_txOpMu l && negb (txID s =s? "")) eqn:E; [|by rewrite list_insert_id].
    apply andb_true_iff in E as [E1 E2]. apply negb_true_iff in E2. string_cases.
    by apply load_txid_step.
  - injection Hh as <- <-. split; [done|]. destruct (v =s? "") eqn:E; string_cases.
    + destruct Hn. by apply clear_txid_step.
    + by apply store_txid_step.
  - destruct Hn as [Hc Hw]. pose proof (pool_Conn_step _ _ _ _ _ _ _ _ HI Hi Hc Hw Hh) as H.
    destruct b; [destruct H|]; done.
  - destruct Hn as [r Hr]. injection Hh as <- <-. split; [done|]. by eapply pool_Return_step.
  - destruct Hn as [r Hr]. destruct (SetAuthorizerRole _ role) eqn:E; injection Hh as <- <-.
    + split; [done|]. by eapply set_role_step.
    + split; [done|]. by eapply Inv_same.
  - destruct (Prepare _ _ _). injection Hh as <- <-. split; [done|]. by eapply Inv_same.
  - destruct (Conn_Query _ _ _ _ _) as [[r w']|]; [|done]. injection Hh as <- <-.
    split; [done|]. by eapply Inv_same.
  - destruct (idleStopClosed s && _); [injection Hh as <- <-; split; [done|]; by eapply Inv_same|].
    destruct (extTick _); [|done]. injection Hh as <- <-. split; [done|]. by eapply Inv_same.
  - destruct (idleStopClosed s); [done|]. injection Hh as <- <-. split; [done|]. by eapply Inv_same.
  - destruct (closeWg s =? 0); [|done]. injection Hh as <- <-. split; [done|]. by eapply Inv_same.
  - pose proof (pool_Close_step w s ls i l HI Hi) as H. destruct (pool_Close w s) as [r s1].
    injection Hh as <- <-. split; [done|]. apply H.
Qed.
End Inv.
