(* ===== verification/DbSafety.v ===== *)
(** * Safety and progress of the database component

    Every configuration reachable from [NewDB], with any number of concurrent
    requests, monitors and shutdowns. *)
From S2P Require Import Prelude GoStrings Stats Authorizer Sqlite Driver Goroutines DbState Db DbConc DbInv ToyEngine.

Section Safety.
  Context `{LIB : SqliteLib}.
  Context (uuid : nat -> string) (fuel : nat).
  Hypothesis uuid_nonempty : forall n, uuid n <> "".

Definition db_config : Type := config DB task (db_prog unit).

Definition spawnable (t : task) (p : db_prog unit) : Prop := exists rounds, p = task_prog rounds t.
Definition db_init (c : db_config) : Prop :=
  exists config mkdirErr now st w db w',
    NewDB fuel config mkdirErr now st w = Some (Ok db, w') /\ c = Config db [].
Definition db_reachable : db_config -> Prop :=
  reachable (handle fuel uuid) spawnable db_env db_init.

(** The SQL that a goroutine runs in its next step. *)
Definition next_sql (p : db_prog unit) : option (checkout * string) :=
  match p with
  | Ret _ => None
  | Vis e _ => match e with ConnQuery c sql _ => Some (c, sql) | _ => None end
  end.
Definition running (c : db_config) (i : nat) : option (task * checkout * string) :=
  '(t, p) ← goroutines c !! i; '(co, sql) ← next_sql p; Some (t, co, sql).

Lemma running_intro (c : db_config) i t co sql ps (k : result SqlResult -> db_prog unit) :
  goroutines c !! i = Some (t, Vis (ConnQuery co sql ps) k) -> running c i = Some (t, co, sql).
Proof.
  intros H. apply bind_Some. eexists (_, _). by split; [exact H|].
Qed.

(** The connection that a goroutine works on in its next step. *)
Definition next_conn (p : db_prog unit) : option checkout :=
  match p with
  | Ret _ => None
  | Vis e _ =>
      match e with
      | ConnQuery c _ _ | ConnPrepare c _ | ConnSetRole c _ | PoolReturn c => Some c
      | _ => None
      end
  end.
Definition working (c : db_config) (i : nat) : option checkout :=
  '(_, p) ← goroutines c !! i; next_conn p.

Definition can_step (c : db_config) (i : nat) : bool :=
  match goroutines c !! i with
  | Some (_, p) => match pstep (handle fuel uuid) p (shared c) with Some _ => true | None => false end
  | None => false
  end.

Lemma can_step_handle (c : db_config) i t B (e : dbE B) (k : B -> db_prog unit) :
  goroutines c !! i = Some (t, Vis e k) -> can_step c i = true ->
  handle fuel uuid B e (shared c) <> None.
Proof.
  unfold can_step. intros H Hc.
  replace (goroutines c !! i) with (Some (t, Vis e k : db_prog unit)) in Hc. cbn in Hc.
  by destruct (handle fuel uuid B e (shared c)) as [[b s1]|].
Qed.

(** ** Reachable configurations are typed *)

Definition final (l : held) (_ : unit) : Prop := l = h_start (h_task l).
Definition db_typed : db_config -> list held -> Prop := typed needs gives after Inv final h_task.

Lemma lock_inv_start id m1 m2 m3 ls t :
  lock_inv id m1 m2 m3 ls -> lock_inv id m1 m2 m3 (ls ++ [h_start t]).
Proof.
  intros [H1 H2 H3 H4]. split; rewrite ?cnt_app; cbn; try lia.
  intros i l x Hi Hx. apply lookup_app_Some in Hi as [Hi|[_ Hi]]; [by eapply H4|].
  apply list_lookup_singleton_Some in Hi as [_ <-]. done.
Qed.

Lemma Inv_start s ls t : Inv s ls -> Inv s (ls ++ [h_start t]).
Proof.
  intros [HL [H1 H2 H3 H4 H5 H6]]. split; [by apply lock_inv_start|].
  assert (Hin : forall i l c r, (ls ++ [h_start t]) !! i = Some l -> h_conn l = Some (c, r) ->
            ls !! i = Some l).
  { intros i l c r Hi Hc. apply lookup_app_Some in Hi as [Hi|[_ Hi]]; [done|].
    apply list_lookup_singleton_Some in Hi as [_ <-]. done. }
  split; [done|done|..].
  - intros i l c r Hi Hc. by eapply H3, Hc; eapply Hin.
  - intros i j li lj ci cj ri rj Hi Hj Hci Hcj. eapply H4; eauto.
  - rewrite cnt_app. cbn. lia.
  - rewrite cnt_app. cbn. lia.
Qed.

Lemma Inv_env s s' ls : db_env s s' -> Inv s ls -> Inv s' ls.
Proof. intros (ext & st & _ & ->) [HL HC]. by split. Qed.

(** What [NewDB] returns. *)
Lemma limit_pool_inv n w s : Inv s [] -> Inv (limit_pool n w s) [].
Proof.
  intros [HL HC]. unfold limit_pool.
  match goal with |- Inv (snd (close_all ?cs ?s1)) _ =>
    pose proof (close_all_frame cs s1) as (A1&A2&A3&A4&A5&A6&A7&A8) end.
  unfold Inv. rewrite A1, A2, A3, A4, A5, A6, A7. split; [by destruct w|].
  pose proof (ci_nodup _ _ _ _ _ _ _ HC) as Hnd. apply NoDup_app in Hnd as (Hn1 & Hd & Hn2).
  assert (Hsub : forall (l : list nat) k x, x ∈ take k l -> x ∈ l).
  { intros l k x. apply subseteq_take. }
  destruct w; cbn in *; (eapply conn_inv_mono; [exact HC|..|done]).
  - apply NoDup_app. split_and!; [by eapply sublist_NoDup, sublist_take| |done]. eauto.
  - intros x [Hx|Hx]%elem_of_app; apply elem_of_app; eauto.
  - apply NoDup_app. split_and!; [done| |by eapply sublist_NoDup, sublist_take].
    intros x Hx Hx'. apply (Hd x Hx). eauto.
  - intros x [Hx|Hx]%elem_of_app; apply elem_of_app; eauto.
Qed.

Lemma open_pool_inv cn c w p conn w' :
  open_pool fuel cn c w = Some (Ok (p, conn), w') -> plFree p = [c] /\ plInUse p = 0%nat.
Proof.
  unfold open_pool. destruct (Connect _ _ _) as [[[?|?] ?]|]; [|done|done].
  by intros [= <- <- <-].
Qed.

Lemma NewDB_inv config mkdirErr now st w db w' :
  NewDB fuel config mkdirErr now st w = Some (Ok db, w') -> Inv db [].
Proof.
  unfold NewDB. intros H. repeat (break_match_in H; try discriminate).
  all: injection H as <- <-. do 2 apply limit_pool_inv.
  repeat match goal with H : open_pool _ _ _ _ = _ |- _ =>
    let E := fresh in apply open_pool_inv in H as E; clear H; destruct E; subst end.
  split; [done|]. cbn. destruct p0 as [cn1 mo1 mi1 fr1 iu1 cl1], p2 as [cn2 mo2 mi2 fr2 iu2 cl2].
  cbn in *; subst. split; cbn; try done.
  - repeat constructor; [|by intros []%elem_of_nil].
    by intros [=]%list_elem_of_singleton.
  - intros x [->|[->|[]%elem_of_nil]%elem_of_cons]%elem_of_cons; lia.
Qed.

Lemma reachable_inv c : db_reachable c -> exists ls, db_typed c ls.
Proof.
  refine (reachable_typed needs gives after (handle fuel uuid) spawnable db_env db_init Inv
            h_start final _ _ _ _ h_task _ _ _ c).
  - intros s s' ls. apply Inv_env.
  - intros. by apply Inv_start.
  - intros t p [rounds ->]. apply task_prog_wp.
  - intros. by eapply effect_inv.
  - intros c0 (cf & me & now & st & w & db & w' & HN & ->). exists []. split; [|constructor].
    by eapply NewDB_inv.
  - done.
  - apply after_task.
Qed.

(** ** Reading a typed configuration *)

Lemma typed_lookup c ls i t p :
  db_typed c ls -> goroutines c !! i = Some (t, p) ->
  exists l, ls !! i = Some l /\ h_task l = t /\ wp needs gives after l p final.
Proof.
  intros [_ Hall] Hi. destruct (Forall2_lookup_r _ _ _ _ _ Hall Hi) as (l & Hl & Ht & Hw). eauto.
Qed.

Lemma next_sql_needs l p co sql :
  wp needs gives after l p final -> next_sql p = Some (co, sql) ->
  h_conn l = Some (co, Some (task_role (h_task l))) /\ may_run l (coPool co).
Proof.
  destruct p as [|B e k]; [done|]. intros [Hn _] Hs. destruct e; try discriminate.
  injection Hs as -> ->. done.
Qed.

Lemma next_conn_needs l p co :
  wp needs gives after l p final -> next_conn p = Some co -> exists r, h_conn l = Some (co, r).
Proof.
  destruct p as [|B e k]; [done|]. intros [Hn _] Hs. destruct e; try discriminate;
    injection Hs as ->; [exact Hn..|]. destruct Hn as [Hn _]. eauto.
Qed.

Lemma running_typed c i t co sql :
  db_reachable c -> running c i = Some (t, co, sql) ->
  exists ls l, Inv (shared c) ls /\ ls !! i = Some l /\ h_task l = t
    /\ h_conn l = Some (co, Some (task_role t)) /\ may_run l (coPool co).
Proof.
  intros Hr Hrun. destruct (reachable_inv _ Hr) as [ls Hty]. unfold running in Hrun.
  apply bind_Some in Hrun as ([t' p] & Hi & Hrun).
  apply bind_Some in Hrun as ([co' sql'] & Hs & [= -> -> ->]).
  destruct (typed_lookup _ _ _ _ _ Hty Hi) as (l & Hl & <- & Hw).
  destruct (next_sql_needs _ _ _ _ Hw Hs) as [Hc Hm].
  exists ls, l. split; [apply Hty|]. done.
Qed.

Lemma working_typed c i co :
  db_reachable c -> working c i = Some co ->
  forall ls, db_typed c ls -> exists l r, ls !! i = Some l /\ h_conn l = Some (co, r).
Proof.
  intros Hr Hw ls Hty. unfold working in Hw. apply bind_Some in Hw as ([t p] & Hi & Hn).
  destruct (typed_lookup _ _ _ _ _ Hty Hi) as (l & Hl & _ & Hwp).
  destruct (next_conn_needs _ _ _ Hwp Hn) as [r Hc]. eauto.
Qed.

(** What a goroutine that runs SQL on the write connection knows. *)
Lemma running_isolated c i t co sql :
  db_reachable c -> running c i = Some (t, co, sql) -> coPool co = RW ->
  txMu (shared c) = true
  /\ match t with
     | TQuery q => txID (shared c) = qTxID q
     | TMonitor _ | TClose => txID (shared c) <> ""
     end.
Proof.
  intros Hr Hrun Hp. destruct (running_typed _ _ _ _ _ Hr Hrun) as (ls & l & [HL _] & Hl & Ht & _ & Hm).
  assert (Hsn : forall x, h_seen l = Some x -> txMu (shared c) = true /\ txID (shared c) = x /\ x <> "").
  { intros x Hx. destruct (li_seen _ _ _ _ _ HL _ _ _ Hl Hx) as (_ & Hid & Hne).
    split; [|done]. pose proof (li_tx _ _ _ _ _ HL) as H. unfold in_tx in H.
    rewrite Hid, (proj2 (String.eqb_neq _ _) Hne) in H. by destruct (txMu _); [|cbn in H; lia]. }
  rewrite Hp in Hm. unfold may_run in Hm. rewrite Ht in Hm. destruct t as [q| |]; cbn in Hm.
  - destruct (qTxID q =s? "") eqn:E; string_cases.
    + split; [|rewrite E; by eapply lock_inv_txid_seen].
      pose proof (cnt_lookup h_txMu ls i l Hl) as Hc. rewrite Hm in Hc. cbn in Hc.
      pose proof (li_tx _ _ _ _ _ HL). by destruct (txMu _); [|cbn in *; lia].
    + destruct (Hsn _ Hm) as (? & ? & ?). done.
  - destruct (h_seen l) as [x|]; [|done]. destruct (Hsn x eq_refl) as (? & -> & ?). done.
  - destruct (h_seen l) as [x|]; [|done]. destruct (Hsn x eq_refl) as (? & -> & ?). done.
Qed.

(** C5: transactions are isolated.  Whatever the interleaving, a goroutine that runs
    SQL on the write connection does so either for a request that names exactly the
    transaction that is open at that moment, or, for a request outside
    transactions, while no transaction is open; the transaction mutex is locked
    throughout.  The idle monitor and the shutdown only ever act on an open
    transaction. *)
Theorem tx_isolation c i t co sql :
  db_reachable c -> running c i = Some (t, co, sql) -> coPool co = RW ->
  txMu (shared c) = true
  /\ match t with
     | TQuery q => txID (shared c) = qTxID q
     | TMonitor _ | TClose => txID (shared c) <> ""
     end.
Proof. apply running_isolated. Qed.

Lemma running_role c i t co sql :
  db_reachable c -> running c i = Some (t, co, sql) ->
  role_in (shared c) (coConn co) = Some (task_role t).
Proof.
  intros Hr Hrun.
  destruct (running_typed _ _ _ _ _ Hr Hrun) as (ls & l & [_ HC] & Hl & Ht & Hc & _).
  destruct (ci_held _ _ _ _ _ _ _ HC _ _ _ _ Hl Hc) as (_ & _ & [?|?] & _); [done|].
  done.
Qed.

(** SQL always runs under the authorizer role of the request it belongs to (and
    the administrator's for the component's own rollbacks), whatever roles other
    requests or the classification set before on the same connection. *)
Theorem role_confinement c i t co sql :
  db_reachable c -> running c i = Some (t, co, sql) ->
  role_in (shared c) (coConn co) = Some (task_role t).
Proof. apply running_role. Qed.

(** C11: two goroutines never work on the same connection, and never both on a
    connection of the write pool. *)
Theorem connection_exclusion c i j ci cj :
  db_reachable c -> working c i = Some ci -> working c j = Some cj ->
  coConn ci = coConn cj \/ (coPool ci = RW /\ coPool cj = RW) -> i = j.
Proof.
  intros Hr Hi Hj Hor. destruct (reachable_inv _ Hr) as [ls Hty].
  destruct (working_typed _ _ _ Hr Hi _ Hty) as (li & ri & Hli & Hci).
  destruct (working_typed _ _ _ Hr Hj _ Hty) as (lj & rj & Hlj & Hcj).
  destruct Hty as [[HL HC] _]. destruct Hor as [Heq|[Hpi Hpj]].
  - by eapply (ci_excl _ _ _ _ _ _ _ HC).
  - destruct (ci_held _ _ _ _ _ _ _ HC _ _ _ _ Hli Hci) as (_ & _ & _ & Hwi).
    destruct (ci_held _ _ _ _ _ _ _ HC _ _ _ _ Hlj Hcj) as (_ & _ & _ & Hwj).
    eapply (cnt_unique h_writeMu); eauto. rewrite (li_write _ _ _ _ _ HL).
    by destruct (writeMu _); cbn; lia.
Qed.

(** What a goroutine may wait for: the end of the open transaction, the next tick or
    the stop signal, the end of the monitor.  (A second [Close] panics.) *)
Definition waits_at (s : DB) (B : Type) (e : dbE B) : Prop :=
  match e with
  | Lock TxMu => txID s <> ""
  | SelectStop | WgWait | CloseStop => True
  | _ => False
  end.
Definition waits (s : DB) (p : db_prog unit) : Prop :=
  match p with Ret _ => False | Vis e _ => waits_at s _ e end.

(** Who has returned or waits has nothing. *)
Lemma resting_holds_nothing l (p : db_prog unit) s :
  wp needs gives after l p final -> finished p = true \/ waits s p ->
  h_txMu l = false /\ h_txOpMu l = false /\ h_writeMu l = false /\ h_conn l = None.
Proof.
  intros Hw Hp. destruct p as [a|B e k]; [by rewrite Hw|]. destruct Hp as [|Hp]; [done|].
  destruct Hw as [Hn _]. cbn in Hp. destruct e; try done; cbn in Hn.
  - by destruct m.
  - by rewrite (proj1 Hn).
  - by rewrite (proj1 Hn).
  - by rewrite (proj1 Hn).
Qed.

(** Nothing leaks.  When every goroutine has returned or waits for one of these, no mutex
    is locked, except the transaction mutex exactly when a transaction is open, and every
    connection is back in its pool. *)
Lemma no_leak c :
  db_reachable c ->
  (forall i t p, goroutines c !! i = Some (t, p) -> finished p = true \/ waits (shared c) p) ->
  txMu (shared c) = in_tx (txID (shared c))
  /\ txOpMu (shared c) = false /\ writeMu (shared c) = false
  /\ plInUse (readWritePool (shared c)) = 0%nat
  /\ plInUse (readOnlyPool (shared c)) = 0%nat.
Proof.
  intros Hr Hfin. destruct (reachable_inv _ Hr) as [ls [[HL HC] Hall]].
  assert (Hz : forall f : held -> bool, (forall l, f l = true -> h_txMu l = true
    \/ h_txOpMu l = true \/ h_writeMu l = true \/ h_conn l <> None) -> cnt f ls = 0%nat).
  { intros f Hf. destruct (cnt f ls) as [|n] eqn:E; [done|].
    destruct (cnt_pos f ls ltac:(lia)) as (i & l & Hi & Hl).
    destruct (Forall2_lookup_l _ _ _ _ _ Hall Hi) as ([t p] & Hg & _ & Hw).
    destruct (resting_holds_nothing _ _ _ Hw (Hfin _ _ _ Hg)) as (H1 & H2 & H3 & H4).
    apply Hf in Hl. rewrite H1, H2, H3, H4 in Hl. by destruct Hl as [|[|[|]]]. }
  assert (Hc : forall w l, has_conn w l = true -> h_conn l <> None).
  { intros w l. unfold has_conn. by destruct (h_conn l). }
  destruct HL as [H1 H2 H3 _], HC as [_ _ _ _ H5 H6]. rewrite Hz in * by eauto 6.
  split_and!; [|by destruct (txOpMu _)|by destruct (writeMu _)|done|done].
  by destruct (txMu _), (in_tx _).
Qed.

(** ** Progress *)

(** An engine call that returns: a statement that ends, a connection that opens. *)
Definition effect_answers (s : DB) (B : Type) (e : dbE B) : Prop :=
  match e with
  | ConnQuery co sql ps => Conn_Query fuel (conn_of s (coConn co)) sql ps (world s) <> None
  | PoolConn _ w => Connect fuel (plConnector (the_pool w s)) (world s) <> None
  | _ => True
  end.

(** No goroutine is inside an engine call that does not return. *)
Definition engine_answers (c : db_config) : Prop :=
  forall (i : nat) (t : task) (p : db_prog unit), goroutines c !! i = Some (t, p) ->
  match p with Ret _ => True | Vis e _ => effect_answers (shared c) _ e end.

Lemma can_step_intro c i t B (e : dbE B) k :
  goroutines c !! i = Some (t, Vis e k) ->
  handle fuel uuid B e (shared c) <> None -> can_step c i = true.
Proof.
  intros Hi Hh. unfold can_step. rewrite Hi. cbn.
  by destruct (handle fuel uuid B e (shared c)) as [[b s']|].
Qed.

(** The operations that always have an answer. *)
Lemma answers l B (e : dbE B) s ls i :
  Inv s ls -> ls !! i = Some l -> needs l B e ->
  match e with
  | Lock _ | PoolConn _ _ | SelectStop | WgWait | CloseStop => True
  | ConnQuery co sql ps => Conn_Query fuel (conn_of s (coConn co)) sql ps (world s) <> None ->
      handle fuel uuid B e s <> None
  | _ => handle fuel uuid B e s <> None
  end.
Proof.
  intros [HL _] Hi Hn. destruct e; cbn in *; try done.
  - assert (H : locked m s = true); [|by rewrite H].
    pose proof (cnt_lookup h_txMu ls i l Hi) as C1.
    pose proof (cnt_lookup h_txOpMu ls i l Hi) as C2.
    pose proof (cnt_lookup h_writeMu ls i l Hi) as C3.
    destruct HL as [L1 L2 L3 _].
    destruct m; cbn in *; [rewrite Hn in C1|rewrite Hn in C2|rewrite (proj1 Hn) in C3];
      cbn in *; [destruct (txMu s)|destruct (txOpMu s)|destruct (writeMu s)]; cbn in *; lia || done.
  - by destruct (SetAuthorizerRole _ _).
  - by destruct (Prepare _ _ _).
  - intros H. by destruct (Conn_Query _ _ _ _ _) as [[? ?]|].
  - by destruct (pool_Close _ _).
Qed.

(** A pool gives a connection, unless the engine does not answer or the limit is
    reached by connections in use. *)
Lemma pool_answers ctx w s :
  Connect fuel (plConnector (the_pool w s)) (world s) <> None ->
  pool_Conn fuel ctx w s = None -> (0 < plInUse (the_pool w s))%nat.
Proof.
  intros Hc. unfold pool_Conn, pop_free, pool_full.
  destruct (plClosed _); [done|]. destruct (ctx_done _ _); [done|].
  destruct (plFree _); [|done]. destruct (_ && _) eqn:E.
  - intros _. apply andb_true_iff in E as [E1 E2]. cbn [length] in E2. apply Z.leb_le in E2. apply Z.ltb_lt in E1. lia.
  - by destruct (Connect _ _ _) as [[[?|?] ?]|].
Qed.

Section Stuck.
  Context (c : db_config) (ls : list held).
  Hypothesis Hty : db_typed c ls.
  Hypothesis Heng : engine_answers c.

Lemma typed_holder i l :
  ls !! i = Some l -> l <> h_start (h_task l) ->
  exists t B (e : dbE B) k, goroutines c !! i = Some (t, Vis e k) /\ needs l B e.
Proof using Hty.
  intros Hi Hne. destruct Hty as [_ Hall].
  destruct (Forall2_lookup_l _ _ _ _ _ Hall Hi) as ([t p] & Hg & _ & Hw). cbn in Hw.
  destruct p as [a|B e k]; [done|]. destruct Hw as [Hn _]. by exists t, B, e, k.
Qed.

(** Whoever has a connection can go on. *)
Lemma holder_conn_steps i l : ls !! i = Some l -> h_conn l <> None -> can_step c i = true.
Proof using Hty Heng.
  intros Hi Hc. destruct (typed_holder i l Hi) as (t & B & e & k & Hg & Hn); [intros E; by rewrite E in Hc|].
  apply (can_step_intro _ _ _ _ _ _ Hg).
  pose proof (answers l B e (shared c) ls i (proj1 Hty) Hi Hn) as Ha.
  pose proof (Heng i t _ Hg) as He.
  destruct e; try exact Ha; cbn in Hn.
  - destruct m; [destruct Hn as (_ & _ & _ & Hn)|destruct Hn as (_ & _ & _ & Hn)|destruct Hn as [_ Hn]]; done.
  - by destruct Hn.
  - by apply Ha.
  - by rewrite (proj1 Hn) in Hc.
  - by rewrite (proj1 Hn) in Hc.
  - by rewrite (proj1 Hn) in Hc.
Qed.

Lemma pool_wait_steps w :
  (0 < plInUse (the_pool w (shared c)))%nat -> exists j, can_step c j = true.
Proof using Hty Heng.
  intros Hu. assert (Hp : (0 < cnt (has_conn w) ls)%nat).
  { destruct Hty as [[_ HC] _]. destruct w; cbn in Hu; [by rewrite (ci_rw _ _ _ _ _ _ _ HC)|
      by rewrite (ci_ro _ _ _ _ _ _ _ HC)]. }
  destruct (cnt_pos _ _ Hp) as (j & l & Hj & Hl). exists j.
  apply (holder_conn_steps j l Hj). unfold has_conn in Hl. by destruct (h_conn l).
Qed.

(** Whoever has [writeMu] can go on, or waits for one who can. *)
Lemma holder_write_steps i l : ls !! i = Some l -> h_writeMu l = true -> exists j, can_step c j = true.
Proof using Hty Heng.
  intros Hi Hc. destruct (typed_holder i l Hi) as (t & B & e & k & Hg & Hn); [intros E; by rewrite E in Hc|].
  pose proof (answers l B e (shared c) ls i (proj1 Hty) Hi Hn) as Ha.
  pose proof (Heng i t _ Hg) as He.
  destruct (handle fuel uuid B e (shared c)) as [bs|] eqn:Eh.
  - exists i. apply (can_step_intro _ _ _ _ _ _ Hg). by rewrite Eh.
  - destruct e; try done; cbn in Hn.
    + destruct m; [destruct Hn as (_ & _ & Hn & _)|destruct Hn as (_ & _ & Hn & _)|destruct Hn as [Hn _]];
        congruence.
    + apply (pool_wait_steps w). by eapply pool_answers.
    + by specialize (Ha He).
    + by rewrite (proj1 Hn) in Hc.
    + by rewrite (proj1 Hn) in Hc.
    + by rewrite (proj1 Hn) in Hc.
Qed.

(** Whoever has a lock can go on, or waits for one who can. *)
Lemma holder_lock_steps i l :
  ls !! i = Some l -> h_txMu l = true \/ h_txOpMu l = true -> exists j, can_step c j = true.
Proof using Hty Heng.
  intros Hi Hc. destruct (typed_holder i l Hi) as (t & B & e & k & Hg & Hn); [intros E; rewrite E in Hc; by destruct Hc|].
  pose proof (answers l B e (shared c) ls i (proj1 Hty) Hi Hn) as Ha.
  pose proof (Heng i t _ Hg) as He.
  destruct (handle fuel uuid B e (shared c)) as [bs|] eqn:Eh.
  - exists i. apply (can_step_intro _ _ _ _ _ _ Hg). by rewrite Eh.
  - destruct e; try done; cbn in Hn.
    + destruct m; [destruct Hn as (?&?&?); destruct Hc; congruence
                  |destruct Hn as (?&?&?); destruct Hc; congruence|].
      cbn in Eh. destruct (writeMu (shared c)) eqn:Ew; [|done].
      destruct (cnt_pos h_writeMu ls) as (j & lj & Hj & Hlj).
      { assert (L : cnt h_writeMu ls = b2n (writeMu (shared c)))
          by exact (li_write _ _ _ _ _ (proj1 (proj1 Hty))).
        rewrite Ew in L. cbn in L. lia. }
      by eapply holder_write_steps.
    + apply (pool_wait_steps w). by eapply pool_answers.
    + by specialize (Ha He).
    + rewrite (proj1 Hn) in Hc. by destruct Hc.
    + rewrite (proj1 Hn) in Hc. by destruct Hc.
    + rewrite (proj1 Hn) in Hc. by destruct Hc.
Qed.
End Stuck.

(** The operations that may block on what another goroutine has. *)
Definition blocks (B : Type) (e : dbE B) : bool :=
  match e with Lock _ | PoolConn _ _ => true | _ => false end.
Definition blocking (p : db_prog unit) : bool :=
  match p with Ret _ => false | Vis e _ => blocks _ e end.

(** Progress.  As long as the engine answers, a goroutine that has not returned
    can take a step itself; or it is at a lock or a pool and another goroutine can
    take one; or it waits for the end of the open transaction, for the idle
    monitor's tick or for the shutdown.  So the three mutexes and the two pools never
    deadlock, and no unlock hits a free mutex. *)
Lemma progress c i t p :
  db_reachable c -> engine_answers c ->
  goroutines c !! i = Some (t, p) -> finished p = false ->
  can_step c i = true \/ (blocking p = true /\ exists j, can_step c j = true)
  \/ waits (shared c) p.
Proof.
  intros Hr Heng Hg Hf. destruct (reachable_inv _ Hr) as [ls Hty].
  destruct p as [a|B e k]; [done|].
  destruct (typed_lookup _ _ _ _ _ Hty Hg) as (l & Hl & _ & [Hn _]).
  pose proof (answers l B e (shared c) ls i (proj1 Hty) Hl Hn) as Ha.
  pose proof (Heng i t _ Hg) as He.
  destruct (handle fuel uuid B e (shared c)) as [bs|] eqn:Eh.
  { left. apply (can_step_intro _ _ _ _ _ _ Hg). by rewrite Eh. }
  destruct e; try done; cbn in Hn; try by (right; right).
  - cbn in Eh. destruct (locked m (shared c)) eqn:Em; [|done].
    assert (HL : lock_inv (txID (shared c)) (txMu (shared c)) (txOpMu (shared c))
                   (writeMu (shared c)) ls) by exact (proj1 (proj1 Hty)).
    destruct HL as [L1 L2 L3 _].
    destruct m; cbn in Em; rewrite Em in L1 || rewrite Em in L2 || rewrite Em in L3; cbn.
    + unfold in_tx in L1. destruct (txID (shared c) =s? "") eqn:Et; string_cases; [|by (right; right)].
      right; left; split; [done|]. destruct (cnt_pos h_txMu ls ltac:(cbn in L1; lia)) as (j & lj & Hj & Hlj).
      eapply holder_lock_steps; eauto.
    + right; left; split; [done|]. destruct (cnt_pos h_txOpMu ls ltac:(cbn in L2; lia)) as (j & lj & Hj & Hlj).
      eapply holder_lock_steps; eauto.
    + right; left; split; [done|]. destruct (cnt_pos h_writeMu ls ltac:(cbn in L3; lia)) as (j & lj & Hj & Hlj).
      eapply holder_write_steps; eauto.
  - right; left; split; [done|]. eapply (pool_wait_steps c ls Hty Heng w). by eapply pool_answers.
  - by specialize (Ha He).
Qed.

(** Only the monitor and the shutdown wait for the stop signal or for each other. *)
Lemma query_never_stops c i q B (e : dbE B) (k : B -> db_prog unit) :
  db_reachable c -> goroutines c !! i = Some (TQuery q, Vis e k) ->
  match e with SelectStop | WgWait | CloseStop => False | _ => True end.
Proof.
  intros Hr Hg. destruct (reachable_inv _ Hr) as [ls Hty].
  destruct (typed_lookup _ _ _ _ _ Hty Hg) as (l & _ & Ht & [Hn _]).
  cbn in Ht. destruct e; try done; cbn in Hn; rewrite Ht in Hn; apply Hn.
Qed.
End Safety.
