(* ===== verification/DbTraces.v ===== *)
(** * Concrete executions of the database component

    An executable scheduler, the lemma that what it produces is reachable, the
    witnesses of the safety theorems on the concrete engine of [ToyEngine], and two
    executions in which the component does not do what it is meant to. *)
From S2P Require Import Prelude GoStrings GoTime Stats Authorizer Sqlite Driver Goroutines DbState Db DbConc DbInv DbSafety ToyEngine.

(** ** The scheduler *)

Inductive sched : Type :=
| Spawn (rounds : nat) (t : task)
| Steps (i n : nat)               (* goroutine [i] takes [n] steps, or as many as it can *)
| Advance (d : Z) (tick : bool).  (* time passes; the ticker fires *)

Section Scheduler.
  Context `{LIB : SqliteLib} (uuid : nat -> string) (fuel : nat).

Fixpoint steps (i n : nat) (c : db_config) : option db_config :=
  match n with
  | O => Some c
  | S n' =>
      match goroutines c !! i with
      | None => None
      | Some (t, p) =>
          match pstep (handle fuel uuid) p (shared c) with
          | None => Some c
          | Some (p', s') => steps i n' (Config s' (<[i := (t, p')]> (goroutines c)))
          end
      end
  end.

Definition advance (d : Z) (tick : bool) (s : DB) : DB :=
  let ext := external s in
  set_external (MkExternal (extNow ext + Z.max d 0) (extCtxDone ext) tick (extPreferStop ext)) s.

Definition do_sched (a : sched) (c : db_config) : option db_config :=
  match a with
  | Spawn rounds t => Some (Config (shared c) (goroutines c ++ [(t, task_prog rounds t)]))
  | Steps i n => steps i n c
  | Advance d tick => Some (Config (advance d tick (shared c)) (goroutines c))
  end.

Fixpoint schedule (l : list sched) (c : db_config) : option db_config :=
  match l with
  | [] => Some c
  | a :: l' => match do_sched a c with Some c' => schedule l' c' | None => None end
  end.

Lemma steps_reachable i n c c' :
  db_reachable uuid fuel c -> steps i n c = Some c' -> db_reachable uuid fuel c'.
Proof.
  revert c. induction n as [|n IH]; cbn; intros c Hr Hs; [by injection Hs as <-|].
  destruct (goroutines c !! i) as [[t p]|] eqn:Ei; [|done].
  destruct (pstep _ p (shared c)) as [[p' s']|] eqn:Ep; [|by injection Hs as <-].
  eapply IH; [|exact Hs]. eapply reach_step; [exact Hr|]. destruct c as [s gs].
  by eapply gstep_run.
Qed.

Lemma schedule_reachable l c c' :
  db_reachable uuid fuel c -> schedule l c = Some c' -> db_reachable uuid fuel c'.
Proof.
  revert c. induction l as [|a l IH]; cbn; intros c Hr Hs; [by injection Hs as <-|].
  destruct (do_sched a c) as [c1|] eqn:Ea; [|done]. eapply IH; [|exact Hs].
  destruct a as [rounds t|i n|d tick]; cbn in Ea.
  - injection Ea as <-. eapply reach_step; [exact Hr|]. destruct c as [s gs].
    apply gstep_spawn. by exists rounds.
  - by eapply steps_reachable.
  - injection Ea as <-. eapply reach_step; [exact Hr|]. destruct c as [s gs].
    apply gstep_env. eexists _, (dbStats s). split; [|reflexivity]. cbn. lia.
Qed.
End Scheduler.

(** ** On the concrete engine *)

(** Identifiers of increasing length. *)
Fixpoint toy_uuid (n : nat) : string :=
  match n with O => "t" | S n' => String (byte_chr 116) (toy_uuid n') end.
Lemma toy_uuid_nonempty n : toy_uuid n <> "".
Proof. by destruct n. Qed.

Definition toy_config : DbConfig := MkDbConfig "data" (5 * second) 2 2000 (5 * second).
Definition toy_time : External := MkExternal (1700000000 * second) false false false.
Definition toy_db : option (result DB * toy_world) :=
  NewDB 20 toy_config None toy_time (NewDBStats 0) toy_empty.

Definition toy_schedule (l : list sched) : option (db_config (LIB := toy_lib)) :=
  match toy_db with
  | Some (Ok db, _) => schedule toy_uuid 20 l (Config db [])
  | _ => None
  end.

Lemma toy_schedule_reachable l c :
  toy_schedule l = Some c -> db_reachable toy_uuid 20 c.
Proof.
  unfold toy_schedule. destruct toy_db as [[[db|e] w]|] eqn:E; [|done|done].
  apply schedule_reachable. apply reach_init. repeat eexists. exact E.
Qed.

Definition q_begin : Query := MkQuery "" "me" "BEGIN" [] 1.
Definition q_insert (id : string) : Query :=
  MkQuery id "me" "INSERT INTO t VALUES (?)" [MkQueryParam "" (GInt64 7)] 1.
Definition q_commit (id : string) : Query := MkQuery id "me" "COMMIT" [] 1.

Definition q_conflict (id : string) : Query :=
  MkQuery id "me" "INSERT OR ROLLBACK INTO t VALUES (NULL)" [] 1.
Definition q_rollback (id : string) : Query := MkQuery id "me" "ROLLBACK" [] 1.
Definition q_select : Query := MkQuery "" "me" "SELECT v FROM t LIMIT 5" [] 2.

(** ** Witnesses *)

(** A goroutine at the engine call [sql], and every goroutine's engine call ends. *)
Definition engine_ok (c : db_config (LIB := toy_lib)) : bool :=
  forallb (fun tp : task * db_prog unit =>
    match snd tp with
    | Ret _ => true
    | Vis e _ =>
        match e with
        | ConnQuery co sql ps =>
            bool_decide (is_Some (Conn_Query 20 (conn_of (shared c) (coConn co)) sql ps
                                    (world (shared c))))
        | PoolConn _ w =>
            bool_decide (is_Some (Connect 20 (plConnector (the_pool w (shared c)))
                                    (world (shared c))))
        | _ => true
        end
    end) (goroutines c).

Lemma engine_ok_answers c : engine_ok c = true -> engine_answers 20 c.
Proof.
  intros H i t p Hi. unfold engine_ok in H. rewrite forallb_forall in H.
  specialize (H (t, p) ltac:(apply list_elem_of_In; by eapply list_elem_of_lookup_2)).
  destruct p as [a|B e k]; [done|]. cbn [snd] in H. destruct e; try done;
    apply bool_decide_eq_true in H as [? H]; cbn [effect_answers]; by rewrite H.
Qed.

Lemma all_finished (c : db_config (LIB := toy_lib)) :
  forallb (fun tp => finished (snd tp)) (goroutines c) = true ->
  forall i t p, goroutines c !! i = Some (t, p) -> finished p = true.
Proof.
  intros H i t p Hi. rewrite forallb_forall in H.
  apply (H (t, p)). apply list_elem_of_In. by eapply list_elem_of_lookup_2.
Qed.

Lemma toy_observe {A} (f : db_config -> A) l o :
  f <$> toy_schedule l = Some o -> exists c, db_reachable toy_uuid 20 c /\ f c = o.
Proof.
  destruct (toy_schedule l) as [c|] eqn:E; [|done]. intros [= <-].
  exists c. split; [by eapply toy_schedule_reachable | done].
Qed.

(** A write outside transactions. *)
Definition at_insert : list sched := [Spawn 0 (TQuery (q_insert "")); Steps 0 10].
Definition insert_running : option (task * checkout * string) :=
  Some (TQuery (q_insert ""), Checkout RW 0, "INSERT INTO t VALUES (?)").
Lemma at_insert_running : (fun c : db_config (LIB := toy_lib) => running c 0) <$> toy_schedule at_insert = Some insert_running.
Proof. vm_compute. reflexivity. Qed.

Lemma tx_isolation_witness : exists c : db_config (LIB := toy_lib),
  running c 0 = insert_running /\ txMu (shared c) = true /\ txID (shared c) = "".
Proof.
  destruct (toy_observe _ _ _ at_insert_running) as (c & Hr & Hc). exists c. split; [exact Hc|].
  exact (tx_isolation toy_uuid 20 toy_uuid_nonempty c 0 _ _ _ Hr Hc eq_refl).
Defined.

Lemma role_confinement_witness : exists c : db_config (LIB := toy_lib),
  running c 0 = insert_running /\ role_in (shared c) 0 = Some 1.
Proof.
  destruct (toy_observe _ _ _ at_insert_running) as (c & Hr & Hc). exists c. split; [exact Hc|].
  exact (role_confinement toy_uuid 20 toy_uuid_nonempty c 0 _ _ _ Hr Hc).
Defined.

(** A read and a write at work at the same time, on different connections. *)
Definition at_both : list sched :=
  [Spawn 0 (TQuery (q_insert "")); Steps 0 10; Spawn 0 (TQuery q_select); Steps 1 6].
Lemma at_both_working :
  (fun c : db_config (LIB := toy_lib) => (working c 0, working c 1)) <$> toy_schedule at_both
  = Some (Some (Checkout RW 0), Some (Checkout RO 1)).
Proof. vm_compute. reflexivity. Qed.

Lemma connection_exclusion_witness : exists c : db_config (LIB := toy_lib),
  working c 0 = Some (Checkout RW 0) /\ working c 1 = Some (Checkout RO 1)
  /\ (forall i, working c i = Some (Checkout RW 0) -> 0%nat = i).
Proof.
  destruct (toy_observe _ _ _ at_both_working) as (c & Hr & [= H0 H1]).
  exists c. split; [exact H0|]. split; [exact H1|]. intros i Hi.
  exact (connection_exclusion toy_uuid 20 toy_uuid_nonempty c 0 i _ _ Hr H0 Hi (or_introl eq_refl)).
Defined.

(** After a begin has returned, its transaction holds [txMu]. *)
Definition after_begin : list sched := [Spawn 0 (TQuery q_begin); Steps 0 100].
Lemma after_begin_finished :
  (fun c : db_config (LIB := toy_lib) => (txID (shared c), forallb (fun tp => finished (snd tp)) (goroutines c)))
    <$> toy_schedule after_begin = Some ("t", true).
Proof. vm_compute. reflexivity. Qed.

Lemma no_leak_witness : exists c : db_config (LIB := toy_lib), txID (shared c) = "t" /\ txMu (shared c) = true
  /\ plInUse (readWritePool (shared c)) = 0%nat.
Proof.
  destruct (toy_observe _ _ _ after_begin_finished) as (c & Hr & [= Hid Hf]).
  pose proof (no_leak toy_uuid 20 toy_uuid_nonempty c Hr (fun i t p H => or_introl (all_finished c Hf i t p H)))
    as (H1 & _ & _ & H4 & _).
  exists c. split; [exact Hid|]. split; [|exact H4]. rewrite H1, Hid. reflexivity.
Defined.

(** A second begin waits for the first transaction. *)
Definition second_begin : list sched :=
  after_begin ++ [Spawn 0 (TQuery q_begin); Steps 1 100].
Lemma second_begin_waits :
  (fun c : db_config (LIB := toy_lib) => (engine_ok c, can_step toy_uuid 20 c 1,
             match goroutines c !! 1%nat with
             | Some (t, p) => if finished p then None else Some t
             | None => None
             end)) <$> toy_schedule second_begin
  = Some (true, false, Some (TQuery q_begin)).
Proof. vm_compute. reflexivity. Qed.

Lemma progress_witness : exists (c : db_config (LIB := toy_lib)) p,
  goroutines c !! 1%nat = Some (TQuery q_begin, p) /\ finished p = false
  /\ (can_step toy_uuid 20 c 1 = true
      \/ (blocking p = true /\ exists j, can_step toy_uuid 20 c j = true)
      \/ waits (shared c) p).
Proof.
  destruct (toy_observe _ _ _ second_begin_waits) as (c & Hr & [= He Hs Hm]).
  destruct (goroutines c !! 1%nat) as [[t p]|] eqn:E; [|discriminate Hm].
  destruct (finished p) eqn:Hf; [discriminate Hm|]. injection Hm as Ht.
  subst t. exists c, p. split; [exact E|]. split; [exact Hf|].
  exact (progress toy_uuid 20 toy_uuid_nonempty c 1 _ p Hr (engine_ok_answers c He) E Hf).
Defined.

(** ** Where the component does not do what it is meant to *)

(** What the executions look at: the open transaction, the mutexes, which goroutines
    have returned, whether the engine has no transaction, the time, the counters. *)
Definition observe (c : db_config (LIB := toy_lib)) :=
  let totals := ldTotals (LoadStats 0 (dbStats (shared c))) in
  (txID (shared c), (txMu (shared c), txOpMu (shared c), writeMu (shared c)),
   map (fun tp => finished (snd tp)) (goroutines c),
   bool_decide (tw_snapshot (world (shared c)) = None),
   extNow (external (shared c)) - extNow toy_time,
   (totBegins totals, totCommits totals, totRollbacks totals)).

(** The component has been idle for ten seconds, longer than the five-second
    timeout, when the ticker fires and a begin arrives. *)
Definition race_start : list sched :=
  [Spawn 1 (TMonitor (5 * second)); Advance (10 * second) true; Spawn 0 (TQuery q_begin)].
(** The begin stores [txID]; the monitor takes its tick; the begin returns. *)
Definition race : list sched := [Steps 1 10; Steps 0 100; Steps 1 100].


(** A transaction whose statement makes the engine roll back. *)
Definition wedge : list sched :=
  [Spawn 0 (TQuery q_begin); Steps 0 100;
   Spawn 0 (TQuery (q_conflict "t")); Steps 1 100;
   Spawn 0 (TQuery (q_rollback "t")); Steps 2 100;
   Spawn 0 (TQuery (q_commit "t")); Steps 3 100;
   Spawn 1 (TMonitor (5 * second)); Advance (10 * second) true; Steps 4 100;
   Spawn 0 (TQuery q_begin); Steps 5 100].

