(* ===== verification/DbSerial.v ===== *)
(** * The write connection is a serial resource

    The abstract specification of the concurrency of [internal/db/db.go], and its
    refinement.  The right to run SQL on the write pool is a baton: nobody has it, one
    goroutine has it ([txMu] locked), or the open transaction has it, whatever goroutine
    runs its requests.  [baton_step] says who may do what with it; every execution of the
    component, with any number of concurrent requests, monitors and shutdowns, is one that
    it allows. *)
From S2P Require Import Prelude GoStrings Stats Authorizer Sqlite Driver Goroutines DbState Db DbConc DbInv DbSafety ToyEngine DbTraces.

(** ** The specification *)

Inductive baton : Type :=
| Nobody
| Goroutine (i : nat)
| Transaction (id : string).

(** What the outside can see of the writers: goroutine [i] takes or gives back the baton,
    hands it to a new transaction or takes it from one that has ended, and runs SQL on the
    write pool for its task. *)
Inductive event : Type :=
| Acquire (i : nat)
| Release (i : nat)
| OpenTx (i : nat) (id : string)
| CloseTx (i : nat)
| RunSQL (i : nat) (t : task) (sql : string).

(** Who may run SQL. *)
Definition may_write (b : baton) (i : nat) (t : task) : bool :=
  match b, t with
  | Goroutine j, TQuery q => (i =? j)%nat && (qTxID q =s? "")
  | Transaction id, TQuery q => qTxID q =s? id
  | Transaction _, _ => true
  | _, _ => false
  end.

Definition baton_step (b : baton) (e : event) : option baton :=
  match e, b with
  | Acquire i, Nobody => Some (Goroutine i)
  | Release i, Goroutine j => if (i =? j)%nat then Some Nobody else None
  | OpenTx i id, Goroutine j =>
      if (i =? j)%nat && negb (id =s? "") then Some (Transaction id) else None
  | CloseTx i, Transaction _ => Some (Goroutine i)
  | RunSQL i t _, b => if may_write b i t then Some b else None
  | _, _ => None
  end.
Fixpoint baton_run (b : baton) (es : list event) : option baton :=
  match es with
  | [] => Some b
  | e :: es' => match baton_step b e with Some b' => baton_run b' es' | None => None end
  end.

Lemma baton_run_app b es1 es2 :
  baton_run b (es1 ++ es2)
  = match baton_run b es1 with Some b' => baton_run b' es2 | None => None end.
Proof.
  revert b. induction es1 as [|e es1 IH]; cbn; intros b; [done|]. by destruct (baton_step b e).
Qed.

(** As long as nobody passes the baton on, it stays where it is. *)
Definition passes (e : event) : bool :=
  match e with RunSQL _ _ _ => false | _ => true end.

Lemma baton_run_stays b b' es :
  baton_run b es = Some b' -> existsb passes es = false ->
  forall i t sql, RunSQL i t sql ∈ es -> may_write b i t = true.
Proof.
  induction es as [|e es IH]; cbn; intros Hr Hp i t sql Hin; [by apply elem_of_nil in Hin|].
  destruct e as [| | | |j u sql']; try done. cbn in Hr. destruct (may_write b j u) eqn:Em; [|done].
  apply elem_of_cons in Hin as [[= -> -> ->]|Hin]; [done|]. by eapply IH.
Qed.

(** Who may run SQL after the baton is passed on. *)
Lemma passed_to b b' e j t :
  baton_step b e = Some b' -> may_write b' j t = true ->
  match e with
  | OpenTx _ id => match t with TQuery q => qTxID q = id | _ => True end
  | Acquire i | CloseTx i => j = i /\ match t with TQuery q => qTxID q = "" | _ => False end
  | Release _ => False
  | RunSQL _ _ _ => True
  end.
Proof.
  assert (Hg : forall i, may_write (Goroutine i) j t = true ->
            j = i /\ match t with TQuery q => qTxID q = "" | _ => False end).
  { intros i. destruct t as [q| |]; cbn; try done. intros [Hi Hq]%andb_true_iff.
    split; [by apply Nat.eqb_eq|by apply String.eqb_eq]. }
  destruct e as [i|i|i id|i|i u sql]; cbn; intros He Hm.
  - destruct b; try done. injection He as <-. by apply Hg.
  - destruct b; try done. destruct (i =? i0)%nat; [|done]. by injection He as <-.
  - destruct b; try done. destruct (_ && _); [|done]. injection He as <-.
    destruct t as [q| |]; cbn in Hm; [|done..]. by apply String.eqb_eq.
  - destruct b; try done. injection He as <-. by apply Hg.
  - done.
Qed.

Section Serial.
  Context `{LIB : SqliteLib}.
  Context (uuid : nat -> string) (fuel : nat).
  Hypothesis uuid_nonempty : forall n, uuid n <> "".

(** ** Executions with their events *)

Definition label (i : nat) (t : task) {B} (e : dbE B) : list event :=
  match e with
  | Lock TxMu => [Acquire i]
  | Unlock TxMu => [Release i]
  | StoreTxID v => if v =s? "" then [CloseTx i] else [OpenTx i v]
  | ConnQuery co sql _ => if bool_decide (coPool co = RW) then [RunSQL i t sql] else []
  | _ => []
  end.

Inductive lstep : db_config -> list event -> db_config -> Prop :=
| lstep_run s s' gs i t B (e : dbE B) k b :
    gs !! i = Some (t, Vis e k) -> handle fuel uuid B e s = Some (b, s') ->
    lstep (Config s gs) (label i t e) (Config s' (<[i := (t, k b)]> gs))
| lstep_spawn s gs t p :
    spawnable t p -> lstep (Config s gs) [] (Config s (gs ++ [(t, p)]))
| lstep_env s s' gs : db_env s s' -> lstep (Config s gs) [] (Config s' gs).

(** Labels are only an annotation: these are the steps of the component. *)
Lemma lstep_gstep c c' :
  gstep (handle fuel uuid) spawnable db_env c c' <-> exists es, lstep c es c'.
Proof.
  split.
  - destruct 1 as [s s' gs i t p p' Hi Hp|s gs t p Hsp|s s' gs He].
    + destruct p as [a|B e k]; [done|]. cbn in Hp.
      destruct (handle fuel uuid B e s) as [[b s1]|] eqn:Eh; [|done]. injection Hp as <- <-.
      eexists. by eapply lstep_run.
    + eexists. by eapply lstep_spawn.
    + eexists. by eapply lstep_env.
  - intros [es H]. destruct H as [s s' gs i t B e k b Hi Hh|s gs t p Hsp|s s' gs He].
    + eapply gstep_run; [exact Hi|]. cbn. by rewrite Hh.
    + by eapply gstep_spawn.
    + by eapply gstep_env.
Qed.

Inductive history : list event -> db_config -> Prop :=
| history_init c : db_init fuel c -> history [] c
| history_step es es' c c' : history es c -> lstep c es' c' -> history (es ++ es') c'.

Lemma reachable_history c : db_reachable uuid fuel c <-> exists es, history es c.
Proof.
  split.
  - induction 1 as [c Hc|c c' _ [es Hes] Hstep]; [exists []; by apply history_init|].
    apply lstep_gstep in Hstep as [es' Hl]. eexists. by eapply history_step.
  - intros [es H]. induction H as [c Hc|es es' c c' _ IH Hl]; [by apply reach_init|].
    eapply reach_step; [exact IH|]. apply lstep_gstep. by eexists.
Qed.

(** ** The simulation *)

(** Where the baton is, in the shared state and in what the goroutines hold. *)
Definition baton_at (b : baton) (s : DB) (ls : list held) : Prop :=
  match b with
  | Nobody => txMu s = false
  | Goroutine i => exists l, ls !! i = Some l /\ h_txMu l = true
  | Transaction id => txID s = id /\ id <> ""
  end.

(** What that says of the shared state. *)
Definition represents (b : baton) (s : DB) : Prop :=
  match b with
  | Nobody => txMu s = false /\ txID s = ""
  | Goroutine _ => txMu s = true /\ txID s = ""
  | Transaction id => txMu s = true /\ txID s = id /\ id <> ""
  end.

Lemma baton_represents b s ls : Inv s ls -> baton_at b s ls -> represents b s.
Proof.
  intros [[H1 _ _ _] _]. unfold in_tx in H1. destruct b as [|i|id]; cbn.
  - intros Hm. split; [done|]. rewrite Hm in H1. destruct (txID s =s? "") eqn:E; string_cases; [done|].
    cbn in H1. lia.
  - intros (l & Hl & Ht). pose proof (cnt_lookup h_txMu ls i l Hl) as Hc. rewrite Ht in Hc.
    cbn in Hc. destruct (txID s =s? "") eqn:E; string_cases; destruct (txMu s); cbn in H1; try done; lia.
  - intros [Hid Hne]. split; [|done]. rewrite Hid, (proj2 (String.eqb_neq _ _) Hne) in H1.
    by destruct (txMu s); [|cbn in H1; lia].
Qed.

(** Only [StoreTxID] changes the open transaction, and only [Lock] and [Unlock] the mutex. *)
Definition tx_kept (s s' : DB) : Prop := txID s' = txID s /\ txMu s' = txMu s.

Lemma close_all_tx cs s : tx_kept s (snd (close_all cs s)).
Proof. by destruct (close_all_frame cs s) as (H1 & H2 & _). Qed.

Lemma pool_Conn_tx ctx w s r s' : pool_Conn fuel ctx w s = Some (r, s') -> tx_kept s s'.
Proof.
  unfold pool_Conn. intros H. repeat (break_match_in H; try done);
    injection H as <- <-; by destruct w.
Qed.

Lemma pool_Return_tx w c s : tx_kept s (pool_Return w c s).
Proof.
  unfold pool_Return. destruct (negb _ && _); [by destruct w|].
  match goal with |- tx_kept _ (snd (close_conn c ?s1)) =>
    destruct (close_conn_frame c s1) as (H1 & H2 & _) end.
  split; rewrite ?H1, ?H2; by destruct w.
Qed.

Lemma pool_Close_tx w s : tx_kept s (snd (pool_Close w s)).
Proof.
  unfold pool_Close. match goal with |- tx_kept _ (snd (close_all ?cs ?s1)) =>
    destruct (close_all_tx cs s1) as [H1 H2] end.
  split; rewrite ?H1, ?H2; by destruct w.
Qed.

Lemma handle_tx_kept B (e : dbE B) b s s' :
  handle fuel uuid B e s = Some (b, s') ->
  match e with Lock TxMu | Unlock TxMu | StoreTxID _ => True | _ => tx_kept s s' end.
Proof.
  intros H. destruct e; cbn in H; try (by injection H as <- <-);
    try by (repeat (break_match_in H; try done); injection H as <- <-).
  - by destruct m; [done|destruct (locked _ _); [done|]; injection H as <- <- ..].
  - by destruct m; [done|destruct (locked _ _); [|done]; injection H as <- <- ..].
  - by eapply pool_Conn_tx.
  - injection H as <- <-. apply pool_Return_tx.
  - pose proof (pool_Close_tx w s). destruct (pool_Close w s). by injection H as <- <-.
Qed.
(** Who has the baton. *)
Lemma holder_baton b s ls i l :
  Inv s ls -> baton_at b s ls -> ls !! i = Some l -> h_txMu l = true -> b = Goroutine i.
Proof.
  intros HI Hb Hl Ht. pose proof (baton_represents _ _ _ HI Hb) as Hr. destruct HI as [HL _].
  assert (Hid : txID s = "") by (by eapply lock_inv_txid_seen).
  destruct HL as [H1 _ _ _]. pose proof (cnt_lookup h_txMu ls i l Hl) as Hc.
  rewrite Ht in Hc. cbn in Hc. destruct b as [|j|id].
  - destruct Hr as [Hm _]. rewrite Hm in H1. cbn in H1. lia.
  - destruct Hb as (lj & Hlj & Htj). f_equal. eapply (cnt_unique h_txMu); eauto.
    destruct (txMu s); cbn in H1; lia.
  - destruct Hb as [H Hne]. congruence.
Qed.

Lemma seen_baton b s ls i l id :
  Inv s ls -> baton_at b s ls -> ls !! i = Some l -> h_seen l = Some id -> b = Transaction id.
Proof.
  intros HI Hb Hl Hs. pose proof (baton_represents _ _ _ HI Hb) as Hr. destruct HI as [HL _].
  destruct (li_seen _ _ _ _ _ HL _ _ _ Hl Hs) as (_ & Hid & Hne).
  destruct b as [|j|id']; cbn in Hr; [destruct Hr; congruence..|]. f_equal. intuition congruence.
Qed.

(** A goroutine that runs SQL on the write pool may do so. *)
Lemma runner_may_write b s ls i l :
  Inv s ls -> baton_at b s ls -> ls !! i = Some l -> may_run l RW ->
  may_write b i (h_task l) = true.
Proof.
  intros HI Hb Hl Hm. unfold may_run in Hm. destruct (h_task l) as [q| |].
  - destruct (qTxID q =s? "") eqn:E.
    + rewrite (holder_baton _ _ _ _ _ HI Hb Hl Hm). cbn. by rewrite Nat.eqb_refl.
    + rewrite (seen_baton _ _ _ _ _ _ HI Hb Hl Hm). cbn. apply String.eqb_refl.
  - destruct (h_seen l) as [id|] eqn:Hs; [|done]. by rewrite (seen_baton _ _ _ _ _ _ HI Hb Hl Hs).
  - destruct (h_seen l) as [id|] eqn:Hs; [|done]. by rewrite (seen_baton _ _ _ _ _ _ HI Hb Hl Hs).
Qed.

(** A step that moves neither the mutex nor the transaction. *)
Lemma baton_kept b s s' ls i l l' :
  tx_kept s s' -> ls !! i = Some l -> h_txMu l' = h_txMu l ->
  baton_at b s ls -> baton_at b s' (<[i := l']> ls).
Proof.
  intros [Hid Hm] Hl Hl' Hb. destruct b as [|j|id]; cbn in *; [congruence| |by rewrite Hid].
  destruct Hb as (lj & Hj & Ht). destruct (decide (i = j)) as [->|Hne].
  - exists l'. rewrite list_lookup_insert_eq by (by eapply lookup_lt_Some).
    split; [done|congruence].
  - exists lj. by rewrite list_lookup_insert_ne.
Qed.

Lemma after_txMu l B (e : dbE B) b :
  match e with Lock TxMu | Unlock TxMu | StoreTxID _ => True
  | _ => h_txMu (after l B e b) = h_txMu l end.
Proof. destruct e; cbn; try done; try (by destruct m). all: by repeat break_match. Qed.

Lemma step_baton b s s' ls i l B (e : dbE B) r :
  Inv s ls -> ls !! i = Some l -> needs l B e -> handle fuel uuid B e s = Some (r, s') ->
  baton_at b s ls ->
  exists b', baton_run b (label i (h_task l) e) = Some b'
             /\ baton_at b' s' (<[i := after l B e r]> ls).
Proof.
  intros HI Hl Hn Hh Hb.
  pose proof (handle_tx_kept _ _ _ _ _ Hh) as Hk. pose proof (after_txMu l B e r) as Ha.
  assert (Hi : forall l', <[i := l']> ls !! i = Some l')
    by (intros; apply list_lookup_insert_eq; by eapply lookup_lt_Some).
  assert (Hkeep : tx_kept s s' -> h_txMu (after l B e r) = h_txMu l ->
                  baton_at b s' (<[i := after l B e r]> ls)) by (intros; by eapply baton_kept).
  destruct e; try (exists b; split; [done|by apply Hkeep]); cbn in Hn, Hh.
  - destruct m; try (exists b; split; [done|by apply Hkeep]). cbn in Hn, Hh |- *.
    destruct (txMu s) eqn:Em; [done|]. pose proof (baton_represents _ _ _ HI Hb) as Hr.
    destruct b as [|j|id]; [|destruct Hr; congruence..]. eexists. split; [done|]. cbn.
    eexists. split; [apply Hi|]. done.
  - destruct m; try (exists b; split; [done|by apply Hkeep]). cbn in Hn, Hh |- *.
    destruct (txMu s) eqn:Em; [|done]. injection Hh as <- <-.
    rewrite (holder_baton _ _ _ _ _ HI Hb Hl Hn). cbn. rewrite Nat.eqb_refl. by eexists.
  - cbn. injection Hh as <- <-. destruct (v =s? "") eqn:Ev; string_cases; cbn.
    + destruct Hn as [Hs _]. destruct (h_seen l) as [id|] eqn:Hid; [|done].
      rewrite (seen_baton _ _ _ _ _ _ HI Hb Hl Hid). eexists. split; [done|]. cbn.
      eexists. split; [apply Hi|]. done.
    + rewrite (holder_baton _ _ _ _ _ HI Hb Hl Hn). cbn.
      rewrite Nat.eqb_refl, (proj2 (String.eqb_neq _ _) Ev). cbn. eexists. split; [done|]. done.
  - cbn [label]. exists b. split; [|by apply Hkeep]. case_bool_decide as Hp; [|done].
    cbn. destruct Hn as [_ Hm]. rewrite Hp in Hm. by rewrite (runner_may_write _ _ _ _ _ HI Hb Hl Hm).
Qed.

Lemma NewDB_tx config mkdirErr now st w db w' :
  NewDB fuel config mkdirErr now st w = Some (Ok db, w') -> txMu db = false.
Proof.
  unfold NewDB. intros H. repeat (break_match_in H; try discriminate). injection H as <- <-.
  unfold limit_pool.
  repeat match goal with |- txMu (snd (close_all ?cs ?s)) = _ =>
    rewrite (proj2 (close_all_tx cs s)); cbn end.
  done.
Qed.

Lemma history_baton es c :
  history es c ->
  exists b ls, baton_run Nobody es = Some b /\ db_typed c ls /\ baton_at b (shared c) ls.
Proof using uuid_nonempty.
  induction 1 as [c Hc|es es' c c' _ (b & ls & Hrun & Hty & Hb) Hstep].
  { destruct Hc as (cf & me & now & st & w & db & w' & HN & ->).
    exists Nobody, []. split; [done|]. split; [split; [by eapply NewDB_inv|constructor]|].
    by eapply NewDB_tx. }
  setoid_rewrite baton_run_app. rewrite Hrun.
  destruct Hstep as [s s' gs i t B e k r Hi Hh|s gs t p [rounds ->]|s s' gs He].
  - destruct (typed_lookup _ _ _ _ _ Hty Hi) as (l & Hl & <- & Hn & Hk).
    destruct Hty as [HI Hall]. cbn in *.
    destruct (step_baton _ _ _ _ _ _ _ _ _ HI Hl Hn Hh Hb) as (b' & Hrun' & Hb').
    destruct (effect_inv uuid fuel uuid_nonempty _ _ _ _ _ _ _ _ HI Hl Hn Hh) as [Hg HI'].
    exists b', (<[i := after l B e r]> ls). split; [done|]. split; [|done]. split; [done|]. cbn.
    apply Forall2_insert; [done|]. cbn. rewrite after_task. split; [done|]. by apply Hk.
  - exists b, (ls ++ [h_start t]). split; [done|]. destruct Hty as [HI Hall]. split.
    + split; [by apply Inv_start|]. apply Forall2_app; [done|]. constructor; [|constructor].
      split; [done|]. apply task_prog_wp.
    + destruct b as [|j|id]; [done| |done]. destruct Hb as (l & Hl & Ht).
      exists l. split; [|done]. by apply lookup_app_l_Some.
  - exists b, ls. split; [done|]. destruct Hty as [HI Hall].
    split; [split; [by eapply Inv_env|done]|]. destruct He as (ext & st & _ & ->). by destruct b.
Qed.

(** ** The refinement *)

(** C6: the component refines the baton.  Whatever the interleaving, the events of an
    execution are ones that the specification allows, and the state that the specification
    is in is the one that the mutex and the identifier of the open transaction show.  So
    the SQL of the write pool is serial: from the opening of a transaction until somebody
    passes the baton on, only requests that name this transaction run (or the component's
    own rollback), and while a goroutine has the baton, only that goroutine's request. *)
Theorem writes_are_serial es c :
  history es c ->
  (exists b, baton_run Nobody es = Some b /\ represents b (shared c))
  /\ forall es1 e es2 es3, es = es1 ++ e :: es2 ++ es3 -> existsb passes es2 = false ->
     forall j t sql, RunSQL j t sql ∈ es2 ->
     match e with
     | OpenTx _ id => match t with TQuery q => qTxID q = id | _ => True end
     | Acquire i | CloseTx i =>
         j = i /\ match t with TQuery q => qTxID q = "" | _ => False end
     | Release _ => False
     | RunSQL _ _ _ => True
     end.
Proof using uuid_nonempty.
  intros H. destruct (history_baton _ _ H) as (b & ls & Hrun & [HI _] & Hb).
  split; [exists b; split; [done|by eapply baton_represents]|].
  intros es1 e es2 es3 -> Hp j t sql Hin. rewrite baton_run_app in Hrun.
  destruct (baton_run Nobody es1) as [b1|]; [|done]. cbn in Hrun.
  destruct (baton_step b1 e) as [b2|] eqn:Ee; [|done]. rewrite baton_run_app in Hrun.
  destruct (baton_run b2 es2) as [b3|] eqn:E2; [|done].
  pose proof (baton_run_stays _ _ _ E2 Hp _ _ _ Hin) as Hm.
  by apply (passed_to _ _ _ _ _ Ee Hm).
Qed.
End Serial.

(** A goroutine of a request opens a transaction, another one inserts into it. *)
Definition serial_schedule : list sched :=
  [Spawn 0 (TQuery q_begin); Steps 0 200; Spawn 0 (TQuery (q_insert "t")); Steps 1 200].

Lemma serial_schedule_runs :
  (fun c : db_config (LIB := toy_lib) => txID (shared c)) <$> toy_schedule serial_schedule
  = Some "t".
Proof. vm_compute. reflexivity. Qed.

Lemma writes_are_serial_witness :
  exists es c, history (LIB := toy_lib) toy_uuid 20 es c /\ txID (shared c) = "t"
  /\ exists b, baton_run Nobody es = Some b /\ represents b (shared c).
Proof.
  destruct (toy_observe _ _ _ serial_schedule_runs) as (c & Hr & Hc).
  destruct (proj1 (reachable_history toy_uuid 20 c) Hr) as [es Hes].
  exists es, c. split; [exact Hes|]. split; [exact Hc|].
  exact (proj1 (writes_are_serial toy_uuid 20 toy_uuid_nonempty es c Hes)).
Defined.
