(* ===== verification/DbSpec.v ===== *)
(** * What one request does: the database component without its machinery

    [spec_query] says what a request answers and how it changes the state when
    nothing else runs: no mutexes, no pools, no deferred calls.  The theorem
    [Db_Query_refines] shows that the program of [db.go] implements it; the others
    read the transaction protocol off the specification. *)
From S2P Require Import Prelude GoStrings GoTime Stats Authorizer Sqlite Driver Goroutines DbState Db ToyEngine DbConc DbSafety DbTraces.

Section Spec.
  Context `{LIB : SqliteLib}.
  Context (uuid : nat -> string) (fuel : nat).

Definition stat (op : stat_op) (s : DB) : DB :=
  set_dbStats (stat_apply op (extNow (external s)) (dbStats s)) s.
Definition touch_now (s : DB) : DB := set_txLastUsed (extNow (external s)) s.

(** The connection a request would be given. *)
Definition head_conn (w : which_pool) (s : DB) : nat :=
  match plFree (the_pool w s) with c :: _ => c | [] => 0%nat end.

(** Running SQL under a role on a connection of a pool; [None] when the engine does
    not return. *)
Definition spec_sql (w : which_pool) (msg : string) (role : Z) (sql : string)
    (ps : list QueryParam) (s : DB) : option (result (result SqlResult) * DB) :=
  let c := head_conn w s in
  match SetAuthorizerRole (conn_of s c) role with
  | Err e => Some (Err (ErrWrap msg e), s)
  | Ok conn =>
      match Conn_Query fuel conn sql ps (world s) with
      | None => None
      | Some (r, w') => Some (Ok r, set_world w' (set_conn c conn s))
      end
  end.
Definition write_role_msg : string := "failed to set write connection authorizer role".
Definition read_role_msg : string := "failed to set read connection authorizer role".

(** The kind of a query: by its prefix, else by what the engine says of it. *)
Definition spec_classify (w : which_pool) (query : string) (s : DB) : result QueryType * DB :=
  match classify_prefix query with
  | Some t => (Ok t, s)
  | None =>
      let c := head_conn w s in
      match SetAuthorizerRole (conn_of s c) AuthorizerRoleAdmin with
      | Err e => (Err (ErrWrap "failed to set classification authorizer role" e), s)
      | Ok conn =>
          match Prepare conn query (world s) with
          | (Err e, w') =>
              (Err (ErrWrap "failed to prepare statement" e), set_world w' (set_conn c conn s))
          | (Ok st, w') =>
              (Ok (if ReadOnly st then QueryTypeRead else QueryTypeWrite),
               set_world (Finalize st w') (set_conn c conn s))
          end
      end
  end.

(** A begin: it waits for the open transaction, if there is one. *)
Definition spec_begin (q : Query) (s : DB) : option (result QueryResult * DB) :=
  if negb (txID s =s? "") then None
  else
    match spec_sql RW write_role_msg (qRole q) "BEGIN TRANSACTION" []
            (stat StIncQueuedBegins s) with
    | None => None
    | Some (Err e, s1) | Some (Ok (Err e), s1) =>
        Some (Err (ErrWrap "failed to begin transaction" e), stat StDecQueuedBegins s1)
    | Some (Ok (Ok _), s1) =>
        let id := uuid (uuids s1) in
        let s2 := set_uuids (S (uuids s1)) s1 in
        let s3 := set_mutex TxMu true (set_txID id (set_txOwner (qTxOwner q) (touch_now s2))) in
        Some (Ok (MkQueryResult QueryTypeBegin id 0 0 [] [] []),
              stat StDecQueuedBegins (stat StIncBegins s3))
    end.

(** The end of the open transaction. *)
Definition spec_end (msg sql : string) (op : stat_op) (t : QueryType) (role : Z) (s : DB) :
    option (result QueryResult * DB) :=
  match spec_sql RW write_role_msg role sql [] s with
  | None => None
  | Some (Err e, s1) | Some (Ok (Err e), s1) => Some (Err (ErrWrap msg e), s1)
  | Some (Ok (Ok _), s1) =>
      Some (Ok (MkQueryResult t "" 0 0 [] [] []),
            stat op (set_mutex TxMu false (set_txID "" (set_txOwner "" (touch_now s1)))))
  end.

Definition spec_write (q : Query) (s : DB) : option (result QueryResult * DB) :=
  match spec_sql RW write_role_msg (qRole q) (qQuery q) (qParams q)
          (stat StIncQueuedWrites s) with
  | None => None
  | Some (Err e, s1) => Some (Err e, stat StDecQueuedWrites s1)
  | Some (Ok (Err e), s1) =>
      Some (Err (ErrWrap "failed to execute write query" e), stat StDecQueuedWrites s1)
  | Some (Ok (Ok res), s1) =>
      Some (Ok (write_result res), stat StDecQueuedWrites (stat StIncWrites s1))
  end.

Definition spec_read (q : Query) (s : DB) : option (result QueryResult * DB) :=
  let '(w, msg) := if qTxID q =s? "" then (RO, read_role_msg) else (RW, write_role_msg) in
  match spec_sql w msg (qRole q) (qQuery q) (qParams q) s with
  | None => None
  | Some (Err e, s1) => Some (Err e, s1)
  | Some (Ok (Err e), s1) => Some (Err (ErrWrap "failed to execute read query" e), s1)
  | Some (Ok (Ok res), s1) => Some (Ok (read_result res), stat StIncReads s1)
  end.

(** A classified request; one outside transactions writes only when none is open. *)
Definition spec_execute (q : Query) (t : QueryType) (s : DB) : option (result QueryResult * DB) :=
  match t with
  | QueryTypeBegin =>
      if negb (qTxID q =s? "") then Some (Err ErrTxWithinTx, s) else spec_begin q s
  | QueryTypeCommit =>
      if qTxID q =s? "" then Some (Err ErrTxIdRequired, s)
      else spec_end "failed to commit transaction" "COMMIT" StIncCommits QueryTypeCommit (qRole q) s
  | QueryTypeRollback =>
      if qTxID q =s? "" then Some (Err ErrTxIdRequired, s)
      else spec_end "failed to rollback transaction" "ROLLBACK" StIncRollbacks QueryTypeRollback
             (qRole q) s
  | QueryTypeRead => spec_read q s
  | QueryTypeWrite =>
      if (qTxID q =s? "") && negb (txID s =s? "") then None else spec_write q s
  | QueryTypeUnknown => Some (Err (ErrNew "unknown query type: unknown"), s)
  end.

(** The transaction a request names must be the open one, and be its owner's. *)
Definition spec_check_tx (q : Query) (s : DB) : result unit :=
  if txID s =s? "" then Err ErrTxNotFound
  else if negb (qTxID q =s? txID s) then Err ErrTxNotMatch
  else if negb (qTxOwner q =s? "") && negb (qTxOwner q =s? txOwner s) then Err ErrTxNotMatch
  else Ok tt.

Definition detect_msg : string := "failed to detect query type".

(** A request that names a transaction. *)
Definition spec_in_tx (q : Query) (s : DB) : option (result QueryResult * DB) :=
  match spec_check_tx q s with
  | Err e => Some (Err e, s)
  | Ok _ =>
      match spec_classify RW (qQuery q) (touch_now s) with
      | (Err e, s1) => Some (Err (ErrWrap detect_msg e), touch_now s1)
      | (Ok t, s1) =>
          match spec_execute q t s1 with
          | None => None
          | Some (r, s2) => Some (r, touch_now s2)
          end
      end
  end.

(** A request that does not; with a transaction open, a classification that fails is
    tried again once the transaction ends. *)
Definition spec_outside (q : Query) (s : DB) : option (result QueryResult * DB) :=
  match spec_classify RO (qQuery q) s with
  | (Err e, s1) =>
      if negb (txID s =s? "") then None else Some (Err (ErrWrap detect_msg e), s1)
  | (Ok t, s1) => spec_execute q t s1
  end.

Definition spec_query_ (q : Query) (s : DB) : option (result QueryResult * DB) :=
  if negb (qTxID q =s? "") then spec_in_tx q s else spec_outside q s.

(** A request that fails is counted as an error. *)
Definition spec_query (q : Query) (s : DB) : option (result QueryResult * DB) :=
  match spec_query_ q s with
  | None => None
  | Some (Err e, s1) => Some (Err e, stat StIncErrors s1)
  | Some (Ok r, s1) => Some (Ok r, s1)
  end.

(** ** The states between requests *)

(** The pool has an idle connection that works, none in use, and room to take it
    back. *)
Definition quiet_pool (w : which_pool) (s : DB) : Prop :=
  let p := the_pool w s in
  plInUse p = 0%nat /\ plClosed p = false
  /\ match plFree p with
     | [] => False
     | c :: rest =>
         Z.of_nat (length rest) < plMaxIdle p
         /\ exists db r, conns s !! c = Some (MkConn (Some db) (Some r))
     end.

(** The requests run under one [ctx], or the monitor and the shutdown under another. *)
  Context (ctx : go_context).

(** Only an open transaction holds a mutex. *)
Definition quiet (s : DB) : Prop :=
  txMu s = negb (txID s =s? "") /\ txOpMu s = false /\ writeMu s = false
  /\ ctx_done ctx s = false
  /\ quiet_pool RW s /\ quiet_pool RO s.

(** ** The programs, run alone *)

Abbreviation runs := (run (handle fuel uuid)).
(** What running [p] amounts to: a result and a state, or a wait. *)
Definition runs_to {A} (p : db_prog A) (s : DB) (o : option (A * DB)) : Prop :=
  match o with
  | Some (r, s') => runs p s = Done r s'
  | None => exists s', runs p s = Blocked s'
  end.

Definition ready (w : which_pool) (s : DB) : Prop :=
  writeMu s = false /\ ctx_done ctx s = false /\ quiet_pool w s.

Lemma SetAuthorizerRole_ok conn role conn' :
  SetAuthorizerRole conn role = Ok conn' ->
  exists db, cDB conn = Some db /\ conn' = MkConn (Some db) (Some role).
Proof.
  unfold SetAuthorizerRole. destruct (cDB conn) as [db|]; [|done].
  destruct (authorizerCtx conn); [|done]. destruct (negb _); [done|]. cbn.
  intros [= <-]. by exists db.
Qed.

(** Setting a role on one connection leaves every pool as it is. *)
Lemma quiet_pool_set_conn w w' c role conn conn' s :
  SetAuthorizerRole conn role = Ok conn' ->
  quiet_pool w s -> quiet_pool w (set_world w' (set_conn c conn' s)).
Proof.
  intros (db & Hdb & ->)%SetAuthorizerRole_ok (Hu & Hc & Hf).
  unfold quiet_pool. destruct w; cbn in *;
    (split; [done|]; split; [done|]; destruct (plFree _) as [|x rest]; [done|];
     destruct Hf as (Hm & db' & r & Hx); split; [done|];
     destruct (decide (x = c)) as [->|Hne];
     [rewrite lookup_insert_eq; eauto|rewrite lookup_insert_ne by done; eauto]).
Qed.

(** A checkout and what follows it, on a pool with an idle connection. *)
Definition taken (w : which_pool) (s : DB) : DB :=
  let p := the_pool w s in
  set_pool w (MkPool (plConnector p) (plMaxOpen p) (plMaxIdle p) (tail (plFree p)) 1 false) s.

Lemma pool_Conn_ready w s :
  ctx_done ctx s = false -> quiet_pool w s ->
  pool_Conn fuel ctx w s = Some (Ok (Checkout w (head_conn w s)), taken w s).
Proof.
  intros Hd (Hu & Hc & Hf). unfold pool_Conn, pop_free, taken, head_conn.
  rewrite Hc, Hd, Hu. by destruct (plFree (the_pool w s)) as [|c rest].
Qed.

(** Giving it back restores the pool, whatever happened to the world and the
    connections meanwhile. *)
Lemma pool_Return_ready w s w' cs :
  quiet_pool w s ->
  pool_Return w (head_conn w s) (set_world w' (set_conns cs (nextConn s) (taken w s)))
  = set_world w' (set_conns cs (nextConn s) s).
Proof.
  intros (Hu & Hc & Hf). unfold pool_Return, head_conn, taken in *.
  destruct s as [id ow lu tm om wm [cn mo mi fr iu cl] [cn' mo' mi' fr' iu' cl'] cs0 nx uu st wo sc wg ext].
  destruct w; cbn in *; subst.
  - destruct fr as [|c rest]; [done|]. destruct Hf as (Hm & _). cbn.
    by rewrite (proj2 (Z.ltb_lt _ _) Hm).
  - destruct fr' as [|c rest]; [done|]. destruct Hf as (Hm & _). cbn.
    by rewrite (proj2 (Z.ltb_lt _ _) Hm).
Qed.

Lemma pool_Return_same w s : quiet_pool w s -> pool_Return w (head_conn w s) (taken w s) = s.
Proof.
  intros Hq. pose proof (pool_Return_ready w s (world s) (conns s) Hq) as H.
  by destruct s.
Qed.

Lemma pool_Return_conn w s w' c conn :
  quiet_pool w s ->
  pool_Return w (head_conn w s) (set_world w' (set_conn c conn (taken w s)))
  = set_world w' (set_conn c conn s).
Proof. intros Hq. exact (pool_Return_ready w s w' (<[c := conn]> (conns s)) Hq). Qed.

Lemma conn_of_set_conn c conn s : conn_of (set_conn c conn s) c = conn.
Proof. unfold conn_of. cbn. by rewrite lookup_insert_eq. Qed.

(** [writeMu] around a section that only touches the world and one connection. *)
Lemma unlock_write w' c conn s :
  writeMu s = false ->
  set_mutex WriteMu false (set_world w' (set_conn c conn (set_mutex WriteMu true s)))
  = set_world w' (set_conn c conn s).
Proof. intros H. destruct s. cbn in *. by rewrite H. Qed.

Lemma unlock_write_same s :
  writeMu s = false -> set_mutex WriteMu false (set_mutex WriteMu true s) = s.
Proof. intros H. destruct s. cbn in *. by rewrite H. Qed.

Ltac cbn_db := cbn -[SetAuthorizerRole Conn_Query Prepare Finalize pool_Conn pool_Return taken
                     quiet_pool classify_prefix set_world set_conn stat_apply].

Lemma run_withReadWriteConn {A} role sql ps k (g : result SqlResult -> result A) s :
  ready RW s -> (forall r, k r = Ret (g r)) ->
  runs_to (withReadWriteConn ctx role (fun c => Vis (ConnQuery c sql ps) k)) s
    (match spec_sql RW write_role_msg role sql ps s with
     | None => None
     | Some (Err e, s1) => Some (Err e, s1)
     | Some (Ok r, s1) => Some (g r, s1)
     end).
Proof.
  intros (Hw & Hd & Hq) Hk. set (s1 := set_mutex WriteMu true s).
  assert (Hq1 : quiet_pool RW s1) by done.
  assert (Hc : forall c, conn_of (taken RW s1) c = conn_of s c) by done.
  unfold runs_to, withReadWriteConn, spec_sql. cbn_db. rewrite Hw. cbn_db. fold s1.
  rewrite (pool_Conn_ready RW s1) by done. cbn_db. rewrite Hc.
  change (head_conn RW s) with (head_conn RW s1).
  destruct (SetAuthorizerRole (conn_of s (head_conn RW s1)) role) as [conn|e] eqn:Er.
  - cbn_db. rewrite conn_of_set_conn.
    change (world (set_conn (head_conn RW s1) conn (taken RW s1))) with (world s).
    destruct (Conn_Query fuel conn sql ps (world s)) as [[r w']|]; cbn_db; [|by eexists].
    rewrite Hk. cbn_db. rewrite pool_Return_conn by done.
    assert (Hl : writeMu (set_world w' (set_conn (head_conn RW s1) conn s1)) = true) by done.
    rewrite Hl. cbn_db. subst s1. by rewrite unlock_write.
  - cbn_db. rewrite pool_Return_same by done. cbn_db. subst s1. by rewrite unlock_write_same.
Qed.

Lemma run_exec role sql s :
  ready RW s ->
  runs_to (withReadWriteConn ctx role (exec_on sql)) s
    (match spec_sql RW write_role_msg role sql [] s with
     | None => None
     | Some (Err e, s1) => Some (Err e, s1)
     | Some (Ok r, s1) => Some (match r with Ok _ => Ok tt | Err e => Err e end, s1)
     end).
Proof. intros Hr. by apply run_withReadWriteConn. Qed.

Lemma run_getRawConn w s :
  ctx_done ctx s = false -> quiet_pool w s ->
  runs (getRawConn ctx w) s = Done (Ok (Checkout w (head_conn w s))) (taken w s).
Proof. intros Hd Hq. cbn_db. by rewrite pool_Conn_ready. Qed.

Lemma run_query_on msg f q s :
  ready RW s ->
  runs_to (withReadWriteConn ctx (qRole q) (query_on msg f q)) s
    (match spec_sql RW write_role_msg (qRole q) (qQuery q) (qParams q) s with
     | None => None
     | Some (Err e, s1) => Some (Err e, s1)
     | Some (Ok (Ok res), s1) => Some (Ok (f res), s1)
     | Some (Ok (Err e), s1) => Some (Err (ErrWrap msg e), s1)
     end).
Proof.
  intros Hr.
  pose proof (run_withReadWriteConn (qRole q) (qQuery q) (qParams q)
    (fun r => match r with Ok res => mret (Ok (f res)) | Err e => Ret (Err (ErrWrap msg e)) end)
    (fun r => match r with Ok res => Ok (f res) | Err e => Err (ErrWrap msg e) end) s Hr
    ltac:(by intros [?|?])) as H.
  by destruct (spec_sql _ _ _ _ _ _) as [[[[?|?]|?] ?]|].
Qed.

(** The classification of a query without a recognised prefix. *)
Lemma run_classifyPreparedQuery w query s :
  quiet_pool w s -> classify_prefix query = None ->
  runs (deferred (classifyPreparedQuery (Checkout w (head_conn w s)) query)
          (act (PoolReturn (Checkout w (head_conn w s))))) (taken w s)
  = let '(r, s1) := spec_classify w query s in Done r s1.
Proof.
  intros Hq Hp. unfold spec_classify. rewrite Hp. cbn_db.
  change (conn_of (taken w s)) with (conn_of s).
  destruct (SetAuthorizerRole (conn_of s (head_conn w s)) AuthorizerRoleAdmin) as [conn|e];
    cbn_db; [|by rewrite pool_Return_same].
  rewrite conn_of_set_conn. change (world (set_conn (head_conn w s) conn (taken w s))) with (world s).
  destruct (Prepare conn query (world s)) as [[st|e] w']; cbn_db; rewrite ?pool_Return_conn by done; [|done].
  change (set_world ?a (set_world ?b ?c)) with (set_world a c).
  rewrite pool_Return_conn; done.
Qed.

Lemma run_ClassifyQuery_RO query s :
  ctx_done ctx s = false -> quiet_pool RO s ->
  runs (ClassifyQuery ctx query "") s = let '(r, s1) := spec_classify RO query s in Done r s1.
Proof.
  intros Hd Hq. unfold ClassifyQuery. destruct (classify_prefix query) as [t|] eqn:Hp.
  - unfold spec_classify. by rewrite Hp.
  - rewrite <- run_classifyPreparedQuery by done. cbn_db.
    by rewrite pool_Conn_ready.
Qed.

Lemma run_ClassifyQuery_RW query id s :
  id <> "" -> ready RW s ->
  runs (ClassifyQuery ctx query id) s = let '(r, s1) := spec_classify RW query s in Done r s1.
Proof.
  intros Hid (Hw & Hd & Hq). unfold ClassifyQuery.
  destruct (classify_prefix query) as [t|] eqn:Hp.
  - unfold spec_classify. by rewrite Hp.
  - rewrite (proj2 (String.eqb_neq _ _) Hid). cbn [negb].
    set (s1 := set_mutex WriteMu true s). assert (Hq1 : quiet_pool RW s1) by done.
    pose proof (run_classifyPreparedQuery RW query s1 Hq1 Hp) as Hc.
    unfold classifyQueryOnReadWriteConn, mbind, prog_mbind. rewrite run_act_bind.
    cbn [handle locked]. rewrite Hw. fold s1. rewrite run_deferred. unfold try_bind.
    rewrite run_bind. unfold getReadWriteRawConn. rewrite run_getRawConn by done.
    rewrite Hc. unfold spec_classify. rewrite Hp.
    change (conn_of s1) with (conn_of s). change (world s1) with (world s).
    change (head_conn RW s1) with (head_conn RW s).
    clear Hc. subst s1.
    destruct (SetAuthorizerRole _ _) as [conn|e]; [|cbn_db; by rewrite unlock_write_same].
    destruct (Prepare conn query (world s)) as [[st|e] w']; cbn_db.
    + by rewrite <- (unlock_write _ _ conn s).
    + by rewrite <- (unlock_write _ _ conn s).
Qed.

(** ** What the specification leaves alone *)

(** Only the world and the connections change, and the pools stay usable. *)
Definition frame (s s1 : DB) : Prop :=
  (exists w' m, s1 = set_world w' (set_conns m (nextConn s) s))
  /\ forall w, quiet_pool w s -> quiet_pool w s1.

Lemma frame_refl s : frame s s.
Proof. split; [|done]. exists (world s), (conns s). by destruct s. Qed.

Lemma frame_conn w' c role conn conn' s :
  SetAuthorizerRole conn role = Ok conn' -> frame s (set_world w' (set_conn c conn' s)).
Proof.
  intros H. split; [by eexists _, _|]. intros w. by eapply quiet_pool_set_conn.
Qed.

Lemma spec_sql_frame w msg role sql ps s r s1 :
  spec_sql w msg role sql ps s = Some (r, s1) -> frame s s1.
Proof.
  unfold spec_sql. destruct (SetAuthorizerRole _ _) as [conn|e] eqn:E.
  - destruct (Conn_Query _ _ _ _ _) as [[r' w']|]; [|done]. intros [= <- <-].
    by eapply frame_conn.
  - intros [= <- <-]. apply frame_refl.
Qed.

Lemma spec_classify_frame w query s r s1 : spec_classify w query s = (r, s1) -> frame s s1.
Proof.
  unfold spec_classify. destruct (classify_prefix query); [intros [= <- <-]; apply frame_refl|].
  destruct (SetAuthorizerRole _ _) as [conn|e] eqn:E; [|intros [= <- <-]; apply frame_refl].
  destruct (Prepare _ _ _) as [[st|e] w']; intros [= <- <-]; by eapply frame_conn.
Qed.

Lemma frame_ready w s s1 : frame s s1 -> ready w s -> ready w s1.
Proof.
  intros [(w' & m & ->) Hq] (Hw & Hd & Hp). split; [done|]. split; [done|]. by apply Hq.
Qed.

(** A query with no recognised prefix reads or writes. *)
Lemma spec_classify_type w query s t s1 :
  spec_classify w query s = (Ok t, s1) ->
  match classify_prefix query with
  | Some t' => t = t' /\ s1 = s
  | None => t = QueryTypeRead \/ t = QueryTypeWrite
  end.
Proof.
  unfold spec_classify. destruct (classify_prefix query); [by intros [= <- <-]|].
  destruct (SetAuthorizerRole _ _); [|done].
  destruct (Prepare _ _ _) as [[st|e] w']; [|done]. intros [= <- _].
  destruct (ReadOnly st); auto.
Qed.

(** ** The execution functions *)

(** Follow each outcome of the section [H] runs, after the steps [tac]. *)
Ltac run_section H tac :=
  let s1 := fresh "s" in
  destruct (spec_sql _ _ _ _ _ _) as [[[[?|?]|?] ?]|]; cbn [runs_to] in *;
  [ | | | destruct H as [s1 H]; exists s1]; tac; rewrite H; try done.

Lemma run_executeWriteQuery q s :
  ready RW s -> runs_to (executeWriteQuery ctx q) s (spec_write q s).
Proof.
  intros Hr. unfold spec_write, executeWriteQuery, mbind, prog_mbind.
  pose proof (run_query_on "failed to execute write query" write_result q
                (stat StIncQueuedWrites s) Hr) as H.
  run_section H ltac:(rewrite run_act_bind; cbn [handle]; fold (stat StIncQueuedWrites s);
    rewrite run_deferred; unfold try_bind at 1; rewrite run_bind).
Qed.

Lemma run_executeReadQuery q s :
  ctx_done ctx s = false ->
  (if qTxID q =s? "" then quiet_pool RO s else ready RW s) ->
  runs_to (executeReadQuery ctx q) s (spec_read q s).
Proof.
  intros Hd Hr. unfold spec_read, executeReadQuery. destruct (qTxID q =s? "").
  - unfold runs_to, spec_sql, try_bind. unfold getReadOnlyRawConn.
    assert (Hrun : forall (f : _ -> db_prog (result QueryResult)), runs (prog_bind f (getRawConn ctx RO)) s
                     = runs (f (Ok (Checkout RO (head_conn RO s)))) (taken RO s)).
    { intros f. rewrite run_bind. by rewrite run_getRawConn. }
    rewrite Hrun. cbn_db. change (conn_of (taken RO s)) with (conn_of s).
    destruct (SetAuthorizerRole (conn_of s (head_conn RO s)) (qRole q)) as [conn|e]; cbn_db;
      [|by rewrite pool_Return_same].
    rewrite conn_of_set_conn.
    assert (Hwo : world (set_conn (head_conn RO s) conn (taken RO s)) = world s) by done.
    rewrite Hwo.
    destruct (Conn_Query fuel conn (qQuery q) (qParams q) (world s)) as [[[r|e] w']|]; cbn_db;
      [|by rewrite pool_Return_conn|by eexists].
    f_equal. exact (pool_Return_conn RO (stat StIncReads s) w' (head_conn RO s) conn Hr).
  - pose proof (run_query_on "failed to execute read query" read_result q s Hr) as H.
    run_section H ltac:(unfold try_bind at 1; rewrite run_bind).
Qed.

Lemma run_end msg sql op t role s :
  ready RW s -> txMu s = true ->
  runs_to (try_bind (ErrWrap msg) (withReadWriteConn ctx role (exec_on sql)) (fun _ =>
             end_transaction op t)) s (spec_end msg sql op t role s).
Proof.
  intros Hr Hm. unfold spec_end. pose proof (run_exec role sql s Hr) as H.
  destruct (spec_sql _ _ _ _ _ _) as [[r s1]|] eqn:E.
  - apply spec_sql_frame in E as [(w' & m & ->) _].
    destruct r as [[r|e]|e]; cbn [runs_to] in *; unfold try_bind; rewrite run_bind, H; [|done..].
    destruct s. cbn in Hm. subst. done.
  - destruct H as [s1 H]. exists s1. unfold try_bind. by rewrite run_bind, H.
Qed.

(** ** The mutexes around a request

    The specification neither reads nor changes [txOpMu], and a write does not look
    at [txMu]: the two commute. *)
Definition on_state {A} (f : DB -> DB) (o : option (A * DB)) : option (A * DB) :=
  match o with Some (r, s) => Some (r, f s) | None => None end.

Lemma spec_sql_mutex w msg role sql ps m v s :
  spec_sql w msg role sql ps (set_mutex m v s)
  = on_state (set_mutex m v) (spec_sql w msg role sql ps s).
Proof.
  unfold spec_sql. change (conn_of (set_mutex m v s)) with (conn_of s).
  replace (head_conn w (set_mutex m v s)) with (head_conn w s) by by destruct w.
  destruct (SetAuthorizerRole _ _); [|done]. change (world (set_mutex m v s)) with (world s).
  by destruct (Conn_Query _ _ _ _ _) as [[? ?]|].
Qed.

Lemma spec_classify_mutex w query m v s :
  spec_classify w query (set_mutex m v s)
  = let '(r, s1) := spec_classify w query s in (r, set_mutex m v s1).
Proof.
  unfold spec_classify. destruct (classify_prefix query); [done|].
  change (conn_of (set_mutex m v s)) with (conn_of s).
  replace (head_conn w (set_mutex m v s)) with (head_conn w s) by by destruct w.
  destruct (SetAuthorizerRole _ _); [|done]. change (world (set_mutex m v s)) with (world s).
  by destruct (Prepare _ _ _) as [[?|?] ?].
Qed.

Lemma spec_write_mutex q m v s :
  spec_write q (set_mutex m v s) = on_state (set_mutex m v) (spec_write q s).
Proof.
  unfold spec_write. change (stat ?o (set_mutex m v s)) with (set_mutex m v (stat o s)).
  rewrite spec_sql_mutex. by destruct (spec_sql _ _ _ _ _ _) as [[[[?|?]|?] ?]|].
Qed.

Lemma spec_execute_mutex q t v s :
  qTxID q <> "" ->
  spec_execute q t (set_mutex TxOpMu v s) = on_state (set_mutex TxOpMu v) (spec_execute q t s).
Proof.
  intros Hid. unfold spec_execute, spec_end, spec_read.
  rewrite (proj2 (String.eqb_neq _ _) Hid). cbn [negb andb].
  destruct t; try done; rewrite ?spec_sql_mutex, ?spec_write_mutex; try done;
    by destruct (spec_sql _ _ _ _ _ _) as [[[[?|?]|?] ?]|].
Qed.

(** A section under a mutex. *)
Lemma run_locked {A} m (p : db_prog A) s o :
  locked m s = false ->
  (forall r s1, o = Some (r, s1) -> locked m s1 = false) ->
  runs_to p (set_mutex m true s) (on_state (set_mutex m true) o) ->
  runs_to (_ ← act (Lock m); deferred p (act (Unlock m))) s o.
Proof.
  intros Hl Ho H. unfold runs_to. unfold mbind, prog_mbind. destruct o as [[r s1]|].
  - rewrite run_act_bind. cbn [handle]. rewrite Hl, run_deferred.
    cbn [runs_to on_state] in H. rewrite H. specialize (Ho r s1 eq_refl).
    destruct s1, m; cbn in *; by subst.
  - destruct H as [s1 H]. exists s1. rewrite run_act_bind. cbn [handle].
    rewrite Hl, run_deferred. by rewrite H.
Qed.

Lemma run_executeBeginQuery q s :
  qTxID q = "" -> ready RW s -> txMu s = negb (txID s =s? "") ->
  runs_to (executeBeginQuery ctx (qTxID q) (qRole q) (qTxOwner q)) s (spec_begin q s).
Proof.
  intros Hid Hr Hm. unfold spec_begin, executeBeginQuery. rewrite Hid. cbn [negb String.eqb].
  set (s0 := stat StIncQueuedBegins s).
  assert (Hr0 : ready RW (set_mutex TxMu true s0)) by done.
  pose proof (run_exec (qRole q) "BEGIN TRANSACTION" _ Hr0) as H.
  rewrite spec_sql_mutex in H. unfold mbind, prog_mbind.
  destruct (txID s =s? "") eqn:Et; cbn [negb] in *.
  - assert (Hm0 : locked TxMu s0 = false) by done.
    destruct (spec_sql _ _ _ _ _ s0) as [[r s1]|] eqn:E; cbn [on_state] in H.
    + apply spec_sql_frame in E as [(w' & cs & ->) _].
      destruct r as [[r|e]|e]; cbn [runs_to] in *; rewrite run_act_bind; cbn [handle];
        fold (stat StIncQueuedBegins s); fold s0; rewrite run_deferred, run_act_bind; cbn [handle]; rewrite Hm0, run_bind, H;
        destruct s; cbn in Hm; subst; done.
    + cbn [runs_to] in *. destruct H as [s1 H]. exists s1. rewrite run_act_bind. cbn [handle].
      fold (stat StIncQueuedBegins s); fold s0. rewrite run_deferred, run_act_bind. cbn [handle]. by rewrite Hm0, run_bind, H.
  - exists s0. rewrite run_act_bind. cbn [handle].
    fold (stat StIncQueuedBegins s); fold s0.
    rewrite run_deferred, run_act_bind. cbn [handle].
    assert (Hm0 : locked TxMu s0 = true) by done. by rewrite Hm0.
Qed.

Lemma run_execute_in_tx q t s :
  qTxID q <> "" -> ready RW s -> txMu s = true ->
  runs_to (executeClassifiedQuery ctx q t) s (spec_execute q t s).
Proof.
  intros Hid Hr Hm. unfold executeClassifiedQuery, spec_execute.
  unfold executeBeginQuery, executeCommitQuery, executeRollbackQuery.
  pose proof (proj2 (String.eqb_neq _ _) Hid) as Hid'. rewrite Hid'. cbn [negb andb].
  destruct t; try done.
  - apply run_executeReadQuery; [apply Hr | by rewrite Hid'].
  - by apply run_executeWriteQuery.
  - by apply run_end.
  - by apply run_end.
Qed.

Lemma run_execute_outside q t s :
  qTxID q = "" -> ready RW s -> quiet_pool RO s -> txMu s = negb (txID s =s? "") ->
  t <> QueryTypeWrite ->
  runs_to (executeClassifiedQuery ctx q t) s (spec_execute q t s).
Proof.
  intros Hid Hr Hq Hm Ht. unfold executeClassifiedQuery, spec_execute.
  destruct t; try done.
  - apply run_executeReadQuery; [apply Hr | by rewrite Hid].
  - rewrite Hid. cbn [negb String.eqb]. rewrite <- Hid. by apply run_executeBeginQuery.
  - by rewrite Hid.
  - by rewrite Hid.
Qed.

Lemma run_write_outside q s :
  qTxID q = "" -> ready RW s -> txMu s = negb (txID s =s? "") ->
  runs_to (_ ← act (Lock TxMu);
           deferred (executeClassifiedQuery ctx q QueryTypeWrite) (act (Unlock TxMu))) s
    (spec_execute q QueryTypeWrite s).
Proof.
  intros Hid Hr Hm. cbn [spec_execute]. rewrite Hid. cbn [String.eqb andb].
  destruct (txID s =s? "") eqn:Et; cbn [negb] in *.
  - apply run_locked; [done| |].
    + intros r s1 E. unfold spec_write in E.
      destruct (spec_sql _ _ _ _ _ _) as [[r0 s2]|] eqn:E2; [|done].
      apply spec_sql_frame in E2 as [(w' & m & ->) _].
      by destruct r0 as [[?|?]|?]; injection E as <- <-.
    + rewrite <- spec_write_mutex. by apply run_executeWriteQuery.
  - exists s. unfold mbind, prog_mbind. rewrite run_act_bind. cbn [handle locked]. by rewrite Hm.
Qed.

Lemma run_validateTxID q s :
  qTxID q <> "" ->
  runs (validateTxID (qTxID q) (qTxOwner q)) s = Done (spec_check_tx q s) s.
Proof.
  intros Hid. unfold validateTxID, spec_check_tx. rewrite (proj2 (String.eqb_neq _ _) Hid).
  cbn. destruct (txID s =s? ""); [done|]. destruct (qTxID q =s? txID s); [|done]. cbn.
  destruct (qTxOwner q =s? ""); [done|]. cbn. by destruct (qTxOwner q =s? txOwner s).
Qed.

Lemma spec_check_tx_ok q s : spec_check_tx q s = Ok tt -> txID s = qTxID q /\ txID s <> "".
Proof.
  unfold spec_check_tx. destruct (txID s =s? "") eqn:E1; [done|].
  destruct (qTxID q =s? txID s) eqn:E2; [|done]. by string_cases.
Qed.

Lemma run_touch_bind {A} (f : unit -> db_prog A) s :
  runs (prog_bind f touch) s = runs (f tt) (touch_now s).
Proof. done. Qed.

Lemma run_queryWithType q s :
  qTxID q <> "" -> ready RW s -> txMu s = negb (txID s =s? "") ->
  runs_to (queryWithType ctx q) s (spec_in_tx q s).
Proof.
  intros Hid Hr Hm. unfold queryWithType, spec_in_tx.
  pose proof (run_validateTxID q s Hid) as Hv.
  destruct (spec_check_tx q s) as [[]|e] eqn:Ec.
  - apply spec_check_tx_ok in Ec as [Heq Hne].
    rewrite (proj2 (String.eqb_neq _ _) Hne) in Hm. cbn [negb] in Hm.
    assert (Hr' : ready RW (touch_now s)) by done.
    pose proof (run_ClassifyQuery_RW (qQuery q) (qTxID q) _ Hid Hr') as Hcl.
    destruct (spec_classify RW (qQuery q) (touch_now s)) as [[t|e] s1] eqn:Es.
    + pose proof (spec_classify_frame _ _ _ _ _ Es) as Hf.
      pose proof (frame_ready RW _ _ Hf Hr') as Hr1.
      assert (Hm1 : txMu s1 = true) by (destruct Hf as [(w' & m & ->) _]; done).
      pose proof (run_execute_in_tx q t s1 Hid Hr1 Hm1) as He.
      destruct (spec_execute q t s1) as [[r s2]|]; cbn [runs_to] in *;
        [|destruct He as [s2 He]; exists s2];
        unfold try_bind at 1; rewrite run_bind, Hv, (proj2 (String.eqb_neq _ _) Hid);
        cbn [negb]; unfold mbind, prog_mbind; rewrite run_touch_bind;
        rewrite run_deferred; unfold try_bind; rewrite run_bind, Hcl, He; done.
    + cbn [runs_to] in *. unfold try_bind at 1.
      rewrite run_bind, Hv, (proj2 (String.eqb_neq _ _) Hid).
      cbn [negb]. unfold mbind, prog_mbind. rewrite run_touch_bind.
      rewrite run_deferred. unfold try_bind. by rewrite run_bind, Hcl.
  - cbn [runs_to]. unfold try_bind at 1. by rewrite run_bind, Hv.
Qed.

Lemma spec_in_tx_mutex q v s :
  qTxID q <> "" ->
  spec_in_tx q (set_mutex TxOpMu v s) = on_state (set_mutex TxOpMu v) (spec_in_tx q s).
Proof.
  intros Hid. unfold spec_in_tx.
  change (spec_check_tx q (set_mutex TxOpMu v s)) with (spec_check_tx q s).
  destruct (spec_check_tx q s); [|done].
  change (touch_now (set_mutex TxOpMu v s)) with (set_mutex TxOpMu v (touch_now s)).
  rewrite spec_classify_mutex. destruct (spec_classify _ _ _) as [[t|e] s1]; [|done].
  rewrite spec_execute_mutex by done. by destruct (spec_execute q t s1) as [[? ?]|].
Qed.

Lemma run_query_ q s : quiet s -> runs_to (query_ ctx q) s (spec_query_ q s).
Proof.
  intros (Hm & Hop & Hw & Hd & Hqw & Hqr). assert (Hr : ready RW s) by done.
  unfold query_, spec_query_. destruct (qTxID q =s? "") eqn:Hid; cbn [negb]; string_cases.
  - unfold spec_outside. rewrite Hid.
    pose proof (run_ClassifyQuery_RO (qQuery q) s Hd Hqr) as Hc.
    destruct (spec_classify RO (qQuery q) s) as [r s1] eqn:Es.
    pose proof (spec_classify_frame _ _ _ _ _ Es) as Hf.
    pose proof (frame_ready RW _ _ Hf Hr) as Hr1.
    assert (Hq1 : quiet_pool RO s1) by by apply Hf.
    assert (Hm1 : txMu s1 = negb (txID s1 =s? "") /\ txID s1 = txID s)
      by (destruct Hf as [(w' & m & ->) _]; done).
    destruct Hm1 as [Hm1 Hi1]. destruct r as [t|e].
    + destruct (decide (t = QueryTypeWrite)) as [->|Hne].
      * pose proof (run_write_outside q s1 Hid Hr1 Hm1) as He.
        destruct (spec_execute _ _ _) as [[r s2]|]; cbn [runs_to] in *;
          [|destruct He as [s2 He]; exists s2]; unfold mbind at 1, prog_mbind;
          by rewrite run_bind, Hc.
      * pose proof (run_execute_outside q t s1 Hid Hr1 Hq1 Hm1 Hne) as He.
        destruct (spec_execute _ _ _) as [[r s2]|]; cbn [runs_to] in *;
          [|destruct He as [s2 He]; exists s2]; unfold mbind, prog_mbind;
          rewrite run_bind, Hc; by destruct t.
    + rewrite <- Hi1. destruct (txID s1 =s? "") eqn:Et; cbn [negb runs_to] in *.
      * unfold mbind, prog_mbind. rewrite run_bind, Hc, run_act_bind. cbn [handle]. by rewrite Et.
      * exists s1. unfold mbind, prog_mbind. rewrite run_bind, Hc, run_act_bind. cbn [handle].
        rewrite Et. cbn [negb]. rewrite run_act_bind. cbn [handle locked]. by rewrite Hm1.
  - apply run_locked; [done| |].
    + intros r s1 E. assert (Hs : s = set_mutex TxOpMu false s).
      { destruct s. cbn in Hop. by subst. }
      rewrite Hs, spec_in_tx_mutex in E by done.
      destruct (spec_in_tx q s) as [[? ?]|]; [|done]. by injection E as _ <-.
    + rewrite <- spec_in_tx_mutex by done. by apply run_queryWithType.
Qed.

Lemma run_Db_Query q s : quiet s -> runs_to (Db_Query ctx q) s (spec_query q s).
Proof.
  intros Hq. pose proof (run_query_ q s Hq) as H. unfold spec_query, Db_Query.
  destruct (spec_query_ q s) as [[[r|e] s1]|]; cbn [runs_to] in *;
    [| |destruct H as [s1 H]; exists s1]; unfold mbind, prog_mbind; by rewrite run_bind, H.
Qed.

(** ** Between two requests *)

Hypothesis uuid_nonempty : forall n, uuid n <> "".

(** Everything [quiet] needs except the coherence of [txMu]. *)
Definition steady (s s1 : DB) : Prop :=
  txOpMu s1 = txOpMu s /\ writeMu s1 = writeMu s /\ external s1 = external s
  /\ forall w, quiet_pool w s -> quiet_pool w s1.

(** What a request may do to the open transaction. *)
Inductive tx_change (q : Query) (s : DB) : result QueryResult -> DB -> Prop :=
| tx_kept r s1 :
    txID s1 = txID s -> txOwner s1 = txOwner s -> txMu s1 = txMu s -> tx_change q s r s1
| tx_opened s1 :
    txID s = "" -> qTxID q = "" -> classify_prefix (qQuery q) = Some QueryTypeBegin ->
    txID s1 = uuid (uuids s) -> txOwner s1 = qTxOwner q -> txMu s1 = true ->
    tx_change q s (Ok (MkQueryResult QueryTypeBegin (uuid (uuids s)) 0 0 [] [] [])) s1
| tx_ended t s1 :
    txID s <> "" -> qTxID q = txID s ->
    (qTxOwner q = "" \/ qTxOwner q = txOwner s) ->
    classify_prefix (qQuery q) = Some t -> t = QueryTypeCommit \/ t = QueryTypeRollback ->
    txID s1 = "" -> txOwner s1 = "" -> txMu s1 = false ->
    tx_change q s (Ok (MkQueryResult t "" 0 0 [] [] [])) s1.

Lemma spec_sql_split w msg role sql ps s r s1 :
  spec_sql w msg role sql ps s = Some (r, s1) ->
  steady s s1 /\ txID s1 = txID s /\ txOwner s1 = txOwner s /\ txMu s1 = txMu s
  /\ uuids s1 = uuids s.
Proof. intros E%spec_sql_frame. destruct E as [(w' & m & ->) H]. by split. Qed.

Lemma steady_trans s s1 s2 : steady s s1 -> steady s1 s2 -> steady s s2.
Proof. intros (?&?&?&?) (?&?&?&?). split_and!; [congruence..|auto]. Qed.

Lemma spec_execute_change q t s r s1 :
  (qTxID q <> "" -> txID s = qTxID q /\ (qTxOwner q = "" \/ qTxOwner q = txOwner s)) ->
  match classify_prefix (qQuery q) with
  | Some t' => t = t'
  | None => t = QueryTypeRead \/ t = QueryTypeWrite
  end ->
  spec_execute q t s = Some (r, s1) -> steady s s1 /\ tx_change q s r s1.
Proof.
  intros Htx Ht E.
  destruct t; cbn [spec_execute] in E.
  - injection E as <- <-. split; [by split_and!|by apply tx_kept].
  - unfold spec_read in E. destruct (qTxID q =s? "");
      (destruct (spec_sql _ _ _ _ _ _) as [[[[?|?]|?] s2]|] eqn:E2; [..|done];
       apply spec_sql_split in E2 as (?&?&?&?&?); injection E as <- <-;
       (split; [done|by apply tx_kept])).
  - destruct (_ && _); [done|]. unfold spec_write in E.
    destruct (spec_sql _ _ _ _ _ _) as [[[[?|?]|?] s2]|] eqn:E2; [..|done];
      apply spec_sql_split in E2 as (?&?&?&?&?); injection E as <- <-;
      (split; [done|by apply tx_kept]).
  - assert (Hp : classify_prefix (qQuery q) = Some QueryTypeBegin).
    { destruct (classify_prefix _); [by subst|by destruct Ht]. }
    destruct (qTxID q =s? "") eqn:Hid; cbn [negb] in E;
      [|injection E as <- <-; split; [by split_and!|by apply tx_kept]].
    unfold spec_begin in E. destruct (txID s =s? "") eqn:Et; [|done]. string_cases. cbn [negb] in E.
    destruct (spec_sql _ _ _ _ _ _) as [[[[?|?]|?] s2]|] eqn:E2; [..|done];
      apply spec_sql_split in E2 as (Hst&H1&H2&H3&H4); injection E as <- <-;
      (split; [done|]); [|by apply tx_kept..].
    cbn in H4. rewrite H4. by apply tx_opened.
  - destruct (qTxID q =s? "") eqn:Hid; [injection E as <- <-; split; [by split_and!|by apply tx_kept]|].
    string_cases. destruct (Htx Hid) as [Heq Ho].
    assert (Hp : classify_prefix (qQuery q) = Some QueryTypeCommit).
    { destruct (classify_prefix _); [by subst|by destruct Ht]. }
    unfold spec_end in E. destruct (spec_sql _ _ _ _ _ _) as [[[[?|?]|?] s2]|] eqn:E2; [..|done];
      apply spec_sql_split in E2 as (?&?&?&?&?); injection E as <- <-;
      (split; [done|]); [|by apply tx_kept..].
    apply tx_ended; auto. by rewrite Heq.
  - destruct (qTxID q =s? "") eqn:Hid; [injection E as <- <-; split; [by split_and!|by apply tx_kept]|].
    string_cases. destruct (Htx Hid) as [Heq Ho].
    assert (Hp : classify_prefix (qQuery q) = Some QueryTypeRollback).
    { destruct (classify_prefix _); [by subst|by destruct Ht]. }
    unfold spec_end in E. destruct (spec_sql _ _ _ _ _ _) as [[[[?|?]|?] s2]|] eqn:E2; [..|done];
      apply spec_sql_split in E2 as (?&?&?&?&?); injection E as <- <-;
      (split; [done|]); [|by apply tx_kept..].
    apply tx_ended; auto. by rewrite Heq.
Qed.

(** States that agree on the transaction. *)
Definition same_tx (s s1 : DB) : Prop :=
  txID s1 = txID s /\ txOwner s1 = txOwner s /\ txMu s1 = txMu s /\ uuids s1 = uuids s.

Lemma tx_change_same q s s' r s1 s1' :
  same_tx s s' -> txID s1' = txID s1 -> txOwner s1' = txOwner s1 -> txMu s1' = txMu s1 ->
  tx_change q s' r s1 -> tx_change q s r s1'.
Proof.
  intros (Hi&Ho&Hm&Hu) Hi1 Ho1 Hm1 Hch. revert Hi1 Ho1 Hm1.
  destruct Hch as [r0 s0 A B C|s0 A B C D E F|t s0 A B C D E F G H]; intros Hi1 Ho1 Hm1.
  - apply tx_kept; congruence.
  - rewrite Hu. apply tx_opened; congruence.
  - apply tx_ended; try congruence.
Qed.

Lemma frame_steady s s1 : frame s s1 -> steady s s1 /\ same_tx s s1.
Proof. intros [(w' & m & ->) H]. by split. Qed.

Lemma spec_check_tx_owner q s :
  spec_check_tx q s = Ok tt -> qTxOwner q = "" \/ qTxOwner q = txOwner s.
Proof.
  unfold spec_check_tx. destruct (txID s =s? ""); [done|].
  destruct (negb (qTxID q =s? txID s)); [done|].
  destruct (qTxOwner q =s? "") eqn:E1; string_cases; [auto|].
  destruct (qTxOwner q =s? txOwner s) eqn:E2; string_cases; [auto|done].
Qed.

Lemma spec_query_change_ q s r s1 :
  spec_query_ q s = Some (r, s1) -> steady s s1 /\ tx_change q s r s1.
Proof.
  unfold spec_query_. destruct (qTxID q =s? "") eqn:Hid; cbn [negb]; string_cases; intros E.
  - unfold spec_outside in E. destruct (spec_classify _ _ _) as [[t|e] s2] eqn:Es.
    + pose proof (frame_steady _ _ (spec_classify_frame _ _ _ _ _ Es)) as [Hst Hsm].
      apply spec_classify_type in Es. apply spec_execute_change in E as [Hst' Hch].
      * split; [by eapply steady_trans|]. by eapply tx_change_same.
      * done.
      * destruct (classify_prefix (qQuery q)); [by destruct Es|done].
    + pose proof (frame_steady _ _ (spec_classify_frame _ _ _ _ _ Es)) as [Hst (?&?&?&?)].
      destruct (negb _); [done|]. injection E as <- <-. split; [done|]. by apply tx_kept.
  - unfold spec_in_tx in E. destruct (spec_check_tx q s) as [[]|e] eqn:Ec.
    + pose proof (spec_check_tx_owner _ _ Ec) as Ho.
      apply spec_check_tx_ok in Ec as [Heq Hne].
      destruct (spec_classify _ _ _) as [[t|e] s2] eqn:Es.
      * pose proof (frame_steady _ _ (spec_classify_frame _ _ _ _ _ Es)) as [Hst Hsm].
        apply spec_classify_type in Es.
        destruct (spec_execute q t s2) as [[r0 s3]|] eqn:Ex; [|done]. injection E as <- <-.
        apply spec_execute_change in Ex as [Hst' Hch].
        -- split; [by eapply (steady_trans (touch_now s)), Hst'|].
           by apply (tx_change_same q s s2 _ s3).
        -- intros _. destruct Hsm as (H1 & H2 & _). cbn in H1, H2. rewrite H1, H2. by split.
        -- destruct (classify_prefix (qQuery q)); [by destruct Es|done].
      * pose proof (frame_steady _ _ (spec_classify_frame _ _ _ _ _ Es)) as [Hst (?&?&?&?)].
        injection E as <- <-. split; [done|]. by apply tx_kept.
    + injection E as <- <-. split; [by split_and!|]. by apply tx_kept.
Qed.

Lemma spec_query_change q s r s1 :
  quiet s -> spec_query q s = Some (r, s1) -> quiet s1 /\ tx_change q s r s1.
Proof.
  intros (Hm & Hop & Hw & Hd & Hqw & Hqr) E. unfold spec_query in E.
  destruct (spec_query_ q s) as [[r0 s2]|] eqn:E2; [|done].
  apply spec_query_change_ in E2 as [(S1 & S2 & S3 & S4) Hch].
  assert (H : quiet s2 /\ tx_change q s r0 s2).
  { split; [|done]. unfold ctx_done in Hd. split_and!; unfold ctx_done; rewrite ?S1, ?S2, ?S3; auto.
    clear E. destruct Hch as [r1 s3 A B C|s3 A B C D EE F|t s3 A B C D EE F G HH].
    - by rewrite A, C.
    - rewrite F, D, (proj2 (String.eqb_neq _ _) (uuid_nonempty _)). done.
    - by rewrite HH, F. }
  destruct H as [H1 H2]. destruct r0 as [r0|e]; injection E as <- <-; [done|].
  split; [done|]. by apply (tx_change_same q s s _ s2).
Qed.

(** ** The theorems *)

(** C7: the program of a request implements its specification.  Run alone from a quiet
    state, the locks, pools and deferred calls of [db.go] are transparent: the
    request answers exactly what [spec_query] says, leaves exactly the state it says,
    and waits exactly when it says; and the state is quiet again. *)
Theorem Db_Query_refines q s :
  quiet s ->
  match spec_query q s with
  | Some (r, s1) => run (handle fuel uuid) (Db_Query ctx q) s = Done r s1 /\ quiet s1
  | None => exists s1, run (handle fuel uuid) (Db_Query ctx q) s = Blocked s1
  end.
Proof using uuid_nonempty.
  intros Hq. pose proof (run_Db_Query q s Hq) as H.
  destruct (spec_query q s) as [[r s1]|] eqn:E; [|done]. split; [done|].
  by eapply spec_query_change.
Qed.

(** C8: the transaction protocol.  A request either keeps the open transaction as it
    is; or it is a begin outside transactions that was answered with a new
    identifier while none was open, and its owner owns it; or it is a commit or a
    rollback that named the open transaction and was sent by its owner (or by nobody
    in particular), and none is open any more.  In particular a request that fails
    changes nothing. *)
Theorem tx_protocol q s r s1 :
  quiet s -> run (handle fuel uuid) (Db_Query ctx q) s = Done r s1 -> tx_change q s r s1.
Proof using uuid_nonempty.
  intros Hq Hr. pose proof (run_Db_Query q s Hq) as H.
  destruct (spec_query q s) as [[r' s1']|] eqn:E; cbn [runs_to] in H.
  - rewrite Hr in H. injection H as -> ->. by eapply spec_query_change.
  - destruct H as [s2 H]. congruence.
Qed.

(** A request for a transaction is refused, without touching the database, when no
    transaction is open, when another one is, or when it is somebody else's. *)
Theorem tx_refused q s :
  quiet s -> qTxID q <> "" ->
  (txID s = "" \/ txID s <> qTxID q \/ (qTxOwner q <> "" /\ qTxOwner q <> txOwner s)) ->
  run (handle fuel uuid) (Db_Query ctx q) s
  = Done (Err (if txID s =s? "" then ErrTxNotFound else ErrTxNotMatch)) (stat StIncErrors s).
Proof.
  intros Hq Hid Hbad. pose proof (run_Db_Query q s Hq) as H. unfold spec_query, spec_query_, spec_in_tx in H.
  rewrite (proj2 (String.eqb_neq _ _) Hid) in H. cbn [negb] in H.
  assert (Hc : spec_check_tx q s = Err (if txID s =s? "" then ErrTxNotFound else ErrTxNotMatch)).
  { unfold spec_check_tx. destruct (txID s =s? "") eqn:E1; [done|]. string_cases.
    destruct (qTxID q =s? txID s) eqn:E2; [|done]. string_cases.
    destruct Hbad as [?|[?|[Ho Hn]]]; [done|congruence|].
    by rewrite (proj2 (String.eqb_neq _ _) Ho), (proj2 (String.eqb_neq _ _) Hn). }
  rewrite Hc in H. exact H.
Qed.

(** A request waits for nothing but the end of the open transaction.  When the
    engine answers, a request run alone returns, unless it is outside transactions,
    one is open, and it is neither a commit nor a rollback. *)
Theorem waits_only_for_tx q s s1 :
  quiet s -> (forall conn sql ps w, Conn_Query fuel conn sql ps w <> None) ->
  run (handle fuel uuid) (Db_Query ctx q) s = Blocked s1 ->
  qTxID q = "" /\ txID s <> ""
  /\ classify_prefix (qQuery q) <> Some QueryTypeCommit
  /\ classify_prefix (qQuery q) <> Some QueryTypeRollback.
Proof.
  intros Hq Heng Hb. pose proof (run_Db_Query q s Hq) as H.
  assert (HN : spec_query_ q s = None).
  { unfold spec_query in H. destruct (spec_query_ q s) as [[[r|e] s2]|]; [..|done];
      cbn [runs_to] in H; congruence. }
  assert (Hsql : forall w msg role sql ps s0, spec_sql w msg role sql ps s0 <> None).
  { intros. unfold spec_sql. destruct (SetAuthorizerRole _ _) as [a|]; [|done].
    pose proof (Heng a sql ps (world s0)). by destruct (Conn_Query _ _ _ _ _) as [[? ?]|]. }
  assert (Hend : forall t s0 id, qTxID q = id -> spec_execute q t s0 = None ->
    id = "" /\ txID s0 <> "" /\ (t = QueryTypeBegin \/ t = QueryTypeWrite)).
  { intros t s0 id Hid. unfold spec_execute, spec_read, spec_write, spec_begin, spec_end. rewrite Hid.
    destruct (id =s? "") eqn:Ei, (txID s0 =s? "") eqn:Et, t; cbn [negb andb]; string_cases; try done;
      try match goal with |- context [spec_sql ?a ?b ?c ?d ?e ?f] =>
        specialize (Hsql a b c d e f); by destruct (spec_sql a b c d e f) as [[[[?|?]|?] ?]|] end; auto. }
  unfold spec_query_ in HN. destruct (qTxID q =s? "") eqn:Hid; cbn [negb] in HN; string_cases.
  - unfold spec_outside in HN. destruct (spec_classify _ _ _) as [[t|e] s2] eqn:Es.
    + pose proof (frame_steady _ _ (spec_classify_frame _ _ _ _ _ Es)) as [_ (Hi & _)].
      destruct (Hend _ _ _ Hid HN) as (_ & Hne & Ht). rewrite Hi in Hne.
      apply spec_classify_type in Es. destruct (classify_prefix _) as [t'|]; [|by split_and!].
      destruct Es as [-> _]. split_and!; [done|done|..]; by intros [= ->]; destruct Ht.
    + destruct (txID s =s? "") eqn:Et; [done|]. string_cases. split_and!; [done|done|..];
        unfold spec_classify in Es; by destruct (classify_prefix _).
  - unfold spec_in_tx in HN. destruct (spec_check_tx q s); [|done].
    destruct (spec_classify _ _ _) as [[t|e] s2]; [|done].
    destruct (spec_execute q t s2) as [[? ?]|] eqn:Ex; [done|].
    by destruct (Hend _ _ _ eq_refl Ex).
Qed.
End Spec.

(** The background context is never cancelled. *)
Lemma quiet_background `{LIB : SqliteLib} s : quiet RequestContext s -> quiet Background s.
Proof. intros (? & ? & ? & _ & ? & ?). by split_and!. Qed.

(** ** Witnesses on the concrete engine *)

Definition toy_state : option DB :=
  match toy_db with Some (Ok db, _) => Some db | _ => None end.
Definition toy_run (q : Query) (s : DB (LIB := toy_lib)) : outcome DB (result QueryResult) :=
  run (handle 20 toy_uuid) (Db_Query RequestContext q) s.
(** After a request. *)
Definition toy_after (q : Query) (s : option DB) : option DB :=
  match s with
  | Some s => match toy_run q s with Done _ s1 => Some s1 | Blocked _ => None end
  | None => None
  end.

(** [quiet], checked. *)
Definition quiet_poolb (w : which_pool) (s : DB (LIB := toy_lib)) : bool :=
  let p := the_pool w s in
  (plInUse p =? 0)%nat && negb (plClosed p)
  && match plFree p with
     | [] => false
     | c :: rest =>
         (Z.of_nat (length rest) <? plMaxIdle p)
         && match conns s !! c with
            | Some (MkConn (Some _) (Some _)) => true
            | _ => false
            end
     end.
Definition quietb (s : DB (LIB := toy_lib)) : bool :=
  Bool.eqb (txMu s) (negb (txID s =s? "")) && negb (txOpMu s) && negb (writeMu s)
  && negb (extCtxDone (external s)) && quiet_poolb RW s && quiet_poolb RO s.

Lemma quiet_poolb_spec w s : quiet_poolb w s = true -> quiet_pool w s.
Proof.
  unfold quiet_poolb, quiet_pool. rewrite !andb_true_iff. intros [[H1 H2] H3].
  apply Nat.eqb_eq in H1. apply negb_true_iff in H2. split; [done|]. split; [done|].
  destruct (plFree (the_pool w s)) as [|c rest]; [done|].
  apply andb_true_iff in H3 as [H3 H4]. apply Z.ltb_lt in H3. split; [done|].
  destruct (conns s !! c) as [[[db|] [r|]]|]; try done. by exists db, r.
Qed.

Lemma quietb_spec s : quietb s = true -> quiet RequestContext s.
Proof.
  unfold quietb. rewrite !andb_true_iff, !negb_true_iff. intros [[[[[H1 H2] H3] H4] H5] H6].
  split_and!; [by apply Bool.eqb_prop|done|done|done|by apply quiet_poolb_spec..].
Qed.

(** A quiet state reached by requests, and what is computed on it. *)
Lemma toy_quiet {A} (f : DB -> A) l x :
  (fun s => (quietb s, f s)) <$> foldr toy_after toy_state l = Some (true, x) ->
  exists s, quiet RequestContext s /\ f s = x.
Proof.
  destruct (foldr toy_after toy_state l) as [s|]; [|done]. cbn.
  intros H%(inj Some). apply pair_equal_spec in H as [H1 H2].
  exists s. split; [by apply quietb_spec | done].
Qed.

Definition is_done {S A} (o : outcome S A) : bool :=
  match o with Done _ _ => true | Blocked _ => false end.

Lemma toy_start_begin :
  (fun s => (quietb s, is_done (toy_run q_begin s))) <$> foldr toy_after toy_state []
  = Some (true, true).
Proof. vm_compute. reflexivity. Qed.

Lemma toy_open_select :
  (fun s => (quietb s, (txID s, is_done (toy_run q_begin s))))
    <$> foldr toy_after toy_state [q_insert "t"; q_begin] = Some (true, ("t", false)).
Proof. vm_compute. reflexivity. Qed.

Lemma Db_Query_refines_witness : exists s : DB (LIB := toy_lib), quiet RequestContext s /\
  match spec_query toy_uuid 20 q_begin s with
  | Some (r, s1) => run (handle 20 toy_uuid) (Db_Query RequestContext q_begin) s = Done r s1 /\ quiet RequestContext s1
  | None => exists s1, run (handle 20 toy_uuid) (Db_Query RequestContext q_begin) s = Blocked s1
  end.
Proof.
  destruct (toy_quiet _ _ _ toy_start_begin) as (s & Hq & _). exists s. split; [exact Hq|].
  exact (Db_Query_refines toy_uuid 20 RequestContext toy_uuid_nonempty q_begin s Hq).
Defined.

Lemma tx_protocol_witness : exists (s : DB (LIB := toy_lib)) r s1,
  toy_run q_begin s = Done r s1 /\ tx_change toy_uuid q_begin s r s1.
Proof.
  destruct (toy_quiet _ _ _ toy_start_begin) as (s & Hq & Hd).
  destruct (toy_run q_begin s) as [r s1|s1] eqn:E; [|discriminate Hd].
  exists s, r, s1. split; [exact E|].
  exact (tx_protocol toy_uuid 20 RequestContext toy_uuid_nonempty q_begin s r s1 Hq E).
Defined.

Lemma tx_refused_witness : exists s : DB (LIB := toy_lib),
  toy_run (q_commit "other") s = Done (Err ErrTxNotMatch) (stat StIncErrors s).
Proof.
  destruct (toy_quiet _ _ _ toy_open_select) as (s & Hq & Hd).
  apply pair_equal_spec in Hd as [Hid _]. exists s.
  assert (Hne : qTxID (q_commit "other") <> "") by discriminate.
  assert (Hbad : txID s <> qTxID (q_commit "other")) by (rewrite Hid; discriminate).
  pose proof (tx_refused toy_uuid 20 RequestContext (q_commit "other") s Hq Hne (or_intror (or_introl Hbad))) as H.
  rewrite Hid in H. exact H.
Defined.

Lemma waits_only_for_tx_witness : exists s s1 : DB (LIB := toy_lib),
  toy_run q_begin s = Blocked s1 /\ txID s <> "".
Proof.
  destruct (toy_quiet _ _ _ toy_open_select) as (s & Hq & Hd).
  apply pair_equal_spec in Hd as [_ Hd].
  destruct (toy_run q_begin s) as [r s1|s1] eqn:E; [discriminate Hd|].
  exists s, s1. split; [exact E|].
  exact (proj1 (proj2 (waits_only_for_tx toy_uuid 20 RequestContext q_begin s s1 Hq toy_terminates E))).
Defined.
