(* ===== verification/DbMonitor.v ===== *)
(** * The idle monitor and the shutdown of the database component

    [spec_monitor] and [spec_close] say what a tick of the idle monitor and a [Close] do
    to a quiet state, without mutexes and pools; the programs of [db.go] implement them.
    From the two: what is rolled back and what is left alone, and that a closed
    component refuses every request without touching the database. *)
From S2P Require Import Prelude GoStrings GoTime Stats Authorizer Sqlite Driver Goroutines DbState Db ToyEngine DbConc DbSafety DbTraces DbSpec.

Section Monitor.
  Context `{LIB : SqliteLib}.
  Context (uuid : nat -> string) (fuel : nat).

Abbreviation runs := (run (handle fuel uuid)).

(** ** Specifications *)

(** The rollback of the open transaction, whoever asks for it. *)
Definition spec_rollback (role : Z) (s : DB) : option (result QueryResult * DB) :=
  spec_end fuel "failed to rollback transaction" "ROLLBACK" StIncRollbacks QueryTypeRollback role s.

(** A tick: the open transaction is rolled back when its last use is older than the
    timeout. *)
Definition idle (timeout : Z) (s : DB) : bool :=
  negb (txID s =s? "") && (timeout <? extNow (external s) - txLastUsed s).
Definition spec_monitor (timeout : Z) (s : DB) : option DB :=
  if idle timeout s then snd <$> spec_rollback AuthorizerRoleAdmin s else Some s.

(** What [Close] returns once the pools are closed. *)
Definition spec_close_pools (s : DB) : result unit * DB :=
  match pool_Close RW s with
  | (Err e, s1) => (Err (ErrWrap "failed to close write connection" e), s1)
  | (Ok _, s1) =>
      match pool_Close RO s1 with
      | (Err e, s2) => (Err (ErrWrap "failed to close read connections" e), s2)
      | (Ok _, s2) => (Ok tt, s2)
      end
  end.
Definition spec_close (s : DB) : option (result unit * DB) :=
  let s1 := set_stop true (closeWg s) s in
  spec_close_pools
    <$> (if negb (txID s =s? "") then snd <$> spec_rollback AuthorizerRoleAdmin s1 else Some s1).

(** ** The programs *)

Lemma run_rollback role s :
  ready Background RW s -> txMu s = true -> txID s <> "" ->
  runs_to uuid fuel (executeRollbackQuery Background (txID s) role) s (spec_rollback role s).
Proof.
  intros Hr Hm Hid. unfold executeRollbackQuery. rewrite (proj2 (String.eqb_neq _ _) Hid).
  by apply run_end.
Qed.

(** The rollback under [txOpMu], as the monitor and [Close] do it. *)
Lemma spec_rollback_mutex role v s :
  spec_rollback role (set_mutex TxOpMu v s) = on_state (set_mutex TxOpMu v) (spec_rollback role s).
Proof.
  unfold spec_rollback, spec_end. rewrite spec_sql_mutex.
  by destruct (spec_sql _ _ _ _ _ _ _) as [[[[r|e]|e] s1]|].
Qed.

Lemma spec_rollback_frame role s r s1 :
  spec_rollback role s = Some (r, s1) ->
  steady s s1 /\ (is_err r = true -> same_tx s s1)
  /\ (is_err r = false -> txID s1 = "" /\ txOwner s1 = "" /\ txMu s1 = false).
Proof.
  unfold spec_rollback, spec_end. destruct (spec_sql _ _ _ _ _ _ _) as [[[[x|e]|e] s2]|] eqn:E; [..|done];
    apply spec_sql_split in E as (Hst & Hid & Ho & Hm & Hu); intros [= <- <-]; (split; [done|]); by split.
Qed.

Lemma quiet_ready s : quiet Background s -> ready Background RW s /\ txOpMu s = false.
Proof. intros (_ & Hop & Hw & Hd & Hq & _). by split. Qed.

Lemma run_rollback_locked role s :
  quiet Background s -> txID s <> "" ->
  runs_to uuid fuel (executeRollbackQuery Background (txID s) role) (set_mutex TxOpMu true s)
    (on_state (set_mutex TxOpMu true) (spec_rollback role s)).
Proof.
  intros Hq Hid. rewrite <- spec_rollback_mutex.
  change (txID s) with (txID (set_mutex TxOpMu true s)) at 1. apply run_rollback; [|..|done].
  - destruct (quiet_ready s Hq) as [Hr _]. exact Hr.
  - destruct Hq as (Hm & _). cbn. rewrite Hm. by rewrite (proj2 (String.eqb_neq _ _) Hid).
Qed.

Lemma unlock_op s : txOpMu s = false -> set_mutex TxOpMu false (set_mutex TxOpMu true s) = s.
Proof. intros H. destruct s. cbn in *. by rewrite H. Qed.

Lemma run_monitor_tick timeout s :
  quiet Background s ->
  match spec_monitor timeout s with
  | Some s1 => runs (monitor_tick timeout) s = Done tt s1
  | None => exists s1, runs (monitor_tick timeout) s = Blocked s1
  end.
Proof.
  intros Hq. destruct (quiet_ready s Hq) as [Hr Hop]. unfold spec_monitor, idle, monitor_tick.
  unfold mbind, prog_mbind. rewrite run_act_bind. cbn [handle locked]. rewrite Hop.
  rewrite run_act_bind. cbn [handle]. change (txID (set_mutex TxOpMu true s)) with (txID s).
  destruct (String.eqb_spec (txID s) "") as [Hid|Hid]; cbn [negb andb].
  { cbn. by rewrite unlock_op. }
  rewrite !run_act_bind. cbn [handle]. rewrite run_act_bind. cbn [handle].
  change (extNow (external (set_mutex TxOpMu true s)) - txLastUsed (set_mutex TxOpMu true s))
    with (extNow (external s) - txLastUsed s).
  destruct (timeout <? _); [|cbn; by rewrite unlock_op].
  pose proof (run_rollback_locked AuthorizerRoleAdmin s Hq Hid) as H.
  destruct (spec_rollback AuthorizerRoleAdmin s) as [[r s1]|] eqn:E; cbn [on_state runs_to] in H.
  - rewrite run_bind, H. cbn. apply spec_rollback_frame in E as [(S1 & _) _].
    rewrite unlock_op; [done|]. by rewrite S1.
  - destruct H as [s1 H]. exists s1. by rewrite run_bind, H.
Qed.

Lemma run_PoolClose w s : runs (act (PoolClose w)) s = let '(r, s1) := pool_Close w s in Done r s1.
Proof. cbn [act run handle]. by destruct (pool_Close w s). Qed.

Lemma run_close_pools s :
  runs (try_bind (ErrWrap "failed to close write connection") (act (PoolClose RW)) (fun _ =>
        try_bind (ErrWrap "failed to close read connections") (act (PoolClose RO)) (fun _ =>
        mret (Ok tt)))) s
  = let '(r, s1) := spec_close_pools s in Done r s1.
Proof.
  unfold spec_close_pools, try_bind. rewrite run_bind, run_PoolClose.
  destruct (pool_Close RW s) as [[x|e] s1]; [|done]. rewrite run_bind, run_PoolClose.
  by destruct (pool_Close RO s1) as [[y|e] s2].
Qed.

Lemma run_Db_Close s :
  quiet Background s -> idleStopClosed s = false -> closeWg s = 0 ->
  runs_to uuid fuel Db_Close s (spec_close s).
Proof.
  intros Hq Hstop Hwg. destruct (quiet_ready s Hq) as [Hr Hop].
  unfold spec_close, Db_Close, mbind, prog_mbind. set (s1 := set_stop true (closeWg s) s).
  assert (Hq1 : quiet Background s1) by exact Hq.
  assert (Hrun : forall k : unit -> db_prog (result unit), runs (prog_bind k (act CloseStop)) s = runs (k tt) s1).
  { intros k. rewrite run_act_bind. cbn [handle]. by rewrite Hstop. }
  assert (Hwait : forall k : unit -> db_prog (result unit), runs (prog_bind k (act WgWait)) s1 = runs (k tt) s1).
  { intros k. rewrite run_act_bind. cbn [handle]. change (closeWg s1) with (closeWg s). by rewrite Hwg. }
  unfold runs_to. rewrite Hrun, Hwait, run_act_bind. cbn [handle locked]. change (txOpMu s1) with (txOpMu s).
  rewrite Hop, run_act_bind. cbn [handle]. change (txID (set_mutex TxOpMu true s1)) with (txID s).
  assert (Hend : forall s2, txOpMu s2 = false ->
    runs (prog_bind (fun _ => try_bind (ErrWrap "failed to close write connection") (act (PoolClose RW)) (fun _ =>
        try_bind (ErrWrap "failed to close read connections") (act (PoolClose RO)) (fun _ =>
        mret (Ok tt)))) (act (Unlock TxOpMu))) (set_mutex TxOpMu true s2)
    = let '(r, s3) := spec_close_pools s2 in Done r s3).
  { intros s2 H2. rewrite run_act_bind. cbn [handle locked].
    change (txOpMu (set_mutex TxOpMu true s2)) with true. cbn match. rewrite unlock_op by done.
    apply run_close_pools. }
  destruct (String.eqb_spec (txID s) "") as [Hid|Hid]; cbn [negb].
  { rewrite run_bind. unfold mret, prog_ret; cbn [run]. rewrite Hend by done. cbn [fmap option_fmap option_map].
    by destruct (spec_close_pools s1). }
  pose proof (run_rollback_locked AuthorizerRoleAdmin s1 Hq1 Hid) as H.
  change (txID s1) with (txID s) in H. rewrite run_bind, run_bind.
  destruct (spec_rollback AuthorizerRoleAdmin s1) as [[r s2]|] eqn:E; cbn [on_state runs_to] in H.
  - rewrite H. unfold mret, prog_ret; cbn [run]. apply spec_rollback_frame in E as [(S1 & _) _].
    rewrite Hend by (by rewrite S1). cbn. by destruct (spec_close_pools s2).
  - destruct H as [s2 H]. exists s2. by rewrite H.
Qed.

(** ** Closing the pools *)

Lemma close_conn_pools c s r s1 :
  close_conn c s = (r, s1) ->
  readWritePool s1 = readWritePool s /\ readOnlyPool s1 = readOnlyPool s
  /\ txID s1 = txID s /\ txOwner s1 = txOwner s /\ txMu s1 = txMu s /\ txOpMu s1 = txOpMu s
  /\ writeMu s1 = writeMu s /\ idleStopClosed s1 = idleStopClosed s.
Proof.
  unfold close_conn. destruct (conns s !! c) as [conn|]; [|by intros [= <- <-]].
  destruct (drv_Close conn (world s)) as [[r' conn'] w']. intros [= <- <-]. by destruct s.
Qed.

Lemma close_all_pools cs s r s1 :
  close_all cs s = (r, s1) ->
  readWritePool s1 = readWritePool s /\ readOnlyPool s1 = readOnlyPool s
  /\ txID s1 = txID s /\ txOwner s1 = txOwner s /\ txMu s1 = txMu s /\ txOpMu s1 = txOpMu s
  /\ writeMu s1 = writeMu s /\ idleStopClosed s1 = idleStopClosed s.
Proof.
  revert s r s1. induction cs as [|c cs IH]; intros s r s1; cbn [close_all]; [by intros [= <- <-]|].
  destruct (close_conn c s) as [r0 s0] eqn:E0. destruct (close_all cs s0) as [r2 s2] eqn:E2.
  intros [= <- <-]. apply close_conn_pools in E0. apply IH in E2.
  destruct E0 as (?&?&?&?&?&?&?&?), E2 as (?&?&?&?&?&?&?&?). split_and!; congruence.
Qed.

(** A pool that is closed and keeps nothing. *)
Definition pool_shut (p : Pool) : Prop := plClosed p = true /\ plFree p = [].

Lemma pool_Close_shut w s r s1 :
  pool_Close w s = (r, s1) ->
  pool_shut (the_pool w s1)
  /\ (forall w', w' <> w -> the_pool w' s1 = the_pool w' s)
  /\ txID s1 = txID s /\ txOwner s1 = txOwner s /\ txMu s1 = txMu s /\ txOpMu s1 = txOpMu s
  /\ writeMu s1 = writeMu s /\ idleStopClosed s1 = idleStopClosed s.
Proof.
  unfold pool_Close. intros (Hrw & Hro & ? & ? & ? & ? & ? & ?)%close_all_pools.
  destruct s, w; cbn in *; split_and!; try done.
  - unfold pool_shut, the_pool. by rewrite Hrw.
  - intros [] Hne; [done|]. exact Hro.
  - unfold pool_shut, the_pool. by rewrite Hro.
  - intros [] Hne; [|done]. exact Hrw.
Qed.

(** The component after a [Close] that left no transaction. *)
Definition closed (s : DB) : Prop :=
  txID s = "" /\ txMu s = false /\ txOpMu s = false /\ writeMu s = false
  /\ pool_shut (readWritePool s) /\ pool_shut (readOnlyPool s).

Lemma spec_close_pools_closed s s1 :
  txID s = "" -> txMu s = false -> txOpMu s = false -> writeMu s = false ->
  spec_close_pools s = (Ok tt, s1) -> closed s1.
Proof.
  intros Hid Hm Hop Hw. unfold spec_close_pools.
  destruct (pool_Close RW s) as [[x|e] s2] eqn:E1; [|done].
  destruct (pool_Close RO s2) as [[y|e] s3] eqn:E2; [|done]. intros [= <-].
  apply pool_Close_shut in E1 as (Hs1 & _ & ? & ? & ? & ? & ? & _).
  apply pool_Close_shut in E2 as (Hs2 & Hother & ? & ? & ? & ? & ? & _).
  specialize (Hother RW ltac:(done)). cbn in Hother. unfold closed. cbn in Hs1, Hs2.
  split_and!; congruence.
Qed.

(** ** A closed component *)

(** What no request changes once the component is closed. *)
Definition untouched (s s1 : DB) : Prop :=
  world s1 = world s /\ conns s1 = conns s /\ closed s1.

Lemma closed_Db_Query RequestContext q s :
  closed s -> exists e s1, runs (Db_Query RequestContext q) s = Done (Err e) s1 /\ untouched s s1.
Proof.
  intros (Hid & Hm & Hop & Hw & [Hrw Frw] & [Hro Fro]).
  destruct s as [id ow lu tm om wm [cn mo mi fr iu cl] [cn' mo' mi' fr' iu' cl'] cs nx uu st wo sc wg ext].
  cbn in *. subst. unfold Db_Query, query_.
  destruct (qTxID q =s? "") eqn:Hq; cbn [negb].
  - unfold ClassifyQuery. rewrite Hq. cbn [negb].
    destruct (classify_prefix (qQuery q)) as [[]|] eqn:Ec.
    + exfalso. unfold classify_prefix in Ec. by repeat case_match.
    + exfalso. unfold classify_prefix in Ec. by repeat case_match.
    + exfalso. unfold classify_prefix in Ec. by repeat case_match.
    + cbn -[stat_apply]. unfold executeBeginQuery. rewrite Hq. cbn -[stat_apply]. by eexists _, _.
    + cbn -[stat_apply]. unfold executeCommitQuery. rewrite Hq. cbn -[stat_apply]. by eexists _, _.
    + cbn -[stat_apply]. unfold executeRollbackQuery. rewrite Hq. cbn -[stat_apply]. by eexists _, _.
    + cbn -[stat_apply]. by eexists _, _.
  - cbn -[stat_apply]. unfold queryWithType, validateTxID. rewrite Hq. cbn -[stat_apply]. by eexists _, _.
Qed.

Lemma rollback_quiet role s r s1 :
  quiet Background s -> spec_rollback role s = Some (r, s1) -> quiet Background s1.
Proof.
  intros (Hm & Hop & Hw & Hd & Hqw & Hqr) E.
  apply spec_rollback_frame in E as ((S1 & S2 & S3 & S4) & Herr & Hok).
  split_and!; rewrite ?S1, ?S2, ?S3; auto.
  destruct (is_err r).
  - destruct (Herr eq_refl) as (-> & _ & -> & _). done.
  - destruct (Hok eq_refl) as (-> & _ & ->). done.
Qed.

(** ** The theorems *)

(** C16: the idle monitor.  A tick on a quiet database leaves it exactly as it is when no
    transaction is open, or when the open one was used within the timeout.  Otherwise it
    asks the engine for a ROLLBACK as the administrator: if the engine accepts, the
    transaction and its owner are forgotten, the rollback is counted and writers may
    proceed; if it does not, the transaction stays as it was, for the next tick.  Either
    way the tick returns, its locks released, unless the engine does not. *)
Theorem monitor_tick_refines timeout s :
  quiet Background s ->
  match spec_monitor timeout s with
  | Some s1 =>
      run (handle fuel uuid) (monitor_tick timeout) s = Done tt s1 /\ quiet Background s1
      /\ (idle timeout s = false -> s1 = s)
      /\ (idle timeout s = true -> exists r,
            spec_rollback AuthorizerRoleAdmin s = Some (r, s1)
            /\ if is_err r then same_tx s s1 else txID s1 = "" /\ txOwner s1 = "" /\ txMu s1 = false)
  | None => idle timeout s = true /\ exists s1, run (handle fuel uuid) (monitor_tick timeout) s = Blocked s1
  end.
Proof.
  intros Hq. pose proof (run_monitor_tick timeout s Hq) as H. unfold spec_monitor in *.
  destruct (idle timeout s); [|by split_and!].
  destruct (spec_rollback AuthorizerRoleAdmin s) as [[r s1]|] eqn:E; cbn [fmap option_fmap option_map snd] in *; [|done].
  split; [done|]. split; [by eapply rollback_quiet|]. split; [done|]. intros _. exists r. split; [done|].
  apply spec_rollback_frame in E as (_ & Herr & Hok). destruct (is_err r); auto.
Qed.

(** The states that requests lead to, one after the other. *)
Inductive served (s : DB) : DB -> Prop :=
| served_none : served s s
| served_one q r s1 s2 : served s s1 -> runs (Db_Query RequestContext q) s1 = Done r s2 -> served s s2.

Lemma served_untouched s s1 : closed s -> served s s1 -> untouched s s1.
Proof.
  intros Hc. induction 1 as [|q r s1 s2 _ (Hw & Hcs & Hc1) Hrun]; [done|].
  destruct (closed_Db_Query RequestContext q s1 Hc1) as (e & s3 & Hrun' & Hw' & Hcs' & Hc').
  rewrite Hrun in Hrun'. injection Hrun' as _ <-. split_and!; [congruence..|done].
Qed.

Lemma spec_close_closed s s1 :
  quiet Background s -> spec_close s = Some (Ok tt, s1) -> txID s1 = "" -> closed s1.
Proof.
  intros Hq E Hid. pose proof Hq as (Hm & Hop & Hw & _). unfold spec_close in E.
  set (s0 := set_stop true (closeWg s) s) in *. assert (Hq0 : quiet Background s0) by exact Hq.
  destruct (String.eqb_spec (txID s) "") as [Hs|Hs]; cbn [negb] in *.
  - injection E as E. eapply spec_close_pools_closed; [..|exact E]; done.
  - destruct (spec_rollback AuthorizerRoleAdmin s0) as [[r s2]|] eqn:Er; [|done]. injection E as E.
    pose proof (rollback_quiet _ _ _ _ Hq0 Er) as (_ & Hop2 & Hw2 & _).
    apply spec_rollback_frame in Er as (_ & Herr & Hok). destruct (is_err r).
    + exfalso. destruct (Herr eq_refl) as (Hid2 & _). apply Hs.
      change (txID s) with (txID s0). rewrite <- Hid2, <- Hid. unfold spec_close_pools in E.
      destruct (pool_Close RW s2) as [[x|e] s3] eqn:E1; [|done].
      destruct (pool_Close RO s3) as [[y|e] s4] eqn:E2; [|done]. injection E as <-.
      apply pool_Close_shut in E1 as (_ & _ & H1 & _). apply pool_Close_shut in E2 as (_ & _ & H2 & _).
      congruence.
    + destruct (Hok eq_refl) as (H1 & _ & H2). eapply spec_close_pools_closed; [..|exact E]; done.
Qed.

End Monitor.

(** ** Witnesses on the concrete engine *)

(** The clock moves on. *)
Definition later_now (d : Z) (s : DB (LIB := toy_lib)) : DB :=
  set_external (MkExternal (extNow (external s) + d) false true false) s.
(** The monitor has left. *)
Definition monitor_gone (s : DB (LIB := toy_lib)) : DB := set_stop false 0 s.

Definition no_tx (o : option (DB (LIB := toy_lib))) : bool :=
  match o with Some s => txID s =s? "" | None => false end.
Lemma toy_idle :
  (fun s => (quietb (later_now 100 s), (idle 10 (later_now 100 s), no_tx (spec_monitor 20 10 (later_now 100 s)))))
    <$> foldr toy_after toy_state [q_begin] = Some (true, (true, true)).
Proof. vm_compute. reflexivity. Qed.

(** Where a computation on a state that requests lead to ends. *)
Lemma toy_reached {A} (f : DB -> A) l x :
  f <$> foldr toy_after toy_state l = Some x -> exists s, f s = x.
Proof. destruct (foldr toy_after toy_state l) as [s|]; [|done]. intros [= <-]. by exists s. Qed.

Lemma monitor_tick_refines_witness : exists s s1 : DB (LIB := toy_lib),
  run (handle 20 toy_uuid) (monitor_tick 10) s = Done tt s1 /\ idle 10 s = true /\ txID s1 = "".
Proof.
  destruct (toy_reached _ _ _ toy_idle) as (s0 & Hs). set (s := later_now 100 s0) in *.
  apply pair_equal_spec in Hs as [Hq Hs]. apply pair_equal_spec in Hs as [Hi Hn].
  pose proof (monitor_tick_refines toy_uuid 20 10 s (quiet_background s (quietb_spec s Hq))) as H.
  destruct (spec_monitor 20 10 s) as [s1|]; [|discriminate Hn]. destruct H as (Hrun & _).
  exists s, s1. split; [exact Hrun|]. split; [exact Hi|]. by apply String.eqb_eq.
Defined.

Definition closes (o : option (result unit * DB (LIB := toy_lib))) : bool :=
  match o with Some (Ok _, s) => txID s =s? "" | _ => false end.
Lemma toy_closing :
  (fun s => (quietb (monitor_gone s), closes (spec_close 20 (monitor_gone s))))
    <$> foldr toy_after toy_state [q_begin] = Some (true, true).
Proof. vm_compute. reflexivity. Qed.

