(* ===== verification/VdlTypes.v ===== *)
(** * The types of the RPC interface: [internal/vdl/types.go], [enums.go]

    The structures the handlers exchange with the RPC layer.  A pointer field is an
    option.  A [float64] holding a duration in seconds is kept as its nanoseconds. *)
From S2P Require Import Prelude GoStrings Sqlite.

(** [Val(pointer)] and [Or(pointer, default)] *)
Definition Val {A} (zero : A) (p : option A) : A := default zero p.

Record SqliteValue : Type := MkSqliteValue {
  svNull : option bool;
  svInteger : option Z;
  svReal : option spec_float;
  svText : option string;
  svBlob : option string }.
Definition emptyValue : SqliteValue := MkSqliteValue None None None None None.

Record VQueryParam : Type := MkVQueryParam { vpName : option string; vpValue : SqliteValue }.

Record VQuery : Type := MkVQuery {
  vqTxId : option string;
  vqQuery : string;
  vqParams : option (list VQueryParam) }.

Inductive QueryResultType : Type :=
| QueryResultTypeRead | QueryResultTypeWrite | QueryResultTypeBegin
| QueryResultTypeCommit | QueryResultTypeRollback | QueryResultTypeError.

Inductive SqliteStorageClass : Type :=
| SqliteStorageClassNull | SqliteStorageClassInteger | SqliteStorageClassReal
| SqliteStorageClassText | SqliteStorageClassBlob.
Definition StorageClass_String (c : SqliteStorageClass) : string :=
  match c with
  | SqliteStorageClassNull => "NULL"
  | SqliteStorageClassInteger => "INTEGER"
  | SqliteStorageClassReal => "REAL"
  | SqliteStorageClassText => "TEXT"
  | SqliteStorageClassBlob => "BLOB"
  end.

Record VQueryResult : Type := MkVQueryResult {
  vrType : QueryResultType;
  vrTime : Z;
  vrError : option string;
  vrTxId : option string;
  vrLastInsertId : option Z;
  vrRowsAffected : option Z;
  vrColumns : option (list string);
  vrTypes : option (list SqliteStorageClass);
  vrRows : option (list (list SqliteValue)) }.

Record DatabaseQueryOutput : Type := MkDatabaseQueryOutput {
  doTime : Z;
  doResults : list VQueryResult }.

Inductive VAuthRole : Type := AuthRoleAdmin | AuthRoleReadWrite | AuthRoleReadOnly.

Record StatsTotalsCounters : Type := MkStatsTotalsCounters {
  vtReads : Z; vtWrites : Z; vtBegins : Z; vtCommits : Z; vtRollbacks : Z; vtErrors : Z;
  vtHttpRequests : Z }.
Record StatsQueuedCounters : Type := MkStatsQueuedCounters {
  vkBegins : Z; vkWrites : Z; vkHttpRequests : Z }.
Record VStats : Type := MkVStats {
  vsStartedAt : Z;
  vsUptimeSeconds : Z;
  vsTotals : StatsTotalsCounters;
  vsQueued : StatsQueuedCounters;
  vsMinutes : gmap string StatsTotalsCounters }.
Record SystemStatusOutput : Type := MkSystemStatusOutput {
  ssName : string; ssVersion : string; ssStats : VStats }.
Record SystemHealthOutput : Type := MkSystemHealthOutput {
  shHealthy : bool; shDatabase : bool; shMessage : string }.

(** The inline objects that only clients build and decode. *)
Definition DatabaseQueryInput : Type := list VQuery.
Record VDatabaseQuery : Type := MkVDatabaseQuery {
  dqInput : DatabaseQueryInput; dqOutput : DatabaseQueryOutput }.
Record VDatabase : Type := MkVDatabase { vdQuery : VDatabaseQuery }.
Record SystemSessionOutput : Type := MkSystemSessionOutput { soRole : VAuthRole }.
Record VSystemHealth : Type := MkVSystemHealth { vhOutput : SystemHealthOutput }.
Record VSystemSession : Type := MkVSystemSession { veOutput : SystemSessionOutput }.
Record VSystemStatus : Type := MkVSystemStatus { vaOutput : SystemStatusOutput }.
Record VSystem : Type := MkVSystem {
  vyHealth : VSystemHealth; vySession : VSystemSession; vyStatus : VSystemStatus }.
