(* ===== verification/VdlDecode.v ===== *)
(** * Strict decoding: [internal/vdl/types.go]

    Every object type of the interface has a twin whose fields are pointers, the [pre]
    type that the JSON library fills in.  [UnmarshalJSON] decodes into the twin,
    [validate]s that no required field is missing, and [transform]s the twin into the
    value, dereferencing the required fields.  The JSON library is outside: the argument
    of an [UnmarshalJSON] is what it decodes from the text.  A map is ranged over in an
    order of its own ([MapRange]).

    For each type the file defines the three methods, the list of its missing fields (the
    reference that [validate] is compared with) and the twin of a value ([mirror]); the
    class [Strict] collects them, [StrictLaws] states what makes the decoding strict, and
    each type's laws follow from those of its fields. *)
From S2P Require Import Prelude GoStrings VdlTypes.

(** ** The shared shape of the generated code *)

(** [vdlPathX := "x"; if parentPath != "" { vdlPathX = parentPath + ".x" }] *)
Definition vdl_path (parentPath field : string) : string :=
  if parentPath =s? "" then field else parentPath +:+ "." +:+ field.
Definition required (path : string) : go_error := ErrNew ("field " +:+ path +:+ " is required").

(** [if p.X == nil { return ... }; if p.X != nil { if err := p.X.validate(vdlPathX) ... }] *)
Definition require_field {A} (parentPath field : string) (validate : string -> A -> result unit)
    (p : option A) : result unit :=
  match p with
  | None => Err (required (vdl_path parentPath field))
  | Some x => validate (vdl_path parentPath field) x
  end.
(** A field of a type without a [validate] method. *)
Definition no_check {A} (path : string) (x : A) : result unit := Ok tt.

(** A loop over the elements of a slice with their paths, up to the first error. *)
Definition item_path (path : string) (i : nat) : string :=
  path +:+ "[" +:+ print_int (Z.of_nat i) +:+ "]".
Fixpoint validate_items {A} (validate : string -> A -> result unit) (path : string) (i : nat)
    (l : list A) : result unit :=
  match l with
  | [] => Ok tt
  | x :: l' => _ ← validate (item_path path i) x; validate_items validate path (S i) l'
  end.

(** The order in which the [n]-th loop over a map visits its entries. *)
Class MapRange : Type := {
  range_map {A} (n : nat) (m : gmap string A) : list (string * A);
  range_map_perm {A} n (m : gmap string A) : range_map n m ≡ₚ map_to_list m }.

(** The same over the entries of a map; [%q] quotes the key. *)
Definition entry_path (path key : string) : string := path +:+ "[" +:+ Quote key +:+ "]".
Fixpoint validate_entries {A} (validate : string -> A -> result unit) (path : string)
    (l : list (string * A)) : result unit :=
  match l with
  | [] => Ok tt
  | (key, x) :: l' => _ ← validate (entry_path path key) x; validate_entries validate path l'
  end.

(** The loop that builds the transformed map. *)
Definition transform_map `{MapRange} {A B} (transform : A -> option B) (m : gmap string A) :
    option (gmap string B) :=
  list_to_map <$> mapM (fun kx => pair kx.1 <$> transform kx.2) (range_map 1 m).

(** [if p.X != nil { ... }] around the transformation of an optional field. *)
Definition optional {A B} (transform : A -> option B) (p : option A) : option (option B) :=
  match p with None => Some None | Some x => Some <$> transform x end.

(** The body of every [UnmarshalJSON]; [None] is the panic of a nil dereference. *)
Definition unmarshal_strict {P T} (validate : string -> P -> result unit)
    (transform : P -> option T) (decoded : result P) : option (result T) :=
  match decoded with
  | Err e => Some (Err e)
  | Ok pre =>
      match validate "" pre with
      | Err e => Some (Err e)
      | Ok _ => Ok <$> transform pre
      end
  end.

(** ** The reference: the missing fields, in the order of their declaration *)

Definition no_missing {A} (x : A) : list string := [].
Definition missing_field {A} (field : string) (missing : A -> list string) (p : option A) :
    list string :=
  match p with None => [field] | Some x => vdl_path field <$> missing x end.
Fixpoint missing_items {A} (field : string) (missing : A -> list string) (i : nat) (l : list A) :
    list string :=
  match l with
  | [] => []
  | x :: l' =>
      (vdl_path (item_path field i) <$> missing x) ++ missing_items field missing (S i) l'
  end.
Fixpoint missing_entries {A} (field : string) (missing : A -> list string)
    (l : list (string * A)) : list string :=
  match l with
  | [] => []
  | (key, x) :: l' =>
      (vdl_path (entry_path field key) <$> missing x) ++ missing_entries field missing l'
  end.
Definition missing_slice {A} (field : string) (missing : A -> list string) (p : option (list A)) :
    list string :=
  match p with None => [field] | Some l => missing_items field missing 0 l end.
Definition missing_optional_slice {A} (field : string) (missing : A -> list string)
    (p : option (list A)) : list string :=
  match p with None => [] | Some l => missing_items field missing 0 l end.
Definition missing_map `{MapRange} {A} (field : string) (missing : A -> list string)
    (p : option (gmap string A)) : list string :=
  match p with None => [field] | Some m => missing_entries field missing (range_map 0 m) end.

(** The error that reports a list of missing fields: the first one. *)
Definition report (parentPath : string) (missing : list string) : result unit :=
  match missing with
  | [] => Ok tt
  | field :: _ => Err (required (vdl_path parentPath field))
  end.

(** ** The interface *)

Class Strict (P T : Type) : Type := MkStrict {
  st_validate : string -> P -> result unit;
  st_transform : P -> option T;
  st_missing : P -> list string;
  st_mirror : T -> P }.
#[global] Arguments MkStrict {P T}.

(** What makes the decoding of a type strict: the validation reports the first missing
    field; a twin without missing fields is the mirror of a value, and the transformation
    is the inverse of [st_mirror]. *)
Class StrictLaws {P T} (S : Strict P T) : Prop := {
  st_report path p : st_validate path p = report path (st_missing p);
  st_transform_mirror p v : st_transform p = Some v <-> p = st_mirror v;
  st_missing_nil p : st_missing p = [] <-> exists v, p = st_mirror v }.

(** ** The laws of the shapes *)

Lemma vdl_path_assoc p f m : f <> "" -> vdl_path p (vdl_path f m) = vdl_path (vdl_path p f) m.
Proof.
  intros Hf. unfold vdl_path. apply String.eqb_neq in Hf. rewrite Hf.
  destruct (p =s? "") eqn:Hp; [by rewrite Hf|].
  assert ((p +:+ "." +:+ f) =s? "" = false) as ->
    by (apply String.eqb_neq in Hp; apply String.eqb_neq; by destruct p).
  by rewrite !string_app_assoc.
Qed.

Lemma vdl_path_app p f s : vdl_path p (f +:+ s) = vdl_path p f +:+ s.
Proof. unfold vdl_path. destruct (p =s? ""); [done|]. by rewrite !string_app_assoc. Qed.

Lemma vdl_path_item p f i : vdl_path p (item_path f i) = item_path (vdl_path p f) i.
Proof. unfold item_path. by rewrite vdl_path_app. Qed.
Lemma vdl_path_entry p f k : vdl_path p (entry_path f k) = entry_path (vdl_path p f) k.
Proof. unfold entry_path. by rewrite vdl_path_app. Qed.

Lemma string_app_ne (f s : string) : s <> "" -> f +:+ s <> "".
Proof. by destruct f. Qed.

Lemma fmap_nil {A B} (f : A -> B) l : f <$> l = [] <-> l = [].
Proof. by destruct l. Qed.

Lemma report_app p l1 l2 : report p (l1 ++ l2) = ((_ ← report p l1; report p l2) : result unit).
Proof. by destruct l1. Qed.

Lemma report_under p f l :
  f <> "" -> report p (vdl_path f <$> l) = report (vdl_path p f) l.
Proof. intros Hf. destruct l; [done|]. cbn. by rewrite vdl_path_assoc. Qed.

Section Shapes.
  Context {A B : Type} (validate : string -> A -> result unit) (missing : A -> list string).
  Hypothesis Hreport : forall path x, validate path x = report path (missing x).

Lemma require_field_report p f o :
  f <> "" -> require_field p f validate o = report p (missing_field f missing o).
Proof. intros Hf. destruct o; cbn; [|done]. by rewrite Hreport, report_under. Qed.

Lemma validate_items_report p f i l :
  validate_items validate (vdl_path p f) i l = report p (missing_items f missing i l).
Proof.
  revert i. induction l as [|x l IH]; intros i; [done|]. cbn.
  rewrite report_app, report_under by (unfold item_path; by apply string_app_ne).
  by rewrite vdl_path_item, Hreport, IH.
Qed.

Lemma validate_entries_report p f l :
  validate_entries validate (vdl_path p f) l = report p (missing_entries f missing l).
Proof.
  induction l as [|[k x] l IH]; [done|]. cbn.
  rewrite report_app, report_under by (unfold entry_path; by apply string_app_ne).
  by rewrite vdl_path_entry, Hreport, IH.
Qed.

End Shapes.

(** A list of mirrored entries in the order of a loop, as a map. *)
Section Entries.
  Context `{MapRange} {A B : Type} (mirror : B -> A).

Lemma range_map_mirror n (m : gmap string A) kys :
  range_map n m = prod_map id mirror <$> kys -> m = mirror <$> (list_to_map kys : gmap string B).
Proof.
  intros E. rewrite <- list_to_map_fmap, <- E.
  rewrite <- (list_to_map_to_list m) at 1.
  apply list_to_map_proper; [|symmetry; apply range_map_perm]. apply NoDup_fst_map_to_list.
Qed.

Lemma range_mirror_map n (v : gmap string B) :
  exists kys, range_map n (mirror <$> v) = prod_map id mirror <$> kys /\ list_to_map kys = v.
Proof.
  assert (P := range_map_perm n (mirror <$> v)). rewrite map_to_list_fmap in P.
  apply Permutation_map_inv in P as (kys & E & P'). exists kys. split; [done|].
  rewrite <- (list_to_map_to_list v). symmetry. apply list_to_map_proper; [|done].
  apply NoDup_fst_map_to_list.
Qed.

End Entries.

Section Complete.
  Context {A B : Type} (missing : A -> list string) (mirror : B -> A).
  Hypothesis Hmissing : forall x, missing x = [] <-> exists y, x = mirror y.

Lemma missing_field_nil f o :
  missing_field f missing o = [] <-> exists y, o = Some (mirror y).
Proof.
  destruct o as [x|]; cbn; [|naive_solver]. rewrite fmap_nil, Hmissing. naive_solver.
Qed.

Lemma missing_items_nil f i l :
  missing_items f missing i l = [] <-> exists ys, l = mirror <$> ys.
Proof.
  revert i. induction l as [|x l IH]; intros i; cbn; [split; [by exists []|done]|].
  rewrite app_nil, fmap_nil, (IH (S i)), Hmissing. split.
  - intros [[y ->] [ys ->]]. by exists (y :: ys).
  - intros [[|y ys] [= -> ->]]. naive_solver.
Qed.

Lemma missing_slice_nil f o :
  missing_slice f missing o = [] <-> exists ys, o = Some (mirror <$> ys).
Proof.
  destruct o as [l|]; cbn; [|naive_solver]. rewrite missing_items_nil. naive_solver.
Qed.

Lemma missing_optional_slice_nil f o :
  missing_optional_slice f missing o = []
  <-> exists r : option (list B), o = fmap (M:=list) mirror <$> r.
Proof.
  destruct o as [l|]; cbn; [|split; [by exists None|done]]. rewrite missing_items_nil. split.
  - intros [ys ->]. by exists (Some ys).
  - intros [[ys|] [= ->]]. by exists ys.
Qed.

  Context `{MapRange}.

Lemma missing_entries_nil f l :
  missing_entries f missing l = [] <-> exists kys, l = prod_map id mirror <$> kys.
Proof.
  induction l as [|[k x] l IH]; cbn; [split; [by exists []|done]|].
  rewrite app_nil, fmap_nil, IH, Hmissing. split.
  - intros [[y ->] [kys ->]]. by exists ((k, y) :: kys).
  - intros [[|[k' y] kys] [= -> -> ->]]. naive_solver.
Qed.

Lemma missing_map_nil f o :
  missing_map f missing o = [] <-> exists v, o = Some (mirror <$> v).
Proof.
  destruct o as [m|]; cbn; [|naive_solver]. rewrite missing_entries_nil. split.
  - intros [kys E%range_map_mirror]. eauto using f_equal.
  - intros [v [= ->]]. destruct (range_mirror_map mirror 0 v) as (kys & E & _). eauto.
Qed.

End Complete.

Section Transforming.
  Context {A B : Type} (transform : A -> option B) (mirror : B -> A).
  Hypothesis Hmirror : forall x y, transform x = Some y <-> x = mirror y.

Lemma mapM_mirror l ys : mapM transform l = Some ys <-> l = mirror <$> ys.
Proof.
  rewrite mapM_Some. split.
  - induction 1 as [|x y l ys H _ IH]; [done|]. cbn. apply Hmirror in H. by subst.
  - intros ->. induction ys as [|y ys IH]; constructor; [by apply Hmirror|done].
Qed.

Lemma optional_slice_mirror o (r : option (list B)) :
  optional (mapM transform) o = Some r <-> o = fmap (M:=list) mirror <$> r.
Proof.
  destruct o as [l|], r as [ys|]; cbn; try naive_solver.
  - rewrite fmap_Some. setoid_rewrite mapM_mirror. naive_solver.
  - rewrite fmap_Some. naive_solver.
Qed.

  Context `{MapRange}.

Lemma transform_entries (kxs : list (string * A)) kys :
  mapM (fun kx => pair kx.1 <$> transform kx.2) kxs = Some kys
  <-> kxs = prod_map id mirror <$> kys.
Proof.
  rewrite mapM_Some. split.
  - induction 1 as [|[k x] ky l ys (y & Hy%Hmirror & ->)%fmap_Some _ IH]; [done|].
    cbn in *. by subst.
  - intros ->. induction kys as [|[k y] kys IH]; constructor; [|done].
    cbn. by rewrite (proj2 (Hmirror _ _) eq_refl).
Qed.

Lemma transform_map_mirror m v : transform_map transform m = Some v <-> m = mirror <$> v.
Proof.
  unfold transform_map. rewrite fmap_Some. setoid_rewrite transform_entries. split.
  - intros (kys & E & ->). by eapply range_map_mirror.
  - intros ->. destruct (range_mirror_map mirror 1 v) as (kys & E & <-). eauto.
Qed.
End Transforming.

(** ** The types *)

Lemma bind_report p r l1 l2 :
  r = report p l1 -> forall r', r' = report p l2 ->
  ((_ ← r; r') : result unit) = report p (l1 ++ l2).
Proof. intros -> r' ->. by rewrite report_app. Qed.

Lemma optional_slice_report {A} (validate : string -> A -> result unit) missing p f o :
  (forall path x, validate path x = report path (missing x)) ->
  match o with None => Ok tt | Some items => validate_items validate (vdl_path p f) 0 items end
  = report p (missing_optional_slice f missing o).
Proof. intros H. destruct o; [|done]. by apply validate_items_report. Qed.

Lemma slice_report {A} (validate : string -> A -> result unit) missing p f o :
  f <> "" -> (forall path x, validate path x = report path (missing x)) ->
  require_field p f (fun path => validate_items validate path 0) o
  = report p (missing_slice f missing o).
Proof. intros Hf H. destruct o; [|done]. by apply validate_items_report. Qed.

Lemma map_report `{MapRange} {A} (validate : string -> A -> result unit) missing p f o :
  (forall path x, validate path x = report path (missing x)) ->
  require_field p f (fun path m => validate_entries validate path (range_map 0 m)) o
  = report p (missing_map f missing o).
Proof. intros H'. destruct o; [|done]. by apply validate_entries_report. Qed.

Lemma leaf_missing_nil {A} f (o : option A) :
  missing_field f no_missing o = [] <-> exists x, o = Some x.
Proof. destruct o; cbn; naive_solver. Qed.

Lemma leaf_report {A} p f (o : option A) :
  require_field p f no_check o = report p (missing_field f no_missing o).
Proof. by destruct o. Qed.

(** The lemmas on shapes at the fields that have laws of their own. *)
Section Laws.
  Context {P T : Type} {S : Strict P T} {L : StrictLaws S}.

Lemma st_field_nil f o :
  missing_field f st_missing o = [] <-> exists v, o = Some (st_mirror v).
Proof using L. apply missing_field_nil, st_missing_nil. Qed.
Lemma st_slice_nil f o :
  missing_slice f st_missing o = [] <-> exists vs, o = Some (st_mirror <$> vs).
Proof using L. apply missing_slice_nil, st_missing_nil. Qed.
Lemma st_optional_slice_nil f o :
  missing_optional_slice f st_missing o = []
  <-> exists r, o = fmap (M:=option) (fmap (M:=list) st_mirror) r.
Proof using L. apply missing_optional_slice_nil, st_missing_nil. Qed.
Lemma st_map_nil `{MapRange} f o :
  missing_map f st_missing o = [] <-> exists v, o = Some (st_mirror <$> v).
Proof using L. apply missing_map_nil, st_missing_nil. Qed.
Lemma st_slice_mirror l vs : mapM st_transform l = Some vs <-> l = st_mirror <$> vs.
Proof using L. apply mapM_mirror, st_transform_mirror. Qed.
Lemma st_optional_slice_mirror o r :
  optional (mapM st_transform) o = Some r <-> o = fmap (M:=list) st_mirror <$> r.
Proof using L. apply optional_slice_mirror, st_transform_mirror. Qed.
Lemma st_map_mirror `{MapRange} m v :
  transform_map st_transform m = Some v <-> m = st_mirror <$> v.
Proof using L. apply transform_map_mirror, st_transform_mirror. Qed.
End Laws.

Ltac unfold_head t := lazymatch t with ?f _ => unfold_head f | _ => unfold t end.

Ltac report_fields :=
  repeat first
    [ apply leaf_report
    | apply slice_report; [done|exact st_report]
    | apply optional_slice_report; exact st_report
    | apply map_report; exact st_report
    | apply require_field_report; [exact st_report|done]
    | apply bind_report ].

Ltac transformed H :=
  first [ apply st_slice_mirror in H | apply st_optional_slice_mirror in H
        | apply st_map_mirror in H | apply st_transform_mirror in H ].
Ltac transform_field :=
  lazymatch goal with
  | |- mbind _ _ = Some _ => apply bind_Some; eexists; split; transform_field
  | |- _ =>
      first [ apply st_slice_mirror; reflexivity | apply st_optional_slice_mirror; reflexivity
            | apply st_map_mirror; reflexivity | apply st_transform_mirror; reflexivity
            | reflexivity ]
  end.
Ltac transform_fields :=
  split;
  [ intros;
    repeat match goal with
    | H : mbind _ _ = Some _ |- _ => apply bind_Some in H as (?&?&?)
    | H : mret _ = Some _ |- _ => injection H as <-
    | H : ?o = Some _ |- _ => is_var o; subst o
    | H : _ = Some _ |- _ => transformed H; subst
    end; simplify_eq; reflexivity
  | intros [=]; subst; transform_field ].

Ltac missing_fields :=
  split;
  [ intros;
    repeat match goal with
    | H : _ ++ _ = [] |- _ => apply app_nil in H as [??]
    | H : missing_field _ no_missing _ = [] |- _ => apply leaf_missing_nil in H as [? ->]
    | H : missing_field _ _ _ = [] |- _ => apply st_field_nil in H as [? ->]
    | H : missing_slice _ _ _ = [] |- _ => apply st_slice_nil in H as [? ->]
    | H : missing_optional_slice _ _ _ = [] |- _ => apply st_optional_slice_nil in H as [? ->]
    | H : missing_map _ _ _ = [] |- _ => apply st_map_nil in H as [? ->]
    end
  | intros [v [=]]; destruct v; subst; rewrite ?app_nil; repeat split;
    first [ reflexivity | apply st_field_nil | apply st_slice_nil
          | apply st_optional_slice_nil | apply st_map_nil ]; eauto ].

(** [exists v, p = mirror v] where the fields of [p] are mirrors, [c] being the
    constructor of [v]. *)
Tactic Notation "exists_fields" uconstr(c) :=
  first [ by eexists (c _) | by eexists (c _ _) | by eexists (c _ _ _)
        | by eexists (c _ _ _ _ _) | by eexists (c _ _ _ _ _ _ _)
        | by eexists (c _ _ _ _ _ _ _ _ _) ].

Tactic Notation "strict_laws" uconstr(c) :=
  lazymatch goal with |- StrictLaws ?S => unfold_head S end; split;
  [ intros path p; cbn [st_validate st_missing];
    lazymatch goal with |- ?f _ _ = report _ (?g _) => unfold_head f; unfold_head g end;
    report_fields
  | intros p v; cbn [st_transform st_mirror];
    lazymatch goal with |- ?f _ = _ <-> _ = ?g _ => unfold_head f; unfold_head g end;
    destruct p, v; cbn; transform_fields
  | intros p; cbn [st_missing st_mirror];
    lazymatch goal with |- ?f _ = _ <-> exists v, _ = ?g _ => unfold_head f; unfold_head g end;
    destruct p; cbn -[missing_field missing_slice missing_optional_slice missing_map];
    missing_fields; exists_fields c ].

(** *** [QueryParam] *)

Record preQueryParam : Type := MkPreQueryParam {
  ppName : option string; ppValue : option SqliteValue }.
Definition preQueryParam_validate (parentPath : string) (p : preQueryParam) : result unit :=
  require_field parentPath "value" no_check (ppValue p).
Definition preQueryParam_transform (p : preQueryParam) : option VQueryParam :=
  transValue ← ppValue p;
  mret (MkVQueryParam (ppName p) transValue).
Definition QueryParam_UnmarshalJSON : result preQueryParam -> option (result VQueryParam) :=
  unmarshal_strict preQueryParam_validate preQueryParam_transform.
Definition preQueryParam_missing (p : preQueryParam) : list string :=
  missing_field "value" no_missing (ppValue p).
Definition QueryParam_mirror (v : VQueryParam) : preQueryParam :=
  MkPreQueryParam (vpName v) (Some (vpValue v)).
#[export] Instance QueryParam_strict : Strict preQueryParam VQueryParam :=
  MkStrict preQueryParam_validate preQueryParam_transform preQueryParam_missing
    QueryParam_mirror.
Canonical QueryParam_strict.
#[export] Instance QueryParam_strict_laws : StrictLaws QueryParam_strict.
Proof. strict_laws MkVQueryParam. Qed.

(** *** [Query] *)

Record preQuery : Type := MkPreQuery {
  pqTxId : option string; pqQuery : option string; pqParams : option (list preQueryParam) }.
Definition preQuery_validate (parentPath : string) (p : preQuery) : result unit :=
  _ ← require_field parentPath "query" no_check (pqQuery p);
  match pqParams p with
  | None => Ok tt
  | Some items =>
      validate_items preQueryParam_validate (vdl_path parentPath "params") 0 items
  end.
Definition preQuery_transform (p : preQuery) : option VQuery :=
  transQuery ← pqQuery p;
  transParams ← optional (mapM preQueryParam_transform) (pqParams p);
  mret (MkVQuery (pqTxId p) transQuery transParams).
Definition Query_UnmarshalJSON : result preQuery -> option (result VQuery) :=
  unmarshal_strict preQuery_validate preQuery_transform.
Definition preQuery_missing (p : preQuery) : list string :=
  missing_field "query" no_missing (pqQuery p) ++ missing_optional_slice "params"
  preQueryParam_missing (pqParams p).
Definition Query_mirror (v : VQuery) : preQuery :=
  MkPreQuery (vqTxId v) (Some (vqQuery v)) (fmap (M:=list) QueryParam_mirror <$> (vqParams
    v)).
#[export] Instance Query_strict : Strict preQuery VQuery :=
  MkStrict preQuery_validate preQuery_transform preQuery_missing Query_mirror.
Canonical Query_strict.
#[export] Instance Query_strict_laws : StrictLaws Query_strict.
Proof. strict_laws MkVQuery. Qed.

(** *** [DatabaseQueryInput] *)

Record preDatabaseQueryInput : Type := MkPreDatabaseQueryInput {
  piQueries : option (list preQuery) }.
Definition preDatabaseQueryInput_validate (parentPath : string) (p : preDatabaseQueryInput)
    : result unit :=
  require_field parentPath "queries"
    (fun path => validate_items preQuery_validate path 0) (piQueries p).
Definition preDatabaseQueryInput_transform (p : preDatabaseQueryInput) : option
    DatabaseQueryInput :=
  piQueries p ≫= mapM preQuery_transform.
Definition DatabaseQueryInput_UnmarshalJSON : result preDatabaseQueryInput -> option (result
    DatabaseQueryInput) :=
  unmarshal_strict preDatabaseQueryInput_validate preDatabaseQueryInput_transform.
Definition preDatabaseQueryInput_missing (p : preDatabaseQueryInput) : list string :=
  missing_slice "queries" preQuery_missing (piQueries p).
Definition DatabaseQueryInput_mirror (v : DatabaseQueryInput) : preDatabaseQueryInput :=
  MkPreDatabaseQueryInput (Some (Query_mirror <$> v)).
#[export] Instance DatabaseQueryInput_strict : Strict preDatabaseQueryInput DatabaseQueryInput :=
  MkStrict preDatabaseQueryInput_validate preDatabaseQueryInput_transform
    preDatabaseQueryInput_missing DatabaseQueryInput_mirror.
Canonical DatabaseQueryInput_strict.
#[export] Instance DatabaseQueryInput_strict_laws : StrictLaws DatabaseQueryInput_strict.
Proof. strict_laws id. Qed.

(** *** [QueryResult] *)

Record preQueryResult : Type := MkPreQueryResult {
  prType : option QueryResultType; prTime : option Z; prError : option string;
  prTxId : option string; prLastInsertId : option Z; prRowsAffected : option Z;
  prColumns : option (list string); prTypes : option (list SqliteStorageClass);
  prRows : option (list (list SqliteValue)) }.
Definition preQueryResult_validate (parentPath : string) (p : preQueryResult) : result unit
    :=
  _ ← require_field parentPath "type" no_check (prType p);
  require_field parentPath "time" no_check (prTime p).
Definition preQueryResult_transform (p : preQueryResult) : option VQueryResult :=
  transType ← prType p;
  transTime ← prTime p;
  mret (MkVQueryResult transType transTime (prError p) (prTxId p) (prLastInsertId p)
    (prRowsAffected p) (prColumns p) (prTypes p) (prRows p)).
Definition QueryResult_UnmarshalJSON : result preQueryResult -> option (result VQueryResult)
    :=
  unmarshal_strict preQueryResult_validate preQueryResult_transform.
Definition preQueryResult_missing (p : preQueryResult) : list string :=
  missing_field "type" no_missing (prType p) ++ missing_field "time" no_missing (prTime p).
Definition QueryResult_mirror (v : VQueryResult) : preQueryResult :=
  MkPreQueryResult (Some (vrType v)) (Some (vrTime v)) (vrError v) (vrTxId v)
    (vrLastInsertId v) (vrRowsAffected v) (vrColumns v) (vrTypes v) (vrRows v).
#[export] Instance QueryResult_strict : Strict preQueryResult VQueryResult :=
  MkStrict preQueryResult_validate preQueryResult_transform preQueryResult_missing
    QueryResult_mirror.
Canonical QueryResult_strict.
#[export] Instance QueryResult_strict_laws : StrictLaws QueryResult_strict.
Proof. strict_laws MkVQueryResult. Qed.

(** *** [DatabaseQueryOutput] *)

Record preDatabaseQueryOutput : Type := MkPreDatabaseQueryOutput {
  poTime : option Z; poResults : option (list preQueryResult) }.
Definition preDatabaseQueryOutput_validate (parentPath : string) (p :
    preDatabaseQueryOutput) : result unit :=
  _ ← require_field parentPath "time" no_check (poTime p);
  require_field parentPath "results"
    (fun path => validate_items preQueryResult_validate path 0) (poResults p).
Definition preDatabaseQueryOutput_transform (p : preDatabaseQueryOutput) : option
    DatabaseQueryOutput :=
  transTime ← poTime p;
  transResults ← poResults p ≫= mapM preQueryResult_transform;
  mret (MkDatabaseQueryOutput transTime transResults).
Definition DatabaseQueryOutput_UnmarshalJSON : result preDatabaseQueryOutput -> option
    (result DatabaseQueryOutput) :=
  unmarshal_strict preDatabaseQueryOutput_validate preDatabaseQueryOutput_transform.
Definition preDatabaseQueryOutput_missing (p : preDatabaseQueryOutput) : list string :=
  missing_field "time" no_missing (poTime p) ++ missing_slice "results"
  preQueryResult_missing (poResults p).
Definition DatabaseQueryOutput_mirror (v : DatabaseQueryOutput) : preDatabaseQueryOutput :=
  MkPreDatabaseQueryOutput (Some (doTime v)) (Some (QueryResult_mirror <$> (doResults v))).
#[export] Instance DatabaseQueryOutput_strict : Strict preDatabaseQueryOutput DatabaseQueryOutput :=
  MkStrict preDatabaseQueryOutput_validate preDatabaseQueryOutput_transform
    preDatabaseQueryOutput_missing DatabaseQueryOutput_mirror.
Canonical DatabaseQueryOutput_strict.
#[export] Instance DatabaseQueryOutput_strict_laws : StrictLaws DatabaseQueryOutput_strict.
Proof. strict_laws MkDatabaseQueryOutput. Qed.

(** *** [DatabaseQuery] *)

Record preDatabaseQuery : Type := MkPreDatabaseQuery {
  pdqInput : option preDatabaseQueryInput; pdqOutput : option preDatabaseQueryOutput }.
Definition preDatabaseQuery_validate (parentPath : string) (p : preDatabaseQuery) : result
    unit :=
  _ ← require_field parentPath "input" preDatabaseQueryInput_validate (pdqInput p);
  require_field parentPath "output" preDatabaseQueryOutput_validate (pdqOutput p).
Definition preDatabaseQuery_transform (p : preDatabaseQuery) : option VDatabaseQuery :=
  transInput ← pdqInput p ≫= preDatabaseQueryInput_transform;
  transOutput ← pdqOutput p ≫= preDatabaseQueryOutput_transform;
  mret (MkVDatabaseQuery transInput transOutput).
Definition DatabaseQuery_UnmarshalJSON : result preDatabaseQuery -> option (result
    VDatabaseQuery) :=
  unmarshal_strict preDatabaseQuery_validate preDatabaseQuery_transform.
Definition preDatabaseQuery_missing (p : preDatabaseQuery) : list string :=
  missing_field "input" preDatabaseQueryInput_missing (pdqInput p) ++ missing_field "output"
  preDatabaseQueryOutput_missing (pdqOutput p).
Definition DatabaseQuery_mirror (v : VDatabaseQuery) : preDatabaseQuery :=
  MkPreDatabaseQuery (Some (DatabaseQueryInput_mirror (dqInput v))) (Some
    (DatabaseQueryOutput_mirror (dqOutput v))).
#[export] Instance DatabaseQuery_strict : Strict preDatabaseQuery VDatabaseQuery :=
  MkStrict preDatabaseQuery_validate preDatabaseQuery_transform preDatabaseQuery_missing
    DatabaseQuery_mirror.
Canonical DatabaseQuery_strict.
#[export] Instance DatabaseQuery_strict_laws : StrictLaws DatabaseQuery_strict.
Proof. strict_laws MkVDatabaseQuery. Qed.

(** *** [Database] *)

Record preDatabase : Type := MkPreDatabase {
  pdQuery : option preDatabaseQuery }.
Definition preDatabase_validate (parentPath : string) (p : preDatabase) : result unit :=
  require_field parentPath "query" preDatabaseQuery_validate (pdQuery p).
Definition preDatabase_transform (p : preDatabase) : option VDatabase :=
  transQuery ← pdQuery p ≫= preDatabaseQuery_transform;
  mret (MkVDatabase transQuery).
Definition Database_UnmarshalJSON : result preDatabase -> option (result VDatabase) :=
  unmarshal_strict preDatabase_validate preDatabase_transform.
Definition preDatabase_missing (p : preDatabase) : list string :=
  missing_field "query" preDatabaseQuery_missing (pdQuery p).
Definition Database_mirror (v : VDatabase) : preDatabase :=
  MkPreDatabase (Some (DatabaseQuery_mirror (vdQuery v))).
#[export] Instance Database_strict : Strict preDatabase VDatabase :=
  MkStrict preDatabase_validate preDatabase_transform preDatabase_missing Database_mirror.
Canonical Database_strict.
#[export] Instance Database_strict_laws : StrictLaws Database_strict.
Proof. strict_laws MkVDatabase. Qed.

(** *** [StatsTotalsCounters] *)

Record preStatsTotalsCounters : Type := MkPreStatsTotalsCounters {
  pstReads : option Z; pstWrites : option Z; pstBegins : option Z; pstCommits : option Z;
  pstRollbacks : option Z; pstErrors : option Z; pstHttpRequests : option Z }.
Definition preStatsTotalsCounters_validate (parentPath : string) (p :
    preStatsTotalsCounters) : result unit :=
  _ ← require_field parentPath "reads" no_check (pstReads p);
  _ ← require_field parentPath "writes" no_check (pstWrites p);
  _ ← require_field parentPath "begins" no_check (pstBegins p);
  _ ← require_field parentPath "commits" no_check (pstCommits p);
  _ ← require_field parentPath "rollbacks" no_check (pstRollbacks p);
  _ ← require_field parentPath "errors" no_check (pstErrors p);
  require_field parentPath "httpRequests" no_check (pstHttpRequests p).
Definition preStatsTotalsCounters_transform (p : preStatsTotalsCounters) : option
    StatsTotalsCounters :=
  transReads ← pstReads p;
  transWrites ← pstWrites p;
  transBegins ← pstBegins p;
  transCommits ← pstCommits p;
  transRollbacks ← pstRollbacks p;
  transErrors ← pstErrors p;
  transHttpRequests ← pstHttpRequests p;
  mret (MkStatsTotalsCounters transReads transWrites transBegins transCommits transRollbacks
    transErrors transHttpRequests).
Definition StatsTotalsCounters_UnmarshalJSON : result preStatsTotalsCounters -> option
    (result StatsTotalsCounters) :=
  unmarshal_strict preStatsTotalsCounters_validate preStatsTotalsCounters_transform.
Definition preStatsTotalsCounters_missing (p : preStatsTotalsCounters) : list string :=
  missing_field "reads" no_missing (pstReads p) ++ missing_field "writes" no_missing
  (pstWrites p) ++ missing_field "begins" no_missing (pstBegins p) ++ missing_field
  "commits" no_missing (pstCommits p) ++ missing_field "rollbacks" no_missing (pstRollbacks
  p) ++ missing_field "errors" no_missing (pstErrors p) ++ missing_field "httpRequests"
  no_missing (pstHttpRequests p).
Definition StatsTotalsCounters_mirror (v : StatsTotalsCounters) : preStatsTotalsCounters :=
  MkPreStatsTotalsCounters (Some (vtReads v)) (Some (vtWrites v)) (Some (vtBegins v)) (Some
    (vtCommits v)) (Some (vtRollbacks v)) (Some (vtErrors v)) (Some (vtHttpRequests v)).
#[export] Instance StatsTotalsCounters_strict : Strict preStatsTotalsCounters StatsTotalsCounters :=
  MkStrict preStatsTotalsCounters_validate preStatsTotalsCounters_transform
    preStatsTotalsCounters_missing StatsTotalsCounters_mirror.
Canonical StatsTotalsCounters_strict.
#[export] Instance StatsTotalsCounters_strict_laws : StrictLaws StatsTotalsCounters_strict.
Proof. strict_laws MkStatsTotalsCounters. Qed.

(** *** [StatsQueuedCounters] *)

Record preStatsQueuedCounters : Type := MkPreStatsQueuedCounters {
  psqBegins : option Z; psqWrites : option Z; psqHttpRequests : option Z }.
Definition preStatsQueuedCounters_validate (parentPath : string) (p :
    preStatsQueuedCounters) : result unit :=
  _ ← require_field parentPath "begins" no_check (psqBegins p);
  _ ← require_field parentPath "writes" no_check (psqWrites p);
  require_field parentPath "httpRequests" no_check (psqHttpRequests p).
Definition preStatsQueuedCounters_transform (p : preStatsQueuedCounters) : option
    StatsQueuedCounters :=
  transBegins ← psqBegins p;
  transWrites ← psqWrites p;
  transHttpRequests ← psqHttpRequests p;
  mret (MkStatsQueuedCounters transBegins transWrites transHttpRequests).
Definition StatsQueuedCounters_UnmarshalJSON : result preStatsQueuedCounters -> option
    (result StatsQueuedCounters) :=
  unmarshal_strict preStatsQueuedCounters_validate preStatsQueuedCounters_transform.
Definition preStatsQueuedCounters_missing (p : preStatsQueuedCounters) : list string :=
  missing_field "begins" no_missing (psqBegins p) ++ missing_field "writes" no_missing
  (psqWrites p) ++ missing_field "httpRequests" no_missing (psqHttpRequests p).
Definition StatsQueuedCounters_mirror (v : StatsQueuedCounters) : preStatsQueuedCounters :=
  MkPreStatsQueuedCounters (Some (vkBegins v)) (Some (vkWrites v)) (Some (vkHttpRequests
    v)).
#[export] Instance StatsQueuedCounters_strict : Strict preStatsQueuedCounters StatsQueuedCounters :=
  MkStrict preStatsQueuedCounters_validate preStatsQueuedCounters_transform
    preStatsQueuedCounters_missing StatsQueuedCounters_mirror.
Canonical StatsQueuedCounters_strict.
#[export] Instance StatsQueuedCounters_strict_laws : StrictLaws StatsQueuedCounters_strict.
Proof. strict_laws MkStatsQueuedCounters. Qed.

(** *** [Stats] *)

Record preStats : Type := MkPreStats {
  psStartedAt : option Z; psUptimeSeconds : option Z;
  psTotals : option preStatsTotalsCounters; psQueued : option preStatsQueuedCounters;
  psMinutes : option (gmap string preStatsTotalsCounters) }.
Definition preStats_validate `{MapRange} (parentPath : string) (p : preStats) : result unit :=
  _ ← require_field parentPath "startedAt" no_check (psStartedAt p);
  _ ← require_field parentPath "uptimeSeconds" no_check (psUptimeSeconds p);
  _ ← require_field parentPath "totals" preStatsTotalsCounters_validate (psTotals p);
  _ ← require_field parentPath "queued" preStatsQueuedCounters_validate (psQueued p);
  require_field parentPath "minutes"
    (fun path entries =>
       validate_entries preStatsTotalsCounters_validate path (range_map 0 entries)) (psMinutes p).
Definition preStats_transform `{MapRange} (p : preStats) : option VStats :=
  transStartedAt ← psStartedAt p;
  transUptimeSeconds ← psUptimeSeconds p;
  transTotals ← psTotals p ≫= preStatsTotalsCounters_transform;
  transQueued ← psQueued p ≫= preStatsQueuedCounters_transform;
  transMinutes ← psMinutes p ≫= transform_map preStatsTotalsCounters_transform;
  mret (MkVStats transStartedAt transUptimeSeconds transTotals transQueued transMinutes).
Definition Stats_UnmarshalJSON `{MapRange} : result preStats -> option (result VStats) :=
  unmarshal_strict preStats_validate preStats_transform.
Definition preStats_missing `{MapRange} (p : preStats) : list string :=
  missing_field "startedAt" no_missing (psStartedAt p) ++ missing_field "uptimeSeconds"
  no_missing (psUptimeSeconds p) ++ missing_field "totals" preStatsTotalsCounters_missing
  (psTotals p) ++ missing_field "queued" preStatsQueuedCounters_missing (psQueued p) ++
  missing_map "minutes" preStatsTotalsCounters_missing (psMinutes p).
Definition Stats_mirror (v : VStats) : preStats :=
  MkPreStats (Some (vsStartedAt v)) (Some (vsUptimeSeconds v)) (Some
    (StatsTotalsCounters_mirror (vsTotals v))) (Some (StatsQueuedCounters_mirror (vsQueued
    v))) (Some (StatsTotalsCounters_mirror <$> (vsMinutes v))).
#[export] Instance Stats_strict `{MapRange} : Strict preStats VStats :=
  MkStrict preStats_validate preStats_transform preStats_missing Stats_mirror.
Canonical Stats_strict.
#[export] Instance Stats_strict_laws `{MapRange} : StrictLaws Stats_strict.
Proof. strict_laws MkVStats. Qed.

(** *** [SystemHealthOutput] *)

Record preSystemHealthOutput : Type := MkPreSystemHealthOutput {
  phoHealthy : option bool; phoDatabase : option bool; phoMessage : option string }.
Definition preSystemHealthOutput_validate (parentPath : string) (p : preSystemHealthOutput)
    : result unit :=
  _ ← require_field parentPath "healthy" no_check (phoHealthy p);
  _ ← require_field parentPath "database" no_check (phoDatabase p);
  require_field parentPath "message" no_check (phoMessage p).
Definition preSystemHealthOutput_transform (p : preSystemHealthOutput) : option
    SystemHealthOutput :=
  transHealthy ← phoHealthy p;
  transDatabase ← phoDatabase p;
  transMessage ← phoMessage p;
  mret (MkSystemHealthOutput transHealthy transDatabase transMessage).
Definition SystemHealthOutput_UnmarshalJSON : result preSystemHealthOutput -> option (result
    SystemHealthOutput) :=
  unmarshal_strict preSystemHealthOutput_validate preSystemHealthOutput_transform.
Definition preSystemHealthOutput_missing (p : preSystemHealthOutput) : list string :=
  missing_field "healthy" no_missing (phoHealthy p) ++ missing_field "database" no_missing
  (phoDatabase p) ++ missing_field "message" no_missing (phoMessage p).
Definition SystemHealthOutput_mirror (v : SystemHealthOutput) : preSystemHealthOutput :=
  MkPreSystemHealthOutput (Some (shHealthy v)) (Some (shDatabase v)) (Some (shMessage v)).
#[export] Instance SystemHealthOutput_strict : Strict preSystemHealthOutput SystemHealthOutput :=
  MkStrict preSystemHealthOutput_validate preSystemHealthOutput_transform
    preSystemHealthOutput_missing SystemHealthOutput_mirror.
Canonical SystemHealthOutput_strict.
#[export] Instance SystemHealthOutput_strict_laws : StrictLaws SystemHealthOutput_strict.
Proof. strict_laws MkSystemHealthOutput. Qed.

(** *** [SystemHealth] *)

Record preSystemHealth : Type := MkPreSystemHealth {
  pshOutput : option preSystemHealthOutput }.
Definition preSystemHealth_validate (parentPath : string) (p : preSystemHealth) : result
    unit :=
  require_field parentPath "output" preSystemHealthOutput_validate (pshOutput p).
Definition preSystemHealth_transform (p : preSystemHealth) : option VSystemHealth :=
  transOutput ← pshOutput p ≫= preSystemHealthOutput_transform;
  mret (MkVSystemHealth transOutput).
Definition SystemHealth_UnmarshalJSON : result preSystemHealth -> option (result
    VSystemHealth) :=
  unmarshal_strict preSystemHealth_validate preSystemHealth_transform.
Definition preSystemHealth_missing (p : preSystemHealth) : list string :=
  missing_field "output" preSystemHealthOutput_missing (pshOutput p).
Definition SystemHealth_mirror (v : VSystemHealth) : preSystemHealth :=
  MkPreSystemHealth (Some (SystemHealthOutput_mirror (vhOutput v))).
#[export] Instance SystemHealth_strict : Strict preSystemHealth VSystemHealth :=
  MkStrict preSystemHealth_validate preSystemHealth_transform preSystemHealth_missing
    SystemHealth_mirror.
Canonical SystemHealth_strict.
#[export] Instance SystemHealth_strict_laws : StrictLaws SystemHealth_strict.
Proof. strict_laws MkVSystemHealth. Qed.

(** *** [SystemSessionOutput] *)

Record preSystemSessionOutput : Type := MkPreSystemSessionOutput {
  psoRole : option VAuthRole }.
Definition preSystemSessionOutput_validate (parentPath : string) (p :
    preSystemSessionOutput) : result unit :=
  require_field parentPath "role" no_check (psoRole p).
Definition preSystemSessionOutput_transform (p : preSystemSessionOutput) : option
    SystemSessionOutput :=
  transRole ← psoRole p;
  mret (MkSystemSessionOutput transRole).
Definition SystemSessionOutput_UnmarshalJSON : result preSystemSessionOutput -> option
    (result SystemSessionOutput) :=
  unmarshal_strict preSystemSessionOutput_validate preSystemSessionOutput_transform.
Definition preSystemSessionOutput_missing (p : preSystemSessionOutput) : list string :=
  missing_field "role" no_missing (psoRole p).
Definition SystemSessionOutput_mirror (v : SystemSessionOutput) : preSystemSessionOutput :=
  MkPreSystemSessionOutput (Some (soRole v)).
#[export] Instance SystemSessionOutput_strict : Strict preSystemSessionOutput SystemSessionOutput :=
  MkStrict preSystemSessionOutput_validate preSystemSessionOutput_transform
    preSystemSessionOutput_missing SystemSessionOutput_mirror.
Canonical SystemSessionOutput_strict.
#[export] Instance SystemSessionOutput_strict_laws : StrictLaws SystemSessionOutput_strict.
Proof. strict_laws MkSystemSessionOutput. Qed.

(** *** [SystemSession] *)

Record preSystemSession : Type := MkPreSystemSession {
  pssOutput : option preSystemSessionOutput }.
Definition preSystemSession_validate (parentPath : string) (p : preSystemSession) : result
    unit :=
  require_field parentPath "output" preSystemSessionOutput_validate (pssOutput p).
Definition preSystemSession_transform (p : preSystemSession) : option VSystemSession :=
  transOutput ← pssOutput p ≫= preSystemSessionOutput_transform;
  mret (MkVSystemSession transOutput).
Definition SystemSession_UnmarshalJSON : result preSystemSession -> option (result
    VSystemSession) :=
  unmarshal_strict preSystemSession_validate preSystemSession_transform.
Definition preSystemSession_missing (p : preSystemSession) : list string :=
  missing_field "output" preSystemSessionOutput_missing (pssOutput p).
Definition SystemSession_mirror (v : VSystemSession) : preSystemSession :=
  MkPreSystemSession (Some (SystemSessionOutput_mirror (veOutput v))).
#[export] Instance SystemSession_strict : Strict preSystemSession VSystemSession :=
  MkStrict preSystemSession_validate preSystemSession_transform preSystemSession_missing
    SystemSession_mirror.
Canonical SystemSession_strict.
#[export] Instance SystemSession_strict_laws : StrictLaws SystemSession_strict.
Proof. strict_laws MkVSystemSession. Qed.

(** *** [SystemStatusOutput] *)

Record preSystemStatusOutput : Type := MkPreSystemStatusOutput {
  ptoName : option string; ptoVersion : option string; ptoStats : option preStats }.
Definition preSystemStatusOutput_validate `{MapRange} (parentPath : string)
    (p : preSystemStatusOutput) : result unit :=
  _ ← require_field parentPath "name" no_check (ptoName p);
  _ ← require_field parentPath "version" no_check (ptoVersion p);
  require_field parentPath "stats" preStats_validate (ptoStats p).
Definition preSystemStatusOutput_transform `{MapRange} (p : preSystemStatusOutput) : option
    SystemStatusOutput :=
  transName ← ptoName p;
  transVersion ← ptoVersion p;
  transStats ← ptoStats p ≫= preStats_transform;
  mret (MkSystemStatusOutput transName transVersion transStats).
Definition SystemStatusOutput_UnmarshalJSON `{MapRange} :
    result preSystemStatusOutput -> option (result SystemStatusOutput) :=
  unmarshal_strict preSystemStatusOutput_validate preSystemStatusOutput_transform.
Definition preSystemStatusOutput_missing `{MapRange} (p : preSystemStatusOutput) : list string :=
  missing_field "name" no_missing (ptoName p) ++ missing_field "version" no_missing
  (ptoVersion p) ++ missing_field "stats" preStats_missing (ptoStats p).
Definition SystemStatusOutput_mirror (v : SystemStatusOutput) : preSystemStatusOutput :=
  MkPreSystemStatusOutput (Some (ssName v)) (Some (ssVersion v)) (Some (Stats_mirror
    (ssStats v))).
#[export] Instance SystemStatusOutput_strict `{MapRange} :
    Strict preSystemStatusOutput SystemStatusOutput :=
  MkStrict preSystemStatusOutput_validate preSystemStatusOutput_transform
    preSystemStatusOutput_missing SystemStatusOutput_mirror.
Canonical SystemStatusOutput_strict.
#[export] Instance SystemStatusOutput_strict_laws `{MapRange} :
  StrictLaws SystemStatusOutput_strict.
Proof. strict_laws MkSystemStatusOutput. Qed.

(** *** [SystemStatus] *)

Record preSystemStatus : Type := MkPreSystemStatus {
  ptOutput : option preSystemStatusOutput }.
Definition preSystemStatus_validate `{MapRange} (parentPath : string) (p : preSystemStatus) : result
    unit :=
  require_field parentPath "output" preSystemStatusOutput_validate (ptOutput p).
Definition preSystemStatus_transform `{MapRange} (p : preSystemStatus) : option VSystemStatus :=
  transOutput ← ptOutput p ≫= preSystemStatusOutput_transform;
  mret (MkVSystemStatus transOutput).
Definition SystemStatus_UnmarshalJSON `{MapRange} : result preSystemStatus -> option (result
    VSystemStatus) :=
  unmarshal_strict preSystemStatus_validate preSystemStatus_transform.
Definition preSystemStatus_missing `{MapRange} (p : preSystemStatus) : list string :=
  missing_field "output" preSystemStatusOutput_missing (ptOutput p).
Definition SystemStatus_mirror (v : VSystemStatus) : preSystemStatus :=
  MkPreSystemStatus (Some (SystemStatusOutput_mirror (vaOutput v))).
#[export] Instance SystemStatus_strict `{MapRange} : Strict preSystemStatus VSystemStatus :=
  MkStrict preSystemStatus_validate preSystemStatus_transform preSystemStatus_missing
    SystemStatus_mirror.
Canonical SystemStatus_strict.
#[export] Instance SystemStatus_strict_laws `{MapRange} : StrictLaws SystemStatus_strict.
Proof. strict_laws MkVSystemStatus. Qed.

(** *** [System] *)

Record preSystem : Type := MkPreSystem {
  pyHealth : option preSystemHealth; pySession : option preSystemSession;
  pyStatus : option preSystemStatus }.
Definition preSystem_validate `{MapRange} (parentPath : string) (p : preSystem) : result unit :=
  _ ← require_field parentPath "health" preSystemHealth_validate (pyHealth p);
  _ ← require_field parentPath "session" preSystemSession_validate (pySession p);
  require_field parentPath "status" preSystemStatus_validate (pyStatus p).
Definition preSystem_transform `{MapRange} (p : preSystem) : option VSystem :=
  transHealth ← pyHealth p ≫= preSystemHealth_transform;
  transSession ← pySession p ≫= preSystemSession_transform;
  transStatus ← pyStatus p ≫= preSystemStatus_transform;
  mret (MkVSystem transHealth transSession transStatus).
Definition System_UnmarshalJSON `{MapRange} : result preSystem -> option (result VSystem) :=
  unmarshal_strict preSystem_validate preSystem_transform.
Definition preSystem_missing `{MapRange} (p : preSystem) : list string :=
  missing_field "health" preSystemHealth_missing (pyHealth p) ++ missing_field "session"
  preSystemSession_missing (pySession p) ++ missing_field "status" preSystemStatus_missing
  (pyStatus p).
Definition System_mirror (v : VSystem) : preSystem :=
  MkPreSystem (Some (SystemHealth_mirror (vyHealth v))) (Some (SystemSession_mirror
    (vySession v))) (Some (SystemStatus_mirror (vyStatus v))).
#[export] Instance System_strict `{MapRange} : Strict preSystem VSystem :=
  MkStrict preSystem_validate preSystem_transform preSystem_missing System_mirror.
Canonical System_strict.
#[export] Instance System_strict_laws `{MapRange} : StrictLaws System_strict.
Proof. strict_laws MkVSystem. Qed.
(** ** Decoding is strict *)

(** What a client may rely on: decoding never dereferences a missing field; it yields a
    value exactly when the text holds all of its required fields, and then exactly the
    fields of the text; otherwise the error is the library's, or names the first required
    field that is missing. *)
Definition decodes_strictly {P T} (unmarshal : result P -> option (result T))
    (missing : P -> list string) (mirror : T -> P) : Prop :=
  forall decoded,
    unmarshal decoded <> None
    /\ (forall v, unmarshal decoded = Some (Ok v) <-> decoded = Ok (mirror v))
    /\ (forall e, unmarshal decoded = Some (Err e) <->
          decoded = Err e
          \/ exists p, decoded = Ok p /\ required <$> head (missing p) = Some e).

Lemma strict_decoding {P T} {S : Strict P T} {L : StrictLaws S} :
  decodes_strictly (unmarshal_strict st_validate st_transform) st_missing st_mirror.
Proof.
  intros [p|e']; cbn; [|naive_solver]. rewrite st_report.
  assert (N := st_missing_nil p). destruct (st_missing p) as [|field l] eqn:E; cbn.
  - destruct (proj1 N eq_refl) as [v ->].
    rewrite (proj2 (st_transform_mirror _ _) eq_refl). cbn. split; [done|]. split.
    + intros v'. split; [by intros [= ->]|]. intros [= Hv].
      apply st_transform_mirror in Hv. rewrite (proj2 (st_transform_mirror _ v) eq_refl) in Hv.
      by simplify_eq.
    + intros e. split; [done|]. intros [?|(p & [= <-] & H)]; [done|]. by rewrite E in H.
  - split; [done|]. split.
    + intros v. split; [done|]. intros [= ->]. by discriminate (proj2 N (ex_intro _ v eq_refl)).
    + intros e. split.
      * intros [= <-]. right. exists p. by rewrite E.
      * intros [?|(p' & [= <-] & H)]; [done|]. rewrite E in H. by injection H as <-.
Qed.

(** C20: every [UnmarshalJSON] of the interface is strict: it never panics; it accepts exactly
    the documents that have every required field, at every depth, and returns their
    content unchanged; and it reports the first missing field in the order of declaration,
    with its full path, whatever the order in which the loops visit a map. *)
Theorem UnmarshalJSON_strict `{MapRange} :
  decodes_strictly DatabaseQueryInput_UnmarshalJSON preDatabaseQueryInput_missing
    DatabaseQueryInput_mirror
  /\ decodes_strictly Query_UnmarshalJSON preQuery_missing Query_mirror
  /\ decodes_strictly QueryParam_UnmarshalJSON preQueryParam_missing QueryParam_mirror
  /\ decodes_strictly QueryResult_UnmarshalJSON preQueryResult_missing QueryResult_mirror
  /\ decodes_strictly DatabaseQueryOutput_UnmarshalJSON preDatabaseQueryOutput_missing
       DatabaseQueryOutput_mirror
  /\ decodes_strictly DatabaseQuery_UnmarshalJSON preDatabaseQuery_missing DatabaseQuery_mirror
  /\ decodes_strictly Database_UnmarshalJSON preDatabase_missing Database_mirror
  /\ decodes_strictly StatsTotalsCounters_UnmarshalJSON preStatsTotalsCounters_missing
       StatsTotalsCounters_mirror
  /\ decodes_strictly StatsQueuedCounters_UnmarshalJSON preStatsQueuedCounters_missing
       StatsQueuedCounters_mirror
  /\ decodes_strictly Stats_UnmarshalJSON preStats_missing Stats_mirror
  /\ decodes_strictly SystemHealthOutput_UnmarshalJSON preSystemHealthOutput_missing
       SystemHealthOutput_mirror
  /\ decodes_strictly SystemHealth_UnmarshalJSON preSystemHealth_missing SystemHealth_mirror
  /\ decodes_strictly SystemSessionOutput_UnmarshalJSON preSystemSessionOutput_missing
       SystemSessionOutput_mirror
  /\ decodes_strictly SystemSession_UnmarshalJSON preSystemSession_missing SystemSession_mirror
  /\ decodes_strictly SystemStatusOutput_UnmarshalJSON preSystemStatusOutput_missing
       SystemStatusOutput_mirror
  /\ decodes_strictly SystemStatus_UnmarshalJSON preSystemStatus_missing SystemStatus_mirror
  /\ decodes_strictly System_UnmarshalJSON preSystem_missing System_mirror.
Proof. repeat split_and; apply strict_decoding. Qed.

(** Loops that visit the entries of a map in the order of its representation. *)
Definition range_in_order : MapRange := {|
  range_map A n m := map_to_list m;
  range_map_perm A n m := Permutation_refl _ |}.

Definition minutes_without_errors : gmap string preStatsTotalsCounters :=
  {["2024-01-01" := MkPreStatsTotalsCounters (Some 1) (Some 2) (Some 3) (Some 4) (Some 5) None
                      None]}.

(** Statistics without the [errors] of one minute are refused with the path of that field. *)
Lemma UnmarshalJSON_strict_witness :
  let stats := MkPreStats (Some 0) (Some 5)
                 (Some (StatsTotalsCounters_mirror (MkStatsTotalsCounters 1 2 3 4 5 6 7)))
                 (Some (MkPreStatsQueuedCounters (Some 0) (Some 0) (Some 0)))
                 (Some minutes_without_errors) in
  @Stats_UnmarshalJSON range_in_order (Ok stats)
  = Some (Err (ErrNew ("field minutes[" +:+ Quote "2024-01-01" +:+ "].errors is required")))
  /\ @Stats_UnmarshalJSON range_in_order (Ok stats) <> None.
Proof.
  split; [vm_compute; reflexivity|].
  destruct (@UnmarshalJSON_strict range_in_order) as (_&_&_&_&_&_&_&_&_&S&_).
  apply (S (Ok _)).
Defined.
