(* ===== verification/Convert.v ===== *)
(** * Values between the RPC interface and SQLite: [internal/server/query_convert.go] *)
From S2P Require Import Prelude GoStrings Base64 Sqlite DbState VdlTypes.

(** ** Parameters *)

(** [sqliteValueFromVDL(value)]: the five fields in order, the last one set wins and
    exactly one must be set. *)
Definition sqliteValueFromVDL (value : SqliteValue) : result gany :=
  let step (st : nat * gany) (field : option gany) : nat * gany :=
    match field with Some v => (S (fst st), v) | None => st end in
  let st := (0%nat, GNil) in
  let st := step st (match svNull value with Some true => Some GNil | _ => None end) in
  let st := step st (GInt64 <$> svInteger value) in
  let st := step st (GFloat64 <$> svReal value) in
  let st := step st (GString <$> svText value) in
  let finish (st : nat * gany) : result gany :=
    if (fst st =? 1)%nat then Ok (snd st)
    else Err (ErrNew "exactly one SQLite value field must be set") in
  match svBlob value with
  | None => finish st
  | Some blob =>
      match DecodeString blob with
      | Err e => Err (ErrWrap "decode blob parameter" e)
      | Ok decoded => finish (step st (Some (GBytes decoded)))
      end
  end.

(** [sqliteParamsFromVDL(params)] *)
Definition sqliteParamsFromVDL (params : option (list VQueryParam)) : result (list QueryParam) :=
  match params with
  | None => Ok []
  | Some ps =>
      result_mapM (fun param =>
        match sqliteValueFromVDL (vpValue param) with
        | Err e => Err e
        | Ok value => Ok (MkQueryParam (Val "" (vpName param)) value)
        end) ps
  end.

(** ** Results *)

(** [queryResultTypeFromDB] *)
Definition queryResultTypeFromDB (t : QueryType) : QueryResultType :=
  match t with
  | QueryTypeRead => QueryResultTypeRead
  | QueryTypeWrite => QueryResultTypeWrite
  | QueryTypeBegin => QueryResultTypeBegin
  | QueryTypeCommit => QueryResultTypeCommit
  | QueryTypeRollback => QueryResultTypeRollback
  | QueryTypeUnknown => QueryResultTypeError
  end.

(** [sqliteStorageClassFromString(valueType)] *)
Definition sqliteStorageClassFromString (valueType : string) : SqliteStorageClass :=
  let upper := ToUpper (TrimSpace valueType) in
  let has := existsb (Contains upper) in
  if upper =s? "NULL" then SqliteStorageClassNull
  else if upper =s? "INTEGER" then SqliteStorageClassInteger
  else if upper =s? "REAL" then SqliteStorageClassReal
  else if upper =s? "TEXT" then SqliteStorageClassText
  else if upper =s? "BLOB" then SqliteStorageClassBlob
  else if has ["INT"] then SqliteStorageClassInteger
  else if has ["CHAR"; "CLOB"; "TEXT"; "DATE"; "TIME"] then SqliteStorageClassText
  else if has ["BLOB"] || (upper =s? "") then SqliteStorageClassBlob
  else if has ["REAL"; "FLOA"; "DOUB"; "NUMERIC"; "DECIMAL"; "BOOLEAN"]
  then SqliteStorageClassReal
  else SqliteStorageClassText.

Definition integerValue (z : Z) : SqliteValue := MkSqliteValue None (Some z) None None None.
Definition realValue (f : spec_float) : SqliteValue := MkSqliteValue None None (Some f) None None.
Definition textValue (s : string) : SqliteValue := MkSqliteValue None None None (Some s) None.
Definition blobValue (s : string) : SqliteValue := MkSqliteValue None None None None (Some s).
Definition nullValue : SqliteValue := MkSqliteValue (Some true) None None None None.

(** [sqliteValueToVDL(value)]; a boolean falls in the default case of the switch. *)
Definition sqliteValueToVDL (value : gany) : SqliteValue :=
  match value with
  | GNil => nullValue
  | GInt z | GInt8 z | GInt16 z | GInt32 z | GInt64 z
  | GUint8 z | GUint16 z | GUint32 z => integerValue z
  | GUint z | GUint64 z => integerValue (int64 z)
  | GFloat32 f | GFloat64 f => realValue f
  | GString s => textValue s
  | GBytes s => blobValue (EncodeToString s)
  | GBool b => textValue (if b then "true" else "false")
  | GOther _ printed => textValue printed
  end.

Definition some_if {A} (b : bool) (x : A) : option A := if b then Some x else None.
Definition non_empty {A} (l : list A) : bool := match l with [] => false | _ => true end.

(** [queryResultFromDB(startedAt, result)]; [elapsed] is [time.Since(startedAt)]. *)
Definition queryResultFromDB (elapsed : Z) (r : QueryResult) : VQueryResult :=
  let is_write := bool_decide (resType r = QueryTypeWrite) in
  MkVQueryResult (queryResultTypeFromDB (resType r)) elapsed None
    (some_if (negb (resTxID r =s? "")) (resTxID r))
    (some_if is_write (resLastInsertID r))
    (some_if is_write (resRowsAffected r))
    (some_if (non_empty (resColumns r)) (resColumns r))
    (some_if (non_empty (resTypes r)) (map sqliteStorageClassFromString (resTypes r)))
    (some_if (non_empty (resRows r)) (map (map sqliteValueToVDL) (resRows r))).

(** ** Round trips *)

(** The values SQLite hands back, as parameters see them: [ColumnDynamic] yields
    integers, floats, text, blobs and NULL. *)
Inductive column_value : gany -> gany -> Prop :=
| cv_null : column_value GNil GNil
| cv_int z : column_value (GInt z) (GInt64 z)
| cv_float f : column_value (GFloat64 f) (GFloat64 f)
| cv_text s : column_value (GString s) (GString s)
| cv_blob s : column_value (GBytes s) (GBytes s).

(** A value that comes out of a result can be sent back as a parameter: it is
    accepted, and binds the same value (an [int] as an [int64], blobs through
    base64). *)
Theorem value_roundtrip v v' :
  column_value v v' -> sqliteValueFromVDL (sqliteValueToVDL v) = Ok v'.
Proof.
  destruct 1; try done. unfold sqliteValueToVDL, blobValue, sqliteValueFromVDL. cbn.
  by rewrite DecodeString_EncodeToString.
Qed.

Lemma value_roundtrip_witness :
  sqliteValueFromVDL (sqliteValueToVDL (GBytes "a blob")) = Ok (GBytes "a blob").
Proof. exact (value_roundtrip _ _ (cv_blob "a blob")). Defined.

(** The fields of a value that count as set. *)
Definition set_fields (v : SqliteValue) : list gany :=
  (match svNull v with Some true => [GNil] | _ => [] end)
  ++ option_list (GInt64 <$> svInteger v) ++ option_list (GFloat64 <$> svReal v)
  ++ option_list (GString <$> svText v)
  ++ match svBlob v with
     | Some b => match DecodeString b with Ok d => [GBytes d] | Err _ => [] end
     | None => []
     end.

(** A parameter is accepted exactly when one of its fields is set (a false [null]
    is not) and its blob, if there is one, is base64; it then means that field. *)
Theorem sqliteValueFromVDL_spec v x :
  sqliteValueFromVDL v = Ok x <->
  set_fields v = [x] /\ (forall b, svBlob v = Some b -> is_err (DecodeString b) = false).
Proof.
  unfold sqliteValueFromVDL, set_fields. destruct v as [n i r t b].
  destruct b as [b|]; [destruct (DecodeString b) as [d|e] eqn:E|];
    destruct n as [[]|], i, r, t; cbn; rewrite ?E.
  all: split; [intros ?; simplify_eq; try (split; [done|]; intros ??; simplify_eq; by rewrite ?E)|].
  all: intros [? Hb]; simplify_eq; try done.
  all: specialize (Hb b eq_refl); by rewrite E in Hb.
Qed.
