(* ===== verification/Http.v ===== *)
(** * Requests, responses and the shared state of the HTTP server

    [net/http] as the handlers see it (headers, query parameters, body, the response
    writer), the helpers of [internal/util/httputil], and the effects of a handler.
    A handler is a program over [srvE]; what the database answers comes from an
    instance of [DBService]. *)
From S2P Require Import Prelude GoStrings Base64 Stats DbState Goroutines.

(** ** Requests *)

(** A body, as far as the size limit lets the handler read it. *)
Record http_body : Type := MkBody { bodyBytes : string; bodyTruncated : bool }.

(** [reqQuery] is [r.URL.Query()], in order; [reqRpcName] and [reqOperationName] are
    the wildcards of the route; [reqBody] is [None] for a nil body. *)
Record http_request : Type := MkRequest {
  reqMethod : string;
  reqPath : list string;
  reqHeaders : list (string * string);
  reqQuery : list (string * string);
  reqBody : option http_body;
  reqRemoteAddr : string }.

Fixpoint assoc_get (l : list (string * string)) (k : string) : option string :=
  match l with
  | [] => None
  | (k', v) :: l' => if k' =s? k then Some v else assoc_get l' k
  end.
(** [r.Header.Get(k)], for a canonical [k]. *)
Definition header_get (r : http_request) (k : string) : string :=
  default "" (assoc_get (reqHeaders r) k).
(** [r.URL.Query().Has(k)] and [r.URL.Query()[k]]. *)
Definition query_has (r : http_request) (k : string) : bool :=
  match assoc_get (reqQuery r) k with Some _ => true | None => false end.
Definition query_values (r : http_request) (k : string) : list string :=
  map snd (filter (fun kv => fst kv = k) (reqQuery r)).

(** [r.BasicAuth()]: the scheme is compared without case. *)
Definition BasicAuth (r : http_request) : option (string * string) :=
  let auth := header_get r "Authorization" in
  if ToLower (str_take 6 auth) =s? "basic " then
    match DecodeString (str_drop 6 auth) with
    | Err _ => None
    | Ok c => CutByte c (byte_chr 58)
    end
  else None.

(** [http.MaxBytesReader(w, r.Body, limit)] *)
Definition MaxBytesReader (limit : Z) (b : http_body) : http_body :=
  if Z.of_nat (String.length (bodyBytes b)) <=? limit then b
  else MkBody (str_take (Z.to_nat limit) (bodyBytes b)) true.

(** [io.ReadAll(body)] *)
Definition ReadAll (b : http_body) : result string :=
  if bodyTruncated b then Err (ErrNew "http: request body too large") else Ok (bodyBytes b).

(** [ReadUserIP(r)] *)
Definition ReadUserIP (r : http_request) : string :=
  let ip := header_get r "X-Real-Ip" in
  let ip := if ip =s? "" then header_get r "X-Forwarded-For" else ip in
  if ip =s? "" then reqRemoteAddr r else ip.

(** [ReadReqBodyBytes(r)], for a request that may be nil. *)
Definition ReadReqBodyBytes (r : option http_request) : result string :=
  match r with
  | None => Err (ErrNew "request cannot be nil")
  | Some r => match reqBody r with None => Ok "" | Some b => ReadAll b end
  end.

Definition StatusOK : Z := 200.
Definition StatusBadRequest : Z := 400.
Definition StatusUnauthorized : Z := 401.
Definition StatusForbidden : Z := 403.
Definition StatusInternalServerError : Z := 500.
(** [http.StatusText], on the statuses the server uses. *)
Definition StatusText (code : Z) : string :=
  if code =? 200 then "OK"
  else if code =? 400 then "Bad Request"
  else if code =? 401 then "Unauthorized"
  else if code =? 403 then "Forbidden"
  else if code =? 500 then "Internal Server Error"
  else "".

(** ** Shared state and effects *)

Inductive authRole : Type := authRoleAdmin | authRoleReadWrite | authRoleReadOnly.
#[export] Instance authRole_eq_dec : EqDecision authRole.
Proof. solve_decision. Defined.

(** What the server asks of the database component.  [None] is a call that has not
    returned. *)
Class DBService : Type := {
  dbst : Type;
  db_Query : Query -> dbst -> option (result QueryResult * dbst);
  db_stats : dbst -> DBStats;
  db_set_stats : DBStats -> dbst -> dbst;
  db_now : dbst -> Z }.

(** The operations of a handler that others can observe.  The cache is the
    [sync.Map] of [Server]; the last three are the [http.ResponseWriter]. *)
Inductive srvE : Type -> Type :=
| CacheLoad (hash : string) : srvE (option authRole)
| CacheStore (hash : string) (role : authRole) : srvE unit
| DBQuery (q : Query) : srvE (result QueryResult)
| SrvStat (op : stat_op) : srvE unit
| SrvLoadStats : srvE LoadedStats
| SrvNow : srvE Z
| SrvUuid : srvE string
| SetHeader (key value : string) : srvE unit
| WriteHeader (status : Z) : srvE unit
| WriteBody (b : string) : srvE (option go_error).
Definition srv_prog : Type -> Type := prog srvE.

(** What was sent to a client. *)
Inductive sent : Type :=
| SentHeader (key value : string)
| SentStatus (status : Z)
| SentBody (b : string).

Section State.
  Context `{DBS : DBService}.

(** [sentLog] is everything written so far; [netError] is what the connection to the
    client answers to a write; [srvUuids] counts the error identifiers. *)
Record srv_state : Type := MkSrv {
  authTokenCache : gmap string authRole;
  srvDB : dbst;
  srvUuids : nat;
  netError : option go_error;
  sentLog : list sent }.

Definition send (m : sent) (s : srv_state) : srv_state :=
  MkSrv (authTokenCache s) (srvDB s) (srvUuids s) (netError s) (sentLog s ++ [m]).
Definition set_db (d : dbst) (s : srv_state) : srv_state :=
  MkSrv (authTokenCache s) d (srvUuids s) (netError s) (sentLog s).

Definition srv_handle (uuid : nat -> string) (B : Type) (e : srvE B) (s : srv_state) :
    option (B * srv_state) :=
  match e in srvE B return option (B * srv_state) with
  | CacheLoad hash => Some (authTokenCache s !! hash, s)
  | CacheStore hash role =>
      Some (tt, MkSrv (<[hash := role]> (authTokenCache s)) (srvDB s) (srvUuids s)
                  (netError s) (sentLog s))
  | DBQuery q =>
      match db_Query q (srvDB s) with
      | None => None
      | Some (r, d) => Some (r, set_db d s)
      end
  | SrvStat op =>
      Some (tt, set_db (db_set_stats (stat_apply op (db_now (srvDB s)) (db_stats (srvDB s)))
                          (srvDB s)) s)
  | SrvLoadStats => Some (LoadStats (db_now (srvDB s)) (db_stats (srvDB s)), s)
  | SrvNow => Some (db_now (srvDB s), s)
  | SrvUuid =>
      Some (uuid (srvUuids s), MkSrv (authTokenCache s) (srvDB s) (S (srvUuids s))
                                 (netError s) (sentLog s))
  | SetHeader k v => Some (tt, send (SentHeader k v) s)
  | WriteHeader st => Some (tt, send (SentStatus st) s)
  | WriteBody b => Some (netError s, send (SentBody b) s)
  end.

(** Between two steps of the handlers the database, the clock and the network move
    on their own. *)
Definition srv_env (s s' : srv_state) : Prop :=
  exists d net, s' = MkSrv (authTokenCache s) d (srvUuids s) net (sentLog s).
End State.

(** ** [httputil] *)

(** [NewJSONError(status, err, safeMessage...)] *)
Definition NewJSONError (status : Z) (err : go_error) (safeMessage : list string) : go_error :=
  ErrJSON status err (match safeMessage with m :: _ => m | [] => "" end).

Definition wrap_opt (msg : string) (e : option go_error) : option go_error :=
  match e with Some e => Some (ErrWrap msg e) | None => None end.

(** [WriteJSON(w, status, v)]; [encoded] is what the encoder makes of [v]. *)
Definition WriteJSON (status : Z) (encoded : result string) : srv_prog (option go_error) :=
  _ ← act (SetHeader "Content-Type" "application/json");
  _ ← act (WriteHeader status);
  match encoded with
  | Err e => mret (Some (ErrWrap "failed to write JSON response" e))
  | Ok b => e ← act (WriteBody b); mret (wrap_opt "failed to write JSON response" e)
  end.

(** [WriteJSONBytes(w, status, b)] *)
Definition WriteJSONBytes (status : Z) (b : string) : srv_prog (option go_error) :=
  _ ← act (SetHeader "Content-Type" "application/json");
  _ ← act (WriteHeader status);
  e ← act (WriteBody b);
  mret (wrap_opt "failed to write JSON response" e).

(** [WriteString(w, status, str)] *)
Definition WriteString (status : Z) (str : string) : srv_prog (option go_error) :=
  _ ← act (SetHeader "Content-Type" "text/plain");
  _ ← act (WriteHeader status);
  e ← act (WriteBody str);
  mret (wrap_opt "failed to write response" e).

(** [HandlerFuncErr], [Middleware] and [ErrorHandler] *)
Definition HandlerFuncErr : Type := http_request -> srv_prog (option go_error).
Definition Middleware : Type := HandlerFuncErr -> HandlerFuncErr.
Definition ErrorHandler : Type := http_request -> go_error -> srv_prog unit.

(** [CreateHandlerFuncBuilder(errorHandler)(handler, middlewares...)]: the middlewares
    are applied last to first. *)
Definition CreateHandlerFuncBuilder (errorHandler : ErrorHandler) (handler : HandlerFuncErr)
    (middlewares : list Middleware) (r : http_request) : srv_prog unit :=
  let finalHandler := foldr (fun middleware previousHandler => middleware previousHandler)
                        handler middlewares in
  err ← finalHandler r;
  match err with
  | Some err => errorHandler r err
  | None => mret tt
  end.
