(* ===== verification/WaitServer.v ===== *)
(** * Waiting for a server: [internal/util/httputil/wait_for_server.go]

    The loop that polls a URL until it answers 200 or the timeout is over, on a clock in
    nanoseconds: [probe] gives, for a request that starts at a time, how long it takes
    and its status. *)
From S2P Require Import Prelude GoStrings GoTime Http.

Section Wait.
  Context (new_request : string -> option go_error) (probe : Z -> Z * result Z).

Definition poll_interval : Z := 50 * millisecond.

(** [WaitForServer(url, timeout)], from the time [now]; [printed] is [timeout.String()].
    The [select] waits for the deadline or for the interval, whichever comes first. *)
Fixpoint WaitForServer (fuel : nat) (url printed : string) (deadline now : Z) :
    option (option go_error * Z) :=
  match fuel with
  | O => None
  | S fuel' =>
      match new_request url with
      | Some err => Some (Some (ErrWrap "failed to create request" err), now)
      | None =>
          let '(taken, answer) := probe now in
          let now := now + taken in
          let ready := match answer with Ok status => status =? StatusOK | Err _ => false end in
          if ready then Some (None, now)
          else if deadline <=? now + poll_interval then
            Some (Some (ErrNew ("server at " +:+ url +:+ " did not become ready within "
                                +:+ printed)), Z.max now deadline)
          else WaitForServer fuel' url printed deadline (now + poll_interval)
      end
  end.

(** A request takes time, and ends at the latest with its context. *)
Context (deadline : Z).
Hypothesis probe_time : forall now,
  0 <= fst (probe now) /\ (now <= deadline -> now + fst (probe now) <= deadline).

(** The wait ends: after at most one request per 50 milliseconds it returns, by the
    deadline; it reports success only if a request was answered with 200, and a timeout
    only at the deadline. *)
Theorem WaitForServer_returns url printed : forall fuel now,
  new_request url = None -> now <= deadline ->
  (Z.to_nat ((deadline - now) / poll_interval) < fuel)%nat ->
  exists e t, WaitForServer fuel url printed deadline now = Some (e, t)
  /\ now <= t <= deadline
  /\ (e = None -> exists t0, now <= t0 <= t /\ snd (probe t0) = Ok StatusOK)
  /\ (e <> None -> t = deadline).
Proof using probe_time.
  induction fuel as [|fuel IH]; intros now Hurl Hnow Hfuel; [lia|]. cbn [WaitForServer].
  rewrite Hurl. destruct (probe_time now) as [Hpos Hend].
  assert (Hp : snd (probe now) = snd (probe now)) by done.
  destruct (probe now) as [taken answer] eqn:Eprobe. cbn [fst snd] in *. specialize (Hend Hnow).
  destruct (match answer with Ok status => status =? StatusOK | Err _ => false end) eqn:Er.
  { exists None, (now + taken). split; [done|]. split; [lia|]. split; [|done].
    intros _. exists now. split; [lia|]. rewrite Eprobe. cbn.
    destruct answer as [st|]; [|done]. by apply Z.eqb_eq in Er as ->. }
  destruct (Z.leb_spec deadline (now + taken + poll_interval)) as [Hd|Hd].
  { eexists _, _. split; [done|]. split; [lia|]. split; [done|]. lia. }
  assert (Hi : 0 < poll_interval) by (unfold poll_interval, millisecond; lia).
  destruct (IH (now + taken + poll_interval)) as (e & t & Hrun & Ht & Hok & Herr);
    [done|lia| |].
  - enough ((deadline - (now + taken + poll_interval)) / poll_interval
            <= (deadline - now) / poll_interval - 1) by lia.
    replace ((deadline - now) / poll_interval - 1)
      with ((deadline - now + (-1) * poll_interval) / poll_interval)
      by (rewrite Z.div_add by lia; lia).
    apply Z.div_le_mono; lia.
  - exists e, t. split; [done|]. split; [lia|]. split; [|done].
    intros He. destruct (Hok He) as (t0 & ? & ?). exists t0. split; [lia|done].
Qed.
End Wait.

(** A server that is ready after a tenth of a second; a request takes ten milliseconds,
    if the deadline of one second leaves them. *)
Definition slow_probe (now : Z) : Z * result Z :=
  (Z.max 0 (Z.min (10 * millisecond) (second - now)),
   if now <? 100 * millisecond then Err (ErrNew "connection refused") else Ok StatusOK).

Lemma WaitForServer_returns_witness :
  (forall now, 0 <= fst (slow_probe now)
     /\ (now <= second -> now + fst (slow_probe now) <= second))
  /\ exists e t, WaitForServer (fun _ => None) slow_probe 30 "u" "1s" second 0 = Some (e, t)
     /\ e = None /\ t = 130 * millisecond /\ 0 <= t <= second.
Proof.
  assert (H : forall now, 0 <= fst (slow_probe now)
     /\ (now <= second -> now + fst (slow_probe now) <= second)) by (cbn; lia).
  split; [exact H|].
  destruct (WaitForServer_returns (fun _ => None) slow_probe second H "u" "1s" 30 0 eq_refl)
    as (e & t & Hrun & Ht & _); [vm_compute; discriminate|vm_compute; lia|].
  exists e, t. split; [exact Hrun|]. vm_compute in Hrun. injection Hrun as <- <-.
  split; [reflexivity|]. split; [reflexivity|exact Ht].
Defined.
