(* ===== verification/DbService.v ===== *)
(** * The database component as the server sees it

    The instance of [DBService] that the database component provides, and the class
    of laws on transactions that the server's theorems use, discharged from the
    specification of a request. *)
From S2P Require Import Prelude GoStrings GoTime Stats Authorizer Sqlite Driver Goroutines DbState Db ToyEngine DbConc DbSafety DbTraces DbSpec Http.

(** What a client of the database may rely on, about the open transaction ([""] when
    there is none). *)
Class TxLaws (DBS : DBService) : Type := {
  tx_open : dbst -> string;
  tx_quiet : dbst -> Prop;
  (** a query leaves the database ready for the next one *)
  tx_quiet_step q d r d' :
    tx_quiet d -> db_Query q d = Some (r, d') -> tx_quiet d';
  (** only a begin opens a transaction, and only its own queries end it *)
  tx_frame q d r d' :
    tx_quiet d -> db_Query q d = Some (r, d') ->
    tx_open d' = tx_open d
    \/ (qTxID q = "" /\ tx_open d = "" /\ classify_prefix (qQuery q) = Some QueryTypeBegin
        /\ exists res, r = Ok res)
    \/ (qTxID q = tx_open d /\ tx_open d' = "");
  tx_begin q d res d' :
    tx_quiet d -> db_Query q d = Some (Ok res, d') ->
    classify_prefix (qQuery q) = Some QueryTypeBegin ->
    tx_open d' = resTxID res /\ tx_open d' <> "";
  (** a commit or a rollback that succeeds ends it *)
  tx_end q d res d' t :
    tx_quiet d -> db_Query q d = Some (Ok res, d') ->
    classify_prefix (qQuery q) = Some t -> t = QueryTypeCommit \/ t = QueryTypeRollback ->
    tx_open d' = "" }.

Section Instance.
  Context `{LIB : SqliteLib} (uuid : nat -> string) (fuel : nat).

(** A query is the program of [db.go], run alone. *)
#[export] Instance DB_service : DBService := {|
  dbst := DB;
  db_Query q s :=
    match run (handle fuel uuid) (Db_Query RequestContext q) s with
    | Done r s' => Some (r, s')
    | Blocked _ => None
    end;
  db_stats := dbStats;
  db_set_stats := set_dbStats;
  db_now s := extNow (external s) |}.

Lemma db_Query_spec q s r s' :
  quiet RequestContext s -> db_Query q s = Some (r, s') -> spec_query uuid fuel q s = Some (r, s').
Proof.
  intros Hq H. cbn in H. pose proof (run_Db_Query uuid fuel RequestContext q s Hq) as Hr.
  unfold runs_to in Hr. destruct (spec_query uuid fuel q s) as [[r1 s1]|].
  - rewrite Hr in H. by injection H as <- <-.
  - destruct Hr as [s1 Hr]. by rewrite Hr in H.
Qed.

Lemma spec_classify_prefix w q t s : classify_prefix q = Some t -> spec_classify w q s = (Ok t, s).
Proof. unfold spec_classify. by intros ->. Qed.

Lemma spec_query_ok q s res s1 :
  spec_query uuid fuel q s = Some (Ok res, s1) -> spec_query_ uuid fuel q s = Some (Ok res, s1).
Proof.
  unfold spec_query. destruct (spec_query_ uuid fuel q s) as [[[r|e] s2]|]; [|done..].
  by intros [= -> ->].
Qed.

Lemma spec_query_begin q s res s1 :
  (forall n, uuid n <> "") ->
  spec_query uuid fuel q s = Some (Ok res, s1) ->
  classify_prefix (qQuery q) = Some QueryTypeBegin ->
  txID s1 = resTxID res /\ txID s1 <> "".
Proof.
  intros Hu H%spec_query_ok Hc. unfold spec_query_ in H.
  destruct (negb (qTxID q =s? "")) eqn:Hid.
  - unfold spec_in_tx in H. destruct (spec_check_tx q s); [|done].
    rewrite (spec_classify_prefix _ _ _ _ Hc) in H. cbn [spec_execute] in H. by rewrite Hid in H.
  - unfold spec_outside in H. rewrite (spec_classify_prefix _ _ _ _ Hc) in H.
    cbn [spec_execute] in H. rewrite Hid in H. unfold spec_begin in H.
    destruct (negb (txID s =s? "")); [done|].
    destruct (spec_sql _ _ _ _ _ _ _) as [[[[?|?]|?] s2]|]; [|done..].
    injection H as <- <-. by split; [|apply Hu].
Qed.

Lemma spec_query_end q s res s1 t :
  spec_query uuid fuel q s = Some (Ok res, s1) ->
  classify_prefix (qQuery q) = Some t -> t = QueryTypeCommit \/ t = QueryTypeRollback ->
  txID s1 = "".
Proof.
  intros H%spec_query_ok Hc Ht. unfold spec_query_ in H.
  destruct (negb (qTxID q =s? "")) eqn:Hid.
  - unfold spec_in_tx in H. destruct (spec_check_tx q s); [|done].
    rewrite (spec_classify_prefix _ _ _ _ Hc) in H. apply negb_true_iff in Hid.
    destruct Ht as [-> | ->]; cbn [spec_execute] in H; rewrite Hid in H; unfold spec_end in H;
      (destruct (spec_sql _ _ _ _ _ _ _) as [[[[?|?]|?] s2]|]; [|done..]);
      by injection H as <- <-.
  - unfold spec_outside in H. rewrite (spec_classify_prefix _ _ _ _ Hc) in H.
    apply negb_false_iff in Hid. by destruct Ht as [-> | ->]; cbn [spec_execute] in H; rewrite Hid in H.
Qed.

  Context (uuid_nonempty : forall n, uuid n <> "").

#[export] Instance DB_tx_laws : TxLaws DB_service.
Proof using uuid_nonempty.
  refine {| tx_open := (txID : dbst (DBService := DB_service) -> string); tx_quiet := quiet RequestContext |}.
  - intros q d r d' Hq H%db_Query_spec; [|done].
    by apply (spec_query_change uuid fuel RequestContext uuid_nonempty _ _ _ _ Hq) in H as [? _].
  - intros q d r d' Hq H%db_Query_spec; [|done].
    apply (spec_query_change uuid fuel RequestContext uuid_nonempty _ _ _ _ Hq) in H as [_ Hc].
    destruct Hc as [r0 s1 A|s1 A B|t s1 A B C D E F]; [by left| |by right; right].
    right; left. split_and!; [done|done|done|by eexists].
  - intros q d res d' Hq H%db_Query_spec; [|done]. by eapply spec_query_begin.
  - intros q d res d' t Hq H%db_Query_spec; [|done]. by eapply spec_query_end.
Defined.
End Instance.
