(* ===== verification/Auth.v ===== *)
(** * Authentication: [internal/server/auth.go], [internal/util/cryptoutil]

    Configured tokens, the verification of a presented token and the cache of
    verified tokens.  SHA-256 is [Sha256.Sum256]; bcrypt and argon2id are third-party
    and come from the class [Crypto]. *)
From S2P Require Import Prelude GoStrings Base64 Sha256 Stats DbState Goroutines Http.

(** The outcome of the two password hash libraries. *)
Class Crypto : Type := {
  bcrypt_CompareHashAndPassword : string -> string -> option go_error;
  argon2id_ComparePasswordAndHash : string -> string -> result bool }.

Inductive HashAlgo : Type := HashAlgoPlaintext | HashAlgoArgon2ID | HashAlgoBcrypt.
#[export] Instance HashAlgo_eq_dec : EqDecision HashAlgo.
Proof. solve_decision. Defined.

(** [GetHashAlgo(token)] *)
Definition GetHashAlgo (token : string) : HashAlgo :=
  if HasPrefix token "$argon2id$" then HashAlgoArgon2ID
  else if HasPrefix token "$2a$" || HasPrefix token "$2b$" || HasPrefix token "$2y$"
  then HashAlgoBcrypt
  else HashAlgoPlaintext.

Record authToken : Type := MkAuthToken { atRole : authRole; atAlgo : HashAlgo; atValue : string }.

(** [newAuthTokens(adminTokens, readWriteTokens, readOnlyTokens)] *)
Definition newAuthTokens (adminTokens readWriteTokens readOnlyTokens : list string) :
    list authToken :=
  let tokens_of role l := map (fun token => MkAuthToken role (GetHashAlgo token) token) l in
  tokens_of authRoleAdmin adminTokens ++ tokens_of authRoleReadWrite readWriteTokens
  ++ tokens_of authRoleReadOnly readOnlyTokens.

Definition unauthorizedError : go_error :=
  NewJSONError StatusUnauthorized (ErrNew "Unauthorized") ["Unauthorized"].
Definition forbiddenError : go_error :=
  NewJSONError StatusForbidden (ErrNew "Forbidden") ["Forbidden"].

Section Auth.
  Context `{CR : Crypto}.

(** [BcryptCheckHash(password, hash)] *)
Definition BcryptCheckHash (password hash : string) : bool :=
  match bcrypt_CompareHashAndPassword hash password with None => true | Some _ => false end.

(** [Argon2IDCheckHash(password, hash)] *)
Definition Argon2IDCheckHash (password hash : string) : bool :=
  match argon2id_ComparePasswordAndHash password hash with Ok m => m | Err _ => false end.

(** [checkAuthToken(tokenAlgo, clientToken, serverToken)] *)
Definition checkAuthToken (tokenAlgo : HashAlgo) (clientToken serverToken : string) : bool :=
  match tokenAlgo with
  | HashAlgoPlaintext => clientToken =s? serverToken
  | HashAlgoArgon2ID => Argon2IDCheckHash clientToken serverToken
  | HashAlgoBcrypt => BcryptCheckHash clientToken serverToken
  end.

  (** The fields of the server that do not change. *)
  Context (authTokens : list authToken) (authTokenSalt : string).

Definition authIsDisabled : bool := match authTokens with [] => true | _ => false end.

(** The scan of the configured tokens. *)
Fixpoint scan_tokens (tokens : list authToken) (clientToken : string) : option authRole :=
  match tokens with
  | [] => None
  | token :: tokens' =>
      if checkAuthToken (atAlgo token) clientToken (atValue token) then Some (atRole token)
      else scan_tokens tokens' clientToken
  end.

Definition token_hash (clientToken : string) : string := Sum256 (authTokenSalt +:+ clientToken).

(** [checkAuthWithCache(clientToken)] *)
Definition checkAuthWithCache (clientToken : string) : srv_prog (option (authRole * string)) :=
  if clientToken =s? "" then mret None
  else
    let hash := token_hash clientToken in
    let principal := hex_encode hash in
    cached ← act (CacheLoad hash);
    match cached with
    | Some role => mret (Some (role, principal))
    | None =>
        match scan_tokens authTokens clientToken with
        | None => mret None
        | Some role =>
            _ ← act (CacheStore hash role);
            mret (Some (role, principal))
        end
    end.

(** The token of the [Authorization] header. *)
Definition bearer_token (r : http_request) : string :=
  TrimPrefix (TrimPrefix (header_get r "Authorization") "Bearer ") "bearer ".

(** [authenticateRequest(r)] *)
Definition authenticateRequest (r : http_request) : srv_prog (result (authRole * string)) :=
  if authIsDisabled then mret (Ok (authRoleAdmin, ""))
  else
    let clientAuthToken := bearer_token r in
    if clientAuthToken =s? "" then mret (Err unauthorizedError)
    else
      o ← checkAuthWithCache clientAuthToken;
      match o with
      | None => mret (Err unauthorizedError)
      | Some rp => mret (Ok rp)
      end.
End Auth.

(** ** What a token is worth *)

Section Spec.
  Context `{CR : Crypto}.

(** Whether a list of configured tokens accepts a presented one. *)
Definition accepts (tokens : list string) (clientToken : string) : bool :=
  existsb (fun token => checkAuthToken (GetHashAlgo token) clientToken token) tokens.

Lemma scan_tokens_of role l rest t :
  scan_tokens (map (fun token => MkAuthToken role (GetHashAlgo token) token) l ++ rest) t
  = if accepts l t then Some role else scan_tokens rest t.
Proof.
  induction l as [|x l IH]; cbn; [done|].
  destruct (checkAuthToken (GetHashAlgo x) t x); [done|]. apply IH.
Qed.

(** C24: a token that is configured several times has its strongest role.  A presented
    token is an administrator when some admin token accepts it, else a writer when
    some read-write token does, else a reader when some read-only token does, and is
    refused otherwise. *)
Theorem role_precedence admin rw ro t :
  scan_tokens (newAuthTokens admin rw ro) t =
  if accepts admin t then Some authRoleAdmin
  else if accepts rw t then Some authRoleReadWrite
  else if accepts ro t then Some authRoleReadOnly
  else None.
Proof.
  unfold newAuthTokens. rewrite !scan_tokens_of, <- (app_nil_r (map _ ro)).
  by rewrite scan_tokens_of.
Qed.
End Spec.

(** ** The cache never changes an answer *)

Section Cache.
  Context `{CR : Crypto} `{DBS : DBService}.
  Context (tokens : list authToken) (salt : string) (uuid : nat -> string).
  (** The tokens clients present, on which the salted hash has no collision. *)
  Context (presented : string -> Prop).
  Hypothesis no_collision : forall t1 t2, presented t1 -> presented t2 ->
    token_hash salt t1 = token_hash salt t2 -> t1 = t2.

(** What a cache may hold. *)
Definition cache_entry_ok (hash : string) (role : authRole) : Prop :=
  exists t, presented t /\ hash = token_hash salt t /\ t <> "" /\ scan_tokens tokens t = Some role.
Definition cache_ok (s : srv_state) : Prop :=
  forall hash role, authTokenCache s !! hash = Some role -> cache_entry_ok hash role.

(** What an effect needs, and what its answer is known to satisfy, as far as the
    cache is concerned. *)
Definition cache_pre {B} (e : srvE B) : Prop :=
  match e with CacheStore hash role => cache_entry_ok hash role | _ => True end.
Definition cache_post (B : Type) (e : srvE B) (b : B) : Prop :=
  match e in srvE B return B -> Prop with
  | CacheLoad hash => fun o => match o with Some role => cache_entry_ok hash role | None => True end
  | _ => fun _ => True
  end b.

Lemma cache_step B (e : srvE B) b s s' :
  cache_ok s -> cache_pre e -> srv_handle uuid B e s = Some (b, s') ->
  cache_post B e b /\ cache_ok s'.
Proof using.
  intros Hok Hpre H. destruct e; cbn in H; try (by injection H as <- <-).
  - injection H as <- <-. split; [|done]. cbn.
    destruct (authTokenCache s !! hash) as [role|] eqn:E; [|done]. by apply Hok.
  - injection H as <- <-. split; [done|]. intros h r. cbn.
    rewrite lookup_insert_Some. intros [[<- <-]|[_ E]]; [done|]. by apply Hok.
  - destruct (db_Query q (srvDB s)) as [[r d]|]; [|done]. by injection H as <- <-.
Qed.

Lemma cache_env s s' : srv_env s s' -> cache_ok s -> cache_ok s'.
Proof using. by intros (d & net & ->). Qed.

(** The answer without the cache. *)
Definition uncached_answer (t : string) : option (authRole * string) :=
  if t =s? "" then None
  else (fun role => (role, hex_encode (token_hash salt t))) <$> scan_tokens tokens t.

Lemma cache_hit t role :
  presented t -> cache_entry_ok (token_hash salt t) role -> scan_tokens tokens t = Some role.
Proof using no_collision.
  intros Ht (t' & Ht' & Hh & _ & Hs). by rewrite (no_collision t t' Ht Ht' Hh).
Qed.

  (** A typestate discipline that includes the cache's. *)
  Context {L : Type} (pre : L -> forall B, srvE B -> Prop)
    (post : forall B, srvE B -> B -> Prop) (upd : L -> forall B, srvE B -> B -> L).
  Hypothesis pre_cache : forall l h, pre l _ (CacheLoad h).
  Hypothesis pre_store : forall l h r, cache_entry_ok h r -> pre l _ (CacheStore h r).
  Hypothesis post_cache : forall B (e : srvE B) b, post B e b -> cache_post B e b.
  Hypothesis upd_load : forall l h b, upd l _ (CacheLoad h) b = l.
  Hypothesis upd_store : forall l h r b, upd l _ (CacheStore h r) b = l.

Lemma wp_checkAuthWithCache l t (Q : L -> option (authRole * string) -> Prop) :
  presented t -> Q l (uncached_answer t) -> wp pre post upd l (checkAuthWithCache tokens salt t) Q.
Proof using no_collision pre_cache pre_store post_cache upd_load upd_store.
  intros Ht HQ. unfold checkAuthWithCache, uncached_answer in *.
  destruct (t =s? "") eqn:E; [done|]. string_cases.
  cbn. split; [apply pre_cache|]. intros o Ho%post_cache. rewrite upd_load. cbn in Ho.
  destruct o as [role|].
  - rewrite (cache_hit t role Ht Ho) in HQ. done.
  - destruct (scan_tokens tokens t) as [role|] eqn:Es; [|done].
    cbn. split; [apply pre_store; by exists t|]. intros [] _. by rewrite upd_store.
Qed.
End Cache.
