(* ===== verification/Hashes.v ===== *)
(** * The generation of password hashes: [internal/util/cryptoutil]

    [BcryptGenerateHash] and [Argon2IDGenerateHash], with which operators and tests make
    the hashes a configuration may have in place of tokens.  The two libraries are the
    class [HashLib], with what they document: the prefix of a hash, and that a hash checks
    against its password. *)
From S2P Require Import Prelude GoStrings Http Auth.

Record Argon2idParams : Type := MkArgon2idParams {
  Memory : Z; Iterations : Z; Parallelism : Z; SaltLength : Z; KeyLength : Z }.

Class HashLib `{Crypto} : Type := {
  bcrypt_GenerateFromPassword : string -> Z -> result string;
  argon2id_CreateHash : string -> Argon2idParams -> result string;
  bcrypt_generated : forall password cost hash,
    bcrypt_GenerateFromPassword password cost = Ok hash ->
    HasPrefix hash "$2a$" = true /\ bcrypt_CompareHashAndPassword hash password = None;
  argon2id_generated : forall password params hash,
    argon2id_CreateHash password params = Ok hash ->
    HasPrefix hash "$argon2id$" = true /\ argon2id_ComparePasswordAndHash password hash = Ok true }.

(** [bcrypt.MinCost], [bcrypt.MaxCost] and [bcrypt.DefaultCost] *)
Definition MinCost : Z := 4.
Definition MaxCost : Z := 31.
Definition DefaultCost : Z := 10.

Section Hashes.
  Context `{HL : HashLib}.

Definition pickedCost (cost : list Z) : Z :=
  match cost with
  | [] => DefaultCost
  | c :: _ => if (MinCost <? c) && (c <? MaxCost) then c else DefaultCost
  end.

(** [BcryptGenerateHash(password, cost...)] *)
Definition BcryptGenerateHash (password : string) (cost : list Z) : result string :=
  bcrypt_GenerateFromPassword password (pickedCost cost).

(** [argon2idHashParams] *)
Definition argon2idHashParams : Argon2idParams := MkArgon2idParams (64 * 1024) 2 2 16 32.

(** [Argon2IDGenerateHash(password)] *)
Definition Argon2IDGenerateHash (password : string) : result string :=
  argon2id_CreateHash password argon2idHashParams.

(** The cost is one that bcrypt takes, whatever was asked for. *)
Lemma pickedCost_valid cost : MinCost <= pickedCost cost <= MaxCost.
Proof.
  destruct cost as [|c cost]; [done|]. cbn. destruct (Z.ltb_spec MinCost c), (Z.ltb_spec c MaxCost); cbn;
    unfold MinCost, MaxCost, DefaultCost in *; lia.
Qed.

(** The ends of the range are taken for invalid. *)
Lemma pickedCost_ends : pickedCost [MinCost] = DefaultCost /\ pickedCost [MaxCost] = DefaultCost.
Proof. done. Qed.

Lemma bcrypt_not_argon2id hash : HasPrefix hash "$2a$" = true -> HasPrefix hash "$argon2id$" = false.
Proof.
  unfold HasPrefix. destruct hash as [|c [|d hash]]; cbn -[ascii_dec].
  - done.
  - by destruct (ascii_dec "$" c).
  - destruct (ascii_dec "$" c); [|done]. by destruct (ascii_dec "2" d) as [<-|].
Qed.

(** A hash made by either function, put in the configuration, accepts its password: its
    algorithm is recognised by its prefix. *)
Theorem generated_accepted password hash :
  (exists cost, BcryptGenerateHash password cost = Ok hash) \/ Argon2IDGenerateHash password = Ok hash ->
  accepts [hash] password = true.
Proof using HL.
  intros [[cost Hh]|Hh]; cbn; unfold GetHashAlgo.
  - apply bcrypt_generated in Hh as [Hp Hc]. rewrite (bcrypt_not_argon2id _ Hp), Hp. cbn.
    unfold BcryptCheckHash. by rewrite Hc.
  - apply argon2id_generated in Hh as [Hp Hc]. rewrite Hp. cbn.
    unfold Argon2IDCheckHash. by rewrite Hc.
Qed.
End Hashes.

(** A library whose hashes are passwords behind the prefix of their algorithm. *)
#[local] Instance plain_crypto : Crypto := {|
  bcrypt_CompareHashAndPassword hash password :=
    if hash =s? "$2a$" +:+ password then None else Some (ErrNew "mismatch");
  argon2id_ComparePasswordAndHash password hash := Ok (hash =s? "$argon2id$" +:+ password) |}.
#[local] Instance plain_hashes : HashLib.
Proof.
  refine {| bcrypt_GenerateFromPassword password _ := Ok ("$2a$" +:+ password);
            argon2id_CreateHash password _ := Ok ("$argon2id$" +:+ password) |}.
  - intros password cost hash [= <-]. split; [by destruct password|]. cbn. by rewrite String.eqb_refl.
  - intros password params hash [= <-]. split; [by destruct password|]. cbn. by rewrite String.eqb_refl.
Defined.

Lemma generated_accepted_witness : accepts ["$2a$secret"] "secret" = true.
Proof. apply generated_accepted. left. exists []. reflexivity. Defined.
