(* ===== verification/VdlAccessors.v ===== *)
(** * The accessors of the interface types: [internal/vdl/types.go], [pointers.go]

    Each field has two: [Get] answers the zero value of its type when the receiver is nil,
    or the field is an absent optional one, and [GetOr] answers a default.  A nil receiver
    is [None].  The zero value of an enumeration is the empty string, which none of the
    declared values is: the [Get] of such a field is an option.  A nil slice or map, the
    zero value of its type, is the empty one. *)
From S2P Require Import Prelude GoStrings GoTime Stats Sqlite VdlTypes VdlDecode.

(** [if x != nil { return x.Field }; return zero] *)
Definition get {T A} (field : T -> A) (zero : A) (x : option T) : A :=
  match x with Some x => field x | None => zero end.
(** [if x != nil && x.Field != nil { return *x.Field }; return zero] *)
Definition get_opt {T A} (field : T -> option A) (zero : A) (x : option T) : A :=
  match x with
  | Some x => match field x with Some v => v | None => zero end
  | None => zero
  end.

(** [Ptr(value)] and [Or(pointer, defaultValue)] *)
Definition Ptr {A} (value : A) : option A := Some value.
Definition Or {A} (pointer : option A) (defaultValue : A) : A :=
  match pointer with None => defaultValue | Some value => value end.

(** ** Zero values *)

Definition zero_float : spec_float := S754_zero false.
Definition zero_DatabaseQueryInput : DatabaseQueryInput := [].
Definition zero_DatabaseQueryOutput : DatabaseQueryOutput := MkDatabaseQueryOutput 0 [].
Definition zero_DatabaseQuery : VDatabaseQuery :=
  MkVDatabaseQuery zero_DatabaseQueryInput zero_DatabaseQueryOutput.
Definition zero_StatsTotalsCounters : StatsTotalsCounters := MkStatsTotalsCounters 0 0 0 0 0 0 0.
Definition zero_StatsQueuedCounters : StatsQueuedCounters := MkStatsQueuedCounters 0 0 0.
Definition zero_Stats : VStats :=
  MkVStats zero_time 0 zero_StatsTotalsCounters zero_StatsQueuedCounters ∅.
Definition zero_SystemHealthOutput : SystemHealthOutput := MkSystemHealthOutput false false "".
Definition zero_SystemHealth : VSystemHealth := MkVSystemHealth zero_SystemHealthOutput.
Definition zero_SystemStatusOutput : SystemStatusOutput := MkSystemStatusOutput "" "" zero_Stats.
Definition zero_SystemStatus : VSystemStatus := MkVSystemStatus zero_SystemStatusOutput.

(** ** The accessors *)

(** *** [Database] *)

Definition Database_GetQuery (x : option VDatabase) : VDatabaseQuery :=
  get vdQuery zero_DatabaseQuery x.
Definition Database_GetQueryOr (x : option VDatabase)
    (defaultValue : VDatabaseQuery) : VDatabaseQuery :=
  get vdQuery defaultValue x.

(** *** [DatabaseQuery] *)

Definition DatabaseQuery_GetInput (x : option VDatabaseQuery) : DatabaseQueryInput :=
  get dqInput zero_DatabaseQueryInput x.
Definition DatabaseQuery_GetInputOr (x : option VDatabaseQuery)
    (defaultValue : DatabaseQueryInput) : DatabaseQueryInput :=
  get dqInput defaultValue x.
Definition DatabaseQuery_GetOutput (x : option VDatabaseQuery) : DatabaseQueryOutput :=
  get dqOutput zero_DatabaseQueryOutput x.
Definition DatabaseQuery_GetOutputOr (x : option VDatabaseQuery)
    (defaultValue : DatabaseQueryOutput) : DatabaseQueryOutput :=
  get dqOutput defaultValue x.

(** *** [DatabaseQueryInput] *)

Definition DatabaseQueryInput_GetQueries (x : option DatabaseQueryInput) : list VQuery :=
  get id [] x.
Definition DatabaseQueryInput_GetQueriesOr (x : option DatabaseQueryInput)
    (defaultValue : list VQuery) : list VQuery :=
  get id defaultValue x.

(** *** [DatabaseQueryOutput] *)

Definition DatabaseQueryOutput_GetTime (x : option DatabaseQueryOutput) : Z := get doTime 0 x.
Definition DatabaseQueryOutput_GetTimeOr (x : option DatabaseQueryOutput) (defaultValue : Z) : Z :=
  get doTime defaultValue x.
Definition DatabaseQueryOutput_GetResults (x : option DatabaseQueryOutput) : list VQueryResult :=
  get doResults [] x.
Definition DatabaseQueryOutput_GetResultsOr (x : option DatabaseQueryOutput)
    (defaultValue : list VQueryResult) : list VQueryResult :=
  get doResults defaultValue x.

(** *** [Query] *)

Definition Query_GetTxId (x : option VQuery) : string := get_opt vqTxId "" x.
Definition Query_GetTxIdOr (x : option VQuery) (defaultValue : string) : string :=
  get_opt vqTxId defaultValue x.
Definition Query_GetQuery (x : option VQuery) : string := get vqQuery "" x.
Definition Query_GetQueryOr (x : option VQuery) (defaultValue : string) : string :=
  get vqQuery defaultValue x.
Definition Query_GetParams (x : option VQuery) : list VQueryParam := get_opt vqParams [] x.
Definition Query_GetParamsOr (x : option VQuery)
    (defaultValue : list VQueryParam) : list VQueryParam :=
  get_opt vqParams defaultValue x.

(** *** [QueryParam] *)

Definition QueryParam_GetName (x : option VQueryParam) : string := get_opt vpName "" x.
Definition QueryParam_GetNameOr (x : option VQueryParam) (defaultValue : string) : string :=
  get_opt vpName defaultValue x.
Definition QueryParam_GetValue (x : option VQueryParam) : SqliteValue := get vpValue emptyValue x.
Definition QueryParam_GetValueOr (x : option VQueryParam)
    (defaultValue : SqliteValue) : SqliteValue :=
  get vpValue defaultValue x.

(** *** [QueryResult] *)

Definition QueryResult_GetType (x : option VQueryResult) : option QueryResultType := vrType <$> x.
Definition QueryResult_GetTypeOr (x : option VQueryResult)
    (defaultValue : QueryResultType) : QueryResultType :=
  get vrType defaultValue x.
Definition QueryResult_GetTime (x : option VQueryResult) : Z := get vrTime 0 x.
Definition QueryResult_GetTimeOr (x : option VQueryResult) (defaultValue : Z) : Z :=
  get vrTime defaultValue x.
Definition QueryResult_GetError (x : option VQueryResult) : string := get_opt vrError "" x.
Definition QueryResult_GetErrorOr (x : option VQueryResult) (defaultValue : string) : string :=
  get_opt vrError defaultValue x.
Definition QueryResult_GetTxId (x : option VQueryResult) : string := get_opt vrTxId "" x.
Definition QueryResult_GetTxIdOr (x : option VQueryResult) (defaultValue : string) : string :=
  get_opt vrTxId defaultValue x.
Definition QueryResult_GetLastInsertId (x : option VQueryResult) : Z :=
  get_opt vrLastInsertId 0 x.
Definition QueryResult_GetLastInsertIdOr (x : option VQueryResult) (defaultValue : Z) : Z :=
  get_opt vrLastInsertId defaultValue x.
Definition QueryResult_GetRowsAffected (x : option VQueryResult) : Z :=
  get_opt vrRowsAffected 0 x.
Definition QueryResult_GetRowsAffectedOr (x : option VQueryResult) (defaultValue : Z) : Z :=
  get_opt vrRowsAffected defaultValue x.
Definition QueryResult_GetColumns (x : option VQueryResult) : list string :=
  get_opt vrColumns [] x.
Definition QueryResult_GetColumnsOr (x : option VQueryResult)
    (defaultValue : list string) : list string :=
  get_opt vrColumns defaultValue x.
Definition QueryResult_GetTypes (x : option VQueryResult) : list SqliteStorageClass :=
  get_opt vrTypes [] x.
Definition QueryResult_GetTypesOr (x : option VQueryResult)
    (defaultValue : list SqliteStorageClass) : list SqliteStorageClass :=
  get_opt vrTypes defaultValue x.
Definition QueryResult_GetRows (x : option VQueryResult) : (list (list SqliteValue)) :=
  get_opt vrRows [] x.
Definition QueryResult_GetRowsOr (x : option VQueryResult)
    (defaultValue : (list (list SqliteValue))) : (list (list SqliteValue)) :=
  get_opt vrRows defaultValue x.

(** *** [SqliteValue] *)

Definition SqliteValue_GetNull (x : option SqliteValue) : bool := get_opt svNull false x.
Definition SqliteValue_GetNullOr (x : option SqliteValue) (defaultValue : bool) : bool :=
  get_opt svNull defaultValue x.
Definition SqliteValue_GetInteger (x : option SqliteValue) : Z := get_opt svInteger 0 x.
Definition SqliteValue_GetIntegerOr (x : option SqliteValue) (defaultValue : Z) : Z :=
  get_opt svInteger defaultValue x.
Definition SqliteValue_GetReal (x : option SqliteValue) : spec_float :=
  get_opt svReal zero_float x.
Definition SqliteValue_GetRealOr (x : option SqliteValue)
    (defaultValue : spec_float) : spec_float :=
  get_opt svReal defaultValue x.
Definition SqliteValue_GetText (x : option SqliteValue) : string := get_opt svText "" x.
Definition SqliteValue_GetTextOr (x : option SqliteValue) (defaultValue : string) : string :=
  get_opt svText defaultValue x.
Definition SqliteValue_GetBlob (x : option SqliteValue) : string := get_opt svBlob "" x.
Definition SqliteValue_GetBlobOr (x : option SqliteValue) (defaultValue : string) : string :=
  get_opt svBlob defaultValue x.

(** *** [Stats] *)

Definition Stats_GetStartedAt (x : option VStats) : Z := get vsStartedAt zero_time x.
Definition Stats_GetStartedAtOr (x : option VStats) (defaultValue : Z) : Z :=
  get vsStartedAt defaultValue x.
Definition Stats_GetUptimeSeconds (x : option VStats) : Z := get vsUptimeSeconds 0 x.
Definition Stats_GetUptimeSecondsOr (x : option VStats) (defaultValue : Z) : Z :=
  get vsUptimeSeconds defaultValue x.
Definition Stats_GetTotals (x : option VStats) : StatsTotalsCounters :=
  get vsTotals zero_StatsTotalsCounters x.
Definition Stats_GetTotalsOr (x : option VStats)
    (defaultValue : StatsTotalsCounters) : StatsTotalsCounters :=
  get vsTotals defaultValue x.
Definition Stats_GetQueued (x : option VStats) : StatsQueuedCounters :=
  get vsQueued zero_StatsQueuedCounters x.
Definition Stats_GetQueuedOr (x : option VStats)
    (defaultValue : StatsQueuedCounters) : StatsQueuedCounters :=
  get vsQueued defaultValue x.
Definition Stats_GetMinutes (x : option VStats) : gmap string StatsTotalsCounters :=
  get vsMinutes ∅ x.
Definition Stats_GetMinutesOr (x : option VStats)
    (defaultValue : gmap string StatsTotalsCounters) : gmap string StatsTotalsCounters :=
  get vsMinutes defaultValue x.

(** *** [StatsQueuedCounters] *)

Definition StatsQueuedCounters_GetBegins (x : option StatsQueuedCounters) : Z := get vkBegins 0 x.
Definition StatsQueuedCounters_GetBeginsOr (x : option StatsQueuedCounters)
    (defaultValue : Z) : Z :=
  get vkBegins defaultValue x.
Definition StatsQueuedCounters_GetWrites (x : option StatsQueuedCounters) : Z := get vkWrites 0 x.
Definition StatsQueuedCounters_GetWritesOr (x : option StatsQueuedCounters)
    (defaultValue : Z) : Z :=
  get vkWrites defaultValue x.
Definition StatsQueuedCounters_GetHttpRequests (x : option StatsQueuedCounters) : Z :=
  get vkHttpRequests 0 x.
Definition StatsQueuedCounters_GetHttpRequestsOr (x : option StatsQueuedCounters)
    (defaultValue : Z) : Z :=
  get vkHttpRequests defaultValue x.

(** *** [StatsTotalsCounters] *)

Definition StatsTotalsCounters_GetReads (x : option StatsTotalsCounters) : Z := get vtReads 0 x.
Definition StatsTotalsCounters_GetReadsOr (x : option StatsTotalsCounters)
    (defaultValue : Z) : Z :=
  get vtReads defaultValue x.
Definition StatsTotalsCounters_GetWrites (x : option StatsTotalsCounters) : Z := get vtWrites 0 x.
Definition StatsTotalsCounters_GetWritesOr (x : option StatsTotalsCounters)
    (defaultValue : Z) : Z :=
  get vtWrites defaultValue x.
Definition StatsTotalsCounters_GetBegins (x : option StatsTotalsCounters) : Z := get vtBegins 0 x.
Definition StatsTotalsCounters_GetBeginsOr (x : option StatsTotalsCounters)
    (defaultValue : Z) : Z :=
  get vtBegins defaultValue x.
Definition StatsTotalsCounters_GetCommits (x : option StatsTotalsCounters) : Z :=
  get vtCommits 0 x.
Definition StatsTotalsCounters_GetCommitsOr (x : option StatsTotalsCounters)
    (defaultValue : Z) : Z :=
  get vtCommits defaultValue x.
Definition StatsTotalsCounters_GetRollbacks (x : option StatsTotalsCounters) : Z :=
  get vtRollbacks 0 x.
Definition StatsTotalsCounters_GetRollbacksOr (x : option StatsTotalsCounters)
    (defaultValue : Z) : Z :=
  get vtRollbacks defaultValue x.
Definition StatsTotalsCounters_GetErrors (x : option StatsTotalsCounters) : Z := get vtErrors 0 x.
Definition StatsTotalsCounters_GetErrorsOr (x : option StatsTotalsCounters)
    (defaultValue : Z) : Z :=
  get vtErrors defaultValue x.
Definition StatsTotalsCounters_GetHttpRequests (x : option StatsTotalsCounters) : Z :=
  get vtHttpRequests 0 x.
Definition StatsTotalsCounters_GetHttpRequestsOr (x : option StatsTotalsCounters)
    (defaultValue : Z) : Z :=
  get vtHttpRequests defaultValue x.

(** *** [System] *)

Definition System_GetHealth (x : option VSystem) : VSystemHealth :=
  get vyHealth zero_SystemHealth x.
Definition System_GetHealthOr (x : option VSystem)
    (defaultValue : VSystemHealth) : VSystemHealth :=
  get vyHealth defaultValue x.
Definition System_GetSession (x : option VSystem) : option VSystemSession := vySession <$> x.
Definition System_GetSessionOr (x : option VSystem)
    (defaultValue : VSystemSession) : VSystemSession :=
  get vySession defaultValue x.
Definition System_GetStatus (x : option VSystem) : VSystemStatus :=
  get vyStatus zero_SystemStatus x.
Definition System_GetStatusOr (x : option VSystem)
    (defaultValue : VSystemStatus) : VSystemStatus :=
  get vyStatus defaultValue x.

(** *** [SystemHealth] *)

Definition SystemHealth_GetOutput (x : option VSystemHealth) : SystemHealthOutput :=
  get vhOutput zero_SystemHealthOutput x.
Definition SystemHealth_GetOutputOr (x : option VSystemHealth)
    (defaultValue : SystemHealthOutput) : SystemHealthOutput :=
  get vhOutput defaultValue x.

(** *** [SystemHealthOutput] *)

Definition SystemHealthOutput_GetHealthy (x : option SystemHealthOutput) : bool :=
  get shHealthy false x.
Definition SystemHealthOutput_GetHealthyOr (x : option SystemHealthOutput)
    (defaultValue : bool) : bool :=
  get shHealthy defaultValue x.
Definition SystemHealthOutput_GetDatabase (x : option SystemHealthOutput) : bool :=
  get shDatabase false x.
Definition SystemHealthOutput_GetDatabaseOr (x : option SystemHealthOutput)
    (defaultValue : bool) : bool :=
  get shDatabase defaultValue x.
Definition SystemHealthOutput_GetMessage (x : option SystemHealthOutput) : string :=
  get shMessage "" x.
Definition SystemHealthOutput_GetMessageOr (x : option SystemHealthOutput)
    (defaultValue : string) : string :=
  get shMessage defaultValue x.

(** *** [SystemSession] *)

Definition SystemSession_GetOutput (x : option VSystemSession) : option SystemSessionOutput :=
  veOutput <$> x.
Definition SystemSession_GetOutputOr (x : option VSystemSession)
    (defaultValue : SystemSessionOutput) : SystemSessionOutput :=
  get veOutput defaultValue x.

(** *** [SystemSessionOutput] *)

Definition SystemSessionOutput_GetRole (x : option SystemSessionOutput) : option VAuthRole :=
  soRole <$> x.
Definition SystemSessionOutput_GetRoleOr (x : option SystemSessionOutput)
    (defaultValue : VAuthRole) : VAuthRole :=
  get soRole defaultValue x.

(** *** [SystemStatus] *)

Definition SystemStatus_GetOutput (x : option VSystemStatus) : SystemStatusOutput :=
  get vaOutput zero_SystemStatusOutput x.
Definition SystemStatus_GetOutputOr (x : option VSystemStatus)
    (defaultValue : SystemStatusOutput) : SystemStatusOutput :=
  get vaOutput defaultValue x.

(** *** [SystemStatusOutput] *)

Definition SystemStatusOutput_GetName (x : option SystemStatusOutput) : string := get ssName "" x.
Definition SystemStatusOutput_GetNameOr (x : option SystemStatusOutput)
    (defaultValue : string) : string :=
  get ssName defaultValue x.
Definition SystemStatusOutput_GetVersion (x : option SystemStatusOutput) : string :=
  get ssVersion "" x.
Definition SystemStatusOutput_GetVersionOr (x : option SystemStatusOutput)
    (defaultValue : string) : string :=
  get ssVersion defaultValue x.
Definition SystemStatusOutput_GetStats (x : option SystemStatusOutput) : VStats :=
  get ssStats zero_Stats x.
Definition SystemStatusOutput_GetStatsOr (x : option SystemStatusOutput)
    (defaultValue : VStats) : VStats :=
  get ssStats defaultValue x.

(** ** Their common law *)

(** An accessor is [Or] on the path through the pointers. *)
Lemma get_opt_or {T A} (field : T -> option A) zero x :
  get_opt field zero x = Or (x ≫= field) zero.
Proof. by destruct x as [x|]; [cbn; destruct (field x)|]. Qed.

Lemma get_or {T A} (field : T -> A) zero x : get field zero x = Or (field <$> x) zero.
Proof. by destruct x. Qed.
