(* ===== verification/VdlEnums.v ===== *)
(** * The enumerations of the interface: [internal/vdl/enums.go]

    An enumeration is a Go string type: any string is a value of it, and [IsValid] tells
    the declared ones.  [VAuthRole], [QueryResultType] and [SqliteStorageClass] are the
    declared values; [String] gives their text.  The JSON text of a string is the JSON
    library's (the class [JSONString]). *)
From S2P Require Import Prelude GoStrings Sqlite VdlTypes.

(** [json.Marshal(s)] and [json.Unmarshal(data, &s)] for a string [s]. *)
Class JSONString : Type := {
  json_MarshalString : string -> result string;
  json_UnmarshalString : string -> result string }.

(** [cannot marshal invalid value %q for E enum] and [invalid value %q for E enum] *)
Definition invalid_marshal (name value : string) : go_error :=
  ErrNew ("cannot marshal invalid value " +:+ Quote value +:+ " for " +:+ name +:+ " enum").
Definition invalid_unmarshal (name value : string) : go_error :=
  ErrNew ("invalid value " +:+ Quote value +:+ " for " +:+ name +:+ " enum").

(** ** [AuthRole] *)

Definition AuthRole_String (e : VAuthRole) : string :=
  match e with
  | AuthRoleAdmin => "admin"
  | AuthRoleReadWrite => "rw"
  | AuthRoleReadOnly => "ro"
  end.
Definition AuthRoleList : list VAuthRole := [AuthRoleAdmin; AuthRoleReadWrite; AuthRoleReadOnly].
Definition AuthRole_IsValid (e : string) : bool :=
  (e =s? "admin") || (e =s? "rw") || (e =s? "ro").
Definition AuthRole_MarshalJSON `{JSONString} (e : string) : result string :=
  if negb (AuthRole_IsValid e) then Err (invalid_marshal "AuthRole" e)
  else json_MarshalString e.
Definition AuthRole_UnmarshalJSON `{JSONString} (data : string) : result string :=
  match json_UnmarshalString data with
  | Err err => Err err
  | Ok value =>
      if negb (AuthRole_IsValid value) then Err (invalid_unmarshal "AuthRole" value)
      else Ok value
  end.

(** ** [QueryResultType] *)

Definition QueryResultType_String (e : QueryResultType) : string :=
  match e with
  | QueryResultTypeRead => "read"
  | QueryResultTypeWrite => "write"
  | QueryResultTypeBegin => "begin"
  | QueryResultTypeCommit => "commit"
  | QueryResultTypeRollback => "rollback"
  | QueryResultTypeError => "error"
  end.
Definition QueryResultTypeList : list QueryResultType :=
  [QueryResultTypeRead; QueryResultTypeWrite; QueryResultTypeBegin; QueryResultTypeCommit;
   QueryResultTypeRollback; QueryResultTypeError].
Definition QueryResultType_IsValid (e : string) : bool :=
  (e =s? "read") || (e =s? "write") || (e =s? "begin") || (e =s? "commit")
  || (e =s? "rollback") || (e =s? "error").
Definition QueryResultType_MarshalJSON `{JSONString} (e : string) : result string :=
  if negb (QueryResultType_IsValid e) then Err (invalid_marshal "QueryResultType" e)
  else json_MarshalString e.
Definition QueryResultType_UnmarshalJSON `{JSONString} (data : string) : result string :=
  match json_UnmarshalString data with
  | Err err => Err err
  | Ok value =>
      if negb (QueryResultType_IsValid value)
      then Err (invalid_unmarshal "QueryResultType" value) else Ok value
  end.

(** ** [SqliteStorageClass] *)

Definition SqliteStorageClassList : list SqliteStorageClass :=
  [SqliteStorageClassNull; SqliteStorageClassInteger; SqliteStorageClassReal;
   SqliteStorageClassText; SqliteStorageClassBlob].
Definition SqliteStorageClass_IsValid (e : string) : bool :=
  (e =s? "NULL") || (e =s? "INTEGER") || (e =s? "REAL") || (e =s? "TEXT") || (e =s? "BLOB").
Definition SqliteStorageClass_MarshalJSON `{JSONString} (e : string) : result string :=
  if negb (SqliteStorageClass_IsValid e) then Err (invalid_marshal "SqliteStorageClass" e)
  else json_MarshalString e.
Definition SqliteStorageClass_UnmarshalJSON `{JSONString} (data : string) : result string :=
  match json_UnmarshalString data with
  | Err err => Err err
  | Ok value =>
      if negb (SqliteStorageClass_IsValid value)
      then Err (invalid_unmarshal "SqliteStorageClass" value) else Ok value
  end.

(** ** What an enumeration promises *)

(** The text of a string of letters survives the JSON library. *)
Fixpoint letters (s : string) : bool :=
  match s with
  | EmptyString => true
  | String a s =>
      let n := Z.of_nat (byte_ord a) in
      (((65 <=? n) && (n <=? 90)) || ((97 <=? n) && (n <=? 122))) && letters s
  end.
Definition json_strings_roundtrip `{JSONString} : Prop :=
  forall s, letters s = true -> exists data, json_MarshalString s = Ok data
                                   /\ json_UnmarshalString data = Ok s.

Record enum_contract {E} (text : E -> string) (values : list E) (valid : string -> bool)
    (marshal unmarshal : string -> result string) : Prop := {
  (** The list has every declared value once, and no two share a text. *)
  enum_all : NoDup values /\ forall e, e ∈ values;
  enum_inj : Inj (=) (=) text;
  (** The valid strings are the texts of the declared values. *)
  enum_valid s : valid s = true <-> exists e, s = text e;
  (** Encoding refuses every other string, and decoding never produces one. *)
  enum_marshal_invalid s : valid s = false -> is_err (marshal s) = true;
  enum_unmarshal_valid data s : unmarshal data = Ok s -> valid s = true;
  (** A declared value survives a round trip. *)
  enum_roundtrip e : exists data, marshal (text e) = Ok data /\ unmarshal data = Ok (text e) }.

(** The texts compared by [valid]. *)
Lemma valid_texts {E} (text : E -> string) values (valid : string -> bool) :
  (forall e, e ∈ values) ->
  (forall s, valid s = existsb (fun e => s =s? text e) values) ->
  forall s, valid s = true <-> exists e, s = text e.
Proof.
  intros Hall Hv s. rewrite Hv, existsb_exists. split.
  - intros (e & _ & ->%String.eqb_eq). by exists e.
  - intros [e ->]. exists e. split; [apply list_elem_of_In, Hall|apply String.eqb_refl].
Qed.

Section Contract.
  Context `{JSONString} (Hjson : json_strings_roundtrip).
  Context {E : Type} (text : E -> string) (values : list E).
  Context (valid : string -> bool) (name : string).

Lemma enum_contract_intro (marshal unmarshal : string -> result string) :
  NoDup values -> (forall e, e ∈ values) -> Inj (=) (=) text ->
  (forall e, letters (text e) = true) ->
  (forall s, valid s = existsb (fun e => s =s? text e) values) ->
  (forall s, marshal s
     = if negb (valid s) then Err (invalid_marshal name s) else json_MarshalString s) ->
  (forall data, unmarshal data
     = match json_UnmarshalString data with
       | Err err => Err err
       | Ok s => if negb (valid s) then Err (invalid_unmarshal name s) else Ok s
       end) ->
  enum_contract text values valid marshal unmarshal.
Proof using Hjson.
  intros Hnd Hall Hinj Hlet Hv Hm Hu.
  assert (Hvalid := valid_texts text values valid Hall Hv).
  assert (Hok : forall e, valid (text e) = true) by (intros e; apply Hvalid; eauto).
  split; [done|done|done| | |].
  - intros s Hs. by rewrite Hm, Hs.
  - intros data s. rewrite Hu. destruct (json_UnmarshalString data) as [v|]; [|done].
    destruct (valid v) eqn:Ev; [|done]. by intros [= <-].
  - intros e. destruct (Hjson (text e) (Hlet e)) as (data & Hd & Hd').
    exists data. by rewrite Hm, Hu, Hd', Hok.
Qed.
End Contract.

#[export] Instance VAuthRole_eq_dec : EqDecision VAuthRole.
Proof. solve_decision. Defined.
#[export] Instance QueryResultType_eq_dec : EqDecision QueryResultType.
Proof. solve_decision. Defined.
#[export] Instance SqliteStorageClass_eq_dec : EqDecision SqliteStorageClass.
Proof. solve_decision. Defined.

Ltac enum Hjson :=
  eapply enum_contract_intro;
  [ exact Hjson
  | apply (bool_decide_unpack _); vm_compute; reflexivity
  | intros []; apply (bool_decide_unpack _); vm_compute; reflexivity
  | intros [] [] Heq; first [reflexivity|discriminate Heq]
  | intros []; reflexivity
  | intros s; cbn; by rewrite ?orb_false_r, ?orb_assoc
  | reflexivity | reflexivity ].

(** The three enumerations keep their contract: the list holds every declared value once;
    the valid strings are exactly the texts of the declared values, which are distinct;
    encoding refuses any other string and decoding never produces one; and every declared
    value survives encoding and decoding. *)
Theorem enum_contracts `{JSONString} (Hjson : json_strings_roundtrip) :
  enum_contract AuthRole_String AuthRoleList AuthRole_IsValid AuthRole_MarshalJSON
    AuthRole_UnmarshalJSON
  /\ enum_contract QueryResultType_String QueryResultTypeList QueryResultType_IsValid
       QueryResultType_MarshalJSON QueryResultType_UnmarshalJSON
  /\ enum_contract StorageClass_String SqliteStorageClassList SqliteStorageClass_IsValid
       SqliteStorageClass_MarshalJSON SqliteStorageClass_UnmarshalJSON.
Proof. split; [|split]; enum Hjson. Qed.

(** A JSON library that writes a string between quotes. *)
Definition quoting_json : JSONString := {|
  json_MarshalString s := Ok (dquote +:+ s +:+ dquote);
  json_UnmarshalString data :=
    match data with
    | String _ rest => Ok (String.substring 0 (String.length rest - 1) rest)
    | EmptyString => Err (ErrNew "unexpected end of JSON input")
    end |}.

Lemma substring_prefix s t : String.substring 0 (String.length s) (s +:+ t) = s.
Proof. induction s as [|a s IH]; [by destruct t|]. cbn. by rewrite IH. Qed.

Lemma enum_contracts_witness :
  @json_strings_roundtrip quoting_json
  /\ @AuthRole_UnmarshalJSON quoting_json (dquote +:+ "rw" +:+ dquote) = Ok "rw"
  /\ is_err (@AuthRole_UnmarshalJSON quoting_json (dquote +:+ "root" +:+ dquote)) = true
  /\ exists data, @AuthRole_MarshalJSON quoting_json (AuthRole_String AuthRoleReadOnly) = Ok data
               /\ @AuthRole_UnmarshalJSON quoting_json data = Ok "ro".
Proof.
  assert (H : @json_strings_roundtrip quoting_json).
  { intros s _. eexists. split; [reflexivity|]. cbn. f_equal.
    rewrite string_length_app. cbn. rewrite Nat.add_sub. apply substring_prefix. }
  split; [exact H|]. split; [reflexivity|]. split; [reflexivity|].
  destruct (@enum_contracts quoting_json H) as [A _].
  exact (enum_roundtrip _ _ _ _ _ A AuthRoleReadOnly).
Defined.
