(* ===== verification/Vdl.v ===== *)
(** * The RPC layer: [internal/vdl/server.go]

    The generated dispatcher: the catalogue of operations, the registration of
    handlers, deserializers, middlewares and error handlers, and the life of a request.
    What a handler can do is a parameter ([srvE] for this server); the response is
    written through the interface [HTTPAdapter].  [handleRequest] is the path of a
    procedure; VdlStream.v has the streams.  The JSON library (goccy/go-json) is the class
    [GoJSON].

    A request has one context, which the global and RPC middlewares, the adapters of the
    typed entries and the error handler all have a pointer to.  So what gets that pointer
    takes the context as it finds it and returns it as it leaves it; the typed contexts of
    the entries are fresh, and passed by value. *)
From S2P Require Import Prelude GoStrings GoTime Stats Sqlite DbState Goroutines VdlTypes VdlDecode Http.

(** ** Calls and responses *)

(** [Error] and [ToError]; no handler of the server returns an [Error] as its error. *)
Record VError : Type := MkVError { veMessage : string; veCategory : string; veCode : string }.
Definition noError : VError := MkVError "" "" "".
Definition ToError (err : go_error) : VError := MkVError (error_string err) "" "".

(** [(Error) Error()] and [String()] *)
Definition VError_Error (e : VError) : string := veMessage e.
Definition VError_String (e : VError) : string := veMessage e.

(** [(Error) Is(target)] *)
Definition VError_Is (e t : VError) : bool :=
  if negb (veCode e =s? "") && negb (veCode t =s? "") then veCode e =s? veCode t
  else veMessage e =s? veMessage t.

(** The inputs and outputs of the four procedures, as values of type [any].  The role of a
    session is [None] in the zero value of its Go type, whose role is the empty string. *)
Inductive RpcInput : Type :=
| InRaw (rawInput : string)
| InQuery (queries : list VQuery)
| InVoid.
Inductive RpcOutput : Type :=
| OutNone
| OutQuery (o : DatabaseQueryOutput)
| OutHealth (o : SystemHealthOutput)
| OutSession (role : option VAuthRole)
| OutStatus (o : SystemStatusOutput).

(** [x.(A)] with the zero value of [A] if [x] has another type, and the conversion back. *)
Class AnyOf (U A : Type) : Type := {
  to_any : A -> U;
  of_any : U -> A;
  of_to_any : forall a, of_any (to_any a) = a }.
#[export] Instance any_query_input : AnyOf RpcInput (list VQuery) := {|
  to_any := InQuery;
  of_any x := match x with InQuery queries => queries | _ => [] end;
  of_to_any _ := eq_refl |}.
#[export] Instance any_void : AnyOf RpcInput unit := {|
  to_any _ := InVoid;
  of_any _ := tt;
  of_to_any 'tt := eq_refl |}.
#[export] Instance any_query_output : AnyOf RpcOutput DatabaseQueryOutput := {|
  to_any := OutQuery;
  of_any x := match x with OutQuery o => o | _ => MkDatabaseQueryOutput 0 [] end;
  of_to_any _ := eq_refl |}.
#[export] Instance any_health_output : AnyOf RpcOutput SystemHealthOutput := {|
  to_any := OutHealth;
  of_any x := match x with OutHealth o => o | _ => MkSystemHealthOutput false false "" end;
  of_to_any _ := eq_refl |}.
#[export] Instance any_session_output : AnyOf RpcOutput (option VAuthRole) := {|
  to_any := OutSession;
  of_any x := match x with OutSession role => role | _ => None end;
  of_to_any _ := eq_refl |}.
#[export] Instance any_status_output : AnyOf RpcOutput SystemStatusOutput := {|
  to_any := OutStatus;
  of_any x :=
    match x with
    | OutStatus o => o
    | _ => MkSystemStatusOutput "" ""
             (MkVStats zero_time 0 (MkStatsTotalsCounters 0 0 0 0 0 0 0)
                (MkStatsQueuedCounters 0 0 0) ∅)
    end;
  of_to_any _ := eq_refl |}.

Record Response : Type := MkResponse { rspOk : bool; rspOutput : RpcOutput; rspError : VError }.

Class GoJSON : Type := {
  gojson_Decode : http_body -> option string;
  gojson_Unmarshal_input : string -> result preDatabaseQueryInput;
  gojson_Marshal_response : Response -> result string;
  gojson_Encode_object : list (string * string) -> result string }.

(** [(Response) String()], and [Bytes()] below *)
Definition Response_String `{GoJSON} (r : Response) : string :=
  match gojson_Marshal_response r with
  | Ok encoded => encoded
  | Err e =>
      "{" +:+ Quote "ok" +:+ ":false," +:+ Quote "error" +:+ ":{" +:+ Quote "message" +:+ ":"
      +:+ Quote ("failed to marshal response: " +:+ error_string e) +:+ "}}"
  end.

Definition Response_Bytes `{GoJSON} (r : Response) : string := Response_String r.

Inductive OperationType : Type := OperationTypeProc | OperationTypeStream.
Record Annotation : Type := MkAnnotation { anName : string; anArgument : gany }.
Record OperationDefinition : Type := MkOperation {
  opRPCName : string; opName : string; opType : OperationType;
  opAnnotations : list Annotation }.

(** [cloneAnnotations(annotations)]: a new slice with the same elements. *)
Definition cloneAnnotations (annotations : list Annotation) : list Annotation :=
  map (fun a => a) annotations.

(** [(OperationDefinition) Path()] *)
Definition Operation_Path (o : OperationDefinition) : string :=
  "/" +:+ opRPCName o +:+ "/" +:+ opName o.

Definition VDLProcedures : list OperationDefinition :=
  [MkOperation "Database" "query" OperationTypeProc [];
   MkOperation "System" "health" OperationTypeProc [];
   MkOperation "System" "session" OperationTypeProc [];
   MkOperation "System" "status" OperationTypeProc []].
Definition VDLStreams : list OperationDefinition := [].

(** [VDLPaths]: the catalogue of paths, and that it agrees with the definitions. *)
Record DatabasePaths : Type := MkDatabasePaths { pathQuery : string }.
Record SystemPaths : Type := MkSystemPaths {
  pathHealth : string; pathSession : string; pathStatus : string }.
Definition VDLPaths : DatabasePaths * SystemPaths :=
  (MkDatabasePaths "/Database/query",
   MkSystemPaths "/System/health" "/System/session" "/System/status").

Lemma VDLPaths_catalogue :
  let '(database, system) := VDLPaths in
  map Operation_Path (VDLProcedures ++ VDLStreams)
  = [pathQuery database; pathHealth system; pathSession system; pathStatus system].
Proof. reflexivity. Qed.

(** ** The server *)

(** [HTTPAdapter]: how a handler writes the response of a request. *)
Class HTTPAdapter (E : Type -> Type) : Type := {
  adapter_SetHeader : string -> string -> E unit;
  adapter_Write : string -> E (option go_error) }.

(** [NetHTTPAdapter]: the [http.ResponseWriter] of a request. *)
#[export] Instance NetHTTPAdapter : HTTPAdapter srvE := {|
  adapter_SetHeader := SetHeader;
  adapter_Write := WriteBody |}.

Section Server.
  (** What a handler can do, and the props of a request. *)
  Context {E : Type -> Type} {P : Type}.

Record HandlerContext (I : Type) : Type := MkHandlerContext {
  hcProps : P;
  hcInput : I;
  hcAnnotations : list Annotation;
  hcOperation : OperationDefinition }.
#[global] Arguments MkHandlerContext {I}.
#[global] Arguments hcProps {I} c : rename.
#[global] Arguments hcInput {I} c : rename.
#[global] Arguments hcAnnotations {I} c : rename.
#[global] Arguments hcOperation {I} c : rename.

(** The context of a request; what is called with the pointer to it. *)
Definition ctx : Type := HandlerContext RpcInput.
Definition GlobalHandlerFunc : Type := ctx -> prog E (result RpcOutput * ctx).
Definition GlobalMiddlewareFunc : Type := GlobalHandlerFunc -> GlobalHandlerFunc.

(** The typed signatures; the context of the request goes through them, for the adapters
    ([typed_middleware]) to read and write. *)
Definition ProcHandlerFunc (I O : Type) : Type := HandlerContext I -> ctx -> prog E (result O * ctx).
Definition ProcMiddlewareFunc (I O : Type) : Type := ProcHandlerFunc I O -> ProcHandlerFunc I O.
Definition DeserializerFunc : Type := string -> result RpcInput.
Definition ErrorHandlerFunc : Type := ctx -> go_error -> VError.

(** [internalServer]; a map of maps is a map on pairs of names. *)
Record internalServer : Type := MkInternalServer {
  operationDefs : gmap (string * string) OperationDefinition;
  procHandlers : gmap (string * string) GlobalHandlerFunc;
  procDeserializers : gmap (string * string) DeserializerFunc;
  globalMiddlewares : list GlobalMiddlewareFunc;
  rpcMiddlewares : gmap string (list GlobalMiddlewareFunc);
  procMiddlewares : gmap (string * string) (list GlobalMiddlewareFunc);
  globalErrorHandler : option ErrorHandlerFunc;
  rpcErrorHandlers : gmap string ErrorHandlerFunc }.

(** [newInternalServer(procDefs, streamDefs)] *)
Definition newInternalServer (procDefs streamDefs : list OperationDefinition) : internalServer :=
  let add m def := <[(opRPCName def, opName def) := def]> m in
  MkInternalServer (fold_left add streamDefs (fold_left add procDefs ∅)) ∅ ∅ [] ∅ ∅ None ∅.

(** [NewServer()] *)
Definition vdl_NewServer : internalServer := newInternalServer VDLProcedures VDLStreams.

(** [addGlobalMiddleware], [addRPCMiddleware], [addProcMiddleware]; the last panics for an
    RPC that the catalogue does not have (an assignment into a nil map). *)
Definition has_rpc (s : internalServer) (rpcName : string) : bool :=
  existsb (fun kv => fst (fst kv) =s? rpcName) (map_to_list (operationDefs s)).
Definition addGlobalMiddleware (mw : GlobalMiddlewareFunc) (s : internalServer) : internalServer :=
  MkInternalServer (operationDefs s) (procHandlers s) (procDeserializers s)
    (globalMiddlewares s ++ [mw]) (rpcMiddlewares s) (procMiddlewares s)
    (globalErrorHandler s) (rpcErrorHandlers s).
Definition addRPCMiddleware (rpcName : string) (mw : GlobalMiddlewareFunc) (s : internalServer) :
    internalServer :=
  MkInternalServer (operationDefs s) (procHandlers s) (procDeserializers s)
    (globalMiddlewares s)
    (<[rpcName := default [] (rpcMiddlewares s !! rpcName) ++ [mw]]> (rpcMiddlewares s))
    (procMiddlewares s) (globalErrorHandler s) (rpcErrorHandlers s).
Definition addProcMiddleware (rpcName procName : string) (mw : GlobalMiddlewareFunc)
    (s : internalServer) : option internalServer :=
  if has_rpc s rpcName then
    Some (MkInternalServer (operationDefs s) (procHandlers s) (procDeserializers s)
            (globalMiddlewares s) (rpcMiddlewares s)
            (<[(rpcName, procName) :=
                 default [] (procMiddlewares s !! (rpcName, procName)) ++ [mw]]>
               (procMiddlewares s))
            (globalErrorHandler s) (rpcErrorHandlers s))
  else None.

(** [setGlobalErrorHandler], [setRPCErrorHandler] *)
Definition setGlobalErrorHandler (handler : ErrorHandlerFunc) (s : internalServer) :
    internalServer :=
  MkInternalServer (operationDefs s) (procHandlers s) (procDeserializers s)
    (globalMiddlewares s) (rpcMiddlewares s) (procMiddlewares s) (Some handler)
    (rpcErrorHandlers s).
Definition setRPCErrorHandler (rpcName : string) (handler : ErrorHandlerFunc)
    (s : internalServer) : internalServer :=
  MkInternalServer (operationDefs s) (procHandlers s) (procDeserializers s)
    (globalMiddlewares s) (rpcMiddlewares s) (procMiddlewares s) (globalErrorHandler s)
    (<[rpcName := handler]> (rpcErrorHandlers s)).

(** [resolveErrorHandler(rpcName)] *)
Definition resolveErrorHandler (s : internalServer) (rpcName : string) : ErrorHandlerFunc :=
  match rpcErrorHandlers s !! rpcName with
  | Some handler => handler
  | None =>
      match globalErrorHandler s with
      | Some handler => handler
      | None => fun _ err => ToError err
      end
  end.

(** The generated registration API: [Server], and the registries of its two RPCs. *)
Definition Server_Use (mw : GlobalMiddlewareFunc) (s : internalServer) : internalServer :=
  addGlobalMiddleware mw s.
Definition Server_SetErrorHandler (handler : ErrorHandlerFunc) (s : internalServer) :
    internalServer := setGlobalErrorHandler handler s.
Definition Database_Use (mw : GlobalMiddlewareFunc) (s : internalServer) : internalServer :=
  addRPCMiddleware "Database" mw s.
Definition Database_SetErrorHandler (handler : ErrorHandlerFunc) (s : internalServer) :
    internalServer := setRPCErrorHandler "Database" handler s.
Definition System_Use (mw : GlobalMiddlewareFunc) (s : internalServer) : internalServer :=
  addRPCMiddleware "System" mw s.
Definition System_SetErrorHandler (handler : ErrorHandlerFunc) (s : internalServer) :
    internalServer := setRPCErrorHandler "System" handler s.

(** [(HandlerContext) RPCName()], [OperationName()], [OperationType()] *)
Definition Context_RPCName {I} (c : HandlerContext I) : string := opRPCName (hcOperation c).
Definition Context_OperationName {I} (c : HandlerContext I) : string := opName (hcOperation c).
Definition Context_OperationType {I} (c : HandlerContext I) : OperationType := opType (hcOperation c).

(** [setProcHandler]: a second registration panics, as does one for an RPC that the
    catalogue does not have. *)
Definition setProcHandler (rpcName procName : string) (handler : GlobalHandlerFunc)
    (deserializer : DeserializerFunc) (s : internalServer) : option internalServer :=
  match procHandlers s !! (rpcName, procName) with
  | Some _ => None
  | None =>
      if has_rpc s rpcName then
        Some (MkInternalServer (operationDefs s)
                (<[(rpcName, procName) := handler]> (procHandlers s))
                (<[(rpcName, procName) := deserializer]> (procDeserializers s))
                (globalMiddlewares s) (rpcMiddlewares s) (procMiddlewares s)
                (globalErrorHandler s) (rpcErrorHandlers s))
      else None
  end.

(** Middlewares around a handler, the first registered outermost. *)
Definition compose_middlewares {A} (mws : list (A -> A)) (h : A) : A :=
  foldr (fun mw next => mw next) h mws.

(** [c.Input = typedInput] *)
Definition set_input (typedInput : RpcInput) (c : ctx) : ctx :=
  MkHandlerContext (hcProps c) typedInput (hcAnnotations c) (hcOperation c).

(** [handleProcRequest], with the context as it leaves it. *)
Definition handleProcRequest (s : internalServer) (c : ctx) (rpcName procName rawInput : string) :
    prog E (result RpcOutput * ctx) :=
  match procHandlers s !! (rpcName, procName) with
  | None => mret (Err (ErrNew (rpcName +:+ "." +:+ procName +:+ " procedure not implemented")), c)
  | Some baseHandler =>
      match procDeserializers s !! (rpcName, procName) with
      | None =>
          mret (Err (ErrNew (rpcName +:+ "." +:+ procName
                             +:+ " procedure deserializer not registered")), c)
      | Some deserialize =>
          match deserialize rawInput with
          | Err e => mret (Err e, c)
          | Ok typedInput =>
              compose_middlewares (globalMiddlewares s)
                (compose_middlewares (default [] (rpcMiddlewares s !! rpcName))
                   (compose_middlewares (default [] (procMiddlewares s !! (rpcName, procName)))
                      baseHandler))
                (set_input typedInput c)
          end
      end
  end.

  Context `{J : GoJSON} `{HTTPAdapter E}.

(** [writeProcResponse] *)
Definition writeProcResponse (response : Response) : prog E (option go_error) :=
  _ ← act (adapter_SetHeader "Content-Type" "application/json");
  e ← act (adapter_Write (Response_Bytes response));
  mret (wrap_opt "failed to write response" e).

Definition error_response (message : string) : Response :=
  MkResponse false OutNone (MkVError message "" "").

(** The response to a procedure's outcome. *)
Definition proc_response (s : internalServer) (c : ctx) (rpcName : string)
    (outcome : result RpcOutput) : Response :=
  match outcome with
  | Err err => MkResponse false OutNone (resolveErrorHandler s rpcName c err)
  | Ok output => MkResponse true output noError
  end.

(** The context of a new request. *)
Definition new_context (props : P) (rawInput : string) (operation : OperationDefinition) : ctx :=
  MkHandlerContext props (InRaw rawInput) (cloneAnnotations (opAnnotations operation))
    (MkOperation (opRPCName operation) (opName operation) (opType operation)
       (cloneAnnotations (opAnnotations operation))).

(** [handleRequest], for a catalogue of procedures. *)
Definition handleRequest (s : internalServer) (props : P) (rpcName operationName : string)
    (body : http_body) : prog E (option go_error) :=
  match gojson_Decode body with
  | None => writeProcResponse (error_response "Invalid request body")
  | Some rawInput =>
      match operationDefs s !! (rpcName, operationName) with
      | None =>
          writeProcResponse
            (error_response ("Invalid operation: " +:+ rpcName +:+ "." +:+ operationName))
      | Some operation =>
          '(outcome, c) ← handleProcRequest s (new_context props rawInput operation) rpcName
                            operationName rawInput;
          writeProcResponse (proc_response s c rpcName outcome)
      end
  end.

(** ** The typed entries *)

Section Entries.
  Context {I O : Type} `{AI : AnyOf RpcInput I} `{AO : AnyOf RpcOutput O}.

(** The fresh typed context of an adapter. *)
Definition specific (cGeneric : ctx) : HandlerContext I :=
  MkHandlerContext (hcProps cGeneric) (of_any (hcInput cGeneric))
    (cloneAnnotations (hcAnnotations cGeneric)) (hcOperation cGeneric).

(** The adapted handler of [Handle]: a business handler has nothing but its own context. *)
Definition typed_handler (handler : HandlerContext I -> prog E (result O)) : GlobalHandlerFunc :=
  fun cGeneric =>
    r ← handler (specific cGeneric);
    mret (match r with Ok output => Ok (to_any output) | Err e => Err e end, cGeneric).

(** The adapted middleware of [Use]: [typedNext] writes the typed context back before it
    goes on with the generic one. *)
Definition typed_next (next : GlobalHandlerFunc) : ProcHandlerFunc I O := fun c cGeneric =>
  '(genericOutput, cGeneric) ←
     next (MkHandlerContext (hcProps c) (to_any (hcInput c)) (cloneAnnotations (hcAnnotations c))
             (hcOperation cGeneric));
  mret (match genericOutput with Ok output => Ok (of_any output) | Err e => Err e end, cGeneric).
Definition typed_middleware (mw : ProcMiddlewareFunc I O) : GlobalMiddlewareFunc :=
  fun next cGeneric =>
    '(r, cGeneric) ← mw (typed_next next) (specific cGeneric) cGeneric;
    mret (match r with Ok output => Ok (to_any output) | Err e => Err e end, cGeneric).

Definition entry_Use (rpcName procName : string) (mw : ProcMiddlewareFunc I O)
    (s : internalServer) : option internalServer :=
  addProcMiddleware rpcName procName (typed_middleware mw) s.
Definition entry_Handle (rpcName procName : string)
    (handler : HandlerContext I -> prog E (result O)) (deserializer : DeserializerFunc)
    (s : internalServer) : option internalServer :=
  setProcHandler rpcName procName (typed_handler handler) deserializer s.
End Entries.

(** The deserializer of [Database.query], whose third case never happens: the validation
    comes first. *)
Definition query_deserializer : DeserializerFunc := fun raw =>
  match DatabaseQueryInput_UnmarshalJSON (gojson_Unmarshal_input raw) with
  | Some (Ok queries) => Ok (InQuery queries)
  | Some (Err e) => Err (ErrWrap "failed to unmarshal Database.query input" e)
  | None => Err (ErrNew "panic")
  end.
(** The deserializer of the [System] procedures, which have no input. *)
Definition void_deserializer : DeserializerFunc := fun _ => Ok InVoid.

(** [Use] and [Handle] of the four entries. *)
Definition DatabaseQuery_Use (mw : ProcMiddlewareFunc (list VQuery) DatabaseQueryOutput)
    (s : internalServer) : option internalServer := entry_Use "Database" "query" mw s.
Definition DatabaseQuery_Handle
    (handler : HandlerContext (list VQuery) -> prog E (result DatabaseQueryOutput))
    (s : internalServer) : option internalServer :=
  entry_Handle "Database" "query" handler query_deserializer s.
Definition SystemHealth_Use (mw : ProcMiddlewareFunc unit SystemHealthOutput)
    (s : internalServer) : option internalServer := entry_Use "System" "health" mw s.
Definition SystemHealth_Handle
    (handler : HandlerContext unit -> prog E (result SystemHealthOutput))
    (s : internalServer) : option internalServer :=
  entry_Handle "System" "health" handler void_deserializer s.
Definition SystemSession_Use (mw : ProcMiddlewareFunc unit (option VAuthRole))
    (s : internalServer) : option internalServer := entry_Use "System" "session" mw s.
Definition SystemSession_Handle
    (handler : HandlerContext unit -> prog E (result (option VAuthRole)))
    (s : internalServer) : option internalServer :=
  entry_Handle "System" "session" handler void_deserializer s.
Definition SystemStatus_Use (mw : ProcMiddlewareFunc unit SystemStatusOutput)
    (s : internalServer) : option internalServer := entry_Use "System" "status" mw s.
Definition SystemStatus_Handle
    (handler : HandlerContext unit -> prog E (result SystemStatusOutput))
    (s : internalServer) : option internalServer :=
  entry_Handle "System" "status" handler void_deserializer s.
End Server.
Arguments HandlerContext P I : clear implicits.
Arguments ctx P : clear implicits.
Arguments internalServer E P : clear implicits.
Arguments GlobalHandlerFunc E P : clear implicits.
Arguments GlobalMiddlewareFunc E P : clear implicits.
Arguments ProcHandlerFunc E P I O : clear implicits.
Arguments ProcMiddlewareFunc E P I O : clear implicits.
Arguments ErrorHandlerFunc P : clear implicits.
