(* ===== verification/VdlTyped.v ===== *)
(** * The typed entries of the RPC layer: [internal/vdl/server.go]

    [Handle] and [Use] of the generated entries hide values of type [any] and one shared
    context behind typed functions.  What follows says that they lose nothing: a request
    runs the typed middlewares around the typed handler, as if they had been composed
    directly.  Programs that do the same after every answer are equal by functional
    extensionality. *)
From Stdlib Require Import FunctionalExtensionality.
From S2P Require Import Prelude GoStrings Sqlite DbState Goroutines VdlTypes VdlDecode Http Vdl.

(** ** Programs up to their continuations *)

Lemma prog_bind_assoc {E A B C} (p : prog E A) (f : A -> prog E B) (g : B -> prog E C) :
  prog_bind g (prog_bind f p) = prog_bind (fun a => prog_bind g (f a)) p.
Proof.
  induction p as [a|X e k IH]; cbn; [done|]. f_equal. extensionality b. apply IH.
Qed.

Lemma prog_bind_Ret {E A} (p : prog E A) : prog_bind Ret p = p.
Proof. induction p as [a|X e k IH]; cbn; [done|]. f_equal. extensionality b. apply IH. Qed.

Lemma prog_bind_ext {E A B} (f g : A -> prog E B) p :
  (forall a, f a = g a) -> prog_bind f p = prog_bind g p.
Proof. intros H. f_equal. by extensionality a. Qed.

Section Typed.
  Context {E : Type -> Type} {P I O : Type}.
  Context `{AI : AnyOf RpcInput I} `{AO : AnyOf RpcOutput O}.

(** ** The composition that is meant *)

(** The context of the request once a typed middleware has passed [c] on, and the context
    that the next one gets: what was passed on, for the operation of the request. *)
Definition written (c : HandlerContext P I) (cGeneric : ctx P) : ctx P :=
  MkHandlerContext (hcProps c) (to_any (hcInput c)) (hcAnnotations c) (hcOperation cGeneric).
Definition passed (c : HandlerContext P I) (cGeneric : ctx P) : HandlerContext P I :=
  MkHandlerContext (hcProps c) (hcInput c) (hcAnnotations c) (hcOperation cGeneric).

(** The middlewares around the handler, the first outermost. *)
Fixpoint typed_chain (mws : list (ProcMiddlewareFunc E P I O))
    (handler : HandlerContext P I -> prog E (result O)) : ProcHandlerFunc E P I O :=
  match mws with
  | [] => fun c cGeneric => r ← handler c; mret (r, cGeneric)
  | mw :: mws' =>
      mw (fun c cGeneric => typed_chain mws' handler (passed c cGeneric) (written c cGeneric))
  end.

(** The outcome as a value of type [any]. *)
Definition boxed (x : result O * ctx P) : result RpcOutput * ctx P :=
  (match fst x with Ok output => Ok (to_any output) | Err e => Err e end, snd x).

Lemma clone_id l : cloneAnnotations l = l.
Proof. apply map_id. Qed.

Lemma specific_written (c : HandlerContext P I) cGeneric :
  specific (written c cGeneric) = passed c cGeneric.
Proof. unfold specific, written, passed. cbn. by rewrite of_to_any, clone_id. Qed.

(** The adapters do what is meant. *)
Lemma adapted_chain mws handler (cGeneric : ctx P) :
  compose_middlewares (map typed_middleware mws) (typed_handler handler) cGeneric
  = prog_bind (fun x => Ret (boxed x)) (typed_chain mws handler (specific cGeneric) cGeneric).
Proof.
  revert cGeneric. induction mws as [|mw mws IH]; intros cGeneric;
    cbn [map compose_middlewares foldr].
  - unfold typed_handler. cbn [typed_chain]. unfold mbind, prog_mbind.
    rewrite prog_bind_assoc. apply prog_bind_ext. by intros [r|e].
  - unfold typed_middleware at 1. unfold mbind, prog_mbind.
    set (next := fold_right _ _ _) in *.
    assert (Hn : typed_next next
              = fun c cGeneric => typed_chain mws handler (passed c cGeneric) (written c cGeneric)).
    { extensionality c. extensionality cg. unfold typed_next. rewrite clone_id.
      change (MkHandlerContext (hcProps c) (to_any (hcInput c)) (hcAnnotations c) (hcOperation cg))
        with (written c cg).
      unfold mbind, prog_mbind. subst next. etransitivity.
      { apply (f_equal (prog_bind _)). exact (IH (written c cg)). }
      rewrite prog_bind_assoc, specific_written. etransitivity; [|apply prog_bind_Ret].
      apply prog_bind_ext. intros [[o|e] cg']; cbn; by rewrite ?of_to_any. }
    rewrite Hn. apply prog_bind_ext. by intros [[o|e] cg].
Qed.

(** ** Registration *)

(** [Use] for each middleware, then [Handle]; [None] is a panic. *)
Definition register_entry (rpcName procName : string) (mws : list (ProcMiddlewareFunc E P I O))
    (handler : HandlerContext P I -> prog E (result O)) (deserializer : DeserializerFunc)
    (s : internalServer E P) : option (internalServer E P) :=
  s ← foldl (fun s mw => s ← s; entry_Use rpcName procName mw s) (Some s) mws;
  entry_Handle rpcName procName handler deserializer s.

(** The server with middlewares of one procedure. *)
Definition with_mws (k : string * string) (mws : list (GlobalMiddlewareFunc E P))
    (s : internalServer E P) : internalServer E P :=
  MkInternalServer (operationDefs s) (procHandlers s) (procDeserializers s)
    (globalMiddlewares s) (rpcMiddlewares s) (<[k := mws]> (procMiddlewares s))
    (globalErrorHandler s) (rpcErrorHandlers s).

Lemma use_one rpcName procName (mw : ProcMiddlewareFunc E P I O) s :
  has_rpc s rpcName = true ->
  entry_Use rpcName procName mw s
  = Some (with_mws (rpcName, procName)
            (default [] (procMiddlewares s !! (rpcName, procName)) ++ [typed_middleware mw]) s).
Proof. intros Hrpc. unfold entry_Use, addProcMiddleware. by rewrite Hrpc. Qed.

Lemma use_all rpcName procName (mws : list (ProcMiddlewareFunc E P I O)) s :
  has_rpc s rpcName = true ->
  forall l, procMiddlewares s !! (rpcName, procName) = Some l ->
  foldl (fun s mw => s ← s; entry_Use rpcName procName mw s) (Some s) mws
  = Some (with_mws (rpcName, procName) (l ++ map typed_middleware mws) s).
Proof.
  intros Hrpc. revert s Hrpc. induction mws as [|mw mws IH]; intros s Hrpc l Hl.
  - cbn. rewrite app_nil_r. f_equal. destruct s. unfold with_mws. cbn in *. by rewrite insert_id.
  - cbn [foldl mbind option_bind]. rewrite (use_one _ _ _ _ Hrpc), Hl.
    erewrite IH; [|exact Hrpc|apply lookup_insert_eq].
    unfold with_mws. cbn. by rewrite insert_insert_eq, <- app_assoc.
Qed.

(** What the calls of [Use] leave. *)
Lemma use_mws rpcName procName (mws : list (ProcMiddlewareFunc E P I O)) s :
  has_rpc s rpcName = true -> procMiddlewares s !! (rpcName, procName) = None ->
  exists s0, foldl (fun s mw => s ← s; entry_Use rpcName procName mw s) (Some s) mws = Some s0
  /\ operationDefs s0 = operationDefs s /\ procHandlers s0 = procHandlers s
  /\ procDeserializers s0 = procDeserializers s
  /\ globalMiddlewares s0 = globalMiddlewares s /\ rpcMiddlewares s0 = rpcMiddlewares s
  /\ default [] (procMiddlewares s0 !! (rpcName, procName)) = map typed_middleware mws
  /\ forall k, k <> (rpcName, procName) -> procMiddlewares s0 !! k = procMiddlewares s !! k.
Proof.
  intros Hrpc Hm. destruct mws as [|mw mws].
  - exists s. split; [done|]. rewrite Hm. by split_and!.
  - eexists. split.
    + cbn [foldl mbind option_bind]. rewrite (use_one _ _ _ _ Hrpc), Hm.
      erewrite use_all; [|exact Hrpc|apply lookup_insert_eq]. reflexivity.
    + split_and!; try done; cbn; [by rewrite lookup_insert_eq|].
      intros k Hk. by rewrite !lookup_insert_ne.
Qed.

End Typed.

(** ** On the catalogue of this server *)

(** A middleware of [Database.query] that runs every query twice, one that refuses a
    request without queries, and a handler that counts what it gets. *)
Definition run_twice : ProcMiddlewareFunc srvE string (list VQuery) DatabaseQueryOutput :=
  fun next c => next (MkHandlerContext (hcProps c) (hcInput c ++ hcInput c) (hcAnnotations c)
                        (hcOperation c)).
Definition refuse_empty : ProcMiddlewareFunc srvE string (list VQuery) DatabaseQueryOutput :=
  fun next c cGeneric =>
    match hcInput c with
    | [] => mret (Err (ErrNew "no queries"), cGeneric)
    | _ => next c cGeneric
    end.
Definition count_queries (c : HandlerContext string (list VQuery)) :
    prog srvE (result DatabaseQueryOutput) :=
  mret (Ok (MkDatabaseQueryOutput (Z.of_nat (length (hcInput c))) [])).
Definition one_query : DeserializerFunc := fun raw => Ok (InQuery [MkVQuery None raw None]).

Definition query_context : ctx string :=
  new_context "me" "SELECT 1" (MkOperation "Database" "query" OperationTypeProc []).
Definition select_1 : VQuery := MkVQuery None "SELECT 1" None.

