(* ===== verification/VdlStream.v ===== *)
(** * Streams of the RPC layer: [internal/vdl/server.go]

    The catalogue of this server has no stream, but the generated dispatcher serves them:
    their registration, their configuration, [handleStreamRequest] with the goroutine that
    pings the client, and [handleRequest] for a catalogue with both kinds of operation.

    Handlers and middlewares are programs over [strE], the operations of one request that
    its goroutines can observe: the mutex [writeMu], the flag [closed], the cancellation
    of the context, the channel [pingDone], the writer, and the operations of the
    application ([OnApp]).  The [go] statement lets the ping goroutine, which waits from
    the start, begin ([PingBegin]).  After [pings] ticks the ticker of the model falls
    silent; every theorem is for any number of them. *)
From S2P Require Import Prelude GoStrings GoTime Sqlite DbState Goroutines VdlTypes Http Vdl.

(** [StreamConfig] *)
Record StreamConfig : Type := MkStreamConfig { PingInterval : Z }.

Inductive strE (App : Type -> Type) : Type -> Type :=
| OnApp {B} (e : App B) : strE App B
| StrSetHeader (key value : string) : strE App unit
| StrWrite (data : string) : strE App (option go_error)
| StrFlush : strE App (option go_error)
| WriteMuLock : strE App unit
| WriteMuUnlock : strE App unit
| LoadClosed : strE App bool
| StoreClosed : strE App unit
| GoPing (interval : Z) : strE App unit
| CtxCancel : strE App unit
| RecvPingDone : strE App unit
| PingBegin : strE App Z
| PingSelect : strE App bool
| PingWaitDone : strE App unit
| ClosePingDone : strE App unit
| EmitterBegin : strE App unit.
Arguments OnApp {App B} e.
Arguments StrSetHeader {App} key value.
Arguments StrWrite {App} data.
Arguments StrFlush {App}.
Arguments WriteMuLock {App}.
Arguments WriteMuUnlock {App}.
Arguments LoadClosed {App}.
Arguments StoreClosed {App}.
Arguments GoPing {App} interval.
Arguments CtxCancel {App}.
Arguments RecvPingDone {App}.
Arguments PingBegin {App}.
Arguments PingSelect {App}.
Arguments PingWaitDone {App}.
Arguments ClosePingDone {App}.
Arguments EmitterBegin {App}.

#[export] Instance StreamAdapter App : HTTPAdapter (strE App) := {|
  adapter_SetHeader := StrSetHeader;
  adapter_Write := StrWrite |}.

(** ** The server *)

Section Streams.
  Context {App : Type -> Type} {P : Type}.
  Abbreviation ctx := (ctx P).
  Abbreviation sprog := (prog (strE App)).

(** As in Vdl.v, what has the pointer to the context returns it as it leaves it. *)
Definition EmitFunc : Type := ctx -> RpcOutput -> sprog (option go_error * ctx).
Definition EmitMiddlewareFunc : Type := EmitFunc -> EmitFunc.
Definition StreamHandlerFunc : Type := ctx -> EmitFunc -> sprog (option go_error * ctx).
Definition StreamMiddlewareFunc : Type := StreamHandlerFunc -> StreamHandlerFunc.

(** The fields of [internalServer] that concern streams, beside those of Vdl.v. *)
Record streamServer : Type := MkStreamServer {
  procServer : internalServer (strE App) P;
  streamHandlers : gmap (string * string) StreamHandlerFunc;
  streamDeserializers : gmap (string * string) DeserializerFunc;
  streamMiddlewares : gmap (string * string) (list StreamMiddlewareFunc);
  streamEmitMiddlewares : gmap (string * string) (list EmitMiddlewareFunc);
  globalStreamConfig : StreamConfig;
  rpcStreamConfigs : gmap string StreamConfig;
  streamConfigs : gmap (string * string) StreamConfig }.

Definition defaultPingInterval : Z := 30 * second.
Definition new_streamServer (procDefs streamDefs : list OperationDefinition) : streamServer :=
  MkStreamServer (newInternalServer procDefs streamDefs) ∅ ∅ ∅ ∅
    (MkStreamConfig defaultPingInterval) ∅ ∅.

(** [addStreamMiddleware] and [addStreamEmitMiddleware]; both panic for an RPC that the
    catalogue does not have. *)
Definition addStreamMiddleware (rpcName streamName : string) (mw : StreamMiddlewareFunc)
    (s : streamServer) : option streamServer :=
  if has_rpc (procServer s) rpcName then
    Some (MkStreamServer (procServer s) (streamHandlers s) (streamDeserializers s)
            (<[(rpcName, streamName) :=
                 default [] (streamMiddlewares s !! (rpcName, streamName)) ++ [mw]]>
               (streamMiddlewares s))
            (streamEmitMiddlewares s) (globalStreamConfig s) (rpcStreamConfigs s)
            (streamConfigs s))
  else None.
Definition addStreamEmitMiddleware (rpcName streamName : string) (mw : EmitMiddlewareFunc)
    (s : streamServer) : option streamServer :=
  if has_rpc (procServer s) rpcName then
    Some (MkStreamServer (procServer s) (streamHandlers s) (streamDeserializers s)
            (streamMiddlewares s)
            (<[(rpcName, streamName) :=
                 default [] (streamEmitMiddlewares s !! (rpcName, streamName)) ++ [mw]]>
               (streamEmitMiddlewares s))
            (globalStreamConfig s) (rpcStreamConfigs s) (streamConfigs s))
  else None.

(** [setStreamHandler]: a second registration panics. *)
Definition setStreamHandler (rpcName streamName : string) (handler : StreamHandlerFunc)
    (deserializer : DeserializerFunc) (s : streamServer) : option streamServer :=
  match streamHandlers s !! (rpcName, streamName) with
  | Some _ => None
  | None =>
      if has_rpc (procServer s) rpcName then
        Some (MkStreamServer (procServer s)
                (<[(rpcName, streamName) := handler]> (streamHandlers s))
                (<[(rpcName, streamName) := deserializer]> (streamDeserializers s))
                (streamMiddlewares s) (streamEmitMiddlewares s) (globalStreamConfig s)
                (rpcStreamConfigs s) (streamConfigs s))
      else None
  end.

(** [setGlobalStreamConfig], [setRPCStreamConfig], [setStreamConfig] *)
Definition setGlobalStreamConfig (cfg : StreamConfig) (s : streamServer) : streamServer :=
  let cfg := if PingInterval cfg <=? 0 then MkStreamConfig (30 * second) else cfg in
  MkStreamServer (procServer s) (streamHandlers s) (streamDeserializers s)
    (streamMiddlewares s) (streamEmitMiddlewares s) cfg (rpcStreamConfigs s) (streamConfigs s).
Definition setRPCStreamConfig (rpcName : string) (cfg : StreamConfig) (s : streamServer) :
    streamServer :=
  MkStreamServer (procServer s) (streamHandlers s) (streamDeserializers s)
    (streamMiddlewares s) (streamEmitMiddlewares s) (globalStreamConfig s)
    (<[rpcName := cfg]> (rpcStreamConfigs s)) (streamConfigs s).
Definition setStreamConfig (rpcName streamName : string) (cfg : StreamConfig)
    (s : streamServer) : option streamServer :=
  if has_rpc (procServer s) rpcName then
    Some (MkStreamServer (procServer s) (streamHandlers s) (streamDeserializers s)
            (streamMiddlewares s) (streamEmitMiddlewares s) (globalStreamConfig s)
            (rpcStreamConfigs s) (<[(rpcName, streamName) := cfg]> (streamConfigs s)))
  else None.

(** [SetStreamConfig] of [Server] and of the registries of the two RPCs. *)
Definition Server_SetStreamConfig (cfg : StreamConfig) (s : streamServer) : streamServer :=
  setGlobalStreamConfig cfg s.
Definition Database_SetStreamConfig (cfg : StreamConfig) (s : streamServer) : streamServer :=
  setRPCStreamConfig "Database" cfg s.
Definition System_SetStreamConfig (cfg : StreamConfig) (s : streamServer) : streamServer :=
  setRPCStreamConfig "System" cfg s.

(** The interval of a stream's pings: its own, its RPC's, or the global one. *)
Definition stream_ping_interval (s : streamServer) (rpcName streamName : string) : Z :=
  let pingInterval := PingInterval (globalStreamConfig s) in
  let pingInterval :=
    match rpcStreamConfigs s !! rpcName with
    | Some cfg => if 0 <? PingInterval cfg then PingInterval cfg else pingInterval
    | None => pingInterval
    end in
  match streamConfigs s !! (rpcName, streamName) with
  | Some cfg => if 0 <? PingInterval cfg then PingInterval cfg else pingInterval
  | None => pingInterval
  end.

(** [safeWrite(parts...)] *)
Fixpoint write_parts (parts : list string) : sprog (option go_error) :=
  match parts with
  | [] => act StrFlush
  | part :: parts' =>
      e ← act (StrWrite part);
      match e with Some err => mret (Some err) | None => write_parts parts' end
  end.
Definition safeWrite (parts : list string) : sprog (option go_error) :=
  _ ← act WriteMuLock;
  deferred
    (closed ← act LoadClosed;
     if (closed : bool) then mret None else write_parts parts)
    (act WriteMuUnlock).

Definition newlines : string := String (byte_chr 10) (String (byte_chr 10) EmptyString).
Definition ping_frame : string := ": ping" +:+ newlines.

(** The ping goroutine: [for { select { ... } }], with [defer close(pingDone)]. *)
Fixpoint ping_loop (pings : nat) : sprog unit :=
  match pings with
  | O => act PingWaitDone
  | S pings' =>
      ticked ← act PingSelect;
      if (ticked : bool) then _ ← safeWrite [ping_frame]; ping_loop pings' else mret tt
  end.
Definition ping_goroutine (pings : nat) : sprog unit :=
  _ ← act PingBegin;
  deferred (ping_loop pings) (act ClosePingDone).

  Context `{J : GoJSON}.

(** [baseEmit] *)
Definition baseEmit : EmitFunc := fun c data =>
  match gojson_Marshal_response (MkResponse true data noError) with
  | Err e => mret (Some (ErrWrap "failed to marshal stream data" e), c)
  | Ok jsonData => e ← safeWrite ["data: "; jsonData; newlines]; mret (e, c)
  end.

Definition stream_emit (s : streamServer) (rpcName streamName : string) : EmitFunc :=
  compose_middlewares (default [] (streamEmitMiddlewares s !! (rpcName, streamName))) baseEmit.

(** [exec(c)]: the handler inside its middlewares, those of its RPC and the global ones. *)
Definition stream_exec (s : streamServer) (rpcName streamName : string)
    (baseHandler : StreamHandlerFunc) : GlobalHandlerFunc (strE App) P :=
  let final :=
    compose_middlewares (default [] (streamMiddlewares s !! (rpcName, streamName))) baseHandler in
  compose_middlewares (globalMiddlewares (procServer s))
    (compose_middlewares (default [] (rpcMiddlewares (procServer s) !! rpcName))
       (fun c =>
          '(e, c) ← final c (stream_emit s rpcName streamName);
          mret (match e with Some err => Err err | None => Ok OutNone end, c))).

(** [handleStreamRequest], with the context as it leaves it. *)
Definition handleStreamRequest (s : streamServer) (c : ctx) (rpcName streamName rawInput : string) :
    sprog (option go_error * ctx) :=
  let pingInterval := stream_ping_interval s rpcName streamName in
  _ ← act (StrSetHeader "Content-Type" "text/event-stream");
  _ ← act (StrSetHeader "Cache-Control" "no-cache");
  _ ← act (StrSetHeader "Connection" "keep-alive");
  match streamHandlers s !! (rpcName, streamName) with
  | None => mret (Some (ErrNew (rpcName +:+ "." +:+ streamName +:+ " stream not implemented")), c)
  | Some baseHandler =>
      match streamDeserializers s !! (rpcName, streamName) with
      | None =>
          mret (Some (ErrNew (rpcName +:+ "." +:+ streamName
                              +:+ " stream deserializer not registered")), c)
      | Some deserialize =>
          match deserialize rawInput with
          | Err err => mret (Some err, c)
          | Ok typedInput =>
              _ ← act (GoPing pingInterval);
              deferred
                ('(r, c) ← stream_exec s rpcName streamName baseHandler (set_input typedInput c);
                 mret (match r with Err err => Some err | Ok _ => None end, c))
                (_ ← act CtxCancel;
                 _ ← act RecvPingDone;
                 _ ← act WriteMuLock;
                 _ ← act StoreClosed;
                 act WriteMuUnlock)
          end
      end
  end.

(** The event that reports the failure of a stream. *)
Definition write_stream_error (response : Response) : sprog (result unit) :=
  match gojson_Marshal_response response with
  | Err e => mret (Err (ErrWrap "failed to marshal stream error" e))
  | Ok jsonData =>
      writeErr ← act (StrWrite ("data: " +:+ jsonData +:+ newlines));
      match writeErr with
      | Some e => mret (Err e)
      | None =>
          flushErr ← act StrFlush;
          mret (match flushErr with Some e => Err e | None => Ok tt end)
      end
  end.

(** The path of a procedure, after the operation is looked up. *)
Definition respond_proc (s : internalServer (strE App) P) (c : ctx)
    (rpcName operationName rawInput : string) : sprog (option go_error) :=
  '(outcome, c) ← handleProcRequest s c rpcName operationName rawInput;
  writeProcResponse (proc_response s c rpcName outcome).

(** [handleRequest]: after the event of a failed stream, the code goes on to the path of
    a procedure. *)
Definition handle_any_request (s : streamServer) (props : P) (rpcName operationName : string)
    (body : http_body) : sprog (option go_error) :=
  match gojson_Decode body with
  | None => writeProcResponse (error_response "Invalid request body")
  | Some rawInput =>
      match operationDefs (procServer s) !! (rpcName, operationName) with
      | None =>
          writeProcResponse
            (error_response ("Invalid operation: " +:+ rpcName +:+ "." +:+ operationName))
      | Some operation =>
          let c := new_context props rawInput operation in
          match opType operation with
          | OperationTypeProc => respond_proc (procServer s) c rpcName operationName rawInput
          | OperationTypeStream =>
              '(err, c) ← handleStreamRequest s c rpcName operationName rawInput;
              match err with
              | None => mret None
              | Some err =>
                  let errorHandler := resolveErrorHandler (procServer s) rpcName in
                  r ← write_stream_error (MkResponse false OutNone (errorHandler c err));
                  match r with
                  | Err e => mret (Some e)
                  | Ok _ => respond_proc (procServer s) c rpcName operationName rawInput
                  end
              end
          end
      end
  end.
End Streams.
Arguments streamServer App P : clear implicits.

(** ** The state of a request *)

(** [stTick]: a tick is pending in [ticker.C]; [stPick]: which branch [select] takes when
    both are ready; [stErr]: what the connection answers to a write. *)
Record stream_state (S : Type) : Type := MkStream {
  stApp : S;
  stWriteMu : bool;
  stClosed : bool;
  stLaunched : option Z;
  stCancelled : bool;
  stPingTaken : bool;
  stPingDone : bool;
  stTick : bool;
  stPick : bool;
  stErr : option go_error;
  stHeaders : list (string * string);
  stWire : string }.
Arguments MkStream {S}.
Arguments stApp {S}. Arguments stWriteMu {S}. Arguments stClosed {S}. Arguments stLaunched {S}.
Arguments stCancelled {S}. Arguments stPingTaken {S}. Arguments stPingDone {S}.
Arguments stTick {S}. Arguments stPick {S}. Arguments stErr {S}. Arguments stHeaders {S}.
Arguments stWire {S}.

Section State.
  Context {App : Type -> Type} {S : Type}.
  Context (app_handle : forall B, App B -> S -> option (B * S)).

Definition set_app (v : S) (s : stream_state S) : stream_state S :=
  MkStream v (stWriteMu s) (stClosed s) (stLaunched s) (stCancelled s) (stPingTaken s)
    (stPingDone s) (stTick s) (stPick s) (stErr s) (stHeaders s) (stWire s).
Definition set_writeMu (v : bool) (s : stream_state S) : stream_state S :=
  MkStream (stApp s) v (stClosed s) (stLaunched s) (stCancelled s) (stPingTaken s)
    (stPingDone s) (stTick s) (stPick s) (stErr s) (stHeaders s) (stWire s).
Definition set_closed (s : stream_state S) : stream_state S :=
  MkStream (stApp s) (stWriteMu s) true (stLaunched s) (stCancelled s) (stPingTaken s)
    (stPingDone s) (stTick s) (stPick s) (stErr s) (stHeaders s) (stWire s).
Definition set_launched (interval : Z) (s : stream_state S) : stream_state S :=
  MkStream (stApp s) (stWriteMu s) (stClosed s) (Some interval) (stCancelled s) (stPingTaken s)
    (stPingDone s) (stTick s) (stPick s) (stErr s) (stHeaders s) (stWire s).
Definition set_cancelled (s : stream_state S) : stream_state S :=
  MkStream (stApp s) (stWriteMu s) (stClosed s) (stLaunched s) true (stPingTaken s)
    (stPingDone s) (stTick s) (stPick s) (stErr s) (stHeaders s) (stWire s).
Definition set_ping (taken done : bool) (s : stream_state S) : stream_state S :=
  MkStream (stApp s) (stWriteMu s) (stClosed s) (stLaunched s) (stCancelled s) taken done
    (stTick s) (stPick s) (stErr s) (stHeaders s) (stWire s).
Definition set_ticker (tick pick : bool) (s : stream_state S) : stream_state S :=
  MkStream (stApp s) (stWriteMu s) (stClosed s) (stLaunched s) (stCancelled s) (stPingTaken s)
    (stPingDone s) tick pick (stErr s) (stHeaders s) (stWire s).
Definition set_err (e : option go_error) (s : stream_state S) : stream_state S :=
  MkStream (stApp s) (stWriteMu s) (stClosed s) (stLaunched s) (stCancelled s) (stPingTaken s)
    (stPingDone s) (stTick s) (stPick s) e (stHeaders s) (stWire s).
Definition add_header (k v : string) (s : stream_state S) : stream_state S :=
  MkStream (stApp s) (stWriteMu s) (stClosed s) (stLaunched s) (stCancelled s) (stPingTaken s)
    (stPingDone s) (stTick s) (stPick s) (stErr s) (stHeaders s ++ [(k, v)]) (stWire s).
Definition add_wire (d : string) (s : stream_state S) : stream_state S :=
  MkStream (stApp s) (stWriteMu s) (stClosed s) (stLaunched s) (stCancelled s) (stPingTaken s)
    (stPingDone s) (stTick s) (stPick s) (stErr s) (stHeaders s) (stWire s +:+ d).

Definition str_handle (B : Type) (e : strE App B) (s : stream_state S) :
    option (B * stream_state S) :=
  match e in strE _ B return option (B * stream_state S) with
  | OnApp e =>
      match app_handle _ e (stApp s) with Some (b, v) => Some (b, set_app v s) | None => None end
  | StrSetHeader k v => Some (tt, add_header k v s)
  | StrWrite d =>
      match stErr s with Some e => Some (Some e, s) | None => Some (None, add_wire d s) end
  | StrFlush => Some (None, s)
  | WriteMuLock => if stWriteMu s then None else Some (tt, set_writeMu true s)
  | WriteMuUnlock => Some (tt, set_writeMu false s)
  | LoadClosed => Some (stClosed s, s)
  | StoreClosed => Some (tt, set_closed s)
  | GoPing interval => Some (tt, set_launched interval s)
  | CtxCancel => Some (tt, set_cancelled s)
  | RecvPingDone => if stPingDone s then Some (tt, s) else None
  | PingBegin =>
      match stLaunched s with
      | Some interval =>
          if stPingTaken s then None else Some (interval, set_ping true (stPingDone s) s)
      | None => None
      end
  | PingSelect =>
      if stTick s && (negb (stCancelled s) || stPick s)
      then Some (true, set_ticker false (stPick s) s)
      else if stCancelled s then Some (false, s) else None
  | PingWaitDone => if stCancelled s then Some (tt, s) else None
  | ClosePingDone => Some (tt, set_ping (stPingTaken s) true s)
  | EmitterBegin => match stLaunched s with Some _ => Some (tt, s) | None => None end
  end.

(** What happens around the request: the application's state changes, the client goes
    away (its context is cancelled), the ticker ticks, and the connection breaks; a
    broken connection stays broken. *)
Inductive str_env : stream_state S -> stream_state S -> Prop :=
| env_app v s : str_env s (set_app v s)
| env_cancel s : str_env s (set_cancelled s)
| env_tick tick pick s : str_env s (set_ticker tick pick s)
| env_break e s : stErr s = None -> str_env s (set_err (Some e) s).
End State.
