(* ===== verification/VdlStreamSafety.v ===== *)
(** * The goroutines of a stream

    The locking discipline of [handleStreamRequest], as a typestate: what each goroutine of
    a request holds, what each operation needs, and the relation between the state and
    all the goroutines ([s_inv]).  The application's handlers and middlewares are anything
    that touches the response through [emit] only ([server_ok]).  The theorems are about
    every interleaving of the request's goroutine, the ping goroutine and any number of
    goroutines that the handler leaves behind and that go on emitting. *)
From S2P Require Import Prelude GoStrings GoTime Sqlite DbState Goroutines VdlTypes Http Vdl VdlStream.

Section Discipline.
  Context {App : Type -> Type} {S : Type}.
  Context (app_handle : forall B, App B -> S -> option (B * S)).
  Abbreviation str_handle := (str_handle app_handle).

(** ** The goroutines of a request *)

(** The request's goroutine, the ping goroutine, and any others that the handler starts
    and that go on emitting, even after it has returned. *)
Inductive stask : Type := TMain | TPing | TEmitter.

Inductive phase : Type :=
| PWait | PRunning | PCancelled | PJoined | PClosed | PMarked.
#[local] Instance phase_eq_dec : EqDecision phase.
Proof. solve_decision. Defined.

(** [sMu]: holds [writeMu]; [sOpen]: has seen [closed = false] under it; [sSent]: what it
    has written since; [sFailed]: a write has failed. *)
Record sheld : Type := SHeld {
  sTask : stask; sMu : bool; sOpen : bool; sSent : string; sFailed : bool; sPhase : phase }.
Definition s_idle (t : stask) (ph : phase) : sheld := SHeld t false false "" false ph.

(** The frames of a stream: a ping, or the event of a response. *)
Definition sse_frame (f : string) : Prop :=
  f = ping_frame \/ exists json, f = "data: " +:+ json +:+ newlines.

Definition s_needs (l : sheld) (B : Type) (e : strE App B) : Prop :=
  match e with
  | OnApp _ => l = s_idle (sTask l) PRunning /\ sTask l <> TPing
  | StrSetHeader _ _ | GoPing _ => l = s_idle TMain PWait
  | StrWrite d =>
      sOpen l = true /\ sFailed l = false /\ exists rest, sse_frame (sSent l +:+ d +:+ rest)
  | StrFlush | LoadClosed => sMu l = true
  | WriteMuLock => exists t, l = s_idle t PRunning \/ l = s_idle t PJoined
  | WriteMuUnlock =>
      sMu l = true /\ (sFailed l = true \/ sSent l = "" \/ sse_frame (sSent l))
  | StoreClosed => sTask l = TMain /\ sMu l = true /\ sOpen l = false /\ sPhase l = PJoined
  | CtxCancel => l = s_idle TMain PRunning
  | RecvPingDone => l = s_idle TMain PCancelled
  | PingBegin => l = s_idle TPing PWait
  | PingSelect | PingWaitDone => l = s_idle TPing PRunning
  | ClosePingDone => l = s_idle TPing PRunning
  | EmitterBegin => l = s_idle TEmitter PWait
  end.

Definition s_gives (B : Type) (e : strE App B) (b : B) : Prop := True.

Definition s_after (l : sheld) (B : Type) (e : strE App B) : B -> sheld :=
  match e in strE _ B return B -> sheld with
  | StrWrite d => fun b =>
      match b with
      | None => SHeld (sTask l) (sMu l) (sOpen l) (sSent l +:+ d) (sFailed l) (sPhase l)
      | Some _ => SHeld (sTask l) (sMu l) (sOpen l) (sSent l) true (sPhase l)
      end
  | WriteMuLock => fun _ => SHeld (sTask l) true false "" false (sPhase l)
  | WriteMuUnlock => fun _ => s_idle (sTask l) (sPhase l)
  | LoadClosed => fun b => SHeld (sTask l) (sMu l) (negb b) (sSent l) (sFailed l) (sPhase l)
  | StoreClosed => fun _ => SHeld (sTask l) (sMu l) (sOpen l) (sSent l) (sFailed l) PMarked
  | GoPing _ | PingBegin => fun _ => s_idle (sTask l) PRunning
  | EmitterBegin => fun _ => s_idle (sTask l) PRunning
  | CtxCancel => fun _ => s_idle (sTask l) PCancelled
  | RecvPingDone => fun _ => s_idle (sTask l) PJoined
  | ClosePingDone => fun _ => s_idle (sTask l) PClosed
  | _ => fun _ => l
  end.

(** Where each goroutine may stop. *)
Definition s_final (l : sheld) (_ : unit) : Prop :=
  match sTask l with
  | TMain => l = s_idle TMain PWait \/ l = s_idle TMain PMarked
  | TPing => l = s_idle TPing PClosed
  | TEmitter => sMu l = false
  end.

Abbreviation wps := (wp s_needs s_gives s_after).

Lemma write_parts_wp t ph parts : forall sent,
  sse_frame (sent +:+ foldr String.append "" parts) ->
  wps (SHeld t true true sent false ph) (write_parts parts)
    (fun l _ => exists sent' failed, l = SHeld t true true sent' failed ph
                /\ (failed = true \/ sse_frame sent')).
Proof.
  induction parts as [|d parts IH]; intros sent Hf; cbn in *.
  - split; [done|]. intros e _. exists sent, false. rewrite string_app_nil_r in Hf. eauto.
  - split; [eauto|]. intros [e|] _; cbn.
    + by exists sent, true; eauto.
    + apply IH. by rewrite string_app_assoc.
Qed.

Lemma safeWrite_wp t parts (Q : sheld -> option go_error -> Prop) :
  sse_frame (foldr String.append "" parts) ->
  (forall e, Q (s_idle t PRunning) e) ->
  wps (s_idle t PRunning) (safeWrite parts) Q.
Proof.
  intros Hf HQ. apply wp_vis; [by exists t; left|]. intros [] _.
  apply wp_deferred, wp_vis; [done|]. intros [|] _; cbn -[wp].
  - apply wp_ret, wp_act; cbn; [auto|]. intros [] _. apply HQ.
  - eapply wp_mono; [|apply write_parts_wp, Hf].
    intros l e (sent & failed & -> & Hs). apply wp_act; cbn.
    + destruct Hs; auto.
    + intros [] _. apply HQ.
Qed.

Lemma ping_loop_wp pings :
  wps (s_idle TPing PRunning) (ping_loop pings) (fun l _ => l = s_idle TPing PRunning).
Proof.
  induction pings as [|n IH]; (apply wp_vis; [done|]); [done|].
  intros [|] _; [|done]. apply wp_bind, safeWrite_wp; [by left|]. intros _. exact IH.
Qed.

Lemma ping_goroutine_wp pings : wps (s_idle TPing PWait) (ping_goroutine pings) s_final.
Proof.
  apply wp_vis; [done|]. intros i _. apply wp_deferred. cbn -[wp].
  eapply wp_mono; [|apply ping_loop_wp]. intros l [] ->. by apply wp_act.
Qed.

(** ** The relation between the state and the goroutines *)

Definition s_start (t : stask) : sheld := s_idle t PWait.

(** One request goroutine, one ping goroutine, any number of emitters. *)
Definition s_shape (ls : list sheld) : Prop :=
  exists n, map sTask ls = TMain :: TPing :: replicate n TEmitter.

Definition s_local (s : stream_state S) (l : sheld) : Prop :=
  (sMu l = false -> l = s_idle (sTask l) (sPhase l))
  /\ (sOpen l = true -> stClosed s = false)
  /\ (sOpen l = false -> sSent l = "")
  /\ (sFailed l = true -> stErr s <> None)
  /\ (sMu l = true -> sPhase l = PRunning \/ sPhase l = PJoined \/ sPhase l = PMarked)
  /\ match sTask l with
     | TMain =>
         (sPhase l = PWait <-> stLaunched s = None)
         /\ (sPhase l <> PWait -> sPhase l <> PRunning -> stCancelled s = true)
         /\ (sPhase l = PJoined \/ sPhase l = PMarked -> stPingDone s = true)
         /\ (stClosed s = true <-> sPhase l = PMarked)
         /\ sPhase l <> PClosed
     | TPing =>
         (stPingDone s = true <-> sPhase l = PClosed)
         /\ (stPingTaken s = true <-> sPhase l <> PWait)
         /\ (sPhase l <> PWait -> stLaunched s <> None)
         /\ (sPhase l = PWait \/ sPhase l = PRunning \/ sPhase l = PClosed)
     | TEmitter => sPhase l = PWait \/ (sPhase l = PRunning /\ stLaunched s <> None)
     end.

(** What is on the wire: whole frames, then the beginning of one, which is what the
    holder of [writeMu] has written as long as the connection works. *)
Definition s_wire (s : stream_state S) (ls : list sheld) : Prop :=
  exists fs tail rest,
    Forall sse_frame fs
    /\ stWire s = foldr String.append "" fs +:+ tail
    /\ (tail = "" \/ sse_frame (tail +:+ rest))
    /\ (stErr s = None ->
          (forall i l, ls !! i = Some l -> sMu l = true -> sSent l = tail)
          /\ (stWriteMu s = false -> tail = "")).

Record s_inv (s : stream_state S) (ls : list sheld) : Prop := {
  inv_shape : s_shape ls;
  inv_local i l : ls !! i = Some l -> s_local s l;
  inv_mu : stWriteMu s = true <-> exists i l, ls !! i = Some l /\ sMu l = true;
  inv_mu_unique i j l l' :
    ls !! i = Some l -> ls !! j = Some l' -> sMu l = true -> sMu l' = true -> i = j;
  inv_wire : s_wire s ls }.

Lemma shape_insert ls i l l' :
  s_shape ls -> ls !! i = Some l -> sTask l' = sTask l -> s_shape (<[i := l']> ls).
Proof.
  intros [n Hn] Hi Ht. exists n. rewrite <- Hn. rewrite <- (list_insert_id ls i l Hi) at 2.
  by rewrite !list_fmap_insert, Ht.
Qed.

Lemma shape_unique ls i j l l' t :
  s_shape ls -> ls !! i = Some l -> ls !! j = Some l' ->
  sTask l = t -> sTask l' = t -> t <> TEmitter -> i = j.
Proof.
  intros [n Hn] Hi Hj Ht Ht' Hne.
  assert (Hi' : map sTask ls !! i = Some t) by (by rewrite list_lookup_fmap, Hi, <- Ht).
  assert (Hj' : map sTask ls !! j = Some t) by (by rewrite list_lookup_fmap, Hj, <- Ht').
  rewrite Hn in Hi', Hj'.
  destruct i as [|[|i]], j as [|[|j]]; cbn in *; try congruence;
    repeat match goal with H : replicate _ _ !! _ = Some _ |- _ =>
      apply lookup_replicate in H as [? _] end; congruence.
Qed.

Lemma str_after_task l B (e : strE App B) b : sTask (s_after l B e b) = sTask l.
Proof. destruct e; cbn in *; try done. by destruct b. Qed.

(** A step that changes neither who holds [writeMu] nor what is written. *)
Lemma inv_frame s s' ls i l l' :
  s_inv s ls -> ls !! i = Some l -> sTask l' = sTask l ->
  sMu l' = sMu l -> sSent l' = sSent l -> stWriteMu s' = stWriteMu s ->
  stWire s' = stWire s -> stErr s' = stErr s ->
  s_local s' l' ->
  (forall j lj, ls !! j = Some lj -> j <> i -> s_local s lj -> s_local s' lj) ->
  s_inv s' (<[i := l']> ls).
Proof.
  intros [Hsh Hloc Hmu Hun Hw] Hi Ht Hm Hs Hmu' Hwi He Hl' Hrest.
  assert (Hil := lookup_lt_Some _ _ _ Hi).
  assert (Hmus : forall j lj, (<[i := l']> ls) !! j = Some lj ->
            exists lj', ls !! j = Some lj' /\ sMu lj' = sMu lj /\ sSent lj' = sSent lj).
  { intros j lj Hj. destruct (decide (j = i)) as [->|Hne].
    - rewrite list_lookup_insert_eq in Hj by done. injection Hj as <-. eauto.
    - rewrite list_lookup_insert_ne in Hj by done. eauto. }
  split.
  - by eapply shape_insert.
  - intros j lj Hj. destruct (decide (j = i)) as [->|Hne].
    + rewrite list_lookup_insert_eq in Hj by done. by injection Hj as <-.
    + rewrite list_lookup_insert_ne in Hj by done. eauto.
  - rewrite Hmu', Hmu. split.
    + intros (j & lj & Hj & Hjm). destruct (decide (j = i)) as [->|Hne].
      * exists i, l'. rewrite list_lookup_insert_eq by done. rewrite Hi in Hj.
        injection Hj as ->. by rewrite Hm.
      * exists j, lj. by rewrite list_lookup_insert_ne.
    + intros (j & lj & Hj & Hjm). destruct (Hmus j lj Hj) as (lj' & ? & Hm' & _).
      exists j, lj'. by rewrite Hm'.
  - intros j k lj lk Hj Hk Hjm Hkm. destruct (Hmus j lj Hj) as (lj' & ? & Hm1 & _).
    destruct (Hmus k lk Hk) as (lk' & ? & Hm2 & _). eapply Hun; eauto; congruence.
  - destruct Hw as (fs & tail & rest & Hfs & Hwire & Htail & Hok).
    exists fs, tail, rest. rewrite Hwi, He, Hmu'. split; [done|]. split; [done|].
    split; [done|]. intros Hn. destruct (Hok Hn) as [Hcur Hfree]. split; [|done].
    intros j lj Hj Hjm. destruct (Hmus j lj Hj) as (lj' & ? & Hm1 & Hs1).
    rewrite <- Hs1. eapply Hcur; [done|congruence].
Qed.

Lemma inv_held s ls i l : s_inv s ls -> ls !! i = Some l -> sMu l = true -> stWriteMu s = true.
Proof. intros HI Hi Hm. apply (inv_mu _ _ HI). eauto. Qed.

(** Nobody but the holder of [writeMu] has anything of it. *)
Lemma inv_others s ls i j l lj :
  s_inv s ls -> ls !! i = Some l -> sMu l = true -> ls !! j = Some lj -> j <> i ->
  lj = s_idle (sTask lj) (sPhase lj).
Proof.
  intros HI Hi Hm Hj Hne. apply (inv_local _ _ HI _ _ Hj).
  destruct (sMu lj) eqn:E; [|done]. exfalso. apply Hne. by eapply (inv_mu_unique _ _ HI).
Qed.

(** Taking and leaving [writeMu]. *)
Lemma inv_lock s ls i l :
  s_inv s ls -> ls !! i = Some l -> stWriteMu s = false ->
  sPhase l = PRunning \/ sPhase l = PJoined ->
  s_inv (set_writeMu true s)
    (<[i := SHeld (sTask l) true false "" false (sPhase l)]> ls).
Proof.
  intros HI Hi Hfree Hph. assert (Hil := lookup_lt_Some _ _ _ Hi).
  assert (Hno : forall j lj, ls !! j = Some lj -> sMu lj = false).
  { intros j lj Hj. destruct (sMu lj) eqn:E; [|done].
    by rewrite (inv_held _ _ _ _ HI Hj E) in Hfree. }
  assert (Hone : forall j lj, <[i := SHeld (sTask l) true false "" false (sPhase l)]> ls !! j
                              = Some lj -> sMu lj = true -> j = i /\ sSent lj = "").
  { intros j lj Hj Hm. destruct (decide (j = i)) as [->|Hne].
    - rewrite list_lookup_insert_eq in Hj by done. by injection Hj as <-.
    - rewrite list_lookup_insert_ne in Hj by done. by rewrite (Hno _ _ Hj) in Hm. }
  split.
  - by eapply shape_insert; [apply HI|done|].
  - intros j lj Hj. destruct (decide (j = i)) as [->|Hne].
    + rewrite list_lookup_insert_eq in Hj by done. injection Hj as <-.
      destruct (inv_local _ _ HI _ _ Hi) as (_ & _ & _ & _ & _ & Ht).
      repeat split; cbn; try done. by tauto.
    + rewrite list_lookup_insert_ne in Hj by done. exact (inv_local _ _ HI _ _ Hj).
  - cbn. split; [|done]. intros _. eexists i, _. by rewrite list_lookup_insert_eq.
  - intros j k lj lk Hj Hk Hjm Hkm. destruct (Hone _ _ Hj Hjm), (Hone _ _ Hk Hkm). congruence.
  - destruct (inv_wire _ _ HI) as (fs & tail & rest & Hfs & Hw & Ht & Hok).
    exists fs, tail, rest. cbn. split; [done|]. split; [done|]. split; [done|].
    intros He. destruct (Hok He) as [_ Htail]. split; [|done].
    intros j lj Hj Hm. destruct (Hone _ _ Hj Hm) as [_ ->]. by rewrite Htail.
Qed.

Lemma inv_unlock s ls i l :
  s_inv s ls -> ls !! i = Some l -> sMu l = true ->
  sFailed l = true \/ sSent l = "" \/ sse_frame (sSent l) ->
  s_inv (set_writeMu false s) (<[i := s_idle (sTask l) (sPhase l)]> ls).
Proof.
  intros HI Hi Hm Hsent. assert (Hil := lookup_lt_Some _ _ _ Hi).
  assert (Hno : forall j lj, <[i := s_idle (sTask l) (sPhase l)]> ls !! j = Some lj ->
                             lj = s_idle (sTask lj) (sPhase lj)).
  { intros j lj Hj. destruct (decide (j = i)) as [->|Hne].
    - rewrite list_lookup_insert_eq in Hj by done. by injection Hj as <-.
    - rewrite list_lookup_insert_ne in Hj by done. exact (inv_others _ _ _ _ _ _ HI Hi Hm Hj Hne). }
  destruct (inv_local _ _ HI _ _ Hi) as (_ & _ & _ & Hfail & _ & Htask).
  split.
  - by eapply shape_insert; [apply HI|done|].
  - intros j lj Hj. destruct (decide (j = i)) as [->|Hne].
    + rewrite list_lookup_insert_eq in Hj by done. injection Hj as <-.
      repeat split; cbn; done.
    + rewrite list_lookup_insert_ne in Hj by done. exact (inv_local _ _ HI _ _ Hj).
  - cbn. split; [done|]. intros (j & lj & Hj & Hjm). by rewrite (Hno _ _ Hj) in Hjm.
  - intros j k lj lk Hj _ Hjm. by rewrite (Hno _ _ Hj) in Hjm.
  - destruct (inv_wire _ _ HI) as (fs & tail & rest & Hfs & Hw & Ht & Hok).
    assert (Hnil : forall t, (forall j lj, <[i := s_idle (sTask l) (sPhase l)]> ls !! j = Some lj ->
                              sMu lj = true -> sSent lj = t))
      by (intros t j lj Hj Hjm; by rewrite (Hno _ _ Hj) in Hjm).
    destruct (stErr s) eqn:He.
    + exists fs, tail, rest. cbn. rewrite He. by split_and!.
    + destruct (Hok eq_refl) as [Hcur _]. specialize (Hcur i l Hi Hm). subst tail.
      destruct Hsent as [Hf|[Hs|Hf]]; [by apply Hfail in Hf| |].
      * exists fs, (sSent l), rest. cbn. split; [done|]. split; [done|]. split; [done|].
        intros _. split; [apply Hnil|auto].
      * exists (fs ++ [sSent l]), "", "". cbn. split; [by apply Forall_app_2; auto|].
        split; [|split; [by left|]; intros _; split; [apply Hnil|done]].
        rewrite Hw, string_app_nil_r, foldr_app. cbn. rewrite string_app_nil_r. clear.
        induction fs as [|f fs IH]; [done|]. cbn. by rewrite string_app_assoc, IH.
Qed.

(** A write by the holder. *)
Lemma inv_write s ls i l d :
  s_inv s ls -> ls !! i = Some l -> sMu l = true -> sOpen l = true -> stErr s = None ->
  (exists rest, sse_frame (sSent l +:+ d +:+ rest)) ->
  s_inv (add_wire d s)
    (<[i := SHeld (sTask l) (sMu l) (sOpen l) (sSent l +:+ d) (sFailed l) (sPhase l)]> ls).
Proof.
  intros HI Hi Hm Ho He [rest Hf]. assert (Hil := lookup_lt_Some _ _ _ Hi).
  destruct (inv_local _ _ HI _ _ Hi) as (_ & Hop & _ & Hfail & Hph & Htask).
  set (l' := SHeld (sTask l) (sMu l) (sOpen l) (sSent l +:+ d) (sFailed l) (sPhase l)).
  assert (Hone : forall j lj, <[i := l']> ls !! j = Some lj -> sMu lj = true -> j = i /\ lj = l').
  { intros j lj Hj Hjm. destruct (decide (j = i)) as [->|Hne].
    - rewrite list_lookup_insert_eq in Hj by done. by injection Hj as <-.
    - rewrite list_lookup_insert_ne in Hj by done.
      by rewrite (inv_others _ _ _ _ _ _ HI Hi Hm Hj Hne) in Hjm. }
  split.
  - by eapply shape_insert; [apply HI|done|].
  - intros j lj Hj. destruct (decide (j = i)) as [->|Hne].
    + rewrite list_lookup_insert_eq in Hj by done. injection Hj as <-.
      repeat split; cbn; rewrite ?Hm, ?Ho; try done; auto.
    + rewrite list_lookup_insert_ne in Hj by done. exact (inv_local _ _ HI _ _ Hj).
  - cbn. split; [|intros _; by eapply inv_held].
    intros _. exists i, l'. by rewrite list_lookup_insert_eq.
  - intros j k lj lk Hj Hk Hjm Hkm. destruct (Hone _ _ Hj Hjm), (Hone _ _ Hk Hkm). congruence.
  - destruct (inv_wire _ _ HI) as (fs & tail & rest' & Hfs & Hw & Ht & Hok).
    destruct (Hok He) as [Hcur _]. specialize (Hcur i l Hi Hm). subst tail.
    exists fs, (sSent l +:+ d), rest. cbn. split; [done|].
    split; [by rewrite Hw, string_app_assoc|]. split; [right; by rewrite string_app_assoc|].
    intros _. split; [|intros Hmu; by rewrite (inv_held _ _ _ _ HI Hi Hm) in Hmu].
    intros j lj Hj Hjm. by destruct (Hone _ _ Hj Hjm) as [_ ->].
Qed.

(** What the other goroutines know survives a step of goroutine [i]. *)
Ltac frame_other HI Hi :=
  let j := fresh "j" in let lj := fresh "lj" in let Hj := fresh "Hj" in let Hne := fresh "Hne" in
  intros j lj Hj Hne (?&?&?&?&?&Ht);
  unfold s_local; cbn; split_and!; auto; try congruence;
  let Htask := fresh "Htask" in
  destruct (sTask lj) eqn:Htask;
  try (exfalso; apply Hne;
       solve [refine (shape_unique _ _ _ _ _ _ (inv_shape _ _ HI) Hj Hi Htask _ _); done]);
  try tauto; intuition congruence.
Ltac frame_self HI Hi :=
  let Ht := fresh "Ht" in
  destruct (inv_local _ _ HI _ _ Hi) as (?&?&?&?&?&Ht);
  unfold s_local; cbn in *; split; [|split; [|split; [|split; [|split]]]]; try assumption;
  try congruence; try tauto; intuition congruence.

Ltac frame HI Hi :=
  eapply (inv_frame _ _ _ _ _ _ HI Hi); cbn; try done;
  lazymatch goal with
  | |- s_local _ _ => frame_self HI Hi
  | |- forall j lj, _ => frame_other HI Hi
  | |- _ => idtac
  end.

Lemma str_effect_inv B (e : strE App B) b s s' ls i l :
  s_inv s ls -> ls !! i = Some l -> s_needs l B e -> str_handle B e s = Some (b, s') ->
  s_gives B e b /\ s_inv s' (<[i := s_after l B e b]> ls).
Proof.
  intros HI Hi Hpre Hh. split; [done|]. destruct e; cbn in Hpre, Hh.
  - destruct (app_handle _ e (stApp s)) as [[? ?]|]; [|done]. injection Hh as <- <-. frame HI Hi.
  - injection Hh as <- <-. subst l. frame HI Hi.
  - destruct Hpre as (Ho & Hf & Hfr).
    assert (Hm : sMu l = true).
    { destruct (sMu l) eqn:E; [done|]. destruct (inv_local _ _ HI _ _ Hi) as (Hl & _).
      by rewrite (Hl E) in Ho. }
    destruct (stErr s) as [e|] eqn:He; injection Hh as <- <-; [|by apply inv_write].
    frame HI Hi.
  - injection Hh as <- <-. by rewrite list_insert_id.
  - destruct (stWriteMu s) eqn:Hmu; [done|]. injection Hh as <- <-.
    apply inv_lock; try done. destruct Hpre as [t [-> | ->]]; auto.
  - injection Hh as <- <-. destruct Hpre. by apply inv_unlock.
  - injection Hh as <- <-.
    destruct (inv_local _ _ HI _ _ Hi) as (_ & Ho & Hs & _).
    eapply (inv_frame _ _ _ _ _ _ HI Hi); cbn; try done.
    destruct (inv_local _ _ HI _ _ Hi) as (Hl1 & Hl2 & Hl3 & Hl4). 
    split; [cbn; congruence|]. split; [cbn; by destruct (stClosed s)|]. split; [|exact Hl4]. cbn.
    destruct (sOpen l), (stClosed s); auto. 
  - injection Hh as <- <-. destruct Hpre as (Ht & Hm & Ho & Hp).
    destruct l as [? ? ? ? ? ?]; cbn in Ht, Hm, Ho, Hp; subst.
    eapply (inv_frame _ _ _ _ _ _ HI Hi); cbn; try done; [frame_self HI Hi|].
    intros j lj Hj Hne Hl. assert (Hidle := inv_others _ _ _ _ _ _ HI Hi eq_refl Hj Hne).
    assert (sTask lj <> TMain).
    { intros Htask. apply Hne. by eapply (shape_unique _ _ _ _ _ _ (inv_shape _ _ HI) Hj Hi Htask). }
    unfold s_local in *. destruct (sTask lj); [done| |]; rewrite Hidle in *; cbn in *;
      destruct Hl as (_&_&Hl); (split; [done|]; split; [done|]; exact Hl).
  - injection Hh as <- <-. subst l. frame HI Hi.
  - injection Hh as <- <-. subst l. frame HI Hi.
  - destruct (stPingDone s) eqn:Hd; [|done]. injection Hh as <- <-. subst l. frame HI Hi.
  - destruct (stLaunched s) eqn:Hla; [|done]. destruct (stPingTaken s) eqn:Hta; [done|].
    injection Hh as <- <-. subst l. frame HI Hi.
  - destruct (stTick s && _); [|destruct (stCancelled s); [|done]]; injection Hh as <- <-;
      subst l; frame HI Hi.
  - destruct (stCancelled s); [|done]. injection Hh as <- <-. subst l. frame HI Hi.
  - injection Hh as <- <-. subst l. frame HI Hi.
  - destruct (stLaunched s) eqn:Hla; [|done]. injection Hh as <- <-. subst l. frame HI Hi.
Qed.

Lemma str_env_inv s s' ls : str_env s s' -> s_inv s ls -> s_inv s' ls.
Proof.
  intros Henv HI. destruct Henv as [v s|s|tick pick s|e s He].
  1-3: split; try apply HI; intros i l Hi; pose proof (inv_local _ _ HI _ _ Hi) as Hl;
       unfold s_local in *; cbn in *; destruct (sTask l); tauto.
  split; try apply HI.
  - intros i l Hi. pose proof (inv_local _ _ HI _ _ Hi) as Hl. unfold s_local in *. cbn.
    destruct Hl as (H1&H2&H3&_&H5). split; [exact H1|]. split; [exact H2|]. split; [exact H3|].
    split; [done|exact H5].
  - destruct (inv_wire _ _ HI) as (fs & tail & rest & Hfs & Hw & Ht & Hok).
    exists fs, tail, rest. by split_and!.
Qed.

Lemma str_spawn_inv s ls : s_inv s ls -> s_inv s (ls ++ [s_start TEmitter]).
Proof.
  intros HI.
  assert (Hold : forall j lj, (ls ++ [s_start TEmitter]) !! j = Some lj ->
            ls !! j = Some lj \/ lj = s_start TEmitter).
  { intros j lj [?|[? Hj]]%lookup_app_Some; [by left|right].
    by apply list_lookup_singleton_Some in Hj as [_ <-]. }
  assert (Hmu : forall j lj, (ls ++ [s_start TEmitter]) !! j = Some lj -> sMu lj = true ->
            ls !! j = Some lj) by (intros j lj Hj Hm; by destruct (Hold _ _ Hj) as [?| ->]).
  split.
  - destruct (inv_shape _ _ HI) as [n Hn]. exists (Datatypes.S n).
    by rewrite map_app, Hn, <- Nat.add_1_r, replicate_add.
  - intros j lj Hj. destruct (Hold _ _ Hj) as [?| ->]; [by eapply inv_local|].
    repeat split; cbn; auto; done.
  - rewrite (inv_mu _ _ HI). split; intros (j & lj & Hj & Hm).
    + exists j, lj. split; [|done]. by apply lookup_app_l_Some.
    + exists j, lj. eauto.
  - intros j k lj lk Hj Hk Hjm Hkm. eapply (inv_mu_unique _ _ HI); eauto.
  - destruct (inv_wire _ _ HI) as (fs & tail & rest & Hfs & Hw & Ht & Hok).
    exists fs, tail, rest. split_and!; try done. intros He. destruct (Hok He) as [Hcur Hfree].
    split; [|done]. intros j lj Hj Hm. eauto.
Qed.
End Discipline.

(** ** The application's code *)

Abbreviation wps := (wp s_needs s_gives s_after).

Section Application.
  Context {App : Type -> Type} {P : Type} `{J : GoJSON}.
  Abbreviation EmitFunc := (EmitFunc (App := App) (P := P)).
  Abbreviation StreamHandlerFunc := (StreamHandlerFunc (App := App) (P := P)).

(** It touches the response through [emit] only: the operations of the request that are
    not its own, it performs by calling what it is given. *)
Definition emit_ok (emit : EmitFunc) : Prop :=
  forall t c o, wps (s_idle t PRunning) (emit c o) (fun l _ => l = s_idle t PRunning).
Definition handler_ok (h : StreamHandlerFunc) : Prop :=
  forall emit, emit_ok emit -> forall c,
  wps (s_idle TMain PRunning) (h c emit) (fun l _ => l = s_idle TMain PRunning).
Definition exec_ok (h : GlobalHandlerFunc (strE App) P) : Prop :=
  forall c, wps (s_idle TMain PRunning) (h c) (fun l _ => l = s_idle TMain PRunning).
Definition preserves {A} (Q : A -> Prop) (mw : A -> A) : Prop := forall h, Q h -> Q (mw h).

Record server_ok (s : streamServer App P) : Prop := {
  ok_handlers k h : streamHandlers s !! k = Some h -> handler_ok h;
  ok_middlewares k mws : streamMiddlewares s !! k = Some mws -> Forall (preserves handler_ok) mws;
  ok_emit k mws : streamEmitMiddlewares s !! k = Some mws -> Forall (preserves emit_ok) mws;
  ok_rpc k mws : rpcMiddlewares (procServer s) !! k = Some mws -> Forall (preserves exec_ok) mws;
  ok_global : Forall (preserves exec_ok) (globalMiddlewares (procServer s)) }.

Lemma compose_ok {A} (Q : A -> Prop) mws h :
  Forall (preserves Q) mws -> Q h -> Q (compose_middlewares mws h).
Proof. intros Hmws Hh. by induction Hmws as [|mw mws Hmw _ IH]; [|apply Hmw]. Qed.

Lemma default_ok {A K} `{Countable K} (Q : A -> Prop) (m : gmap K (list (A -> A))) k :
  (forall k mws, m !! k = Some mws -> Forall (preserves Q) mws) ->
  Forall (preserves Q) (default [] (m !! k)).
Proof. intros Hm. destruct (m !! k) eqn:E; [by eapply Hm|constructor]. Qed.

Lemma baseEmit_ok : emit_ok baseEmit.
Proof.
  intros t c o. unfold baseEmit. destruct (gojson_Marshal_response _) as [json|e]; [|done].
  apply wp_bind, safeWrite_wp; [|done]. right. by exists json.
Qed.

  Context (s : streamServer App P) (Hs : server_ok s).
  Context (rpcName streamName : string).
  Abbreviation emit := (stream_emit s rpcName streamName).

Lemma stream_emit_ok : emit_ok emit.
Proof using Hs. apply (compose_ok emit_ok); [|exact baseEmit_ok]. apply default_ok, Hs. Qed.

Lemma stream_exec_ok h : handler_ok h -> exec_ok (stream_exec s rpcName streamName h).
Proof using Hs.
  intros Hh. apply (compose_ok exec_ok); [apply Hs|].
  apply (compose_ok exec_ok); [apply default_ok, Hs|]. intros c. apply wp_bind.
  assert (Hf : handler_ok (compose_middlewares (default [] (streamMiddlewares s !! (rpcName, streamName))) h))
    by (apply compose_ok; [apply default_ok, Hs|done]).
  eapply wp_mono; [|exact (Hf _ stream_emit_ok c)]. by intros l [[e|] c'] ->.
Qed.

(** The request's goroutine: it ends before it starts the ping goroutine, or after it has
    marked the response as closed. *)
Definition main_prog (c : ctx P) (rawInput : string) : prog (strE App) unit :=
  _ ← handleStreamRequest s c rpcName streamName rawInput; mret tt.

Lemma main_wp c rawInput : wps (s_start TMain) (main_prog c rawInput) s_final.
Proof using Hs.
  apply wp_bind. unfold handleStreamRequest.
  do 3 (apply wp_vis; [done|]; intros [] _).
  destruct (streamHandlers s !! _) as [h|] eqn:Eh; [|by left].
  destruct (streamDeserializers s !! _) as [d|]; [|by left].
  destruct (d rawInput) as [input|e]; [|by left].
  apply wp_vis; [done|]. intros [] _. apply wp_deferred, wp_bind.
  assert (He : exec_ok (stream_exec s rpcName streamName h))
    by (eapply stream_exec_ok, (ok_handlers _ Hs), Eh).
  eapply wp_mono; [|exact (He _)]. intros l [r c'] ->. apply wp_ret.
  do 2 (apply wp_vis; [done|]; intros [] _).
  apply wp_vis; [eexists; by right|]. intros [] _.
  apply wp_vis; [done|]. intros [] _. apply wp_act; [by split; [done|right; left]|].
  intros [] _. by right.
Qed.

(** A goroutine that the handler leaves behind: it emits some values, one after another,
    whatever the answers. *)
Fixpoint emit_all (c : ctx P) (outputs : list RpcOutput) : prog (strE App) unit :=
  match outputs with
  | [] => mret tt
  | o :: outputs' => _ ← emit c o; emit_all c outputs'
  end.
Definition emitter (c : ctx P) (outputs : list RpcOutput) : prog (strE App) unit :=
  _ ← act EmitterBegin; emit_all c outputs.

Lemma emitter_wp c outputs : wps (s_start TEmitter) (emitter c outputs) s_final.
Proof using Hs.
  apply wp_vis; [done|]. intros [] _. cbn -[wp].
  change (wps (s_idle TEmitter PRunning) (emit_all c outputs) s_final).
  induction outputs as [|o outputs IH]; [done|]. apply wp_bind.
  eapply wp_mono; [|exact (stream_emit_ok TEmitter c o)]. by intros l e ->.
Qed.
End Application.

(** ** The request *)

Section Request.
  Context {App : Type -> Type} {S P : Type} `{J : GoJSON}.
  Context (app_handle : forall B, App B -> S -> option (B * S)).
  Context (s : streamServer App P) (Hs : server_ok s).
  Context (rpcName streamName : string) (c : ctx P) (rawInput : string).

Definition str_spawnable (t : stask) (p : prog (strE App) unit) : Prop :=
  t = TEmitter /\ exists c' outputs, p = emitter s rpcName streamName c' outputs.

Definition str_config : Type := config (stream_state S) stask (prog (strE App) unit).
Definition str_init (g : str_config) : Prop :=
  exists app cancelled tick pick err pings,
    g = Config (MkStream app false false None cancelled false false tick pick err [] "")
          [(TMain, main_prog s rpcName streamName c rawInput); (TPing, ping_goroutine pings)].
Definition str_step : str_config -> str_config -> Prop :=
  gstep (str_handle app_handle) str_spawnable str_env.
Definition str_reachable : str_config -> Prop :=
  reachable (str_handle app_handle) str_spawnable str_env str_init.

Lemma str_typed g :
  str_reachable g ->
  exists ls, s_inv (shared g) ls
             /\ Forall2 (fun l tp => sTask l = fst tp /\ wps l (snd tp) s_final)
                  ls (goroutines g).
Proof using Hs.
  refine (reachable_typed s_needs s_gives s_after (str_handle app_handle) str_spawnable str_env
            str_init s_inv s_start s_final _ _ _ _ sTask _ _ _ g).
  - apply str_env_inv.
  - intros s0 ls t p [-> _]. apply str_spawn_inv.
  - intros t p (-> & c' & outputs & ->). by apply emitter_wp.
  - apply str_effect_inv.
  - intros g0 (app & cancelled & tick & pick & err & pings & ->).
    exists [s_start TMain; s_start TPing]. split.
    + split.
      * by exists O.
      * intros i l Hi. destruct i as [|[|i]]; [| |done]; injection Hi as <-;
          unfold s_local; cbn; intuition congruence.
      * split; [done|]. intros (i & l & Hi & Hm).
        destruct i as [|[|i]]; [| |done]; by injection Hi as <-.
      * intros i j l l' Hi _ Hm. destruct i as [|[|i]]; [| |done]; by injection Hi as <-.
      * exists [], "", "". cbn. split; [constructor|]. split; [done|]. split; [by left|].
        intros _. split; [|done]. intros i l Hi Hm.
        destruct i as [|[|i]]; [| |done]; by injection Hi as <-.
    + constructor; [|constructor; [|constructor]]; split; try done.
      * by apply main_wp.
      * apply ping_goroutine_wp.
  - done.
  - apply str_after_task.
Qed.

Lemma str_lookup (g : str_config) ls i t p :
  Forall2 (fun l tp => sTask l = fst tp /\ wps l (snd tp) s_final) ls (goroutines g) ->
  goroutines g !! i = Some (t, p) ->
  exists l, ls !! i = Some l /\ sTask l = t /\ wps l p s_final.
Proof.
  intros Hall Hi. destruct (Forall2_lookup_r _ _ _ _ _ Hall Hi) as (l & Hl & Ht & Hw). eauto.
Qed.


(** The two goroutines that every request has. *)
Lemma str_main_ping ls (s0 : stream_state S) :
  s_inv s0 ls -> exists lm lp, ls !! 0%nat = Some lm /\ ls !! 1%nat = Some lp
                          /\ sTask lm = TMain /\ sTask lp = TPing.
Proof.
  intros HI. destruct (inv_shape _ _ HI) as [n Hn].
  destruct ls as [|lm [|lp ls]]; try done. injection Hn as ???. by exists lm, lp.
Qed.

(** Nothing runs after the last operation of the ping goroutine. *)
Lemma closed_finished (p : prog (strE App) unit) :
  wps (s_idle TPing PClosed) p s_final -> p = Ret tt.
Proof.
  destruct p as [[]|B e k]; [done|]. intros [Hpre _]. exfalso.
  destruct e; cbn in Hpre; unfold s_idle in Hpre; try discriminate Hpre;
    try (by destruct Hpre as [? _]).
  by destruct Hpre as [t [?|?]].
Qed.

(** Only the holder of [writeMu] writes, and only before the response is closed. *)
Lemma wire_unchanged ls i l B (e : strE App B) b (s0 s1 : stream_state S) :
  s_inv s0 ls -> ls !! i = Some l -> s_needs l B e -> str_handle app_handle B e s0 = Some (b, s1) ->
  stWire s1 = stWire s0 \/ (sMu l = true /\ stClosed s0 = false).
Proof.
  intros HI Hi Hpre Hh. destruct e; cbn in Hpre, Hh;
    repeat match type of Hh with context [match ?x with _ => _ end] => destruct x end;
    try done; injection Hh as <- <-; try (by left).
  right. destruct Hpre as (Ho & _). pose proof (inv_local _ _ HI _ _ Hi) as (Hl & Hc & _).
  split; [|by apply Hc]. destruct (sMu l) eqn:E; [done|]. by rewrite (Hl eq_refl) in Ho.
Qed.

(** A request whose goroutine has ended was never started, or is marked as closed. *)
Lemma main_ended (g : str_config) ls p :
  s_inv (shared g) ls ->
  Forall2 (fun l tp => sTask l = fst tp /\ wps l (snd tp) s_final) ls (goroutines g) ->
  goroutines g !! 0%nat = Some (TMain, Ret p) ->
  stLaunched (shared g) = None \/ (stClosed (shared g) = true /\ stPingDone (shared g) = true).
Proof.
  intros HI Hall H0. destruct (str_lookup g ls _ _ _ Hall H0) as (lm & Hlm & Htm & Hwm).
  cbn in Hwm. unfold s_final in Hwm. rewrite Htm in Hwm.
  pose proof (inv_local _ _ HI _ _ Hlm) as (_ & _ & _ & _ & _ & Hm). rewrite Htm in Hm.
  destruct Hm as (Hla & _ & Hdone & Hcl & _).
  destruct Hwm as [-> | ->]; cbn in *; [left; by apply Hla|right].
  split; [by apply Hcl|]. apply Hdone. by right.
Qed.

(** C22: once the handler of a stream has returned, its ping goroutine has ended and no
    goroutine writes to the response any more, whatever the handler has left behind. *)
Theorem stream_quiet g p :
  str_reachable g -> goroutines g !! 0%nat = Some (TMain, Ret p) ->
  (stLaunched (shared g) <> None -> goroutines g !! 1%nat = Some (TPing, Ret tt))
  /\ forall g', str_step g g' -> stWire (shared g') = stWire (shared g).
Proof using Hs.
  intros Hg H0. destruct (str_typed g Hg) as (ls & HI & Hall).
  pose proof (main_ended g ls p HI Hall H0) as Hend.
  destruct (str_main_ping _ _ HI) as (lm & lp & Hlm & Hlp & Htm & Htp). split.
  - intros Hla. destruct Hend as [?|[_ Hdone]]; [done|].
    pose proof (inv_local _ _ HI _ _ Hlp) as (Hidle & _ & _ & _ & Hph & Hp). rewrite Htp in Hp.
    assert (Hc : sPhase lp = PClosed) by (by apply Hp).
    assert (sMu lp = false) as Hmu.
    { destruct (sMu lp); [|done]. destruct (Hph eq_refl) as [?|[?|?]]; congruence. }
    destruct (Forall2_lookup_l _ _ _ _ _ Hall Hlp) as ([t q] & Hq & Ht & Hw). cbn in Ht, Hw.
    rewrite (Hidle Hmu), Htp, Hc in Hw. rewrite Hq, <- Ht, Htp. do 2 f_equal.
    by apply closed_finished.
  - intros g' Hstep. destruct Hstep as [s0 s1 gs i t q q' Hi Hp|s0 gs t q _|s0 s1 gs He];
      [|done|by destruct He].
    destruct (str_lookup (Config s0 gs) ls _ _ _ Hall Hi) as (l & Hl & Htl & Hw).
    destruct q as [a|B e k]; [done|]. cbn in Hp. destruct Hw as [Hpre _].
    destruct (str_handle app_handle B e s0) as [[b s2]|] eqn:Eh; [|done]. injection Hp as <- <-.
    destruct (wire_unchanged _ _ _ _ _ _ _ _ HI Hl Hpre Eh) as [?|[Hmu Hcl]]; [done|].
    exfalso. cbn in Hend, HI, Hcl, H0. destruct Hend as [Hla|[Hcl' _]]; [|congruence].
    pose proof (inv_local _ _ HI _ _ Hl) as (_ & _ & _ & _ & Hph & Hloc). specialize (Hph Hmu).
    destruct (sTask l) eqn:Et.
    + assert (i = 0%nat) as -> by (by eapply (shape_unique _ _ _ _ _ _ (inv_shape _ _ HI) Hl Hlm Et)).
      congruence.
    + destruct Hloc as (_ & _ & Hl' & _). apply Hl'; [|exact Hla].
      by destruct Hph as [->|[->| ->]].
    + destruct Hloc as [Hw0|[_ Hl']]; [|done]. rewrite Hw0 in Hph. by destruct Hph as [?|[?|?]].
Qed.

(** An operation that its goroutine performs while it holds [writeMu] is never refused. *)
Lemma holder_steps l B (e : strE App B) (s0 : stream_state S) :
  sMu l = true -> s_needs l B e -> exists b s1, str_handle app_handle B e s0 = Some (b, s1).
Proof.
  intros Hm Hpre.
  assert (Hidle : forall t ph, l <> s_idle t ph) by (intros t ph ->; discriminate Hm).
  destruct e; cbn in Hpre |- *; try (by eauto); try (by destruct (Hidle _ _ Hpre)).
  - by destruct (Hidle _ _ (proj1 Hpre)).
  - destruct (stErr s0); eauto.
  - destruct Hpre as [t [H|H]]; by destruct (Hidle _ _ H).
Qed.

(** Some goroutine of the request can go on. *)
Definition some_steps (g : str_config) : Prop :=
  exists i t q, goroutines g !! i = Some (t, q)
             /\ exists q' s1, pstep (str_handle app_handle) q (shared g) = Some (q', s1).

Lemma steps_intro (g : str_config) i t B (e : strE App B) k b s1 :
  goroutines g !! i = Some (t, Vis e k) ->
  str_handle app_handle B e (shared g) = Some (b, s1) -> some_steps g.
Proof. intros Hi Hh. exists i, t, (Vis e k). split; [done|]. cbn. rewrite Hh. eauto. Qed.

(** While somebody holds [writeMu], somebody can go on. *)
Lemma locked_steps g ls :
  s_inv (shared g) ls ->
  Forall2 (fun l tp => sTask l = fst tp /\ wps l (snd tp) s_final) ls (goroutines g) ->
  stWriteMu (shared g) = true -> some_steps g.
Proof.
  intros HI Hall Hmu. apply (inv_mu _ _ HI) in Hmu as (j & l & Hj & Hm).
  destruct (Forall2_lookup_l _ _ _ _ _ Hall Hj) as ([t q] & Hq & Ht & Hw). cbn in Ht, Hw.
  destruct q as [[]|B e k].
  - cbn in Hw. unfold s_final in Hw. destruct (sTask l); [destruct Hw| |]; by subst l || congruence.
  - destruct Hw as [Hpre _]. destruct (holder_steps _ _ _ (shared g) Hm Hpre) as (b & s1 & Hh).
    by eapply steps_intro.
Qed.

(** The ping goroutine of a cancelled request can go on, or waits for [writeMu]. *)
Lemma ping_steps g ls lp :
  s_inv (shared g) ls ->
  Forall2 (fun l tp => sTask l = fst tp /\ wps l (snd tp) s_final) ls (goroutines g) ->
  ls !! 1%nat = Some lp -> sTask lp = TPing ->
  stLaunched (shared g) <> None -> stCancelled (shared g) = true ->
  stPingDone (shared g) = false -> some_steps g.
Proof.
  intros HI Hall Hlp Htp Hla Hcan Hdone.
  destruct (stWriteMu (shared g)) eqn:Hmu; [by eapply locked_steps|].
  pose proof (inv_local _ _ HI _ _ Hlp) as (Hidle & _ & _ & _ & _ & Hp). rewrite Htp in Hp.
  destruct Hp as (Hdone' & Htaken & _ & Hph).
  assert (Hm : sMu lp = false).
  { destruct (sMu lp) eqn:E; [|done].
    by rewrite (proj2 (inv_mu _ _ HI) (ex_intro _ _ (ex_intro _ _ (conj Hlp E)))) in Hmu. }
  destruct (Forall2_lookup_l _ _ _ _ _ Hall Hlp) as ([t q] & Hq & Ht & Hw). cbn in Ht, Hw.
  rewrite (Hidle Hm), Htp in Hw. rewrite Htp in Ht. subst t.
  assert (Hnc : sPhase lp <> PClosed) by (intros Hc; apply Hdone' in Hc; congruence).
  destruct q as [[]|B e k]; [by injection Hw|].
  destruct Hw as [Hpre _].
  destruct (str_handle app_handle B e (shared g)) as [[b s1]|] eqn:Eh; [by eapply steps_intro|].
  exfalso. destruct e; cbn in Hpre, Eh; unfold s_idle in Hpre; try discriminate;
    try (by destruct Hpre).
  - by rewrite Hmu in Eh.
  - destruct (stLaunched (shared g)); [|done].
    destruct (stPingTaken (shared g)) eqn:E; [|done]. injection Hpre as Hw0.
    by apply Htaken in Hw0.
  - rewrite Hcan in Eh. by destruct (stTick (shared g) && _).
  - by rewrite Hcan in Eh.
Qed.

(** What the request waits for is an operation of the application. *)
Definition waits_for_app {B} (e : strE App B) (v : S) : Prop :=
  match e with OnApp a => app_handle _ a v = None | _ => False end.

(** C23: a stream never deadlocks: as long as the request's goroutine has not returned, some
    goroutine of the request can go on, unless the handler waits for something of its own.
    In particular the wait for the end of the ping goroutine never blocks the request for
    good: that goroutine, or whoever holds [writeMu], can go on. *)
Theorem stream_no_deadlock g B (e : strE App B) k :
  str_reachable g -> goroutines g !! 0%nat = Some (TMain, Vis e k) ->
  some_steps g \/ waits_for_app e (stApp (shared g)).
Proof using Hs.
  intros Hg H0. destruct (str_typed g Hg) as (ls & HI & Hall).
  destruct (str_handle app_handle B e (shared g)) as [[b s1]|] eqn:Eh;
    [left; by eapply steps_intro|].
  destruct (str_main_ping _ _ HI) as (lm & lp & Hlm & Hlp & Htm & Htp).
  destruct (str_lookup g ls _ _ _ Hall H0) as (l & Hl & _ & [Hpre _]).
  rewrite Hlm in Hl. injection Hl as <-.
  pose proof (inv_local _ _ HI _ _ Hlm) as (_ & _ & _ & _ & _ & Hloc). rewrite Htm in Hloc.
  destruct Hloc as (Hla & Hcan & _). destruct e; cbn in Hpre, Eh; try discriminate Eh.
  - right. cbn. by destruct (app_handle _ _ _) as [[? ?]|].
  - by destruct (stErr (shared g)).
  - left. eapply locked_steps; [done..|]. by destruct (stWriteMu (shared g)).
  - left. subst lm. cbn in *. destruct (stPingDone (shared g)) eqn:Hd; [done|].
    eapply ping_steps; try done; [|by apply Hcan]. intros Hn. by apply Hla in Hn.
  - by subst lm.
  - by subst lm.
  - by subst lm.
  - by subst lm.
Qed.
End Request.

(** ** The configuration *)

Section Configuration.
  Context {App : Type -> Type} {P : Type}.

(** The servers that the registration API builds. *)
Inductive built : streamServer App P -> Prop :=
| built_new procDefs streamDefs : built (new_streamServer procDefs streamDefs)
| built_middleware r n mw s s' : built s -> addStreamMiddleware r n mw s = Some s' -> built s'
| built_emit r n mw s s' : built s -> addStreamEmitMiddleware r n mw s = Some s' -> built s'
| built_handler r n h d s s' : built s -> setStreamHandler r n h d s = Some s' -> built s'
| built_global cfg s : built s -> built (setGlobalStreamConfig cfg s)
| built_rpc r cfg s : built s -> built (setRPCStreamConfig r cfg s)
| built_stream r n cfg s s' : built s -> setStreamConfig r n cfg s = Some s' -> built s'.

Lemma built_global_positive s : built s -> 0 < PingInterval (globalStreamConfig s).
Proof.
  induction 1 as [|r n mw s s' _ IH E|r n mw s s' _ IH E|r n h d s s' _ IH E|cfg s _ _|
                  r cfg s _ IH|r n cfg s s' _ IH E]; try done.
  - unfold addStreamMiddleware in E. destruct (has_rpc _ _); [|done]. by injection E as <-.
  - unfold addStreamEmitMiddleware in E. destruct (has_rpc _ _); [|done]. by injection E as <-.
  - unfold setStreamHandler in E. destruct (streamHandlers s !! _); [done|].
    destruct (has_rpc _ _); [|done]. by injection E as <-.
  - cbn. destruct (Z.leb_spec (PingInterval cfg) 0); [done|lia].
  - unfold setStreamConfig in E. destruct (has_rpc _ _); [|done]. by injection E as <-.
Qed.

(** Whatever is configured, with zero and negative intervals too, the interval of the
    pings is positive, as [time.NewTicker] requires (it panics otherwise), and it is the
    stream's own if that is positive, else its RPC's if that is, else the global one. *)
Theorem ping_interval_positive s rpcName streamName :
  built s ->
  let interval := stream_ping_interval s rpcName streamName in
  0 < interval
  /\ (forall cfg, streamConfigs s !! (rpcName, streamName) = Some cfg -> 0 < PingInterval cfg ->
        interval = PingInterval cfg)
  /\ (forall cfg, streamConfigs s !! (rpcName, streamName) = None ->
        rpcStreamConfigs s !! rpcName = Some cfg -> 0 < PingInterval cfg ->
        interval = PingInterval cfg)
  /\ (streamConfigs s !! (rpcName, streamName) = None -> rpcStreamConfigs s !! rpcName = None ->
        interval = PingInterval (globalStreamConfig s)).
Proof.
  intros Hb. apply built_global_positive in Hb. unfold stream_ping_interval. cbn zeta.
  destruct (streamConfigs s !! _) as [cfg|], (rpcStreamConfigs s !! _) as [cfg'|];
    repeat match goal with |- context [0 <? ?x] => destruct (Z.ltb_spec 0 x) end;
    split_and!; try done; intros; simplify_eq; try done; lia.
Qed.
End Configuration.

(** ** Streams and procedures *)

Section Responses.
  Context {App : Type -> Type} {S P : Type} `{J : GoJSON}.
  Context (app_handle : forall B, App B -> S -> option (B * S)).
  Context (s : streamServer App P).

(** For a catalogue of procedures, such as this server's, the request handler with
    streams is the one without. *)
Theorem no_streams (props : P) rpcName operationName body :
  (forall k op, operationDefs (procServer s) !! k = Some op -> opType op = OperationTypeProc) ->
  handle_any_request s props rpcName operationName body
  = handleRequest (procServer s) props rpcName operationName body.
Proof.
  intros Hp. unfold handle_any_request, handleRequest. destruct (gojson_Decode body); [|done].
  destruct (operationDefs (procServer s) !! _) as [op|] eqn:E; [|done].
  by rewrite (Hp _ _ E).
Qed.

(** A request for a stream that fails before it starts, because it has no handler, is
    answered twice: the event that reports the error is followed, on the same
    connection, by the JSON response of a procedure that does not exist. *)
Theorem failed_stream_answers_twice (props : P) rpcName name body raw op json st :
  let k := (rpcName, name) in
  let c := new_context props raw op in
  let failure what :=
    MkResponse false OutNone (resolveErrorHandler (procServer s) rpcName c
      (ErrNew (rpcName +:+ "." +:+ name +:+ " " +:+ what +:+ " not implemented"))) in
  gojson_Decode body = Some raw ->
  operationDefs (procServer s) !! k = Some op -> opType op = OperationTypeStream ->
  streamHandlers s !! k = None -> procHandlers (procServer s) !! k = None ->
  gojson_Marshal_response (failure "stream") = Ok json -> stErr st = None ->
  exists st', run (str_handle app_handle) (handle_any_request s props rpcName name body) st
                = Done None st'
           /\ stWire st' = (stWire st +:+ "data: " +:+ json +:+ newlines)
                            +:+ Response_String (failure "procedure").
Proof.
  intros k c failure Hd Hop Hst Hsh Hph Hm Herr. subst k c.
  unfold handle_any_request. rewrite Hd, Hop, Hst.
  unfold handleStreamRequest. rewrite Hsh. cbn [run prog_bind].
  assert (Hw : write_stream_error (failure "stream")
            = (writeErr ← act (StrWrite (App := App) ("data: " +:+ json +:+ newlines));
               match writeErr with
               | Some e => mret (Err e)
               | None =>
                   flushErr ← act StrFlush;
                   mret (match flushErr with Some e => Err e | None => Ok tt end)
               end)) by (unfold write_stream_error; by rewrite Hm).
  assert (Hr : respond_proc (procServer s) (new_context props raw op) rpcName name raw
            = writeProcResponse (failure "procedure"))
    by (unfold respond_proc, handleProcRequest; by rewrite Hph).
  eexists. split.
  - cbn -[write_stream_error respond_proc String.append].
    etransitivity; [refine (f_equal (fun p => run _ (mbind _ p) _) Hw)|].
    cbn -[respond_proc String.append]. rewrite Herr. cbn -[respond_proc String.append].
    rewrite Hr. cbn -[String.append]. rewrite Herr. reflexivity.
  - reflexivity.
Qed.
End Responses.
