(* ===== verification/ToyStream.v ===== *)
(** * A stream on a concrete catalogue

    The instances of the theorems of [VdlStreamSafety.v]: a catalogue with one stream,
    [Feed.events], whose handler emits one value. *)
From S2P Require Import Prelude GoStrings GoTime Sqlite DbState Goroutines VdlTypes VdlDecode Http Vdl VdlStream VdlStreamSafety.

(** Responses are printed as their outcome. *)
Definition feed_json : GoJSON := {|
  gojson_Decode b := Some (bodyBytes b);
  gojson_Unmarshal_input raw := Ok (MkPreDatabaseQueryInput None);
  gojson_Marshal_response r := Ok (if rspOk r then "event" else veMessage (rspError r));
  gojson_Encode_object l := Ok "" |}.

(** An application without operations of its own. *)
Inductive NoApp : Type -> Type := .
Definition no_app (B : Type) (e : NoApp B) (v : unit) : option (B * unit) := None.

Definition feed_op : OperationDefinition := MkOperation "Feed" "events" OperationTypeStream [].
Definition emit_one (c : ctx unit) (emit : EmitFunc (App := NoApp)) :
    prog (strE NoApp) (option go_error * ctx unit) := emit c OutNone.
Definition feed_server : streamServer NoApp unit :=
  MkStreamServer (newInternalServer [] [feed_op])
    {[ ("Feed", "events") := emit_one ]} {[ ("Feed", "events") := fun _ => Ok InVoid ]}
    ∅ ∅ (MkStreamConfig defaultPingInterval) ∅ ∅.
Definition feed_empty : streamServer NoApp unit := new_streamServer [] [feed_op].

Lemma feed_registered :
  setStreamHandler "Feed" "events" emit_one (fun _ => Ok InVoid) feed_empty = Some feed_server.
Proof. reflexivity. Qed.

Lemma feed_ok : server_ok feed_server.
Proof.
  split; try (by intros).
  intros k h Hk. cbn in Hk. apply lookup_singleton_Some in Hk as [_ <-].
  intros emit Hemit c. exact (Hemit TMain c OutNone).
Qed.

Definition feed_config : Type := str_config (App := NoApp) (S := unit).
Definition feed_context : ctx unit := new_context tt "{}" feed_op.
Definition feed_reachable : feed_config -> Prop :=
  str_reachable (J := feed_json) no_app feed_server "Feed" "events" feed_context "{}".

Definition feed_start (tick : bool) : feed_config :=
  Config (MkStream tt false false None false false false tick false None [] "")
    [(TMain, main_prog (J := feed_json) feed_server "Feed" "events" feed_context "{}");
     (TPing, ping_goroutine 1)].

(** At most [n] steps of goroutine [i]. *)
Fixpoint feed_run (i n : nat) (g : feed_config) : feed_config :=
  match n with
  | O => g
  | S n' =>
      match goroutines g !! i with
      | Some (t, p) =>
          match pstep (str_handle no_app) p (shared g) with
          | Some (p', s') => feed_run i n' (Config s' (<[i := (t, p')]> (goroutines g)))
          | None => g
          end
      | None => g
      end
  end.

Lemma feed_start_reachable tick : feed_reachable (feed_start tick).
Proof. apply reach_init. by eexists tt, false, tick, false, None, 1%nat. Qed.

Lemma feed_run_reachable i n g : feed_reachable g -> feed_reachable (feed_run i n g).
Proof.
  revert g. induction n as [|n IH]; intros g Hg; [done|]. cbn [feed_run].
  destruct (goroutines g !! i) as [[t p]|] eqn:Ei; [|done].
  destruct (pstep _ p (shared g)) as [[p' s']|] eqn:Ep; [|done].
  apply IH. eapply reach_step; [exact Hg|]. destruct g as [s0 gs]. by eapply gstep_run.
Qed.

(** The handler has emitted and waits for the ping goroutine, which has sent a ping. *)
Definition feed_waiting : feed_config :=
  feed_run 0 20 (feed_run 1 8 (feed_run 0 4 (feed_start true))).
(** The handler has returned. *)
Definition feed_ended : feed_config := feed_run 0 20 (feed_run 1 20 feed_waiting).

Definition feed_frames : string :=
  ping_frame +:+ "data: " +:+ "event" +:+ newlines.


Lemma stream_quiet_witness :
  exists g, feed_reachable g /\ goroutines g !! 0%nat = Some (TMain, Ret tt)
  /\ stWire (shared g) = feed_frames /\ stLaunched (shared g) <> None
  /\ ((stLaunched (shared g) <> None -> goroutines g !! 1%nat = Some (TPing, Ret tt))
      /\ forall g', str_step (J := feed_json) no_app feed_server "Feed" "events" g g' ->
           stWire (shared g') = stWire (shared g)).
Proof.
  exists feed_ended.
  assert (R : feed_reachable feed_ended) by (repeat apply feed_run_reachable; apply feed_start_reachable).
  assert (E : goroutines feed_ended !! 0%nat = Some (TMain, Ret tt)) by (vm_compute; reflexivity).
  split; [exact R|]. split; [exact E|]. split; [vm_compute; reflexivity|].
  split; [vm_compute; discriminate|].
  exact (stream_quiet (J := feed_json) no_app feed_server feed_ok "Feed" "events" feed_context
           "{}" feed_ended tt R E).
Defined.

Lemma stream_no_deadlock_witness :
  exists g k, feed_reachable g /\ goroutines g !! 0%nat = Some (TMain, Vis RecvPingDone k)
  /\ (some_steps no_app g \/ waits_for_app no_app (App := NoApp) RecvPingDone (stApp (shared g))).
Proof.
  assert (R : feed_reachable feed_waiting) by (repeat apply feed_run_reachable; apply feed_start_reachable).
  assert (E : exists k, goroutines feed_waiting !! 0%nat = Some (TMain, Vis RecvPingDone k))
    by (eexists; vm_compute; reflexivity).
  destruct E as [k E]. exists feed_waiting, k. split; [exact R|]. split; [exact E|].
  exact (stream_no_deadlock (J := feed_json) no_app feed_server feed_ok "Feed" "events"
           feed_context "{}" feed_waiting _ RecvPingDone k R E).
Defined.

Lemma ping_interval_positive_witness :
  let s := setRPCStreamConfig "Feed" (MkStreamConfig (-5))
             (setGlobalStreamConfig (MkStreamConfig 0) feed_empty) in
  built s
  /\ let interval := stream_ping_interval s "Feed" "events" in
     0 < interval /\ interval = 30 * second.
Proof.
  assert (B : built (setRPCStreamConfig "Feed" (MkStreamConfig (-5))
                       (setGlobalStreamConfig (MkStreamConfig 0) feed_empty)))
    by (apply built_rpc, built_global, built_new).
  split; [exact B|].
  destruct (ping_interval_positive _ "Feed" "events" B) as (H & _). split; [exact H|reflexivity].
Defined.

Lemma no_streams_witness :
  let s := new_streamServer (App := NoApp) (P := unit) VDLProcedures VDLStreams in
  (forall k op, operationDefs (procServer s) !! k = Some op -> opType op = OperationTypeProc)
  /\ handle_any_request (J := feed_json) s tt "System" "health" (MkBody "{}" false)
     = handleRequest (J := feed_json) (procServer s) tt "System" "health" (MkBody "{}" false).
Proof.
  assert (H : forall k op, operationDefs (procServer (new_streamServer (App := NoApp) (P := unit)
                 VDLProcedures VDLStreams)) !! k = Some op -> opType op = OperationTypeProc).
  { intros k op Hk. cbn in Hk.
    repeat (apply lookup_insert_Some in Hk as [[_ <-]|[_ Hk]]; [reflexivity|]).
    discriminate. }
  split; [exact H|].
  exact (no_streams (J := feed_json) _ tt "System" "health" (MkBody "{}" false) H).
Defined.

Lemma failed_stream_answers_twice_witness :
  let st := MkStream tt false false None false false false false false None [] "" in
  exists st',
    run (str_handle no_app)
      (handle_any_request (J := feed_json) feed_empty tt "Feed" "events" (MkBody "{}" false)) st
    = Done None st'
    /\ stWire st' = ("" +:+ "data: " +:+ "Feed.events stream not implemented" +:+ newlines)
                    +:+ "Feed.events procedure not implemented".
Proof.
  exact (failed_stream_answers_twice (J := feed_json) no_app feed_empty tt "Feed" "events"
           (MkBody "{}" false) "{}" feed_op "Feed.events stream not implemented"
           (MkStream tt false false None false false false false false None [] "")
           eq_refl eq_refl eq_refl eq_refl eq_refl eq_refl eq_refl).
Defined.
