(* ===== verification/Server.v ===== *)
(** * The RPC handlers: [internal/server]

    [query.go], [rpc.go], [errors.go], [health.go], [stats.go], [middleware.go] and the
    parts of [server.go] that do not touch the network.  Logging is not modelled. *)
From S2P Require Import Prelude GoStrings GoTime Stats Sqlite DbState Goroutines VdlTypes Convert Http Auth Vdl.

(** [requestProps] *)
Record requestProps : Type := MkProps { Role : authRole; Principal : string }.

(** [authorizerRoleForAuthRole(role)] *)
Definition authorizerRoleForAuthRole (role : authRole) : Z :=
  match role with
  | authRoleReadWrite => AuthorizerRoleReadWrite
  | authRoleReadOnly => AuthorizerRoleReadOnly
  | authRoleAdmin => AuthorizerRoleAdmin
  end.

(** ** [query.go] *)

Definition error_result (elapsed : Z) (errorMessage : string) : VQueryResult :=
  MkVQueryResult QueryResultTypeError elapsed (Some errorMessage) None None None None None None.

(** The query the database is given for a query of a request. *)
Definition db_query_of (props : requestProps) (query : VQuery) (params : list QueryParam) : Query :=
  MkQuery (Val "" (vqTxId query)) (Principal props) (vqQuery query) params
    (authorizerRoleForAuthRole (Role props)).

(** [executeRequestQuery(ctx, props, query)] *)
Definition executeRequestQuery (props : requestProps) (query : VQuery) : srv_prog VQueryResult :=
  startedAt ← act SrvNow;
  if vqQuery query =s? "" then
    now ← act SrvNow; mret (error_result (now - startedAt) "Empty query")
  else
    match sqliteParamsFromVDL (vqParams query) with
    | Err err => now ← act SrvNow; mret (error_result (now - startedAt) (error_string err))
    | Ok params =>
        r ← act (DBQuery (db_query_of props query params));
        now ← act SrvNow;
        mret (match r with
              | Err err => error_result (now - startedAt) (error_string err)
              | Ok result => queryResultFromDB (now - startedAt) result
              end)
    end.

(** The loop of [executeQueries]; [results] are the results so far. *)
Fixpoint execute_loop (props : requestProps) (queries : list VQuery)
    (results : list VQueryResult) : srv_prog (list VQueryResult) :=
  match queries with
  | [] => mret results
  | query :: queries' =>
      result ← executeRequestQuery props query;
      execute_loop props queries' (results ++ [result])
  end.

(** [executeQueries(ctx, props, queries)] *)
Definition executeQueries (props : requestProps) (queries : list VQuery) :
    srv_prog DatabaseQueryOutput :=
  allStartedAt ← act SrvNow;
  results ← execute_loop props queries [];
  now ← act SrvNow;
  mret (MkDatabaseQueryOutput (now - allStartedAt) results).

(** [databaseQueryProc(c)] *)
Definition databaseQueryProc (c : HandlerContext requestProps (list VQuery)) :
    srv_prog (result DatabaseQueryOutput) :=
  output ← executeQueries (hcProps c) (hcInput c);
  mret (Ok output).

(** ** [health.go] *)

(** [systemHealthProc(c)] *)
Definition systemHealthProc (c : HandlerContext requestProps unit) :
    srv_prog (result SystemHealthOutput) :=
  r ← act (DBQuery (MkQuery "" "" "SELECT 1" [] 0));
  mret (Ok (match r with
            | Err _ => MkSystemHealthOutput false false "Database unavailable"
            | Ok _ => MkSystemHealthOutput true true "OK"
            end)).

(** ** [stats.go] *)

(** [authRoleToVDL(role)] *)
Definition authRoleToVDL (role : authRole) : VAuthRole :=
  match role with
  | authRoleReadWrite => AuthRoleReadWrite
  | authRoleReadOnly => AuthRoleReadOnly
  | authRoleAdmin => AuthRoleAdmin
  end.

(** [systemSessionProc(c)] *)
Definition systemSessionProc (c : HandlerContext requestProps unit) :
    srv_prog (result (option VAuthRole)) :=
  mret (Ok (Some (authRoleToVDL (Role (hcProps c))))).

Definition stat_counters (m : Stat) : StatsTotalsCounters :=
  MkStatsTotalsCounters (stReads m) (stWrites m) (stBegins m) (stCommits m) (stRollbacks m)
    (stErrors m) (stHTTPRequests m).
Definition totals_counters (t : Totals) : StatsTotalsCounters :=
  MkStatsTotalsCounters (totReads t) (totWrites t) (totBegins t) (totCommits t)
    (totRollbacks t) (totErrors t) (totHTTPRequests t).

(** [loadedStatsToVDL(loaded)]; [now] is the time of [time.Since]. *)
Definition loadedStatsToVDL (now : Z) (loaded : LoadedStats) : VStats :=
  let startedAt := default zero_time (ParseRFC3339 (ldStartedAt loaded)) in
  let minutes :=
    fold_left (fun m minute => <[Minute minute := stat_counters minute]> m) (ldStats loaded) ∅ in
  let uptimeSeconds := if startedAt =? zero_time then 0 else now - startedAt in
  MkVStats startedAt uptimeSeconds (totals_counters (ldTotals loaded))
    (MkStatsQueuedCounters (ldQueuedBegins loaded) (ldQueuedWrites loaded)
       (ldQueuedHTTPRequests loaded))
    minutes.

(** [systemStatusProc(c)] *)
Definition systemStatusProc (version : string) (c : HandlerContext requestProps unit) :
    srv_prog (result SystemStatusOutput) :=
  loaded ← act SrvLoadStats;
  now ← act SrvNow;
  mret (Ok (MkSystemStatusOutput "NSQLite" version (loadedStatsToVDL now loaded))).

(** ** [server.go], [rpc.go], [errors.go], [middleware.go] *)

(** What a client may read of an error: the safe message of the first [JSONError]
    that has one. *)
Definition public_message (err : go_error) : string :=
  match errors_as_json err with
  | Some (_, _, safe) => if negb (safe =s? "") then safe else error_string err
  | None => error_string err
  end.

(** [rpcErrorHandler(c, err)] *)
Definition rpcErrorHandler : ErrorHandlerFunc requestProps := fun c err =>
  MkVError (public_message err) "" "".

(** [newRPCServer()]; [None] is a panic of the registration. *)
Definition newRPCServer `{GoJSON} (version : string) : option (internalServer srvE requestProps) :=
  let s := setGlobalErrorHandler rpcErrorHandler vdl_NewServer in
  s ← DatabaseQuery_Handle databaseQueryProc s;
  s ← SystemHealth_Handle systemHealthProc s;
  s ← SystemSession_Handle systemSessionProc s;
  SystemStatus_Handle (systemStatusProc version) s.

(** [Config] and [Server], without the logger, the statistics and the database, which
    the handlers reach through effects. *)
Record ServerConfig : Type := MkServerConfig {
  scAuthTokens : list string;
  scReadWriteAuthTokens : list string;
  scReadOnlyAuthTokens : list string;
  scListenHost : string;
  scListenPort : string;
  scMaxRequestSizeMB : Z }.
Record Server : Type := MkServer {
  svConfig : ServerConfig;
  svAuthTokens : list authToken;
  svAuthTokenSalt : string;
  svIsInitialized : bool;
  svRpcServer : internalServer srvE requestProps }.

(** [NewServer(config)]; [salt] is [uuid.NewString()]. *)
Definition NewServer `{GoJSON} (version salt : string) (config : ServerConfig) : option Server :=
  let host := if scListenHost config =s? "" then "0.0.0.0" else scListenHost config in
  let port := if scListenPort config =s? "" then "9876" else scListenPort config in
  let config := MkServerConfig (scAuthTokens config) (scReadWriteAuthTokens config)
                  (scReadOnlyAuthTokens config) host port (scMaxRequestSizeMB config) in
  MkServer config
    (newAuthTokens (scAuthTokens config) (scReadWriteAuthTokens config)
       (scReadOnlyAuthTokens config))
    salt true <$> newRPCServer version.

(** [IsInitialized()] *)
Definition IsInitialized (s : Server) : bool := svIsInitialized s.

(** [maxRequestSize()]: the multiplications are on 64 bits. *)
Definition maxRequestSize (s : Server) : Z :=
  if scMaxRequestSizeMB (svConfig s) <=? 0 then 100 * 1024 * 1024
  else int64 (int64 (scMaxRequestSizeMB (svConfig s) * 1024) * 1024).

(** [maxRequestBodyMiddleware(next)] *)
Definition maxRequestBodyMiddleware {A} (s : Server) (next : http_request -> A)
    (r : http_request) : A :=
  next (MkRequest (reqMethod r) (reqPath r) (reqHeaders r) (reqQuery r)
          (MaxBytesReader (maxRequestSize s) <$> reqBody r) (reqRemoteAddr r)).

Section Handlers.
  Context `{CR : Crypto} `{J : GoJSON}.
  Context (s : Server).

(** [authIsDisabled()] and the authentication of [auth.go], on the server's tokens. *)
Definition srv_authenticateRequest (r : http_request) : srv_prog (result (authRole * string)) :=
  authenticateRequest (svAuthTokens s) (svAuthTokenSalt s) r.

(** [authorizeRPCRequest(r, rpcName, operationName)] *)
Definition authorizeRPCRequest (r : http_request) (rpcName operationName : string) :
    srv_prog (result requestProps) :=
  if (rpcName =s? "System") && (operationName =s? "health")
  then mret (Ok (MkProps authRoleAdmin ""))
  else
    try_bind id (srv_authenticateRequest r) (fun '(role, principal) =>
    if (rpcName =s? "System") && (operationName =s? "status")
       && negb (bool_decide (role = authRoleAdmin))
    then mret (Err forbiddenError)
    else mret (Ok (MkProps role principal))).

(** [writeRPCError(w, err)] *)
Definition writeRPCError (err : go_error) : srv_prog (option go_error) :=
  match gojson_Marshal_response (error_response (public_message err)) with
  | Err e => mret (Some (ErrWrap "marshal rpc error response" e))
  | Ok body => WriteJSONBytes StatusOK body
  end.

(** [rpcHandler(w, r)], for the route's [rpcName] and [operationName]. *)
Definition rpcHandler (rpcName operationName : string) : HandlerFuncErr := fun r =>
  props ← authorizeRPCRequest r rpcName operationName;
  match props with
  | Err err => writeRPCError err
  | Ok props =>
      let dispatch :=
        err ← handleRequest (svRpcServer s) props rpcName operationName
                (default (MkBody "" false) (reqBody r));
        mret (wrap_opt "handle rpc request" err) in
      if (rpcName =s? "Database") && (operationName =s? "query") then
        _ ← act (SrvStat StIncHTTPRequests);
        _ ← act (SrvStat StIncQueuedHTTPRequests);
        deferred dispatch (act (SrvStat StDecQueuedHTTPRequests))
      else dispatch
  end.

(** [errorHandler(w, r, err)] *)
Definition errorHandler : ErrorHandler := fun r err =>
  errorId ← act SrvUuid;
  match errors_as_json err with
  | Some (status, _, safe) =>
      let statusText := StatusText status in
      let safeMessage := if safe =s? "" then statusText else safe in
      _ ← WriteJSON status
            (gojson_Encode_object [("id", errorId); ("error", statusText); ("message", safeMessage)]);
      mret tt
  | None =>
      _ ← WriteString StatusInternalServerError ("Internal Server Error - " +:+ errorId);
      mret tt
  end.
End Handlers.
