(* ===== verification/Rqlite.v ===== *)
(** * The rqlite-compatible endpoints: [internal/server/rqlite.go]

    A raw message is the syntax tree of its text ([JsonText.v]), whose numbers keep their
    literals, as with [UseNumber].  [map_order], of the class [MapRange], is the order in
    which Go ranges over a map: some order of its entries. *)
From S2P Require Import Prelude GoStrings Float64 JsonText Base64 GoTime Stats Sqlite DbState Goroutines VdlTypes Convert Http Auth Vdl Server.

(** [rqliteResult], [rqliteResponse] and [rqliteResponseOptions]; a duration in seconds
    is kept as its nanoseconds. *)
Inductive rqlite_any : Type :=
| RqNil | RqInt (z : Z) | RqReal (f : spec_float) | RqText (s : string)
| RqInts (l : option (list Z)).
Inductive rqlite_types : Type :=
| RqNoTypes | RqTypeList (l : list string) | RqTypeMap (m : gmap string string).
Record rqliteResult : Type := MkRqResult {
  rqLastInsertID : option Z;
  rqRowsAffected : option Z;
  rqColumns : list string;
  rqTypes : rqlite_types;
  rqValues : list (list rqlite_any);
  rqRows : list (gmap string rqlite_any);
  rqError : string;
  rqTime : option Z }.
Record rqliteResponse : Type := MkRqResponse {
  rqResults : list rqliteResult; rqTotalTime : option Z }.
Record rqliteResponseOptions : Type := MkRqOptions {
  associative : bool; blobArray : bool; timings : bool }.

Class MapRange : Type := {
  map_order : gmap string json -> list (string * json);
  map_order_perm m : map_order m ≡ₚ map_to_list m }.

(** The errors of decoding a value into a variable of another type. *)
Definition json_kind (j : json) : string :=
  match j with
  | JNull => "null" | JBool _ => "bool" | JNumber _ => "number" | JString _ => "string"
  | JArray _ => "array" | JObject _ => "object"
  end.
Definition type_error (j : json) (target : string) : go_error :=
  ErrNew ("json: cannot unmarshal " +:+ json_kind j +:+ " into Go value of type " +:+ target).

(** Decoding into a [string]: null leaves the variable empty. *)
Definition json_string (j : json) : result string :=
  match j with
  | JString s => Ok s
  | JNull => Ok ""
  | _ => Err (type_error j "string")
  end.
(** Decoding into a [[]RawMessage]. *)
Definition json_array (j : json) : result (list json) :=
  match j with
  | JArray l => Ok l
  | JNull => Ok []
  | _ => Err (type_error j "[]json.RawMessage")
  end.

(** [Number.Int64()] *)
Definition Number_Int64 (literal : string) : option Z :=
  let value :=
    match literal with
    | String a rest => if Ascii.eqb a "-" then Z.opp <$> parse_digits rest else parse_digits literal
    | EmptyString => None
    end in
  match value with
  | Some z => if (- 2 ^ 63 <=? z) && (z <? 2 ^ 63) then Some z else None
  | None => None
  end.

(** Decoding into a [[]byte], from an array: each element into a [uint8]. *)
Definition json_byte (j : json) : option ascii :=
  match j with
  | JNull => Some (byte_chr 0)
  | JNumber literal =>
      match parse_digits literal with
      | Some z => if z <? 256 then Some (byte_chr (Z.to_nat z)) else None
      | None => None
      end
  | _ => None
  end.
Definition json_bytes (l : list json) : option string :=
  String.string_of_list_ascii <$> mapM json_byte l.

(** ** Requests *)

(** [encodeBlob(value)], [decodeBlob(encoded)] *)
Definition encodeBlob (value : string) : string := EncodeToString value.
Definition decodeBlob (encoded : string) : result string := DecodeString encoded.

Definition single_quote : ascii := byte_chr 39.
Definition str_nth (n : nat) (s : string) : option ascii := String.get n s.

(** [rqliteHexBlobString(value)] *)
Definition rqliteHexBlobString (value : string) : option string :=
  let trimmed := TrimSpace value in
  let n := String.length trimmed in
  let at_ i c := bool_decide (str_nth i trimmed = Some c) in
  if (n <? 3)%nat || (negb (at_ 0%nat "x"%char) && negb (at_ 0%nat "X"%char))
     || negb (at_ 1%nat single_quote) || negb (at_ (n - 1)%nat single_quote)
  then None
  else
    match hex_decode (str_take (n - 3) (str_drop 2 trimmed)) with
    | None => None
    | Some decoded => Some (encodeBlob decoded)
    end.

Section Json.
  Context `{MR : MapRange}.

(** [rqliteValueFromJSON(rawValue)] *)
Definition rqliteValueFromJSON (rawValue : json) : result SqliteValue :=
  let unsupported t := Err (ErrNew ("unsupported parameter value " +:+ t)) in
  match rawValue with
  | JNull => Ok nullValue
  | JArray l =>
      match json_bytes l with
      | Some bytesValue => Ok (blobValue (encodeBlob bytesValue))
      | None => unsupported "[]interface {}"
      end
  | JBool typed => Ok (integerValue (if typed then 1 else 0))
  | JNumber literal =>
      match Number_Int64 literal with
      | Some integer => Ok (integerValue integer)
      | None =>
          match ParseFloat literal with
          | Err e => Err (ErrWrap "decode numeric parameter" e)
          | Ok real => Ok (realValue real)
          end
      end
  | JString typed =>
      match rqliteHexBlobString typed with
      | Some blob => Ok (blobValue blob)
      | None => Ok (textValue typed)
      end
  | JObject _ => unsupported "map[string]interface {}"
  end.

(** A JSON object decoded into a map: the last of equal names stays. *)
Definition named_map (l : list (string * json)) : gmap string json :=
  fold_left (fun m kv => <[fst kv := snd kv]> m) l ∅.

(** [rqliteParamsFromJSON(rawParams)] *)
Definition rqliteParamsFromJSON (rawParams : list json) : result (option (list VQueryParam)) :=
  let positional :=
    match result_mapM (fun rawValue =>
            value ← rqliteValueFromJSON rawValue; mret (MkVQueryParam None value)) rawParams with
    | Err e => Err e
    | Ok params => Ok (Some params)
    end in
  match rawParams with
  | [] => Ok None
  | [JObject l] =>
      match result_mapM (fun '(name, rawValue) =>
              value ← rqliteValueFromJSON rawValue; mret (MkVQueryParam (Some name) value))
              (map_order (named_map l)) with
      | Err e => Err e
      | Ok params => Ok (Some params)
      end
  | _ => positional
  end.

(** [rqliteQueryFromJSONStatement(statement)] *)
Definition rqliteQueryFromJSONStatement (statement : json) : result VQuery :=
  match json_string statement with
  | Ok sql => Ok (MkVQuery None sql None)
  | Err _ =>
      match json_array statement with
      | Err e => Err (ErrWrap "decode parameterized statement" e)
      | Ok [] => Err (ErrNew "statement array must not be empty")
      | Ok (first :: rest) =>
          match json_string first with
          | Err _ => Err (ErrNew "statement array must start with a SQL string")
          | Ok sql =>
              if TrimSpace sql =s? ""
              then Err (ErrNew "statement array must start with a SQL string")
              else
                match rqliteParamsFromJSON rest with
                | Err e => Err e
                | Ok params => Ok (MkVQuery None sql params)
                end
          end
      end
  end.

(** [rqliteQueriesFromJSON(body)] *)
Definition rqliteQueriesFromJSON (body : string) : result (list VQuery) :=
  match stdjson_Decode body ≫= json_array with
  | Err e => Err (ErrWrap "decode JSON statements" e)
  | Ok statements => result_mapM rqliteQueryFromJSONStatement statements
  end.

(** [rqliteQueriesFromRequest(r)] *)
Definition rqliteQueriesFromRequest (r : http_request) : result (list VQuery) :=
  if reqMethod r =s? "GET" then
    match query_values r "q" with
    | [] => Err (ErrNew "missing q query parameter")
    | values => Ok (map (fun value => MkVQuery None value None) values)
    end
  else
    match ReadAll (default (MkBody "" false) (reqBody r)) with
    | Err e => Err (ErrWrap "read request body" e)
    | Ok body =>
        let body := TrimSpace body in
        if body =s? "" then Err (ErrNew "request body is required")
        else
          let contentType :=
            ToLower (TrimSpace (SplitFirst (header_get r "Content-Type") (byte_chr 59))) in
          if contentType =s? "text/plain" then Ok [MkVQuery None body None]
          else rqliteQueriesFromJSON body
    end.
End Json.

(** ** Responses *)

(** [decodeBlobArray(encoded)]; [None] is the nil slice. *)
Definition decodeBlobArray (encoded : string) : option (list Z) :=
  match decodeBlob encoded with
  | Err _ => None
  | Ok decoded =>
      Some (map (fun a => Z.of_nat (byte_ord a)) (String.list_ascii_of_string decoded))
  end.

(** [rqliteValue(value, options)] *)
Definition rqliteValue (options : rqliteResponseOptions) (value : SqliteValue) : rqlite_any :=
  match svNull value with
  | Some true => RqNil
  | _ =>
      match svInteger value, svReal value, svText value, svBlob value with
      | Some z, _, _, _ => RqInt z
      | _, Some f, _, _ => RqReal f
      | _, _, Some s, _ => RqText s
      | _, _, _, Some b => if blobArray options then RqInts (decodeBlobArray b) else RqText b
      | _, _, _, _ => RqNil
      end
  end.

(** [rqliteValues(rows, options)] *)
Definition rqliteValues (rows : list (list SqliteValue)) (options : rqliteResponseOptions) :
    list (list rqlite_any) := map (map (rqliteValue options)) rows.

(** A map built by assigning [f index] to each column in order, where it is defined. *)
Fixpoint assign_columns {A} (columns : list string) (index : nat) (f : nat -> option A)
    (m : gmap string A) : gmap string A :=
  match columns with
  | [] => m
  | column :: columns' =>
      assign_columns columns' (S index) f
        (match f index with Some v => <[column := v]> m | None => m end)
  end.

(** [rqliteTypes(types)] *)
Definition rqliteTypes (types : list SqliteStorageClass) : list string :=
  map (fun valueType => ToLower (StorageClass_String valueType)) types.

(** [rqliteAssociativeTypes(columns, types)] *)
Definition rqliteAssociativeTypes (columns : list string) (types : list SqliteStorageClass) :
    gmap string string :=
  assign_columns columns 0
    (fun index => Some (match types !! index with
                        | Some t => ToLower (StorageClass_String t)
                        | None => ""
                        end)) ∅.

(** [rqliteAssociativeRows(columns, rows, options)] *)
Definition rqliteAssociativeRows (columns : list string) (rows : list (list SqliteValue))
    (options : rqliteResponseOptions) : list (gmap string rqlite_any) :=
  map (fun row => assign_columns columns 0 (fun index => rqliteValue options <$> row !! index) ∅)
    rows.

(** [rqliteResultFromVDL(result, options)] *)
Definition rqliteResultFromVDL (options : rqliteResponseOptions) (r : VQueryResult) :
    rqliteResult :=
  let time := if timings options then Some (vrTime r) else None in
  match vrError r with
  | Some e => MkRqResult None None [] RqNoTypes [] [] e time
  | None =>
      let columns := Val [] (vrColumns r) in
      let types := Val [] (vrTypes r) in
      let rows := Val [] (vrRows r) in
      match columns with
      | [] => MkRqResult (vrLastInsertId r) (vrRowsAffected r) [] RqNoTypes [] [] "" time
      | _ =>
          if associative options then
            MkRqResult (vrLastInsertId r) (vrRowsAffected r) []
              (RqTypeMap (rqliteAssociativeTypes columns types)) []
              (rqliteAssociativeRows columns rows options) "" time
          else
            MkRqResult (vrLastInsertId r) (vrRowsAffected r) columns
              (RqTypeList (rqliteTypes types)) (rqliteValues rows options) [] "" time
      end
  end.

(** [rqliteResponseFromVDL(output, options, elapsed)] *)
Definition rqliteResponseFromVDL (output : DatabaseQueryOutput) (options : rqliteResponseOptions)
    (elapsed : Z) : rqliteResponse :=
  MkRqResponse (map (rqliteResultFromVDL options) (doResults output))
    (if timings options then Some (if 0 <? doTime output then doTime output else elapsed)
     else None).

(** ** The text of a response

    What [encoding/json] makes of the structures: the fields in their order, those
    marked [omitempty] left out when empty, the keys of a map sorted. *)

Definition json_int (z : Z) : json := JNumber (print_int z).
(** An infinity and NaN have no text. *)
Definition float_name (f : spec_float) : string :=
  match f with S754_infinity true => "-Inf" | S754_infinity false => "+Inf" | _ => "NaN" end.
Definition json_float (f : spec_float) : result json :=
  match FormatFloat f with
  | Some literal => Ok (JNumber literal)
  | None => Err (ErrNew ("json: unsupported value: " +:+ float_name f))
  end.
Definition json_any (v : rqlite_any) : result json :=
  match v with
  | RqNil => Ok JNull
  | RqInt z => Ok (json_int z)
  | RqReal f => json_float f
  | RqText s => Ok (JString s)
  | RqInts None => Ok JNull
  | RqInts (Some l) => Ok (JArray (map json_int l))
  end.

Definition key_le {A} (a b : string * A) : Prop := String.leb a.1 b.1 = true.
#[export] Instance key_le_dec {A} : RelDecision (@key_le A).
Proof. intros a b. unfold key_le. apply _. Defined.
Definition sorted_entries {A} (m : gmap string A) : list (string * A) :=
  merge_sort key_le (map_to_list m).

Definition json_row (m : gmap string rqlite_any) : result json :=
  JObject <$> result_mapM (fun '(k, v) => (fun j => (k, j)) <$> json_any v) (sorted_entries m).
Definition json_types (t : rqlite_types) : option json :=
  match t with
  | RqNoTypes => None
  | RqTypeList l => Some (JArray (map JString l))
  | RqTypeMap m => Some (JObject (map (fun '(k, t) => (k, JString t)) (sorted_entries m)))
  end.

(** A field that is left out, or has a value. *)
Definition field (name : string) (v : option json) : list (string * json) :=
  match v with Some j => [(name, j)] | None => [] end.
Definition some_list (l : list json) : option json :=
  match l with [] => None | _ => Some (JArray l) end.
Definition json_seconds (t : option Z) : result (option json) :=
  match t with
  | None => Ok None
  | Some d => Some <$> json_float (Seconds d)
  end.

Definition json_result (r : rqliteResult) : result json :=
  values ← result_mapM (fun row => JArray <$> result_mapM json_any row) (rqValues r);
  rows ← result_mapM json_row (rqRows r);
  time ← json_seconds (rqTime r);
  Ok (JObject
    (field "last_insert_id" (json_int <$> rqLastInsertID r)
     ++ field "rows_affected" (json_int <$> rqRowsAffected r)
     ++ field "columns" (some_list (map JString (rqColumns r)))
     ++ field "types" (json_types (rqTypes r))
     ++ field "values" (some_list values)
     ++ field "rows" (some_list rows)
     ++ field "error" (if rqError r =s? "" then None else Some (JString (rqError r)))
     ++ field "time" time)).
Definition json_response (r : rqliteResponse) : result json :=
  results ← result_mapM json_result (rqResults r);
  time ← json_seconds (rqTotalTime r);
  Ok (JObject (("results", JArray results) :: field "time" time)).

(** [json.Marshal(response)], or [json.MarshalIndent(response, "", "  ")]. *)
Definition stdjson_Marshal (pretty : bool) (r : rqliteResponse) : result string :=
  print_json pretty 0 <$> json_response r.

(** ** Execution *)

Definition tx_query (txID : string) (sql : string) : VQuery := MkVQuery (Some txID) sql None.
Definition with_tx (txID : string) (query : VQuery) : VQuery :=
  MkVQuery (Some txID) (vqQuery query) (vqParams query).

(** The statements inside the transaction: the results, and whether one failed, in
    which case the transaction has been rolled back. *)
Fixpoint rqlite_tx_loop (props : requestProps) (txID : string) (queries : list VQuery)
    (results : list VQueryResult) : srv_prog (list VQueryResult * bool) :=
  match queries with
  | [] => mret (results, false)
  | query :: queries' =>
      result ← executeRequestQuery props (with_tx txID query);
      match vrError result with
      | Some _ =>
          _ ← executeRequestQuery props (tx_query txID "ROLLBACK");
          mret (results ++ [result], true)
      | None => rqlite_tx_loop props txID queries' (results ++ [result])
      end
  end.

(** [executeRQLiteQueries(ctx, props, queries, transaction)] *)
Definition executeRQLiteQueries (props : requestProps) (queries : list VQuery)
    (transaction : bool) : srv_prog DatabaseQueryOutput :=
  if negb transaction || negb (non_empty queries) then executeQueries props queries
  else
    startedAt ← act SrvNow;
    begin ← executeRequestQuery props (MkVQuery None "BEGIN" None);
    match vrError begin, vrTxId begin with
    | None, Some txID =>
        r ← rqlite_tx_loop props txID queries [];
        let '(results, failed) := r in
        if (failed : bool) then
          now ← act SrvNow; mret (MkDatabaseQueryOutput (now - startedAt) results)
        else
          commit ← executeRequestQuery props (tx_query txID "COMMIT");
          let results :=
            match vrError commit with Some _ => results ++ [commit] | None => results end in
          now ← act SrvNow;
          mret (MkDatabaseQueryOutput (now - startedAt) results)
    | _, _ =>
        now ← act SrvNow; mret (MkDatabaseQueryOutput (now - startedAt) [begin])
    end.

(** [badRQLiteRequest(err)] *)
Definition badRQLiteRequest (err : go_error) : go_error :=
  NewJSONError StatusBadRequest err ["Bad Request"].

Inductive rqliteEndpointMode : Type := rqliteModeQuery | rqliteModeExecute | rqliteModeRequest.
#[export] Instance rqliteEndpointMode_eq_dec : EqDecision rqliteEndpointMode.
Proof. solve_decision. Defined.

Section Handlers.
  Context `{CR : Crypto} `{MR : MapRange}.
  Context (s : Server).

(** [writeRQLiteJSON(w, response, pretty)] *)
Definition writeRQLiteJSON (response : rqliteResponse) (pretty : bool) :
    srv_prog (option go_error) :=
  match stdjson_Marshal pretty response with
  | Err err => mret (Some (ErrWrap "marshal rqlite response" err))
  | Ok body => WriteJSONBytes StatusOK body
  end.

(** [authorizeRQLiteRequest(r)] *)
Definition authorizeRQLiteRequest (r : http_request) : srv_prog (result requestProps) :=
  if authIsDisabled (svAuthTokens s) then mret (Ok (MkProps authRoleAdmin ""))
  else
    match BasicAuth r with
    | Some (_, password) =>
        o ← checkAuthWithCache (svAuthTokens s) (svAuthTokenSalt s) password;
        mret (match o with
              | None => Err unauthorizedError
              | Some (role, principal) => Ok (MkProps role principal)
              end)
    | None =>
        try_bind id (srv_authenticateRequest s r) (fun '(role, principal) =>
        mret (Ok (MkProps role principal)))
    end.

(** What [handleRQLite] does once the request is accepted. *)
Definition rqlite_execute (props : requestProps) (queries : list VQuery) : HandlerFuncErr := fun r =>
  startedAt ← act SrvNow;
  output ← executeRQLiteQueries props queries (query_has r "transaction");
  let options := MkRqOptions (query_has r "associative") (query_has r "blob_array")
                   (query_has r "timings") in
  now ← act SrvNow;
  writeRQLiteJSON (rqliteResponseFromVDL output options (now - startedAt)) (query_has r "pretty").

(** [handleRQLite(w, r, mode)] *)
Definition handleRQLite (mode : rqliteEndpointMode) : HandlerFuncErr := fun r =>
  props ← authorizeRQLiteRequest r;
  match props with
  | Err err => mret (Some err)
  | Ok props =>
      match rqliteQueriesFromRequest r with
      | Err err => mret (Some (badRQLiteRequest err))
      | Ok queries =>
          let props := if bool_decide (mode = rqliteModeQuery)
                       then MkProps authRoleReadOnly (Principal props) else props in
          _ ← act (SrvStat StIncHTTPRequests);
          _ ← act (SrvStat StIncQueuedHTTPRequests);
          deferred (rqlite_execute props queries r) (act (SrvStat StDecQueuedHTTPRequests))
      end
  end.

Definition rqliteQueryHandler : HandlerFuncErr := handleRQLite rqliteModeQuery.
Definition rqliteExecuteHandler : HandlerFuncErr := handleRQLite rqliteModeExecute.
Definition rqliteRequestHandler : HandlerFuncErr := handleRQLite rqliteModeRequest.

(** ** The routes: [createMux] of [server.go]

    A [GET] pattern also matches [HEAD].  The multiplexer answers 405 when only the
    method is wrong and 404 otherwise; both are its own and write no JSON. *)
Inductive route : Type :=
| Handled (h : HandlerFuncErr)
| MethodNotAllowed
| NotFound.

Context `{J : GoJSON}.

Definition createMux (r : http_request) : route :=
  let post := reqMethod r =s? "POST" in
  let get := (reqMethod r =s? "GET") || (reqMethod r =s? "HEAD") in
  match reqPath r with
  | [prefix; rpcName; operationName] =>
      if prefix =s? "rpc" then
        if post then Handled (rpcHandler s rpcName operationName) else MethodNotAllowed
      else NotFound
  | [prefix; endpoint] =>
      if negb (prefix =s? "db") then NotFound
      else if endpoint =s? "query" then
        if get || post then Handled rqliteQueryHandler else MethodNotAllowed
      else if endpoint =s? "execute" then
        if post then Handled rqliteExecuteHandler else MethodNotAllowed
      else if endpoint =s? "request" then
        if post then Handled rqliteRequestHandler else MethodNotAllowed
      else NotFound
  | _ => NotFound
  end.

(** One request, from the size limit to the error handler. *)
Definition serve_request : http_request -> srv_prog unit :=
  maxRequestBodyMiddleware s (fun r =>
    match createMux r with
    | Handled h => CreateHandlerFuncBuilder errorHandler h [] r
    | MethodNotAllowed => _ ← WriteString 405 "Method Not Allowed"; mret tt
    | NotFound => _ ← WriteString 404 "404 page not found"; mret tt
    end).
End Handlers.
