(* ===== verification/ServerSafety.v ===== *)
(** * Every interleaving of HTTP requests

    Any number of requests are served at the same time by the server of
    [NewServer]; the database, the clock and the network move between their steps.
    What a request hands to the database depends on the token it presents and on
    nothing else: not on the cache, not on the other requests, not on what the
    database answered before. *)
From S2P Require Import Prelude GoStrings Base64 Stats Sqlite DbState Goroutines VdlTypes Convert Http Auth Vdl Server Rqlite.

Section Safety.
  Context `{CR : Crypto} `{J : GoJSON} `{MR : MapRange} `{DBS : DBService}.
  Context (s : Server) (uuid : nat -> string).
  (** The requests that clients send. *)
  Context (requests : http_request -> Prop).

(** ** What a request may do *)

(** The tokens a request carries. *)
Definition presents (r : http_request) (t : string) : Prop :=
  t = bearer_token r \/ exists user, BasicAuth r = Some (user, t).
Definition presented (t : string) : Prop := exists r, requests r /\ presents r t.

(** Whose request it is, without the cache: the role of its token and the owner of the
    transactions it may open.  [basic] is whether Basic credentials are accepted. *)
Definition identity (basic : bool) (r : http_request) : option (authRole * string) :=
  if authIsDisabled (svAuthTokens s) then Some (authRoleAdmin, "")
  else
    let answer := uncached_answer (svAuthTokens s) (svAuthTokenSalt s) in
    match (if basic then BasicAuth r else None) with
    | Some (_, password) => answer password
    | None => answer (bearer_token r)
    end.

(** The queries a request may hand to the database. *)
Definition allowed (r : http_request) (q : Query) : Prop :=
  match reqPath r with
  | [prefix; rpcName; operationName] =>
      prefix = "rpc" /\
      if (rpcName =s? "System") && (operationName =s? "health")
      then q = MkQuery "" "" "SELECT 1" [] AuthorizerRoleAdmin
      else exists role, identity false r = Some (role, qTxOwner q)
                     /\ qRole q = authorizerRoleForAuthRole role
  | [prefix; endpoint] =>
      prefix = "db" /\
      exists role, identity true r = Some (role, qTxOwner q)
                /\ qRole q = if endpoint =s? "query" then AuthorizerRoleReadOnly
                             else authorizerRoleForAuthRole role
  | _ => False
  end.

Definition entry_ok : string -> authRole -> Prop :=
  cache_entry_ok (svAuthTokens s) (svAuthTokenSalt s) presented.

(** The discipline: a goroutine is known by its request. *)
Definition req_pre (r : http_request) (B : Type) (e : srvE B) : Prop :=
  match e with
  | CacheStore hash role => entry_ok hash role
  | DBQuery q => allowed r q
  | _ => True
  end.
Definition req_post : forall B, srvE B -> B -> Prop :=
  cache_post (svAuthTokens s) (svAuthTokenSalt s) presented.
Definition req_upd (r : http_request) (B : Type) (e : srvE B) (b : B) : http_request := r.

Abbreviation rwp := (wp req_pre req_post req_upd).
(** A program that keeps to the discipline and returns a value that satisfies [Q]. *)
Definition safe {A} (r : http_request) (p : srv_prog A) (Q : A -> Prop) : Prop :=
  rwp r p (fun r' a => r' = r /\ Q a).

Lemma safe_ret {A} r (a : A) (Q : A -> Prop) : Q a -> safe r (Ret a) Q.
Proof using. by split. Qed.

Lemma safe_mono {A} r (p : srv_prog A) (Q Q' : A -> Prop) :
  (forall a, Q a -> Q' a) -> safe r p Q -> safe r p Q'.
Proof using. intros H. apply wp_mono. intros r' a [-> ?]. auto. Qed.

Lemma safe_bind {A B} r (p : srv_prog A) (f : A -> srv_prog B) (P : A -> Prop) Q :
  safe r p P -> (forall a, P a -> safe r (f a) Q) -> safe r (prog_bind f p) Q.
Proof using.
  intros Hp Hf. apply wp_bind. eapply wp_mono; [|exact Hp]. intros r' a [-> Ha]. by apply Hf.
Qed.

Lemma safe_act {B} r (e : srvE B) (Q : B -> Prop) :
  req_pre r B e -> (forall b, Q b) -> safe r (act e) Q.
Proof using. intros Hp HQ. by apply wp_act. Qed.

Lemma safe_deferred {A} r (body : srv_prog A) fin Q :
  safe r body Q -> safe r fin (fun _ => True) -> safe r (deferred body fin) Q.
Proof using.
  intros Hb Hf. eapply safe_bind; [exact Hb|]. intros a Ha.
  eapply safe_bind; [exact Hf|]. intros _ _. by apply safe_ret.
Qed.

Lemma safe_try {A B} r wrap (p : srv_prog (result A)) (f : A -> srv_prog (result B)) P Q :
  safe r p (fun x => match x with Ok a => P a | Err e => Q (Err (wrap e)) end) ->
  (forall a, P a -> safe r (f a) Q) -> safe r (try_bind wrap p f) Q.
Proof using.
  intros Hp Hf. eapply safe_bind; [exact Hp|]. intros [a|e] Ha; [by apply Hf|by apply safe_ret].
Qed.

(** When what came before does not matter. *)
Lemma safe_seq {A B} r (p : srv_prog A) (f : A -> srv_prog B) Q :
  safe r p (fun _ => True) -> (forall a, safe r (f a) Q) -> safe r (prog_bind f p) Q.
Proof using. intros Hp Hf. eapply safe_bind; [exact Hp|]. intros a _. apply Hf. Qed.

(** ** Sending responses *)

Lemma safe_WriteJSON r st v : safe r (WriteJSON st v) (fun _ => True).
Proof using. unfold WriteJSON, safe. by destruct v; cbn; split_and!. Qed.

Lemma safe_WriteJSONBytes r st b : safe r (WriteJSONBytes st b) (fun _ => True).
Proof using. unfold WriteJSONBytes, safe. cbn. by split_and!. Qed.

Lemma safe_WriteString r st b : safe r (WriteString st b) (fun _ => True).
Proof using. unfold WriteString, safe. cbn. by split_and!. Qed.

Lemma safe_writeProcResponse r rsp : safe r (writeProcResponse rsp) (fun _ => True).
Proof using. unfold writeProcResponse, safe. cbn. by split_and!. Qed.

Lemma safe_errorHandler r req err : safe r (errorHandler req err) (fun _ => True).
Proof using.
  unfold errorHandler. apply safe_seq; [by apply safe_act|]. intros id.
  destruct (errors_as_json err) as [[[st e] safe_msg]|];
    (apply safe_seq; [apply safe_WriteJSON || apply safe_WriteString|]; intros; by apply safe_ret).
Qed.

(** ** Running queries *)

(** The queries of a client with these props. *)
Definition with_props (r : http_request) (props : requestProps) : Prop :=
  forall q, qTxOwner q = Principal props -> qRole q = authorizerRoleForAuthRole (Role props) ->
    allowed r q.

Lemma safe_now {A} r (f : Z -> A) : safe r (t ← act SrvNow; mret (f t)) (fun _ => True).
Proof using. unfold safe. cbn. split; [done|]. by intros. Qed.

Lemma safe_executeRequestQuery r props query :
  with_props r props -> safe r (executeRequestQuery props query) (fun _ => True).
Proof using.
  intros Hp. unfold executeRequestQuery. apply safe_seq; [by apply safe_act|]. intros t.
  destruct (vqQuery query =s? ""); [apply safe_now|].
  destruct (sqliteParamsFromVDL (vqParams query)) as [ps|e]; [|apply safe_now].
  apply safe_seq; [apply safe_act; [by apply Hp|done]|]. intros x. apply safe_now.
Qed.

Lemma safe_executeQueries r props queries :
  with_props r props -> safe r (executeQueries props queries) (fun _ => True).
Proof using.
  intros Hp. unfold executeQueries.
  apply safe_seq; [by apply safe_act|]. intros t.
  apply safe_seq; [|intros rs; apply safe_now].
  generalize (@nil VQueryResult). induction queries as [|q qs IH]; intros rs; [by apply safe_ret|].
  cbn [execute_loop]. apply safe_seq; [by apply safe_executeRequestQuery|]. intros x. apply IH.
Qed.

Lemma safe_tx_loop r props id queries results :
  with_props r props -> safe r (rqlite_tx_loop props id queries results) (fun _ => True).
Proof using.
  intros Hp. revert results. induction queries as [|q qs IH]; intros rs; [by apply safe_ret|].
  cbn [rqlite_tx_loop]. apply safe_seq; [by apply safe_executeRequestQuery|]. intros x.
  destruct (vrError x); [|apply IH].
  apply safe_seq; [by apply safe_executeRequestQuery|]. intros. by apply safe_ret.
Qed.

Lemma safe_executeRQLiteQueries r props queries transaction :
  with_props r props -> safe r (executeRQLiteQueries props queries transaction) (fun _ => True).
Proof using.
  intros Hp. unfold executeRQLiteQueries.
  destruct (negb transaction || negb (non_empty queries)); [by apply safe_executeQueries|].
  apply safe_seq; [by apply safe_act|]. intros t.
  apply safe_seq; [by apply safe_executeRequestQuery|]. intros x.
  destruct (vrError x); [apply safe_now|]. destruct (vrTxId x) as [id|]; [|apply safe_now].
  apply safe_seq; [by apply safe_tx_loop|]. intros [rs []]; [apply safe_now|].
  apply safe_seq; [by apply safe_executeRequestQuery|]. intros c. apply safe_now.
Qed.

(** ** Authentication *)

  (** Distinct tokens of the clients have distinct salted hashes. *)
  Hypothesis no_collision : forall t1 t2, presented t1 -> presented t2 ->
    token_hash (svAuthTokenSalt s) t1 = token_hash (svAuthTokenSalt s) t2 -> t1 = t2.

(** A request with the credentials of one that was sent. *)
Definition known (req : http_request) : Prop :=
  exists r, requests r /\ reqHeaders r = reqHeaders req.
Lemma known_presents req t : known req -> presents req t -> presented t.
Proof using.
  intros (r & Hr & Hh) Hp. exists r. split; [done|].
  unfold presents, bearer_token, BasicAuth, header_get in *. by rewrite Hh.
Qed.

Lemma safe_checkAuth r t :
  presented t ->
  safe r (checkAuthWithCache (svAuthTokens s) (svAuthTokenSalt s) t)
    (fun o => o = uncached_answer (svAuthTokens s) (svAuthTokenSalt s) t).
Proof using no_collision.
  intros Ht. by apply (wp_checkAuthWithCache _ _ presented no_collision).
Qed.

(** An authentication answers with the identity of the request. *)
Definition answers {A} (identity : option A) (x : result A) : Prop :=
  match x with
  | Ok a => identity = Some a
  | Err e => identity = None /\ e = unauthorizedError
  end.

Lemma safe_authenticate r req :
  known req -> safe r (srv_authenticateRequest s req) (answers (identity false req)).
Proof using no_collision.
  intros Hr. unfold srv_authenticateRequest, authenticateRequest, identity.
  destruct (authIsDisabled (svAuthTokens s)); [by apply safe_ret|].
  destruct (bearer_token req =s? "") eqn:E.
  - apply safe_ret. unfold uncached_answer. by rewrite E.
  - eapply safe_bind; [apply safe_checkAuth, (known_presents req); [done|by left]|].
    intros o Ho. rewrite <- Ho. by destruct o; apply safe_ret.
Qed.

Lemma safe_authorizeRQLite r req :
  known req ->
  safe r (authorizeRQLiteRequest s req)
    (answers ((fun rp => MkProps (fst rp) (snd rp)) <$> identity true req)).
Proof using no_collision.
  intros Hr. unfold authorizeRQLiteRequest, identity.
  destruct (authIsDisabled (svAuthTokens s)) eqn:Ed; [by apply safe_ret|].
  destruct (BasicAuth req) as [[user password]|] eqn:Eb.
  - eapply safe_bind; [apply safe_checkAuth, (known_presents req); [done|right; by exists user]|].
    intros o Ho. rewrite <- Ho. by destruct o as [[role p]|]; apply safe_ret.
  - apply (safe_try _ _ _ _ (fun rp => identity false req = Some rp)).
    + eapply safe_mono; [|by apply safe_authenticate]. unfold identity. rewrite Ed.
      by intros [[role p]|e]; [|intros [-> ->]].
    + unfold identity. rewrite Ed. intros [role p] Hi. rewrite Hi. by apply safe_ret.
Qed.

Lemma safe_authorizeRPC r req rpcName operationName :
  known req ->
  safe r (authorizeRPCRequest s req rpcName operationName) (fun x =>
    match x with
    | Ok props => (rpcName = "System" /\ operationName = "health")
                  \/ ((rpcName =s? "System") && (operationName =s? "health") = false
                      /\ identity false req = Some (Role props, Principal props))
    | Err _ => True
    end).
Proof using no_collision.
  intros Hr. unfold authorizeRPCRequest.
  destruct ((rpcName =s? "System") && (operationName =s? "health")) eqn:Eh.
  - apply safe_ret. apply andb_true_iff in Eh as [??]. string_cases. by left.
  - apply (safe_try _ _ _ _ (fun rp => identity false req = Some rp)).
    + eapply safe_mono; [|by apply safe_authenticate]. by intros [[role p]|e].
    + intros [role p] Hi. cbn beta iota.
      destruct (_ && negb _); [by apply safe_ret|]. apply safe_ret. by right.
Qed.

(** ** The handlers *)

  Context (version : string).

(** The registered procedures. *)
Definition registered : gmap (string * string) (GlobalHandlerFunc srvE requestProps) :=
  <[("System", "status") := typed_handler (systemStatusProc version)]>
  (<[("System", "session") := typed_handler systemSessionProc]>
  (<[("System", "health") := typed_handler systemHealthProc]>
  (<[("Database", "query") := typed_handler databaseQueryProc]> ∅))).

Lemma newRPCServer_shape : exists defs deser,
  newRPCServer version
  = Some (MkInternalServer defs registered deser [] ∅ ∅ (Some rpcErrorHandler) ∅).
Proof using. do 2 eexists. reflexivity. Qed.

(** What the proofs need of the server. *)
Definition rpc_shape : Prop := exists defs deser,
  svRpcServer s = MkInternalServer defs registered deser [] ∅ ∅ (Some rpcErrorHandler) ∅.
Lemma server_shape salt config : NewServer version salt config = Some s -> rpc_shape.
Proof using.
  destruct newRPCServer_shape as (defs & deser & E). intros Hs. exists defs, deser.
  unfold NewServer in Hs. rewrite E in Hs. cbn in Hs. injection Hs as Hs. by rewrite <- Hs.
Qed.

  Hypothesis started : rpc_shape.

(** Dispatching runs one registered procedure, on the props of the request. *)
Lemma safe_handleRequest r props rpcName operationName body :
  (forall h c, registered !! (rpcName, operationName) = Some h -> hcProps c = props ->
    safe r (h c) (fun _ => True)) ->
  safe r (handleRequest (svRpcServer s) props rpcName operationName body) (fun _ => True).
Proof using started.
  intros Hh. destruct started as (defs & deser & ->). unfold handleRequest.
  destruct (gojson_Decode body); [|apply safe_writeProcResponse].
  cbn [operationDefs]. destruct (defs !! _); [|apply safe_writeProcResponse].
  apply safe_seq; [|intros []; apply safe_writeProcResponse].
  unfold handleProcRequest. cbn [procHandlers procDeserializers globalMiddlewares rpcMiddlewares procMiddlewares].
  destruct (registered !! _) as [h|] eqn:E; [|by apply safe_ret].
  destruct (deser !! _) as [d|]; [|by apply safe_ret].
  destruct (d _) as [input|e]; [|by apply safe_ret].
  rewrite !lookup_empty. by apply Hh.
Qed.

Lemma safe_typed r {I O} `{!AnyOf RpcInput I} `{!AnyOf RpcOutput O}
    (h : HandlerContext requestProps I -> srv_prog (result O)) c :
  safe r (h (specific c)) (fun _ => True) -> safe r (typed_handler h c) (fun _ => True).
Proof. intros Hh. apply safe_seq; [done|]. intros. by apply safe_ret. Qed.

Lemma safe_procedure r props rpcName operationName h c :
  registered !! (rpcName, operationName) = Some h -> hcProps c = props ->
  allowed r (MkQuery "" "" "SELECT 1" [] AuthorizerRoleAdmin)
    \/ (rpcName, operationName) <> ("System", "health") ->
  with_props r props \/ (rpcName, operationName) <> ("Database", "query") ->
  safe r (h c) (fun _ => True).
Proof using.
  intros Hl <- Hhealth Hquery. unfold registered in Hl.
  apply lookup_insert_Some in Hl as [[Hk <-]|[_ Hl]].
  { apply safe_typed. unfold systemStatusProc. apply safe_seq; [by apply safe_act|].
    intros. apply safe_now. }
  apply lookup_insert_Some in Hl as [[Hk <-]|[_ Hl]]; [by apply safe_ret|].
  apply lookup_insert_Some in Hl as [[Hk <-]|[_ Hl]].
  { destruct Hhealth as [Ha|]; [|congruence]. apply safe_typed. apply safe_seq; [by apply safe_act|]. intros. by apply safe_ret. }
  apply lookup_insert_Some in Hl as [[Hk <-]|[_ Hl]]; [|done].
  destruct Hquery as [Hp|]; [|congruence]. apply safe_typed. unfold databaseQueryProc.
  apply safe_seq; [by apply safe_executeQueries|]. intros. by apply safe_ret.
Qed.

Lemma safe_rpcHandler r req rpcName operationName :
  known req -> reqPath r = ["rpc"; rpcName; operationName] ->
  identity false req = identity false r ->
  safe r (rpcHandler s rpcName operationName req) (fun _ => True).
Proof using no_collision started.
  intros Hr Hpath Hid. unfold rpcHandler.
  eapply safe_bind; [by apply safe_authorizeRPC|]. intros [props|err] Hprops.
  2:{ unfold writeRPCError. destruct (gojson_Marshal_response _); [|by apply safe_ret].
      apply safe_WriteJSONBytes. }
  assert (Hd : safe r (err ← handleRequest (svRpcServer s) props rpcName operationName
                (default (MkBody "" false) (reqBody req));
                mret (wrap_opt "handle rpc request" err)) (fun _ => True)).
  { apply safe_seq; [|intros; by apply safe_ret]. apply safe_handleRequest. intros h c Hh Hc.
    eapply safe_procedure; [done|done|..].
    - unfold allowed. rewrite Hpath.
      destruct ((rpcName =s? "System") && (operationName =s? "health")) eqn:E; [by left|right].
      intros [Ha Hb]%pair_equal_spec. by rewrite Ha, Hb in E.
    - destruct Hprops as [[-> ->]|[Hn Hi]]; [by right|]. left. intros q Ho Hrole.
      unfold allowed. rewrite Hpath, Hn. split; [done|]. exists (Role props). by rewrite <- Hid, Ho. }
  cbv zeta. destruct ((rpcName =s? "Database") && (operationName =s? "query")); [|exact Hd].
  apply safe_seq; [by apply safe_act|]. intros _. apply safe_seq; [by apply safe_act|]. intros _.
  apply safe_deferred; [exact Hd|by apply safe_act].
Qed.

Lemma safe_handleRQLite r req mode endpoint :
  known req -> reqPath r = ["db"; endpoint] ->
  (mode = rqliteModeQuery <-> endpoint = "query") ->
  identity true req = identity true r ->
  safe r (handleRQLite s mode req) (fun _ => True).
Proof using no_collision.
  intros Hr Hpath Hmode Hid. unfold handleRQLite.
  eapply safe_bind; [by apply safe_authorizeRQLite|]. intros [props|err] Hprops; [|by apply safe_ret].
  destruct (rqliteQueriesFromRequest req) as [queries|err]; [|by apply safe_ret].
  apply safe_seq; [by apply safe_act|]. intros _. apply safe_seq; [by apply safe_act|]. intros _.
  apply safe_deferred; [|by apply safe_act]. unfold rqlite_execute.
  apply safe_seq; [by apply safe_act|]. intros t. apply safe_seq.
  - apply safe_executeRQLiteQueries. intros q Ho Hrole. unfold allowed. rewrite Hpath.
    cbn in Hprops. rewrite Hid in Hprops. destruct (identity true r) as [[role p]|]; [|done].
    cbn in Hprops. injection Hprops as <-. split; [done|]. exists role.
    case_bool_decide as Hm; cbn in Ho, Hrole; rewrite Ho; (split; [done|]); rewrite Hrole.
    + apply Hmode in Hm as ->. done.
    + destruct (endpoint =s? "query") eqn:E; [|done]. string_cases. by destruct Hm, Hmode; auto.
  - intros output. apply safe_seq; [by apply safe_act|]. intros now. unfold writeRQLiteJSON.
    destruct (stdjson_Marshal _ _); [|by apply safe_ret]. apply safe_WriteJSONBytes.
Qed.

Lemma safe_serve_request r : requests r -> safe r (serve_request s r) (fun _ => True).
Proof using no_collision started.
  intros Hr. unfold serve_request, maxRequestBodyMiddleware.
  set (req := MkRequest _ _ _ _ _ _).
  assert (Hk : known req) by by exists r.
  assert (Hh : forall h, safe r (h req) (fun _ => True) ->
    safe r (CreateHandlerFuncBuilder errorHandler h [] req) (fun _ => True)).
  { intros h Hh. apply safe_seq; [exact Hh|]. intros [err|]; [apply safe_errorHandler|by apply safe_ret]. }
  assert (Hplain : forall st msg, safe r (_ ← WriteString st msg; mret tt) (fun _ => True)).
  { intros. apply safe_seq; [apply safe_WriteString|]. intros. by apply safe_ret. }
  unfold createMux. cbn [reqPath req reqMethod].
  destruct (reqPath r) as [|p1 [|p2 [|p3 [|? ?]]]] eqn:Hpath; try apply Hplain.
  - destruct (p1 =s? "db") eqn:E1; [|apply Hplain]. string_cases. cbn [negb].
    assert (Hm : forall mode, (mode = rqliteModeQuery <-> p2 = "query") ->
      safe r (CreateHandlerFuncBuilder errorHandler (handleRQLite s mode) [] req) (fun _ => True)).
    { intros mode Hm. apply Hh. by apply (safe_handleRQLite _ _ _ p2). }
    destruct (p2 =s? "query") eqn:E2; string_cases.
    { destruct (_ || _); [by apply Hm|apply Hplain]. }
    destruct (p2 =s? "execute"), (p2 =s? "request"), (reqMethod r =s? "POST");
      try apply Hplain; by apply Hm.
  - destruct (p1 =s? "rpc") eqn:E1; [|apply Hplain]. string_cases.
    destruct (reqMethod r =s? "POST"); [|apply Hplain]. apply Hh. by apply safe_rpcHandler.
Qed.

(** ** Reachable configurations *)

(** The server starts with an empty cache. *)
Definition srv_init {R} (c : config srv_state http_request (srv_prog R)) : Prop :=
  authTokenCache (shared c) = ∅ /\ goroutines c = [].
Definition srv_reachable {R} (p : http_request -> srv_prog R) :
    config srv_state http_request (srv_prog R) -> Prop :=
  reachable (srv_handle uuid) (fun r p' => requests r /\ p' = p r) srv_env srv_init.

Lemma reachable_safe {R} (p : http_request -> srv_prog R) (final : http_request -> R -> Prop) c :
  (forall r, requests r -> safe r (p r) (final r)) ->
  srv_reachable p c ->
  cache_ok (svAuthTokens s) (svAuthTokenSalt s) presented (shared c)
  /\ forall i r p', goroutines c !! i = Some (r, p') -> rwp r p' (fun r' a => r' = r /\ final r a).
Proof using.
  intros Hp Hc.
  eapply (reachable_typed req_pre req_post req_upd _ _ _ _
            (fun st _ => cache_ok (svAuthTokens s) (svAuthTokenSalt s) presented st)
            (fun r => r) (fun r a => final r a) ) with (tag := fun r => r) in Hc as [ls [Hi Hall]].
  - split; [exact Hi|]. intros i r p' Hi'.
    destruct (Forall2_lookup_r _ _ _ _ _ Hall Hi') as (l & Hl & Ht & Hw). cbn in Ht, Hw. subst l.
    clear -Hw. revert Hw. induction p' as [a|B e k IH]; cbn; [by split|].
    intros [Hpre Hk]. split; [done|]. intros b Hb. by apply IH, Hk.
  - intros st st' _ He Hok. by eapply cache_env.
  - done.
  - intros r p' [Hr ->]. eapply wp_mono; [|exact (Hp r Hr)]. by intros r' a [-> ?].
  - intros B e b st st' ls i r Hok Hl Hpre Hh. eapply cache_step; [done| |done].
    by destruct e.
  - intros c0 [He Hg]. destruct c0 as [st gs]. cbn in He, Hg. subst gs. exists [].
    split; [|constructor]. intros h role. cbn. by rewrite He.
  - done.
  - done.
Qed.
End Safety.

Section Theorems.
  Context `{CR : Crypto} `{J : GoJSON} `{MR : MapRange} `{DBS : DBService}.
  Context (s : Server) (uuid : nat -> string) (requests : http_request -> Prop).
  Context (version salt : string) (config : ServerConfig).
  Hypothesis started : NewServer version salt config = Some s.
  Hypothesis no_collision : forall t1 t2, presented requests t1 -> presented requests t2 ->
    token_hash (svAuthTokenSalt s) t1 = token_hash (svAuthTokenSalt s) t2 -> t1 = t2.

(** Every query is confined to its request.  Whatever is served at the same time
    and whatever the cache holds, a query that reaches the database carries the role
    of the token its own request presents (read-only on [/db/query], whatever the
    token) and, as owner, the digest of that token; a request whose token is refused
    reaches the database with nothing; the exception is the health check, which
    needs no token and only runs [SELECT 1]. *)
Theorem request_confinement (c : Goroutines.config srv_state http_request (srv_prog unit)) i r q k :
  srv_reachable uuid requests (serve_request s) c ->
  goroutines c !! i = Some (r, Vis (DBQuery q) k) ->
  allowed s r q.
Proof using no_collision started.
  intros Hc Hi. pose proof (server_shape s version salt config started) as Hshape. clear started.
  destruct (reachable_safe s uuid requests (serve_request s) (fun _ _ => True) c) as [_ Hw]; [|done|].
  - intros r' Hr. by eapply safe_serve_request.
  - by destruct (Hw _ _ _ Hi) as [Ha _].
Qed.

(** C9: the cache is transparent.  When a request's authentication returns, in any
    interleaving with the authentications of others, it returns what a scan of the
    configured tokens says: their role and the digest of the token, or
    "Unauthorized"; the cache only ever makes it faster. *)
Theorem authentication_transparent
    (c : Goroutines.config srv_state http_request (srv_prog (result (authRole * string)))) i r x :
  srv_reachable uuid requests (srv_authenticateRequest s) c ->
  goroutines c !! i = Some (r, Ret x) ->
  match x with
  | Ok a => identity s false r = Some a
  | Err e => identity s false r = None /\ e = unauthorizedError
  end.
Proof using no_collision.
  intros Hc Hi. clear started.
  destruct (reachable_safe s uuid requests (srv_authenticateRequest s)
              (fun r x => answers (identity s false r) x) c) as [_ Hw]; [|done|].
  - intros r' Hr. apply (safe_authenticate s requests no_collision). by exists r'.
  - by destruct (Hw _ _ _ Hi) as [_ Ha].
Qed.
End Theorems.
