(* ===== verification/ServerSpec.v ===== *)
(** * What one HTTP request does

    The handlers run alone: one result per query, in order; exactly one response per
    request; refused requests touch nothing; what the status reports. *)
From S2P Require Import Prelude GoStrings GoTime Base64 Stats Sqlite DbState Goroutines VdlTypes Convert Http Auth Vdl Server Rqlite ServerSafety.

Section Spec.
  Context `{CR : Crypto} `{J : GoJSON} `{MR : MapRange} `{DBS : DBService}.
  Context (uuid : nat -> string).

Abbreviation srv_run := (run (srv_handle uuid)).

(** ** Queries *)

(** The results of queries that are answered one after the other, each in the state
    the previous one left. *)
Inductive answered (props : requestProps) :
    list VQuery -> srv_state -> list VQueryResult -> srv_state -> Prop :=
| answered_nil st : answered props [] st [] st
| answered_cons q qs st r st1 rs st2 :
    srv_run (executeRequestQuery props q) st = Done r st1 ->
    answered props qs st1 rs st2 -> answered props (q :: qs) st (r :: rs) st2.

Lemma run_execute_loop props qs rs0 st rs st' :
  srv_run (execute_loop props qs rs0) st = Done rs st' <->
  exists rs1, rs = rs0 ++ rs1 /\ answered props qs st rs1 st'.
Proof using.
  revert rs0 st. induction qs as [|q qs IH]; intros rs0 st; cbn [execute_loop].
  - split.
    + intros [= <- <-]. exists []. split; [by rewrite app_nil_r|constructor].
    + intros (rs1 & -> & H). inversion H; subst. by rewrite app_nil_r.
  - unfold mbind, prog_mbind. rewrite run_bind.
    destruct (srv_run (executeRequestQuery props q) st) as [r st1|st1] eqn:E.
    + rewrite IH. split.
      * intros (rs1 & -> & H). exists (r :: rs1). rewrite <- app_assoc. split; [done|].
        by econstructor.
      * intros (rs1 & -> & H). inversion H as [|? ? ? r' st1' rs' ? Hr Hrest]; subst.
        rewrite E in Hr. injection Hr as <- <-. exists rs'. by rewrite <- app_assoc.
    + split; [done|]. intros (rs1 & -> & H). inversion H as [|? ? ? ? ? ? ? Hr]; subst. congruence.
Qed.

(** C28: a request with several queries runs them in order, one result each, and stops
    at none of them: each is answered in the state the previous one left, whether or
    not that one failed; and nothing else touches the state. *)
Theorem results_in_order props queries st out st' :
  srv_run (executeQueries props queries) st = Done out st' <->
  answered props queries st (doResults out) st'
  /\ doTime out = db_now (srvDB st') - db_now (srvDB st).
Proof using.
  unfold executeQueries. unfold mbind, prog_mbind. rewrite run_act_bind. cbn [srv_handle].
  rewrite run_bind.
  destruct (srv_run (execute_loop props queries []) st) as [rs st1|st1] eqn:E.
  - cbn. split.
    + intros [= <- <-]. cbn. split; [|done].
      apply run_execute_loop in E as (rs1 & -> & H). exact H.
    + intros [H Ht].
      assert (E' : srv_run (execute_loop props queries []) st = Done (doResults out) st').
      { apply run_execute_loop. by exists (doResults out). }
      rewrite E in E'. injection E' as -> ->. destruct out. cbn in *. by rewrite Ht.
  - split; [done|]. intros [H _].
    assert (E' : srv_run (execute_loop props queries []) st = Done (doResults out) st').
    { apply run_execute_loop. by exists (doResults out). }
    congruence.
Qed.

(** ** Responses *)

(** Bodies written so far. *)
Definition is_body (m : sent) : bool := match m with SentBody _ => true | _ => false end.
Definition bodies (l : list sent) : nat := length (List.filter is_body l).

Lemma bodies_snoc l m : bodies (l ++ [m]) = (bodies l + if is_body m then 1 else 0)%nat.
Proof using. unfold bodies. rewrite List.filter_app, length_app. cbn. by destruct (is_body m). Qed.

(** The discipline that counts bodies, on a connection that works. *)
Definition body_post (B : Type) (e : srvE B) (b : B) : Prop :=
  match e in srvE B return B -> Prop with WriteBody _ => fun r => r = None | _ => fun _ => True end b.
Definition body_upd (n : nat) (B : Type) (e : srvE B) (b : B) : nat :=
  match e with WriteBody _ => S n | _ => n end.
Abbreviation bwp := (wp (fun _ _ _ => True) body_post body_upd).

Lemma body_step (n0 : nat) B (e : srvE B) b st st' n :
  netError st = None /\ bodies (sentLog st) = (n0 + n)%nat -> True ->
  srv_handle uuid B e st = Some (b, st') ->
  body_post B e b /\ netError st' = None /\ bodies (sentLog st') = (n0 + body_upd n B e b)%nat.
Proof using.
  intros [Hn Hl] _ H.
  assert (Hsend : forall m, netError (send m st) = None
    /\ bodies (sentLog (send m st)) = (n0 + (n + if is_body m then 1 else 0))%nat).
  { intros m. cbn [send netError sentLog]. rewrite bodies_snoc, Hl. split; [done|lia]. }
  destruct e; cbn [srv_handle] in H; try (by injection H as <- <-).
  - destruct (db_Query q (srvDB st)) as [[r d]|]; [|done]. by injection H as <- <-.
  - injection H as <- <-. destruct (Hsend (SentHeader key value)) as [? Hb].
    rewrite Nat.add_0_r in Hb. by split_and!.
  - injection H as <- <-. destruct (Hsend (SentStatus status)) as [? Hb].
    rewrite Nat.add_0_r in Hb. by split_and!.
  - injection H as <- <-. destruct (Hsend (SentBody b0)) as [? Hb].
    rewrite Nat.add_1_r in Hb. by split_and!.
Qed.

(** Programs that write no body, and handlers that write one exactly when they do not
    return an error. *)
Definition silent {A} (p : srv_prog A) : Prop := forall n, bwp n p (fun n' _ => n' = n).
Definition replies (p : srv_prog (option go_error)) : Prop :=
  forall n, bwp n p (fun n' e => n' = match e with None => S n | Some _ => n end).

Lemma silent_ret {A} (a : A) : silent (Ret a).
Proof using. done. Qed.
Lemma silent_act {B} (e : srvE B) : (forall n b, body_upd n B e b = n) -> silent (act e).
Proof using. intros He n. apply wp_act; [done|]. intros b _. apply He. Qed.
Lemma silent_bind {A B} (p : srv_prog A) (f : A -> srv_prog B) :
  silent p -> (forall a, silent (f a)) -> silent (prog_bind f p).
Proof using. intros Hp Hf n. apply wp_bind. eapply wp_mono; [|apply Hp]. intros n' a ->. apply Hf. Qed.
Lemma replies_bind {A} (p : srv_prog A) (f : A -> srv_prog (option go_error)) :
  silent p -> (forall a, replies (f a)) -> replies (prog_bind f p).
Proof using. intros Hp Hf n. apply wp_bind. eapply wp_mono; [|apply Hp]. intros n' a ->. apply Hf. Qed.
Lemma replies_error e : replies (Ret (Some e)).
Proof using. done. Qed.
Lemma replies_then_silent (p : srv_prog (option go_error)) (f : option go_error -> option go_error) :
  replies p -> (forall e, f e = None <-> e = None) ->
  replies (prog_bind (fun e => Ret (f e)) p).
Proof using.
  intros Hp Hf n. apply wp_bind. eapply wp_mono; [|apply Hp]. intros n' e ->. cbn.
  destruct (f e) eqn:E, e; try done.
  - by rewrite (proj2 (Hf None) eq_refl) in E.
  - by apply (proj1 (Hf _)) in E.
Qed.
Lemma replies_deferred (p : srv_prog (option go_error)) fin :
  replies p -> silent fin -> replies (deferred p fin).
Proof using.
  intros Hp Hf n. apply wp_deferred. eapply wp_mono; [|apply Hp]. intros n' e ->.
  eapply wp_mono; [|apply Hf]. by intros n'' _ ->.
Qed.

Lemma wrap_opt_none msg e : wrap_opt msg e = None <-> e = None.
Proof using. by destruct e. Qed.

Lemma replies_body b msg : replies (e ← act (WriteBody b); mret (wrap_opt msg e)).
Proof using. intros n. cbn. split; [done|]. by intros e ->. Qed.

Ltac silent_now := first
  [ apply silent_ret
  | apply silent_act; by intros
  | apply silent_bind; [silent_now|intros; silent_now]
  | lazymatch goal with
    | |- silent (if ?b then _ else _) => destruct b; silent_now
    | |- silent (match ?b with _ => _ end) => destruct b; silent_now
    end ].

Lemma replies_WriteJSONBytes st b : replies (WriteJSONBytes st b).
Proof using.
  apply replies_bind; [silent_now|]. intros _. apply replies_bind; [silent_now|]. intros _.
  apply replies_body.
Qed.
Lemma replies_WriteString st b : replies (WriteString st b).
Proof using.
  apply replies_bind; [silent_now|]. intros _. apply replies_bind; [silent_now|]. intros _.
  apply replies_body.
Qed.
Lemma replies_writeProcResponse rsp : replies (writeProcResponse rsp).
Proof using. apply replies_bind; [silent_now|]. intros _. apply replies_body. Qed.

Lemma silent_checkAuth tokens slt t : silent (checkAuthWithCache tokens slt t).
Proof using. unfold checkAuthWithCache. silent_now. Qed.

Lemma silent_authenticate s r : silent (srv_authenticateRequest s r).
Proof using.
  unfold srv_authenticateRequest, authenticateRequest. destruct (authIsDisabled _); [apply silent_ret|].
  destruct (_ =s? _); [apply silent_ret|]. apply silent_bind; [apply silent_checkAuth|].
  intros [?|]; apply silent_ret.
Qed.

Lemma silent_executeRequestQuery props q : silent (executeRequestQuery props q).
Proof using. unfold executeRequestQuery. silent_now. Qed.

Lemma silent_executeQueries props qs : silent (executeQueries props qs).
Proof using.
  unfold executeQueries. apply silent_bind; [silent_now|]. intros t.
  apply silent_bind; [|intros; silent_now]. generalize (@nil VQueryResult).
  induction qs as [|q qs IH]; intros rs; [apply silent_ret|].
  cbn [execute_loop]. apply silent_bind; [apply silent_executeRequestQuery|]. intros; apply IH.
Qed.

Lemma silent_executeRQLite props qs b : silent (executeRQLiteQueries props qs b).
Proof using.
  unfold executeRQLiteQueries. destruct (_ || _); [apply silent_executeQueries|].
  apply silent_bind; [silent_now|]. intros t.
  apply silent_bind; [apply silent_executeRequestQuery|]. intros x.
  destruct (vrError x); [silent_now|]. destruct (vrTxId x) as [id|]; [|silent_now].
  apply silent_bind.
  - generalize (@nil VQueryResult). induction qs as [|q qs IH]; intros rs; [apply silent_ret|].
    cbn [rqlite_tx_loop]. apply silent_bind; [apply silent_executeRequestQuery|]. intros y.
    destruct (vrError y); [|apply IH].
    apply silent_bind; [apply silent_executeRequestQuery|]. intros; silent_now.
  - intros [rs []]; [silent_now|]. apply silent_bind; [apply silent_executeRequestQuery|].
    intros; silent_now.
Qed.

Lemma silent_procedure version k h c : registered version !! k = Some h -> silent (h c).
Proof using.
  unfold registered. intros Hl.
  apply lookup_insert_Some in Hl as [[_ <-]|[_ Hl]]; [unfold systemStatusProc; silent_now|].
  apply lookup_insert_Some in Hl as [[_ <-]|[_ Hl]]; [apply silent_ret|].
  apply lookup_insert_Some in Hl as [[_ <-]|[_ Hl]]; [unfold systemHealthProc; silent_now|].
  apply lookup_insert_Some in Hl as [[_ <-]|[_ Hl]]; [|done].
  apply silent_bind; [|intros; silent_now]. unfold databaseQueryProc.
  apply silent_bind; [apply silent_executeQueries|]. intros; silent_now.
Qed.

Lemma replies_handleRequest version s props rpc op body :
  rpc_shape s version -> replies (handleRequest (svRpcServer s) props rpc op body).
Proof using.
  intros (defs & deser & ->). unfold handleRequest.
  destruct (gojson_Decode body); [|apply replies_writeProcResponse]. cbn [operationDefs].
  destruct (defs !! _); [|apply replies_writeProcResponse].
  apply replies_bind; [|intros []; apply replies_writeProcResponse].
  unfold handleProcRequest.
  cbn [procHandlers procDeserializers globalMiddlewares rpcMiddlewares procMiddlewares].
  destruct (registered version !! _) as [h|] eqn:E; [|apply silent_ret].
  destruct (deser !! _) as [d|]; [|apply silent_ret].
  destruct (d _) as [input|e]; [|apply silent_ret].
  rewrite !lookup_empty. by eapply silent_procedure.
Qed.

Lemma replies_rpcHandler version s rpc op r : rpc_shape s version -> replies (rpcHandler s rpc op r).
Proof using.
  intros Hs. unfold rpcHandler, authorizeRPCRequest. apply replies_bind.
  { destruct (_ && _); [apply silent_ret|]. apply silent_bind; [apply silent_authenticate|].
    intros [[role p]|e]; [|apply silent_ret]. destruct (_ && negb _); apply silent_ret. }
  intros [props|err].
  - assert (Hd : replies (err ← handleRequest (svRpcServer s) props rpc op
                            (default (MkBody "" false) (reqBody r));
                          mret (wrap_opt "handle rpc request" err))).
    { apply replies_then_silent; [by eapply replies_handleRequest|]. apply wrap_opt_none. }
    cbv zeta. destruct ((rpc =s? "Database") && (op =s? "query")); [|exact Hd].
    apply replies_bind; [silent_now|]. intros _. apply replies_bind; [silent_now|]. intros _.
    apply replies_deferred; [exact Hd|silent_now].
  - unfold writeRPCError. destruct (gojson_Marshal_response _); [|apply replies_error].
    apply replies_WriteJSONBytes.
Qed.

Lemma replies_handleRQLite s mode r : replies (handleRQLite s mode r).
Proof using.
  unfold handleRQLite, authorizeRQLiteRequest. apply replies_bind.
  { destruct (authIsDisabled _); [apply silent_ret|]. destruct (BasicAuth r) as [[u p]|].
    - apply silent_bind; [apply silent_checkAuth|]. intros; apply silent_ret.
    - apply silent_bind; [apply silent_authenticate|]. intros [[role p]|e]; apply silent_ret. }
  intros [props|err]; [|apply replies_error].
  destruct (rqliteQueriesFromRequest r) as [qs|err]; [|apply replies_error].
  apply replies_bind; [silent_now|]. intros _. apply replies_bind; [silent_now|]. intros _.
  apply replies_deferred; [|silent_now]. unfold rqlite_execute.
  apply replies_bind; [silent_now|]. intros t.
  apply replies_bind; [apply silent_executeRQLite|]. intros out.
  apply replies_bind; [silent_now|]. intros now. unfold writeRQLiteJSON.
  destruct (stdjson_Marshal _ _); [apply replies_WriteJSONBytes|apply replies_error].
Qed.

(** A whole request writes one body. *)
Definition replies_once {A} (p : srv_prog A) : Prop := forall n, bwp n p (fun n' _ => n' = S n).

  (** Objects of strings always encode. *)
  Hypothesis encode_object : forall l, is_err (gojson_Encode_object l) = false.

(** A last reply whose error is dropped, on a connection that works. *)
Lemma replies_once_drop (p : srv_prog (option go_error)) :
  replies_once p -> replies_once (_ ← p; mret tt).
Proof using. intros Hp n. apply wp_bind. eapply wp_mono; [|apply Hp]. by intros n' _ ->. Qed.
Lemma once_bind {A B} (p : srv_prog A) (f : A -> srv_prog B) :
  silent p -> (forall a, replies_once (f a)) -> replies_once (prog_bind f p).
Proof using. intros Hp Hf n. apply wp_bind. eapply wp_mono; [|apply Hp]. intros n' a ->. apply Hf. Qed.
Lemma once_body b (f : option go_error -> option go_error) :
  replies_once (e ← act (WriteBody b); mret (f e)).
Proof using. intros n. cbn. split; [done|]. by intros e ->. Qed.

Lemma replies_errorHandler r err : replies_once (errorHandler r err).
Proof using encode_object.
  unfold errorHandler. apply once_bind; [silent_now|]. intros id.
  destruct (errors_as_json err) as [[[st e] safe_msg]|]; apply replies_once_drop.
  - pose proof (encode_object [("id", id); ("error", StatusText st);
      ("message", if safe_msg =s? "" then StatusText st else safe_msg)]) as He.
    unfold WriteJSON. apply once_bind; [silent_now|]. intros _. apply once_bind; [silent_now|].
    intros _. destruct (gojson_Encode_object _) as [b|e']; [|done]. apply once_body.
  - apply once_bind; [silent_now|]. intros _. apply once_bind; [silent_now|]. intros _. apply once_body.
Qed.

Lemma replies_serve version s r : rpc_shape s version -> replies_once (serve_request s r).
Proof using encode_object.
  intros Hs. unfold serve_request, maxRequestBodyMiddleware. set (req := MkRequest _ _ _ _ _ _).
  assert (Hh : forall h, replies (h req) -> replies_once (CreateHandlerFuncBuilder errorHandler h [] req)).
  { intros h Hh n. apply wp_bind. eapply wp_mono; [|apply Hh].
    intros n' [err|] ->; [apply replies_errorHandler|done]. }
  assert (Hplain : forall st msg, replies_once (_ ← WriteString st msg; mret tt)).
  { intros st msg. apply replies_once_drop. apply once_bind; [silent_now|]. intros _.
    apply once_bind; [silent_now|]. intros _. apply once_body. }
  unfold createMux. cbn [reqPath req reqMethod].
  destruct (reqPath r) as [|p1 [|p2 [|p3 [|? ?]]]]; try apply Hplain.
  - destruct (negb _); [apply Hplain|].
    assert (Hq : forall b (h : HandlerFuncErr), replies (h req) ->
      replies_once match (if b : bool then Handled h else MethodNotAllowed) with
        | Handled h => CreateHandlerFuncBuilder errorHandler h [] req
        | MethodNotAllowed => _ ← WriteString 405 "Method Not Allowed"; mret tt
        | NotFound => _ ← WriteString 404 "404 page not found"; mret tt end).
    { intros [] h Hr; [by apply Hh|apply Hplain]. }
    destruct (p2 =s? "query"); [apply Hq, replies_handleRQLite|].
    destruct (p2 =s? "execute"); [apply Hq, replies_handleRQLite|].
    destruct (p2 =s? "request"); [apply Hq, replies_handleRQLite|apply Hplain].
  - destruct (p1 =s? "rpc"); [|apply Hplain]. destruct (_ =s? "POST"); [|apply Hplain].
    apply Hh. by eapply replies_rpcHandler.
Qed.

(** C12: every request is answered, once.  On a connection that works, a request run
    alone writes exactly one body, whatever its route, method, credentials and
    content; and the only thing it can wait for is an answer of the database. *)
Theorem one_response version slt config s r st :
  NewServer version slt config = Some s -> netError st = None ->
  match srv_run (serve_request s r) st with
  | Done _ st' => bodies (sentLog st') = S (bodies (sentLog st))
  | Blocked st' => exists q, db_Query q (srvDB st') = None
  end.
Proof using encode_object.
  intros Hs%server_shape Hn.
  destruct (srv_run (serve_request s r) st) as [u st'|st'] eqn:Hr.
  - destruct (run_wp (srv_handle uuid) (fun _ _ _ => True) body_post body_upd
      (fun st0 n => netError st0 = None /\ bodies (sentLog st0) = (bodies (sentLog st) + n)%nat)
      (body_step _) 0%nat _ _ _ _ _ ltac:(split; [exact Hn|lia]) (replies_serve version s r Hs 0%nat) Hr)
      as (n & -> & _ & Hl). rewrite Hl. lia.
  - apply run_blocked in Hr as (X & e & He). destruct e; try done. exists q. cbn in He.
    by destruct (db_Query q (srvDB st')) as [[? ?]|].
Qed.
End Spec.

(** ** Refusals *)

Section Refusal.
  Context `{CR : Crypto} `{J : GoJSON} `{DBS : DBService}.
  Context (s : Server) (uuid : nat -> string) (requests : http_request -> Prop).
  Hypothesis no_collision : forall t1 t2, presented requests t1 -> presented requests t2 ->
    token_hash (svAuthTokenSalt s) t1 = token_hash (svAuthTokenSalt s) t2 -> t1 = t2.

(** Nothing but the cache has changed. *)
Definition only_cache (st st' : srv_state) : Prop :=
  srvDB st' = srvDB st /\ srvUuids st' = srvUuids st /\ netError st' = netError st
  /\ sentLog st' = sentLog st.

Lemma run_checkAuth t st :
  presented requests t ->
  cache_ok (svAuthTokens s) (svAuthTokenSalt s) (presented requests) st ->
  exists st', run (srv_handle uuid) (checkAuthWithCache (svAuthTokens s) (svAuthTokenSalt s) t) st
    = Done (uncached_answer (svAuthTokens s) (svAuthTokenSalt s) t) st' /\ only_cache st st'.
Proof using no_collision.
  intros Ht Hok. unfold checkAuthWithCache, uncached_answer.
  destruct (t =s? "") eqn:E; [by exists st|]. cbn.
  destruct (authTokenCache st !! _) as [role|] eqn:Ec.
  - exists st. split; [|done]. apply Hok in Ec.
    by rewrite (cache_hit _ _ _ no_collision t role Ht Ec).
  - destruct (scan_tokens (svAuthTokens s) t) as [role|]; [|by exists st].
    cbn. by eexists.
Qed.

Lemma run_authenticate r st :
  requests r -> cache_ok (svAuthTokens s) (svAuthTokenSalt s) (presented requests) st ->
  exists x st', run (srv_handle uuid) (srv_authenticateRequest s r) st = Done x st'
    /\ only_cache st st' /\ answers (identity s false r) x.
Proof using no_collision.
  intros Hr Hok. unfold srv_authenticateRequest, authenticateRequest, identity.
  destruct (authIsDisabled (svAuthTokens s)); [by do 2 eexists|].
  destruct (bearer_token r =s? "") eqn:E.
  - do 2 eexists. split; [reflexivity|]. split; [done|]. cbn. unfold uncached_answer. by rewrite E.
  - destruct (run_checkAuth (bearer_token r) st) as (st' & Hrun & Hst); [|done|].
    { exists r. split; [done|by left]. }
    unfold mbind, prog_mbind. rewrite run_bind, Hrun.
    destruct (uncached_answer _ _ _) as [rp|]; by do 2 eexists.
Qed.

(** What a request for a procedure is refused with. *)
Definition refusal (rpcName operationName : string) (r : http_request) : option string :=
  if (rpcName =s? "System") && (operationName =s? "health") then None
  else
    match identity s false r with
    | None => Some "Unauthorized"
    | Some (role, _) =>
        if (rpcName =s? "System") && (operationName =s? "status")
           && negb (bool_decide (role = authRoleAdmin)) then Some "Forbidden"
        else None
    end.

(** C29: a refused call is answered with the refusal and has no other effect.  A call
    without an accepted token, and a status call by anyone but an administrator, gets
    one JSON error whose text is "Unauthorized" or "Forbidden"; the database, the
    statistics and the error identifiers are untouched. *)
Theorem refused_without_effect rpcName operationName r st msg body :
  requests r -> cache_ok (svAuthTokens s) (svAuthTokenSalt s) (presented requests) st ->
  refusal rpcName operationName r = Some msg ->
  gojson_Marshal_response (error_response msg) = Ok body ->
  exists st', run (srv_handle uuid) (rpcHandler s rpcName operationName r) st
              = Done (wrap_opt "failed to write JSON response" (netError st)) st'
    /\ srvDB st' = srvDB st /\ srvUuids st' = srvUuids st
    /\ sentLog st' = sentLog st ++ [SentHeader "Content-Type" "application/json";
                                    SentStatus StatusOK; SentBody body].
Proof using no_collision.
  intros Hr Hok Href Hm. unfold refusal in Href.
  destruct (run_authenticate r st Hr Hok) as (x & st1 & Hrun & (H1 & H2 & H3 & H4) & Hx).
  assert (Ha : exists e, public_message e = msg
    /\ run (srv_handle uuid) (authorizeRPCRequest s r rpcName operationName) st = Done (Err e) st1).
  { unfold authorizeRPCRequest. destruct ((rpcName =s? "System") && (operationName =s? "health")); [done|].
    unfold try_bind. rewrite run_bind, Hrun. destruct x as [[role p]|e]; cbn in Hx.
    - rewrite Hx in Href. destruct (_ && negb _); [|done]. injection Href as <-.
      by exists forbiddenError.
    - destruct Hx as [Hi ->]. rewrite Hi in Href. injection Href as <-. by exists unauthorizedError. }
  destruct Ha as (e & <- & Ha). unfold rpcHandler, mbind, prog_mbind. rewrite run_bind, Ha.
  unfold writeRPCError. rewrite Hm. eexists. split; [|split; [|split]].
  - cbn. by rewrite H3.
  - cbn. done.
  - cbn. done.
  - cbn. by rewrite H4, <- !app_assoc.
Qed.
End Refusal.

(** ** The status *)

Definition minute_counters (md : minuteData) : StatsTotalsCounters :=
  MkStatsTotalsCounters (reads md) (writes md) (begins md) (commits md) (rollbacks md)
    (errors md) (httpRequests md).

Lemma fold_insert_lookup {A} (key : A -> string) {V} (val : A -> V) l (m : gmap string V) k :
  NoDup (map key l) ->
  fold_left (fun m x => <[key x := val x]> m) l m !! k
  = match List.find (fun x => key x =s? k) l with Some x => Some (val x) | None => m !! k end.
Proof.
  revert m. induction l as [|x l IH]; intros m Hn; [done|]. cbn in *.
  apply NoDup_cons in Hn as [Hx Hn]. rewrite (IH _ Hn).
  destruct (key x =s? k) eqn:E; string_cases.
  - destruct (List.find (fun y => key y =s? key x) l) as [y|] eqn:Ef.
    + apply List.find_some in Ef as [Hy Ek]. string_cases. destruct Hx. rewrite <- Ek.
      apply list_elem_of_In. by apply in_map.
    + by rewrite lookup_insert_eq.
  - destruct (List.find _ l); [done|]. by rewrite lookup_insert_ne.
Qed.

(** The status reports the statistics.  Its minutes are exactly the retained ones
    with their counters, its queue gauges are the current ones, and its start time is
    the start of the server to the second, for any start of the years 0 to 9999. *)
Theorem status_reports now t db :
  time_in_range (startedAt db) ->
  let v := loadedStatsToVDL now (LoadStats t db) in
  vsStartedAt v = startedAt db - startedAt db mod second
  /\ vsQueued v = MkStatsQueuedCounters (queuedBegins db) (queuedWrites db) (queuedHTTPRequests db)
  /\ forall key, vsMinutes v !! key = minute_counters <$> minutes db !! key.
Proof.
  intros Hr. cbn zeta. split; [|split; [done|]].
  { unfold loadedStatsToVDL, LoadStats. cbn [vsStartedAt ldStartedAt].
    by rewrite ParseRFC3339_Format. }
  intros key. unfold loadedStatsToVDL, LoadStats. cbn [vsMinutes ldStats].
  assert (Hp : merge_sort stat_later (map minute_stat (map_to_list (minutes db)))
               ≡ₚ map minute_stat (map_to_list (minutes db))) by apply merge_sort_Permutation.
  revert Hp. generalize (merge_sort stat_later (map minute_stat (map_to_list (minutes db)))).
  intros l Hp.
  assert (Hn : NoDup (map Minute l)).
  { rewrite (Permutation_map Minute Hp), map_map.
    rewrite (map_ext _ fst) by (by intros []). apply (NoDup_fst_map_to_list (minutes db)). }
  rewrite (fold_insert_lookup Minute stat_counters) by done.
  destruct (List.find _ l) as [x|] eqn:Ef.
  - apply List.find_some in Ef as [Hx Ek]. string_cases. apply list_elem_of_In in Hx.
    rewrite Hp in Hx. apply list_elem_of_fmap in Hx as ([k md] & -> & Hx).
    apply elem_of_map_to_list in Hx. cbn. by rewrite Hx.
  - destruct (minutes db !! key) as [md|] eqn:Em; [|done].
    apply elem_of_map_to_list in Em.
    assert (Hin : minute_stat (key, md) ∈ l) by (rewrite Hp; by apply list_elem_of_fmap_2).
    apply list_elem_of_In in Hin. apply (List.find_none _ _ Ef) in Hin. cbn in Hin.
    by rewrite String.eqb_refl in Hin.
Qed.
