(* ===== verification/RqliteSpec.v ===== *)
(** * What the rqlite-compatible endpoints do

    Transactions of a request ([?transaction]), against the laws of [TxLaws], and the
    values that travel through JSON. *)
From S2P Require Import Prelude GoStrings Float64 FloatText JsonText JsonTextSpec Base64 GoTime Stats Sqlite DbState Goroutines Db VdlTypes Convert Http DbService Auth Vdl Server Rqlite.

(** ** Transactions *)

Section Transactions.
  Context `{DBS : DBService} {TL : TxLaws DBS} (uuid : nat -> string).

Abbreviation srv_run := (run (srv_handle uuid)).

(** A query of a request either never reaches the database, and fails, or is one call
    of it. *)
Lemma run_executeRequestQuery props q st r st' :
  srv_run (executeRequestQuery props q) st = Done r st' ->
  (srvDB st' = srvDB st /\ vrError r <> None
   /\ (vqQuery q = "" \/ is_err (sqliteParamsFromVDL (vqParams q)) = true))
  \/ exists ps x t, sqliteParamsFromVDL (vqParams q) = Ok ps
     /\ db_Query (db_query_of props q ps) (srvDB st) = Some (x, srvDB st')
     /\ r = match x with
            | Err err => error_result t (error_string err)
            | Ok res => queryResultFromDB t res
            end.
Proof using.
  unfold executeRequestQuery. cbn. destruct (vqQuery q =s? "") eqn:E0; string_cases.
  - cbn. intros [= <- <-]. left. split_and!; auto.
  - destruct (sqliteParamsFromVDL (vqParams q)) as [ps|e]; cbn.
    + destruct (db_Query _ _) as [[x d]|] eqn:E; cbn; [|done]. intros [= <- <-].
      right. exists ps, x. eexists. split; [done|]. by split.
    + intros [= <- <-]. left. split_and!; auto.
Qed.

(** Inside the transaction [id]: it is open, or it has been ended by a statement. *)
Definition within (id : string) (st : srv_state) : Prop :=
  tx_quiet (srvDB st) /\ (tx_open (srvDB st) = id \/ tx_open (srvDB st) = "").

Lemma within_step id props q st r st' :
  id <> "" -> within id st -> vqTxId q = Some id ->
  srv_run (executeRequestQuery props q) st = Done r st' -> within id st'.
Proof using.
  intros Hid [Hq Ho] Htx H. apply run_executeRequestQuery in H as [[Hd _]|(ps & x & t & _ & Hx & _)].
  - unfold within. by rewrite Hd.
  - split; [by eapply tx_quiet_step|].
    assert (Hqid : qTxID (db_query_of props q ps) = id) by (cbn; by rewrite Htx).
    destruct (tx_frame _ _ _ _ Hq Hx) as [-> | [(He & _)|[_ He]]]; [done| |by right].
    congruence.
Qed.

(** The end of a transaction: done, or refused by the database. *)
Definition end_refused (props : requestProps) (st' : srv_state) : Prop :=
  exists sql d e, (sql = "COMMIT" \/ sql = "ROLLBACK")
  /\ db_Query (db_query_of props (tx_query (tx_open (srvDB st')) sql) []) d = Some (Err e, srvDB st').

Definition end_accepted (props : requestProps) (id sql : string) (st' : srv_state) : Prop :=
  tx_open (srvDB st') = ""
  /\ exists d res, db_Query (db_query_of props (tx_query id sql) []) d = Some (Ok res, srvDB st').

Lemma end_step id props sql st r st' :
  sql = "COMMIT" \/ sql = "ROLLBACK" -> within id st ->
  srv_run (executeRequestQuery props (tx_query id sql)) st = Done r st' ->
  (vrError r = None -> end_accepted props id sql st')
  /\ (id <> "" -> tx_open (srvDB st') = "" \/ end_refused props st').
Proof using.
  intros Hsql Hw Hrun.
  assert (Hc : exists t, classify_prefix sql = Some t /\ (t = QueryTypeCommit \/ t = QueryTypeRollback)).
  { destruct Hsql as [-> | ->]; eexists; (split; [reflexivity|auto]). }
  destruct Hc as (t & Hc & Ht).
  pose proof (run_executeRequestQuery _ _ _ _ _ Hrun) as [[Hd He]|(ps & x & t' & Hps & Hx & Hr)].
  - exfalso. destruct He as [_ [He|He]]; [|done]. cbn in He. by destruct Hsql as [-> | ->].
  - destruct Hw as [Hq Ho]. destruct x as [res|e].
    + pose proof (tx_end _ _ _ _ t Hq Hx Hc Ht) as Hend. cbn in Hps. injection Hps as <-.
      split; [|by left]. intros _. split; [done|]. by exists (srvDB st), res.
    + subst r. split; [done|]. intros Hid. cbn in Hps. injection Hps as <-.
      destruct (tx_frame _ _ _ _ Hq Hx) as [Hk|[(_ & _ & _ & res & ?)|[_ ?]]]; [|done|by left].
      destruct Ho as [Ho|Ho]; [|left; congruence].
      right. exists sql, (srvDB st), e. split; [done|]. by rewrite Hk, Ho.
Qed.

Lemma run_tx_loop id props qs rs0 st rs failed st' :
  id <> "" -> within id st ->
  srv_run (rqlite_tx_loop props id qs rs0) st = Done (rs, failed) st' ->
  exists rs1, rs = rs0 ++ rs1
  /\ if failed : bool
     then (exists r, r ∈ rs1 /\ vrError r <> None)
          /\ (tx_open (srvDB st') = "" \/ end_refused props st')
     else length rs1 = length qs /\ within id st'.
Proof using.
  intros Hid. revert rs0 st. induction qs as [|q qs IH]; intros rs0 st Hw; cbn [rqlite_tx_loop].
  - intros [= <- <- <-]. exists []. by rewrite app_nil_r.
  - unfold mbind, prog_mbind. rewrite run_bind.
    destruct (srv_run (executeRequestQuery props (with_tx id q)) st) as [r st1|st1] eqn:E; [|done].
    pose proof (within_step id props (with_tx id q) st r st1 Hid Hw eq_refl E) as Hw1.
    destruct (vrError r) as [e|] eqn:Er.
    + rewrite run_bind.
      destruct (srv_run (executeRequestQuery props (tx_query id "ROLLBACK")) st1) as [r2 st2|] eqn:E2; [|done].
      cbn. intros [= <- <- <-]. exists [r]. split; [done|]. split.
      * exists r. split; [by left|]. by rewrite Er.
      * eapply (end_step id props "ROLLBACK"); eauto.
    + intros (rs1 & -> & H)%IH; [|done]. exists (r :: rs1). rewrite <- app_assoc. split; [done|].
      destruct failed.
      * destruct H as [(r' & Hr' & He) Ht]. split; [|done]. exists r'. split; [by right|done].
      * destruct H as [Hl Hw']. cbn. by rewrite Hl.
Qed.

(** A begin that returns an identifier has opened that transaction. *)
Lemma begin_step props st r st' :
  tx_quiet (srvDB st) -> tx_open (srvDB st) = "" ->
  srv_run (executeRequestQuery props (MkVQuery None "BEGIN" None)) st = Done r st' ->
  match vrError r with
  | None => exists id, vrTxId r = Some id /\ id <> "" /\ within id st'
  | Some _ => tx_open (srvDB st') = ""
  end.
Proof using.
  intros Hq Ho H. apply run_executeRequestQuery in H as [(_ & _ & [?|?])|(ps & x & t & _ & Hx & ->)];
    [done..|]. destruct x as [res|e]; cbn.
  - destruct (tx_begin _ _ _ _ Hq Hx eq_refl) as [Hid Hne].
    rewrite <- Hid. rewrite (proj2 (String.eqb_neq _ _) Hne). cbn. eexists.
    split; [done|]. split; [done|]. split; [by eapply tx_quiet_step|by left].
  - destruct (tx_frame _ _ _ _ Hq Hx) as [Hk|[(_ & _ & _ & res & ?)|[_ ?]]]; [congruence|done|done].
Qed.

Lemma run_rqlite_tx props qs st out st' :
  tx_quiet (srvDB st) -> tx_open (srvDB st) = "" -> qs <> [] ->
  srv_run (executeRQLiteQueries props qs true) st = Done out st' ->
  (tx_open (srvDB st') = "" \/ end_refused props st')
  /\ ((forall r, r ∈ doResults out -> vrError r = None) ->
      length (doResults out) = length qs /\ exists id, end_accepted props id "COMMIT" st').
Proof using.
  intros Hq Ho Hne. unfold executeRQLiteQueries.
  assert (Hn : negb true || negb (non_empty qs) = false) by by destruct qs.
  rewrite Hn. unfold mbind, prog_mbind. rewrite run_act_bind. cbn [srv_handle]. rewrite run_bind.
  destruct (srv_run (executeRequestQuery props (MkVQuery None "BEGIN" None)) st) as [b st1|] eqn:Eb; [|done].
  pose proof (begin_step _ _ _ _ Hq Ho Eb) as Hb.
  destruct (vrError b) as [e|] eqn:Ee.
  { cbn. intros [= <- <-]. split; [by left|]. cbn. intros Hall.
    by rewrite (Hall b ltac:(left)) in Ee. }
  destruct Hb as (id & Ei & Hid & Hw). rewrite Ei, run_bind.
  destruct (srv_run (rqlite_tx_loop props id qs []) st1) as [[rs failed] st2|] eqn:El; [|done].
  apply run_tx_loop in El as (rs1 & -> & H); [|done..]. destruct failed.
  - cbn. intros [= <- <-]. destruct H as [(r & Hr & He) Ht]. split; [done|]. cbn.
    intros Hall. by apply Hall in Hr.
  - destruct H as [Hl Hw2]. rewrite run_bind.
    destruct (srv_run (executeRequestQuery props (tx_query id "COMMIT")) st2) as [c st3|] eqn:Ec; [|done].
    destruct (end_step id props "COMMIT" st2 c st3 ltac:(auto) Hw2 Ec) as [H1 H2].
    cbn. intros [= <- <-]. cbn. split; [auto|]. destruct (vrError c) as [e|] eqn:Ece.
    + intros Hall. rewrite (Hall c) in Ece; [done|]. apply elem_of_app. right. left.
    + intros _. split; [done|]. exists id. auto.
Qed.

(** C10: a request that asks for a transaction never leaves one open behind its back.
    Whatever its statements are (also when one of them ends the transaction itself),
    once the request is over no transaction is open, unless the COMMIT or ROLLBACK it
    sent last was refused by the database, which leaves the transaction as it was. *)
Theorem rqlite_transaction_closed props queries st out st' :
  tx_quiet (srvDB st) -> tx_open (srvDB st) = "" -> queries <> [] ->
  srv_run (executeRQLiteQueries props queries true) st = Done out st' ->
  tx_open (srvDB st') = "" \/ end_refused props st'.
Proof using. intros Hq Ho Hne H. by destruct (run_rqlite_tx _ _ _ _ _ Hq Ho Hne H). Qed.

(** C26: a request that asks for a transaction and reports no error was committed: there
    is one result per statement, the last thing the database did was to accept the
    COMMIT of a transaction, and no transaction is open any more. *)
Theorem rqlite_success_committed props queries st out st' :
  tx_quiet (srvDB st) -> tx_open (srvDB st) = "" -> queries <> [] ->
  srv_run (executeRQLiteQueries props queries true) st = Done out st' ->
  (forall r, r ∈ doResults out -> vrError r = None) ->
  length (doResults out) = length queries /\ exists id, end_accepted props id "COMMIT" st'.
Proof using. intros Hq Ho Hne H. by destruct (run_rqlite_tx _ _ _ _ _ Hq Ho Hne H). Qed.
End Transactions.

(** ** Numbers *)

Lemma Number_Int64_print z : - 2 ^ 63 <= z < 2 ^ 63 -> Number_Int64 (print_int z) = Some z.
Proof.
  intros Hz. unfold Number_Int64, print_int. destruct (Z.ltb_spec z 0) as [Hneg|Hpos].
  - rewrite Ascii_eqb_refl, parse_digits_print by lia. cbn [fmap option_fmap option_map].
    rewrite Z.opp_involutive.
    rewrite (proj2 (Z.leb_le _ _)) by lia. by rewrite (proj2 (Z.ltb_lt _ _)) by lia.
  - pose proof (dec_digits_not_minus z ltac:(lia)) as Hm.
    pose proof (parse_digits_print z ltac:(lia)) as Hp.
    destruct (dec_digits 20 z "") as [|a ds]; [done|]. rewrite Hm, Hp.
    rewrite (proj2 (Z.leb_le _ _)) by lia. by rewrite (proj2 (Z.ltb_lt _ _)) by lia.
Qed.

(** An integer of 64 bits is never rounded.  A JSON number that spells an integer
    in the range of SQLite's integers is bound as that integer, and comes back from a
    result as that integer; it never goes through a float. *)
Theorem rqlite_integer_roundtrip options z :
  - 2 ^ 63 <= z < 2 ^ 63 ->
  exists v, rqliteValueFromJSON (JNumber (print_int z)) = Ok v
  /\ sqliteValueFromVDL v = Ok (GInt64 z)
  /\ rqliteValue options (sqliteValueToVDL (GInt z)) = RqInt z.
Proof.
  intros Hz. exists (integerValue z). cbn [rqliteValueFromJSON]. by rewrite Number_Int64_print.
Qed.

(** ** Blobs *)

Definition byte_values (s : string) : list Z :=
  map (fun a => Z.of_nat (byte_ord a)) (String.list_ascii_of_string s).

Lemma json_byte_print a : json_byte (JNumber (print_int (Z.of_nat (byte_ord a)))) = Some a.
Proof.
  pose proof (byte_ord_lt a) as Ha. unfold json_byte, print_int.
  rewrite (proj2 (Z.ltb_ge _ _)) by lia. rewrite parse_digits_print by lia.
  rewrite (proj2 (Z.ltb_lt _ _)) by lia. by rewrite Nat2Z.id, byte_chr_ord.
Qed.

Lemma hex_blob_string s :
  rqliteHexBlobString ("X'" +:+ hex_encode s +:+ "'") = Some (encodeBlob s).
Proof.
  unfold rqliteHexBlobString.
  assert (Ht : TrimSpace ("X'" +:+ hex_encode s +:+ "'") = "X'" +:+ hex_encode s +:+ "'").
  { apply (TrimSpace_visible "X"%char (String single_quote (hex_encode s)) single_quote);
      by apply visible_spec. }
  rewrite Ht. set (h := hex_encode s).
  assert (Hl : String.length ("X'" +:+ h +:+ "'") = (3 + String.length h)%nat).
  { cbn. rewrite string_length_app. cbn. lia. }
  rewrite Hl. replace (3 + String.length h - 3)%nat with (String.length h) by lia.
  replace (3 + String.length h - 1)%nat with (S (S (String.length h))) by lia.
  assert (Hlast : str_nth (S (S (String.length h))) ("X'" +:+ h +:+ "'") = Some single_quote)
    by exact (get_app_last h single_quote).
  rewrite Hlast. unfold str_nth. cbn [String.append String.get str_drop].
  rewrite (proj2 (Nat.ltb_ge (3 + String.length h) 3)) by lia.
  match goal with |- context [if ?c then _ else _] => assert (c = false) as -> by reflexivity end.
  rewrite (str_take_app h "'"). subst h. by rewrite hex_decode_encode.
Qed.

Lemma json_bytes_print s : json_bytes (map (fun z => JNumber (print_int z)) (byte_values s)) = Some s.
Proof.
  unfold json_bytes.
  assert (Hm : mapM json_byte (map (fun z => JNumber (print_int z)) (byte_values s))
               = Some (String.list_ascii_of_string s)).
  { unfold byte_values. induction (String.list_ascii_of_string s) as [|a l IH]; [done|].
    cbn [map mapM]. by rewrite json_byte_print, IH. }
  rewrite Hm. cbn. by rewrite String.string_of_list_ascii_of_string.
Qed.

(** Bytes survive the JSON of the endpoints.  A parameter written as an array of
    bytes, or as the text [X'hex'], is bound as that blob; and the blob of a result
    comes back, with [blob_array], as the array of its bytes. *)
Theorem rqlite_bytes_roundtrip s assoc times :
  (exists v, rqliteValueFromJSON
      (JArray (map (fun z => JNumber (print_int z)) (byte_values s))) = Ok v
    /\ rqliteValueFromJSON (JString ("X'" +:+ hex_encode s +:+ "'")) = Ok v
    /\ sqliteValueFromVDL v = Ok (GBytes s))
  /\ rqliteValue (MkRqOptions assoc true times) (sqliteValueToVDL (GBytes s))
     = RqInts (Some (byte_values s)).
Proof.
  split.
  - exists (blobValue (encodeBlob s)). split; [|split].
    + cbn [rqliteValueFromJSON]. by rewrite json_bytes_print.
    + cbn [rqliteValueFromJSON]. by rewrite hex_blob_string.
    + unfold encodeBlob, blobValue, sqliteValueFromVDL. cbn. by rewrite DecodeString_EncodeToString.
  - unfold rqliteValue, sqliteValueToVDL, blobValue. cbn.
    unfold decodeBlobArray, decodeBlob. by rewrite DecodeString_EncodeToString.
Qed.
