(* ===== verification/RqliteText.v ===== *)
(** * The rqlite endpoints on JSON texts

    What a client sends and what it is sent are texts of [JsonText.v]: the parameters of
    a statement read from a body, the values of a row printed in a response, and the two
    composed. *)
From S2P Require Import Prelude GoStrings Float64 FloatText JsonText JsonTextSpec Base64 GoTime Stats Sqlite DbState Goroutines Db VdlTypes Convert Http DbService Auth Vdl Server Rqlite RqliteSpec.

(** ** Literals *)

Lemma number_literal_print n : number_wf n = true -> number_literal (print_number n) = true.
Proof.
  intros Hn. unfold number_literal.
  by rewrite <- (string_app_nil_r (print_number n)), scan_number_print by done.
Qed.

Lemma number_literal_int z : - 2 ^ 63 <= z < 2 ^ 63 -> number_literal (print_int z) = true.
Proof.
  intros Hz.
  assert (Hd : forall n, 0 <= n < 10 ^ 20 -> integer_wf (dec_digits 20 n "") = true).
  { intros n Hn. destruct (decide (n = 0)) as [->|Hne]; [done|].
    destruct (dec_digits_digits 20 n "") as (a & ds & -> & Ha & H0 & _); [lia|].
    rewrite string_app_nil_r. unfold integer_wf, digits_wf. by rewrite Ha, H0. }
  assert (Hp : print_int z = print_number (MkNumber (z <? 0) (dec_digits 20 (Z.abs z) "") None None)).
  { unfold print_int, print_number. cbn [npNegative npInteger npFraction npExponent].
    rewrite !string_app_nil_r. destruct (Z.ltb_spec z 0).
    - by rewrite Z.abs_neq by lia.
    - by rewrite Z.abs_eq by lia. }
  rewrite Hp. apply number_literal_print. unfold number_wf. cbn [npInteger npFraction npExponent].
  by rewrite Hd by lia.
Qed.

(** ** A value of a column, and what its text is bound to

    A whole REAL is spelled like an integer and is bound as one; a text that looks like
    [X'hex'] is bound as a blob. *)
Definition finite_float (f : spec_float) : Prop :=
  valid_binary 53 1024 f = true
  /\ match f with S754_zero _ | S754_finite _ _ _ => True | _ => False end.

Inductive json_column : gany -> gany -> Prop :=
| jc_null : json_column GNil GNil
| jc_int z : - 2 ^ 63 <= z < 2 ^ 63 -> json_column (GInt z) (GInt64 z)
| jc_real f literal :
    finite_float f -> FormatFloat f = Some literal -> Number_Int64 literal = None ->
    json_column (GFloat64 f) (GFloat64 f)
| jc_whole f literal z :
    finite_float f -> FormatFloat f = Some literal -> Number_Int64 literal = Some z ->
    json_column (GFloat64 f) (GInt64 z)
| jc_text s :
    valid_utf8 s = true -> rqliteHexBlobString s = None -> json_column (GString s) (GString s)
| jc_hex s b :
    valid_utf8 s = true -> rqliteHexBlobString s = Some (encodeBlob b) ->
    json_column (GString s) (GBytes b)
| jc_blob s : json_column (GBytes s) (GBytes s).

Lemma FormatFloat_literal f :
  finite_float f -> exists literal, FormatFloat f = Some literal
    /\ number_literal literal = true /\ ParseFloat literal = Ok f.
Proof.
  intros [Hv Hf]. destruct (FormatFloat_roundtrip f Hv) as (n & H1 & Hwf & H2).
  { destruct f as [s| | |s m e]; [left|done|done|right]; eauto. }
  exists (print_number n). auto using number_literal_print.
Qed.

(** How one value is printed with [blob_array], and what the text is read as. *)
Record sent_value (v v' : gany) (j : json) : Prop := {
  sent_printed : forall assoc times,
    json_any (rqliteValue (MkRqOptions assoc true times) (sqliteValueToVDL v)) = Ok j;
  sent_valid : forall d, d + 1 <= maxNestingDepth -> json_valid d j = true;
  sent_utf8 : json_text_utf8 j = true;
  sent_bound : exists w, rqliteValueFromJSON j = Ok w /\ sqliteValueFromVDL w = Ok v';
  sent_scalar : forall l, j <> JObject l }.

Lemma sent_bytes s :
  sent_value (GBytes s) (GBytes s) (JArray (map json_int (byte_values s))).
Proof.
  assert (Hr : forall z, In z (byte_values s) -> 0 <= z < 256).
  { intros z Hz. unfold byte_values in Hz. apply in_map_iff in Hz as (a & <- & _).
    pose proof (byte_ord_lt a). lia. }
  constructor.
  - intros assoc times. unfold rqliteValue, sqliteValueToVDL, blobValue. cbn.
    unfold decodeBlobArray, decodeBlob. by rewrite DecodeString_EncodeToString.
  - intros d Hd. cbn [json_valid]. rewrite (proj2 (Z.leb_le _ _) Hd).
    apply List.forallb_forall. intros j (z & <- & Hz)%in_map_iff. apply number_literal_int.
    specialize (Hr z Hz). lia.
  - apply List.forallb_forall. by intros j (z & <- & Hz)%in_map_iff.
  - exists (blobValue (encodeBlob s)). split.
    + cbn [rqliteValueFromJSON]. unfold json_int. by rewrite json_bytes_print.
    + unfold encodeBlob, blobValue, sqliteValueFromVDL. cbn. by rewrite DecodeString_EncodeToString.
  - done.
Qed.

Lemma sent_column v v' : json_column v v' -> exists j, sent_value v v' j.
Proof.
  destruct 1 as [|z Hz|f lit Hf Hl Hn|f lit z Hf Hl Hn|s Hu Hx|s b Hu Hx|s].
  - exists JNull. split; try done. by exists nullValue.
  - exists (json_int z). split; try done.
    + intros d _. by apply number_literal_int.
    + exists (integerValue z). unfold json_int. cbn [rqliteValueFromJSON]. by rewrite Number_Int64_print.
  - destruct (FormatFloat_literal f Hf) as (lit' & Hl' & Hv & Hp). simplify_eq.
    exists (JNumber lit). split; try done.
    + intros assoc times. cbn. unfold json_float. by rewrite Hl.
    + exists (realValue f). cbn [rqliteValueFromJSON]. by rewrite Hn, Hp.
  - destruct (FormatFloat_literal f Hf) as (lit' & Hl' & Hv & Hp). simplify_eq.
    exists (JNumber lit). split; try done.
    + intros assoc times. cbn. unfold json_float. by rewrite Hl.
    + exists (integerValue z). cbn [rqliteValueFromJSON]. by rewrite Hn.
  - exists (JString s). split; try done. exists (textValue s). cbn [rqliteValueFromJSON]. by rewrite Hx.
  - exists (JString s). split; try done. exists (blobValue (encodeBlob b)).
    cbn [rqliteValueFromJSON]. rewrite Hx. split; [done|].
    unfold encodeBlob, blobValue, sqliteValueFromVDL. cbn. by rewrite DecodeString_EncodeToString.
  - eexists. apply sent_bytes.
Qed.

Lemma sent_row row row' :
  Forall2 json_column row row' -> exists js, Forall2 (fun vv j => sent_value vv.1 vv.2 j) (zip row row') js.
Proof.
  induction 1 as [|v v' row row' Hv _ (js & Hjs)]; [by exists []|].
  destruct (sent_column v v' Hv) as [j Hj]. exists (j :: js). by constructor.
Qed.

(** ** Rows *)

Lemma sent_row_printed row row' js assoc times :
  Forall2 json_column row row' -> Forall2 (fun vv j => sent_value vv.1 vv.2 j) (zip row row') js ->
  result_mapM json_any (map (rqliteValue (MkRqOptions assoc true times)) (map sqliteValueToVDL row)) = Ok js.
Proof.
  intros Hc Hs. apply result_mapM_ok. revert js Hs.
  induction Hc as [|v v' row row' Hv _ IH]; intros js Hs; inversion Hs as [|? j ? js' Hj Hjs]; subst; [constructor|].
  constructor; [by apply (sent_printed _ _ _ Hj)|by apply IH].
Qed.

Lemma sent_row_params `{MapRange} row row' js :
  Forall2 json_column row row' -> Forall2 (fun vv j => sent_value vv.1 vv.2 j) (zip row row') js ->
  row <> [] ->
  exists params, rqliteParamsFromJSON js = Ok (Some params)
    /\ sqliteParamsFromVDL (Some params) = Ok (map (MkQueryParam "") row').
Proof.
  intros Hc Hs Hne.
  assert (Hp : exists params,
    result_mapM (fun rawValue => value ← rqliteValueFromJSON rawValue; mret (MkVQueryParam None value)) js = Ok params
    /\ sqliteParamsFromVDL (Some params) = Ok (map (MkQueryParam "") row')).
  { clear Hne. revert js Hs.
    induction Hc as [|v v' row row' Hv _ IH]; intros js Hs; inversion Hs as [|? j ? js' Hj Hjs]; subst; [by exists []|].
    destruct (sent_bound _ _ _ Hj) as (w & Hw & Hb). destruct (IH _ Hjs) as (ps & Hps & Hpb).
    exists (MkVQueryParam None w :: ps). cbn [result_mapM]. rewrite Hw, Hps. split; [done|].
    cbn [sqliteParamsFromVDL result_mapM vpValue vpName] in Hpb |- *. cbn in Hb. by rewrite Hb, Hpb. }
  destruct Hp as (params & Hp & Hb). exists params. split; [|done].
  unfold rqliteParamsFromJSON.
  destruct Hc; [done|]. inversion Hs as [|? j ? js' Hj Hjs]; subst. clear Hjs. rename js' into js.
  destruct j as [| | | | |ms], js; try (by rewrite Hp). by destruct (sent_scalar _ _ _ Hj ms).
Qed.

Lemma sent_row_text row row' js d :
  Forall2 (fun vv j => sent_value vv.1 vv.2 j) (zip row row') js -> d + 1 <= maxNestingDepth ->
  forallb (json_valid d) js = true /\ forallb json_text_utf8 js = true.
Proof.
  intros Hs Hd. split; apply List.forallb_forall; intros j Hj%list_elem_of_In;
    apply list_elem_of_lookup in Hj as [i Hi];
    destruct (Forall2_lookup_r _ _ _ _ _ Hs Hi) as (vv & _ & Hv).
  - by apply (sent_valid _ _ _ Hv).
  - by apply (sent_utf8 _ _ _ Hv).
Qed.

(** The text of one statement with its parameters. *)
Definition statement_json (sql : string) (params : list json) : json := JArray (JString sql :: params).

Lemma statement_read `{MapRange} sql row row' :
  Forall2 json_column row row' -> row <> [] -> TrimSpace sql <> "" -> valid_utf8 sql = true ->
  exists js params,
    (forall assoc times, result_mapM json_any
       (map (rqliteValue (MkRqOptions assoc true times)) (map sqliteValueToVDL row)) = Ok js)
    /\ json_valid 1 (statement_json sql js) = true /\ json_text_utf8 (statement_json sql js) = true
    /\ rqliteQueryFromJSONStatement (statement_json sql js) = Ok (MkVQuery None sql (Some params))
    /\ sqliteParamsFromVDL (Some params) = Ok (map (MkQueryParam "") row').
Proof.
  intros Hc Hne Hsql Hu. destruct (sent_row row row' Hc) as [js Hs].
  destruct (sent_row_params row row' js Hc Hs Hne) as (params & Hp & Hb).
  destruct (sent_row_text row row' js 2 Hs) as [Hv Ht]; [done|].
  exists js, params. split_and!; [|..|done].
  - intros assoc times. by eapply sent_row_printed.
  - cbn [statement_json json_valid forallb]. change (1 + 1) with 2. by rewrite Hv.
  - cbn [statement_json json_text_utf8 forallb]. by rewrite Hu, Ht.
  - cbn. rewrite (proj2 (String.eqb_neq _ _) Hsql). by rewrite Hp.
Qed.


(** ** Responses *)

Definition int64_range (z : Z) : Prop := - 2 ^ 63 <= z < 2 ^ 63.
Definition value_ints (v : SqliteValue) : Prop := forall z, svInteger v = Some z -> int64_range z.
Definition result_ints (r : VQueryResult) : Prop :=
  (forall z, vrLastInsertId r = Some z -> int64_range z)
  /\ (forall z, vrRowsAffected r = Some z -> int64_range z)
  /\ Forall (Forall value_ints) (Val [] (vrRows r)).

Lemma json_float_valid d f j : json_float f = Ok j -> json_valid d j = true.
Proof.
  unfold json_float. destruct (FormatFloat f) as [lit|] eqn:E; [|done]. intros [= <-].
  destruct (FormatFloat_number f lit E) as (n & -> & Hn). by apply number_literal_print.
Qed.

Lemma json_any_valid options d v j :
  d + 1 <= maxNestingDepth -> value_ints v ->
  json_any (rqliteValue options v) = Ok j -> json_valid d j = true.
Proof.
  intros Hd Hv. unfold rqliteValue.
  assert (Hbytes : forall b, json_any (RqInts (decodeBlobArray b)) = Ok j -> json_valid d j = true).
  { intros b. unfold decodeBlobArray. destruct (decodeBlob b) as [s|e]; cbn [json_any]; intros [= <-]; [|done].
    cbn [json_valid]. rewrite (proj2 (Z.leb_le _ _) Hd). apply List.forallb_forall.
    intros k (z & <- & (a & <- & _)%in_map_iff)%in_map_iff. apply number_literal_int.
    pose proof (byte_ord_lt a). lia. }
  assert (Hreal : forall f, json_any (RqReal f) = Ok j -> json_valid d j = true)
    by (intros f; apply json_float_valid).
  assert (Hint : forall z, svInteger v = Some z -> json_any (RqInt z) = Ok j -> json_valid d j = true).
  { intros z Hz [= <-]. apply number_literal_int. by apply Hv. }
  repeat case_match; try (by eauto); by intros [= <-].
Qed.

Lemma result_mapM_forallb {A B} (f : A -> result B) (p : B -> bool) (P : A -> Prop) l ys :
  (forall x y, P x -> f x = Ok y -> p y = true) -> Forall P l -> result_mapM f l = Ok ys ->
  forallb p ys = true.
Proof.
  intros Hf Hl Hm%result_mapM_ok. induction Hm as [|x y l ys Hx _ IH]; [done|].
  inversion Hl; subst. cbn. rewrite (Hf x y) by done. by apply IH.
Qed.

(** The fields of an object, one after the other. *)
Lemma field_valid d name v :
  match v with Some j => json_valid d j | None => true end = true ->
  forallb (fun kv => json_valid d kv.2) (field name v) = true.
Proof. destruct v; [|done]. cbn. by intros ->. Qed.

Lemma json_seconds_valid d t v :
  json_seconds t = Ok v -> match v with Some j => json_valid d j | None => true end = true.
Proof.
  destruct t as [z|]; cbn [json_seconds]; [|by intros [= <-]].
  destruct (json_float (Seconds z)) as [j|e] eqn:E; [|done]. intros [= <-]. by eapply json_float_valid.
Qed.

Lemma strings_valid d l : forallb (json_valid d) (map JString l) = true.
Proof. by induction l. Qed.
Lemma some_list_valid d l :
  d + 1 <= maxNestingDepth -> forallb (json_valid (d + 1)) l = true ->
  match some_list l with Some j => json_valid d j | None => true end = true.
Proof. intros Hd Hl. destruct l; [done|]. cbn [some_list json_valid]. by rewrite (proj2 (Z.leb_le _ _) Hd). Qed.
Lemma json_types_valid d t :
  d + 1 <= maxNestingDepth -> match json_types t with Some j => json_valid d j | None => true end = true.
Proof.
  intros Hd. destruct t as [|l|m]; cbn [json_types json_valid]; [done| |].
  - by rewrite (proj2 (Z.leb_le _ _) Hd), strings_valid.
  - rewrite (proj2 (Z.leb_le _ _) Hd). by induction (sorted_entries m) as [|[] l IH].
Qed.

Lemma assign_columns_values {A} (P : A -> Prop) columns index f (m : gmap string A) :
  (forall i v, f i = Some v -> P v) -> map_Forall (fun _ => P) m ->
  map_Forall (fun _ => P) (assign_columns columns index f m).
Proof.
  intros Hf. revert index m. induction columns as [|c cs IH]; intros index m Hm; [done|].
  cbn [assign_columns]. apply IH. destruct (f index) as [v|] eqn:E; [|done].
  apply map_Forall_insert_2; [by eapply Hf|done].
Qed.

(** Values that come from the interface. *)
Definition printed_from (options : rqliteResponseOptions) (v : rqlite_any) : Prop :=
  exists x, value_ints x /\ v = rqliteValue options x.

Lemma json_row_valid options d m j :
  d + 2 <= maxNestingDepth -> map_Forall (fun _ => printed_from options) m ->
  json_row m = Ok j -> json_valid d j = true.
Proof.
  intros Hd Hm. unfold json_row.
  destruct (result_mapM _ (sorted_entries m)) as [kvs|e] eqn:E; [|done]. intros [= <-].
  cbn [json_valid]. rewrite (proj2 (Z.leb_le _ _)) by lia.
  eapply (result_mapM_forallb _ _ (fun kv => printed_from options kv.2)); [| |exact E].
  - intros [k v] kv (x & Hx & Hk). cbn in Hk |- *. subst v. destruct (json_any _) as [j|] eqn:Ej; [|done].
    intros [= <-]. cbn. apply (json_any_valid options _ x); [lia|done|done].
  - apply Forall_forall. intros [k v] Hin. unfold sorted_entries in Hin.
    rewrite merge_sort_Permutation in Hin. apply elem_of_map_to_list in Hin. exact (Hm k v Hin).
Qed.

Lemma json_values_valid options d rows js :
  d + 2 <= maxNestingDepth -> Forall (Forall value_ints) rows ->
  result_mapM (fun row => JArray <$> result_mapM json_any row) (rqliteValues rows options) = Ok js ->
  forallb (json_valid d) js = true.
Proof.
  intros Hd Hr Hm. unfold rqliteValues in Hm.
  eapply (result_mapM_forallb _ _ (Forall (printed_from options))); [| |exact Hm].
  - intros row j Hrow. cbn beta. destruct (result_mapM json_any row) as [vs|] eqn:E; [|done]. intros [= <-].
    cbn [json_valid]. rewrite (proj2 (Z.leb_le _ _)) by lia.
    eapply (result_mapM_forallb _ _ (printed_from options)); [|exact Hrow|exact E].
    intros v j (x & Hx & ->) Hj. apply (json_any_valid options _ x); [lia|done|done].
  - apply Forall_map. eapply Forall_impl; [exact Hr|]. intros row Hrow.
    apply Forall_map. eapply Forall_impl; [exact Hrow|]. intros x Hx. by exists x.
Qed.

Lemma json_rows_valid options d columns rows js :
  d + 2 <= maxNestingDepth -> Forall (Forall value_ints) rows ->
  result_mapM json_row (rqliteAssociativeRows columns rows options) = Ok js ->
  forallb (json_valid d) js = true.
Proof.
  intros Hd Hr Hm. unfold rqliteAssociativeRows in Hm.
  eapply (result_mapM_forallb _ _ (map_Forall (fun _ => printed_from options))); [| |exact Hm].
  - intros m j Hrow. by apply (json_row_valid options).
  - apply Forall_map. eapply Forall_impl; [exact Hr|]. intros row Hrow.
    apply assign_columns_values; [|apply map_Forall_empty]. intros i v.
    destruct (row !! i) as [x|] eqn:Ei; [|done]. intros [= <-]. exists x. split; [|done].
    by eapply Forall_lookup_1.
Qed.

Lemma json_int_valid d (o : option Z) :
  (forall z, o = Some z -> int64_range z) ->
  match json_int <$> o with Some j => json_valid d j | None => true end = true.
Proof. intros Ho. destruct o as [z|]; [|done]. by apply number_literal_int, Ho. Qed.

(** The tree of a result whose parts have texts. *)
Lemma json_result_valid d (q : rqliteResult) j :
  d + 3 <= maxNestingDepth ->
  (forall z, rqLastInsertID q = Some z -> int64_range z) ->
  (forall z, rqRowsAffected q = Some z -> int64_range z) ->
  (forall js, result_mapM (fun row => JArray <$> result_mapM json_any row) (rqValues q) = Ok js ->
    forallb (json_valid (d + 2)) js = true) ->
  (forall js, result_mapM json_row (rqRows q) = Ok js -> forallb (json_valid (d + 2)) js = true) ->
  json_result q = Ok j -> json_valid d j = true.
Proof.
  intros Hd Hl Ha Hvs Hrs. unfold json_result.
  destruct (result_mapM _ (rqValues q)) as [values|] eqn:Ev; [|done].
  destruct (result_mapM _ (rqRows q)) as [rows|] eqn:Er; [|done].
  destruct (json_seconds (rqTime q)) as [time|] eqn:Et; [|done]. cbn. intros [= <-].
  specialize (Hvs _ eq_refl). specialize (Hrs _ eq_refl). replace (d + 2) with (d + 1 + 1) in * by lia.
  cbn [json_valid]. rewrite (proj2 (Z.leb_le _ _)) by lia. rewrite !forallb_app, !field_valid; [done|..].
  - by eapply json_seconds_valid.
  - by destruct (_ =s? _).
  - apply some_list_valid; [lia|done].
  - apply some_list_valid; [lia|done].
  - apply json_types_valid. lia.
  - apply some_list_valid; [lia|]. apply strings_valid.
  - by apply json_int_valid.
  - by apply json_int_valid.
Qed.

Lemma json_rqliteResult_valid d options r j :
  d + 4 <= maxNestingDepth -> result_ints r ->
  json_result (rqliteResultFromVDL options r) = Ok j -> json_valid d j = true.
Proof.
  intros Hd (Hl & Ha & Hr). apply json_result_valid; [lia|..].
  all: unfold rqliteResultFromVDL; repeat case_match; cbn; try done; try (by intros js [= <-]).
  all: intros js; first [apply json_values_valid; [lia|done] | apply json_rows_valid; [lia|done]].
Qed.

(** What a response says is what its text says.  If the response has a text at all, the
    text is JSON, the same tree whether it is indented or not, and a reader finds in it
    the fields of the results, in their order, with their values: an integer of 64 bits
    by its digits, a REAL by digits that are read back as it. *)
Theorem rqlite_response_text output options elapsed j rest :
  Forall result_ints (doResults output) ->
  json_response (rqliteResponseFromVDL output options elapsed) = Ok j ->
  forall pretty, exists text,
    stdjson_Marshal pretty (rqliteResponseFromVDL output options elapsed) = Ok text
    /\ stdjson_Decode (text +:+ rest) = Ok (json_utf8 j).
Proof.
  intros Hr Hj pretty. exists (print_json pretty 0 j). unfold stdjson_Marshal. rewrite Hj.
  split; [done|]. unfold json_response in Hj.
  destruct (result_mapM json_result _) as [results|] eqn:Er; [|done].
  destruct (json_seconds _) as [time|] eqn:Et; [|done]. cbn in Hj. injection Hj as <-.
  apply Decode_print; [|done]. cbn [json_valid forallb snd].
  rewrite field_valid by (by eapply json_seconds_valid). rewrite andb_true_r, andb_true_l.
  apply andb_true_iff. split; [done|].
  eapply (result_mapM_forallb _ _ (fun q => exists r, result_ints r /\ q = rqliteResultFromVDL options r)); [| |exact Er].
  - intros q jr (r & Hq & ->) Hjr. eapply json_rqliteResult_valid; [|done|done]. done.
  - apply Forall_map. eapply Forall_impl; [exact Hr|]. intros r Hri. by exists r.
Qed.

(** ** A number without a text *)

Definition endless (v : rqlite_any) : Prop := exists f, v = RqReal f /\ FormatFloat f = None.

Lemma result_mapM_err {A B} (f : A -> result B) l x :
  x ∈ l -> is_err (f x) = true -> is_err (result_mapM f l) = true.
Proof.
  induction 1 as [x l|x y l _ IH]; intros Hx; cbn.
  - by destruct (f x).
  - destruct (f y); [|done]. specialize (IH Hx). by destruct (result_mapM f l).
Qed.

Lemma json_any_endless v : endless v -> is_err (json_any v) = true.
Proof. intros (f & -> & Hf). cbn. unfold json_float. by rewrite Hf. Qed.

