(* ===== verification/System.v ===== *)
(** * The whole process: HTTP requests over the database component

    The program of a request in which every call of [db.Query] is replaced by the
    program of [db.go], next to the idle monitor and the shutdown, interleaved at the
    operations of both components.  The simulation [reachable_simulated] maps every
    configuration of the process to one of the database component alone, in which
    each call of [db.Query] is a goroutine of its own; so what [DbConc.v] to
    [DbSafety.v] show of the component holds of the process. *)
From S2P Require Import Prelude GoStrings Stats Authorizer Sqlite SqliteSpec Driver Goroutines DbState Db DbConc DbInv DbSafety DbService VdlTypes Convert Http Auth Vdl Server Rqlite ServerSafety.

(** ** Programs over other programs *)

(** Every effect replaced by the program that implements it. *)
Fixpoint interp {E F : Type -> Type} {A} (h : forall B, E B -> prog F B) (p : prog E A) :
    prog F A :=
  match p with
  | Ret a => Ret a
  | Vis e k => prog_bind (fun b => interp h (k b)) (h _ e)
  end.

Section System.
  Context `{CR : Crypto} `{J : GoJSON} `{MR : MapRange} `{LIB : SqliteLib}.
  Context (s : Server) (err_uuid tx_uuid : nat -> string) (fuel : nat).
  Context (requests : http_request -> Prop).

#[local] Instance system_db : DBService := DB_service tx_uuid fuel.

(** The operations of the process. *)
Inductive sysE (B : Type) : Type :=
| OnServer (e : srvE B)
| OnDB (e : dbE B).
#[local] Arguments OnServer {B} e.
#[local] Arguments OnDB {B} e.

Definition sys_handle (B : Type) (e : sysE B) (st : srv_state) : option (B * srv_state) :=
  match e with
  | OnServer e => srv_handle err_uuid B e st
  | OnDB e =>
      match handle fuel tx_uuid B e (srvDB st) with
      | Some (b, d) => Some (b, set_db d st)
      | None => None
      end
  end.

Definition on_db {A} (p : db_prog A) : prog sysE A := interp (E := dbE) (fun B e => act (OnDB e)) p.

(** A call of [db.Query] is the program of [db.go]. *)
Definition call (B : Type) (e : srvE B) : prog sysE B :=
  match e in srvE B return prog sysE B with
  | DBQuery q => on_db (Db_Query RequestContext q)
  | e => act (OnServer e)
  end.

Definition sys_request (r : http_request) : prog sysE unit := interp call (serve_request s r).

(** The goroutines of the process. *)
Inductive sys_task : Type :=
| SRequest (r : http_request)
| SBackground (t : task).
Definition sys_spawnable (t : sys_task) (p : prog sysE unit) : Prop :=
  match t with
  | SRequest r => requests r /\ p = sys_request r
  | SBackground (TQuery _) => False
  | SBackground t => exists rounds, p = on_db (task_prog rounds t)
  end.

(** Time, the ticker, the contexts of the requests, the network, and the worker that
    removes old minutes from the statistics. *)
Definition sys_env (st st' : srv_state) : Prop :=
  exists d net, db_env (srvDB st) d
  /\ (dbStats d = dbStats (srvDB st)
      \/ exists now, dbStats d = cleanup_tick now (dbStats (srvDB st)))
  /\ st' = MkSrv (authTokenCache st) d (srvUuids st) net (sentLog st).

Definition sys_config : Type := config srv_state sys_task (prog sysE unit).
Definition sys_init (c : sys_config) : Prop :=
  authTokenCache (shared c) = ∅ /\ goroutines c = []
  /\ db_init fuel (Config (srvDB (shared c)) [])
  /\ exists now, dbStats (srvDB (shared c)) = NewDBStats now.
Definition sys_reachable : sys_config -> Prop :=
  reachable sys_handle sys_spawnable sys_env sys_init.

(** ** One goroutine alone *)

Lemma set_db_id (st : srv_state) : set_db (srvDB st) st = st.
Proof. by destruct st. Qed.

Lemma run_on_db {A} (p : db_prog A) st :
  run sys_handle (on_db p) st
  = match run (handle fuel tx_uuid) p (srvDB st) with
    | Done a d => Done a (set_db d st)
    | Blocked d => Blocked (set_db d st)
    end.
Proof.
  unfold on_db. revert st.
  induction p as [a|B e k IH]; intros st; cbn; [by rewrite set_db_id|].
  destruct (handle fuel tx_uuid B e (srvDB st)) as [[b d]|]; cbn; [|by rewrite set_db_id].
  rewrite IH. cbn. by destruct (run _ (k b) d).
Qed.

Lemma run_call B (e : srvE B) st :
  match srv_handle err_uuid B e st with
  | Some (b, st') => run sys_handle (call B e) st = Done b st'
  | None => exists st', run sys_handle (call B e) st = Blocked st'
  end.
Proof.
  destruct e; cbn; try done. rewrite run_on_db.
  destruct (run (handle fuel tx_uuid) (Db_Query RequestContext q) (srvDB st)); [done|by eexists].
Qed.

Lemma run_interp_call {A} (p : srv_prog A) st :
  match run (srv_handle err_uuid) p st with
  | Done a st' => run sys_handle (interp call p) st = Done a st'
  | Blocked _ => exists st', run sys_handle (interp call p) st = Blocked st'
  end.
Proof.
  revert st. induction p as [a|B e k IH]; intros st; cbn [run interp]; [done|].
  rewrite run_bind. pose proof (run_call B e st) as Hc.
  destruct (srv_handle err_uuid B e st) as [[b st1]|].
  - rewrite Hc. apply IH.
  - destruct Hc as [st1 ->]. by eexists.
Qed.

(** ** The simulation *)

  Hypothesis no_collision : forall t1 t2, presented requests t1 -> presented requests t2 ->
    token_hash (svAuthTokenSalt s) t1 = token_hash (svAuthTokenSalt s) t2 -> t1 = t2.
  Context (version : string).
  Hypothesis started : rpc_shape s version.
  Hypothesis tx_uuid_nonempty : forall n, tx_uuid n <> "".

Abbreviation safe_here r p := (safe s requests r p (fun _ => True)).
Abbreviation db_goroutines := (list (task * db_prog unit)).

(** What a goroutine of the process is, in terms of the goroutines [ds] of the database
    component: [o] is the one that stands for its call in progress. *)
Inductive tracked (ds : db_goroutines) : sys_task -> prog sysE unit -> option nat -> Prop :=
| tracked_done r : tracked ds (SRequest r) (Ret tt) None
| tracked_server r B (e : srvE B) k :
    match e with DBQuery _ => False | _ => True end ->
    req_pre s requests r B e -> (forall b, req_post s requests B e b -> safe_here r (k b)) ->
    tracked ds (SRequest r) (Vis (OnServer e) (fun b => interp call (k b))) None
| tracked_query r j q B (e : dbE B) (dk : B -> db_prog (result QueryResult)) k :
    ds !! j = Some (TQuery q, prog_bind (fun _ => Ret tt) (Vis e dk)) ->
    allowed s r q -> (forall x, safe_here r (k x)) ->
    tracked ds (SRequest r)
      (prog_bind (fun x => interp call (k x)) (on_db (Vis e dk))) (Some j)
| tracked_background t j p :
    ds !! j = Some (t, p) -> tracked ds (SBackground t) (on_db p) (Some j).

Record simulates (c : sys_config) (d : db_config) (js : list (option nat)) : Prop := {
  sim_reach : db_reachable tx_uuid fuel d;
  sim_db : shared d = srvDB (shared c);
  sim_cache : cache_ok (svAuthTokens s) (svAuthTokenSalt s) (presented requests) (shared c);
  sim_goroutines : Forall2 (fun tp o => tracked (goroutines d) (fst tp) (snd tp) o)
                     (goroutines c) js;
  sim_inj i i' j : js !! i = Some (Some j) -> js !! i' = Some (Some j) -> i = i';
  sim_rest j t (p : db_prog unit) : goroutines d !! j = Some (t, p) ->
    finished p = true \/ exists i, js !! i = Some (Some j) }.

Lemma tracked_mono ds ds' t p o :
  (forall j, o = Some j -> ds' !! j = ds !! j) -> tracked ds t p o -> tracked ds' t p o.
Proof.
  intros Hj Ht. destruct Ht; try (by econstructor); econstructor; eauto; by rewrite Hj.
Qed.

Lemma tracked_in ds t p j : tracked ds t p (Some j) -> is_Some (ds !! j).
Proof. intros Ht. inversion Ht; subst; eauto. Qed.

(** [d'] is [d] with more goroutines, of which only [o] has not returned. *)
Record extends (d d' : db_config) (o : option nat) : Prop := {
  ext_reach : db_reachable tx_uuid fuel d';
  ext_shared : shared d' = shared d;
  ext_old j x : goroutines d !! j = Some x -> goroutines d' !! j = Some x;
  ext_fresh j : o = Some j -> goroutines d !! j = None;
  ext_new j t (p : db_prog unit) : goroutines d !! j = None -> goroutines d' !! j = Some (t, p) ->
    finished p = true \/ o = Some j }.

Lemma extends_refl d : db_reachable tx_uuid fuel d -> extends d d None.
Proof. intros Hr. split; [done..|]. intros j t p E1 E2. by rewrite E1 in E2. Qed.

Lemma extends_spawn d t p :
  db_reachable tx_uuid fuel d -> spawnable t p ->
  let j := length (goroutines d) in
  extends d (Config (shared d) (goroutines d ++ [(t, p)])) (Some j)
  /\ (goroutines d ++ [(t, p)]) !! j = Some (t, p).
Proof.
  intros Hr Hp. cbn. split.
  - split; cbn.
    + eapply reach_step; [exact Hr|]. destruct d. by apply gstep_spawn.
    + done.
    + intros j x Hj. by apply lookup_app_l_Some.
    + intros j [= <-]. by apply lookup_ge_None_2.
    + intros j t' p' H1 H2. right. f_equal. apply lookup_ge_None_1 in H1.
      apply lookup_lt_Some in H2. rewrite length_app in H2. cbn in H2. lia.
  - rewrite lookup_app_r by lia. by rewrite Nat.sub_diag.
Qed.

(** A request's program, up to its next operation, is tracked; a call of [db.Query]
    starts a goroutine of the component. *)
Lemma settle r p d :
  safe_here r p -> db_reachable tx_uuid fuel d ->
  exists d' o, extends d d' o /\ tracked (goroutines d') (SRequest r) (interp call p) o.
Proof.
  intros Hp Hr. induction p as [[]|B e k IH].
  - exists d, None. split; [by apply extends_refl | constructor].
  - destruct Hp as [Hpre Hk]. destruct e;
      try (exists d, None; split; [by apply extends_refl | by apply tracked_server]).
    change (interp call (Vis (DBQuery q) k))
      with (prog_bind (fun x => interp call (k x)) (on_db (Db_Query RequestContext q))).
    destruct (Db_Query RequestContext q) as [x|B e dk] eqn:Eq.
    + apply (IH x). by apply Hk.
    + destruct (extends_spawn d (TQuery q) (task_prog 0 (TQuery q)) Hr) as [He Hj];
        [by exists 0%nat|].
      do 2 eexists. split; [exact He|]. apply (tracked_query _ _ _ q); [|exact Hpre|].
      * etransitivity; [exact Hj|]. cbn [task_prog]. by rewrite Eq.
      * intros x. by apply Hk.
Qed.

(** ** Every step is simulated *)

Lemma db_env_stats (d : DB) st : db_env d (set_dbStats st d).
Proof. exists (external d), st. split; [lia|]. by destruct d. Qed.
Lemma db_env_refl (d : DB) : db_env d d.
Proof. exists (external d), (dbStats d). split; [lia|]. by destruct d. Qed.

(** The operations of the server that are not queries move the database at most by
    counting. *)
Lemma server_step_db B (e : srvE B) b st st' :
  match e with DBQuery _ => False | _ => True end ->
  srv_handle err_uuid B e st = Some (b, st') -> db_env (srvDB st) (srvDB st').
Proof.
  intros Hq H. destruct e; cbn in H; try done; injection H as _ <-;
    first [apply db_env_refl | apply db_env_stats].
Qed.

Lemma reach_env d s1 :
  db_reachable tx_uuid fuel d -> db_env (shared d) s1 ->
  db_reachable tx_uuid fuel (Config s1 (goroutines d)).
Proof. intros Hr He. eapply reach_step; [exact Hr|]. destruct d. by apply gstep_env. Qed.

Lemma reach_db_step d j t B (e : dbE B) k b s1 :
  db_reachable tx_uuid fuel d -> goroutines d !! j = Some (t, Vis e k) ->
  handle fuel tx_uuid B e (shared d) = Some (b, s1) ->
  db_reachable tx_uuid fuel (Config s1 (<[j := (t, k b)]> (goroutines d))).
Proof.
  intros Hr Hj Hh. eapply reach_step; [exact Hr|]. destruct d.
  eapply gstep_run; [exact Hj|]. cbn in *. by rewrite Hh.
Qed.

(** Goroutine [i] has moved: [d1] is [d] after what it did, [d'] has what it starts. *)
Lemma sim_replace c (d : db_config) js i t p' st' (d1 d' : db_config) o' :
  simulates c d js -> (i < length js)%nat ->
  srvDB st' = shared d1 -> length (goroutines d1) = length (goroutines d) ->
  cache_ok (svAuthTokens s) (svAuthTokenSalt s) (presented requests) st' ->
  (forall j, js !! i <> Some (Some j) -> goroutines d1 !! j = goroutines d !! j) ->
  (forall j t1 (p1 : db_prog unit), js !! i = Some (Some j) -> goroutines d1 !! j = Some (t1, p1) ->
     finished p1 = true \/ o' = Some j) ->
  extends d1 d' (match o' with
                 | Some j => if decide (js !! i = Some (Some j)) then None else o'
                 | None => None
                 end) ->
  tracked (goroutines d') t p' o' ->
  simulates (Config st' (<[i := (t, p')]> (goroutines c))) d' (<[i := o']> js).
Proof.
  intros [H1 H2 H3 H4 H5 H6] Hi Hdb Hlen Hcache Hsame Hfin Hext Ht.
  assert (Hlt : forall i' j, js !! i' = Some (Some j) -> (j < length (goroutines d))%nat).
  { intros i' j Hj. destruct (Forall2_lookup_r _ _ _ _ _ H4 Hj) as ([t1 p1] & _ & Htr).
    apply tracked_in in Htr. by apply lookup_lt_is_Some. }
  assert (Hother : forall i' j, i' <> i -> js !! i' = Some (Some j) -> o' <> Some j).
  { intros i' j Hne Hj ->. cbn in Hext. case_decide as Hd; [by apply Hne, (H5 _ _ j)|].
    pose proof (ext_fresh _ _ _ Hext j eq_refl) as Hf. apply lookup_ge_None in Hf.
    specialize (Hlt _ _ Hj). lia. }
  split; cbn.
  - apply Hext.
  - by rewrite (ext_shared _ _ _ Hext).
  - done.
  - apply Forall2_same_length_lookup. split.
    { rewrite !length_insert. by eapply Forall2_length. }
    intros i' [t1 p1] o1 Hg Hj. destruct (decide (i' = i)) as [->|Hne].
    + rewrite list_lookup_insert_eq in Hj by done.
      rewrite list_lookup_insert_eq in Hg by (by erewrite Forall2_length).
      by injection Hg as <- <-; injection Hj as <-.
    + rewrite list_lookup_insert_ne in Hg by done. rewrite list_lookup_insert_ne in Hj by done.
      pose proof (Forall2_lookup_lr _ _ _ _ _ _ H4 Hg Hj) as Htr.
      eapply tracked_mono; [|exact Htr]. intros j ->. destruct (tracked_in _ _ _ _ Htr) as [x Hx].
      rewrite Hx. apply (ext_old _ _ _ Hext). rewrite Hsame; [done|].
      intros E. by apply Hne, (H5 _ _ j).
  - intros i1 i2 j E1 E2.
    assert (Hat : forall i', <[i:=o']> js !! i' = Some (Some j) ->
              i' = i /\ o' = Some j \/ i' <> i /\ js !! i' = Some (Some j)).
    { intros i' E. destruct (decide (i' = i)) as [->|N].
      - rewrite list_lookup_insert_eq in E by done. injection E as E. by left.
      - rewrite list_lookup_insert_ne in E by done. by right. }
    destruct (Hat _ E1) as [[-> D1]|[N1 D1]], (Hat _ E2) as [[-> D2]|[N2 D2]]; [done|..].
    + by destruct (Hother _ _ N2 D2).
    + by destruct (Hother _ _ N1 D1).
    + by eapply H5.
  - intros j t1 p1 Hj. destruct (decide (o' = Some j)) as [->|Hno].
    { right. exists i. by apply list_lookup_insert_eq. }
    destruct (goroutines d1 !! j) as [x|] eqn:Ex.
    + pose proof (ext_old _ _ _ Hext _ _ Ex) as Hx. rewrite Hj in Hx. injection Hx as <-.
      destruct (decide (js !! i = Some (Some j))) as [Hd|Hd].
      { by destruct (Hfin _ _ _ Hd Ex); [left|]. }
      rewrite Hsame in Ex by done. destruct (H6 _ _ _ Ex) as [?|[i' Hi']]; [by left|].
      right. exists i'. rewrite list_lookup_insert_ne; [done|]. intros ->. by rewrite Hi' in Hd.
    + left. destruct (ext_new _ _ _ Hext _ _ _ Ex Hj) as [?|E]; [done|].
      destruct o' as [j'|]; [|done]. case_decide; congruence.
Qed.

(** Goroutine [i] starts. *)
Lemma sim_spawn c (d : db_config) js t p d' o :
  simulates c d js -> extends d d' o -> tracked (goroutines d') t p o ->
  simulates (Config (shared c) (goroutines c ++ [(t, p)])) d' (js ++ [o]).
Proof.
  intros [H1 H2 H3 H4 H5 H6] Hext Ht.
  assert (Hin : forall i j, js !! i = Some (Some j) -> is_Some (goroutines d !! j)).
  { intros i j Hj. destruct (Forall2_lookup_r _ _ _ _ _ H4 Hj) as ([t1 p1] & _ & Htr).
    by eapply tracked_in. }
  assert (Hnew : forall i j, (js ++ [o]) !! i = Some (Some j) ->
            js !! i = Some (Some j) \/ i = length js /\ o = Some j).
  { intros i j [E|[Hi E]]%lookup_app_Some; [by left|right].
    apply list_lookup_singleton_Some in E as [E ->]. split; [lia|done]. }
  assert (Hne : forall i j, js !! i = Some (Some j) -> o <> Some j).
  { intros i j Hj E. destruct (Hin _ _ Hj) as [x Hx].
    by rewrite (ext_fresh _ _ _ Hext _ E) in Hx. }
  split; cbn; [apply Hext|by rewrite (ext_shared _ _ _ Hext)|done|..].
  - apply Forall2_app; [|by constructor]. eapply Forall2_impl; [exact H4|].
    intros [t1 p1] o1 Htr. eapply tracked_mono; [|exact Htr]. intros j ->.
    destruct (tracked_in _ _ _ _ Htr) as [x Hx]. rewrite Hx. by apply (ext_old _ _ _ Hext).
  - intros i1 i2 j [E1|[-> E1]]%Hnew [E2|[-> E2]]%Hnew; [by eapply H5|..|done].
    + by destruct (Hne _ _ E1).
    + by destruct (Hne _ _ E2).
  - intros j t1 p1 Hj. destruct (goroutines d !! j) as [x|] eqn:Ex.
    + pose proof (ext_old _ _ _ Hext _ _ Ex) as Hx. rewrite Hj in Hx. injection Hx as <-.
      destruct (H6 _ _ _ Ex) as [?|[i Hi]]; [by left|right]. exists i.
      by apply lookup_app_l_Some.
    + destruct (ext_new _ _ _ Hext _ _ _ Ex Hj) as [?|E]; [by left|right].
      exists (length js). rewrite lookup_app_r by done. by rewrite Nat.sub_diag, E.
Qed.

(** Goroutine [i] has made an operation of the server. *)
Lemma sim_server c (d : db_config) js i r B (e : srvE B) (k : B -> srv_prog unit) b st' :
  simulates c d js -> js !! i = Some None ->
  match e with DBQuery _ => False | _ => True end ->
  req_pre s requests r B e -> (forall b, req_post s requests B e b -> safe_here r (k b)) ->
  srv_handle err_uuid B e (shared c) = Some (b, st') ->
  exists d' js', simulates
    (Config st' (<[i := (SRequest r, interp call (k b))]> (goroutines c))) d' js'.
Proof.
  intros Hsim Hi Hq Hpre Hk Hh. pose proof Hsim as [H1 H2 H3 _ _ _].
  assert (Hc : req_post s requests B e b
               /\ cache_ok (svAuthTokens s) (svAuthTokenSalt s) (presented requests) st').
  { eapply cache_step; [exact H3| |exact Hh]. by destruct e. }
  destruct Hc as [Hpost Hcache].
  assert (He : db_env (shared d) (srvDB st')).
  { rewrite H2. by eapply server_step_db. }
  destruct (settle r (k b) (Config (srvDB st') (goroutines d) : db_config)) as (d' & o & Hext & Ht).
  - by apply Hk.
  - by apply reach_env.
  - exists d', (<[i := o]> js). eapply (sim_replace c d js i _ _ _ (Config (srvDB st') (goroutines d)) d' o Hsim).
    + by eapply lookup_lt_Some.
    + reflexivity.
    + done.
    + done.
    + done.
    + intros j t1 p1 E. by rewrite Hi in E.
    + destruct o as [j|]; [|exact Hext]. rewrite decide_False; [exact Hext|]. by rewrite Hi.
    + exact Ht.
Qed.

(** The program after an operation of the component is tracked. *)
Lemma sim_db_step c (d : db_config) js i j t tp B (e : dbE B) (dk : B -> db_prog unit) b s1 p' o' d' :
  simulates c d js -> js !! i = Some (Some j) ->
  goroutines d !! j = Some (tp, Vis e dk) ->
  handle fuel tx_uuid B e (srvDB (shared c)) = Some (b, s1) ->
  let d1 := Config s1 (<[j := (tp, dk b)]> (goroutines d)) : db_config in
  extends d1 d' (match o' with
                 | Some j' => if decide (j' = j) then None else o'
                 | None => None
                 end) ->
  finished (dk b) = true \/ o' = Some j ->
  tracked (goroutines d') t p' o' ->
  simulates (Config (set_db s1 (shared c)) (<[i := (t, p')]> (goroutines c))) d' (<[i := o']> js).
Proof.
  intros Hsim Hi Hj Hh d1 Hext Hfin Ht.
  eapply (sim_replace c d js i _ _ _ d1 d' o' Hsim).
  - by eapply lookup_lt_Some.
  - reflexivity.
  - cbn. by rewrite length_insert.
  - apply (sim_cache _ _ _ Hsim).
  - intros j' Hne. cbn. apply list_lookup_insert_ne. intros ->. by apply Hne.
  - intros j' t1 p1 E. rewrite Hi in E. injection E as <-. cbn.
    rewrite list_lookup_insert_eq by (by eapply lookup_lt_Some). by intros [= <- <-].
  - destruct o' as [j'|]; [|exact Hext]. rewrite Hi.
    destruct (decide (j' = j)) as [->|Hne]; [by rewrite decide_True|].
    rewrite decide_False; [exact Hext|]. by intros [= ->].
  - exact Ht.
Qed.

Lemma step_simulated c c' (d : db_config) js :
  simulates c d js -> gstep sys_handle sys_spawnable sys_env c c' ->
  exists d' js', simulates c' d' js'.
Proof.
  intros Hsim Hstep. destruct Hstep as [st st' gs i t p p' Hi Hp|st gs t p Hsp|st st' gs He].
  - destruct (Forall2_lookup_l _ _ _ _ _ (sim_goroutines _ _ _ Hsim) Hi) as (o & Ho & Ht).
    cbn in Ht. destruct Ht as [r|r B e k Hq Hpre Hk|r j q B e dk k Hj Ha Hk|t j p Hj]; cbn in Hp.
    + done.
    + destruct (srv_handle err_uuid B e st) as [[b st1]|] eqn:Eh; [|done]. injection Hp as <- <-.
      by eapply (sim_server _ _ _ _ _ _ _ _ _ _ Hsim).
    + destruct (handle fuel tx_uuid B e (srvDB st)) as [[b d1]|] eqn:Eh; [|done].
      injection Hp as <- <-. pose proof (sim_reach _ _ _ Hsim) as Hr.
      assert (Hr1 : db_reachable tx_uuid fuel (Config d1
                (<[j := (TQuery q, prog_bind (fun _ => Ret tt) (dk b))]> (goroutines d)))).
      { eapply (reach_db_step _ _ _ _ _ (fun b => prog_bind (fun _ => Ret tt) (dk b)) _ _ Hr Hj).
        by rewrite (sim_db _ _ _ Hsim). }
      destruct (dk b) as [x|B1 e1 dk1] eqn:Ek.
      * destruct (settle r (k x) _ (Hk x) Hr1) as (d' & o & Hext & Ht).
        exists d', (<[i := o]> js).
        eapply (sim_db_step _ _ _ _ _ _ _ _ _ (fun b => prog_bind (fun _ => Ret tt) (dk b))
                  _ _ _ o d' Hsim Ho Hj Eh); cbn beta; rewrite ?Ek; [|by left|exact Ht].
        destruct o as [j'|]; [|exact Hext]. rewrite decide_False; [exact Hext|].
        intros ->. pose proof (ext_fresh _ _ _ Hext _ eq_refl) as Hf. cbn in Hf.
        rewrite list_lookup_insert_eq in Hf; [done|]. by eapply lookup_lt_Some.
      * eexists _, (<[i := Some j]> js).
        eapply (sim_db_step _ _ _ _ _ _ _ _ _ (fun b => prog_bind (fun _ => Ret tt) (dk b))
                  _ _ _ (Some j) _ Hsim Ho Hj Eh); cbn beta; rewrite ?Ek; [|by right|].
        { rewrite decide_True by done. by apply extends_refl. }
        eapply (tracked_query _ _ _ q); [|done|done]. cbn.
        rewrite list_lookup_insert_eq; [done|]. by eapply lookup_lt_Some.
    + destruct p as [x|B e dk]; [done|]. cbn in Hp.
      destruct (handle fuel tx_uuid B e (srvDB st)) as [[b d1]|] eqn:Eh; [|done].
      injection Hp as <- <-. pose proof (sim_reach _ _ _ Hsim) as Hr.
      eexists _, (<[i := Some j]> js).
      eapply (sim_db_step _ _ _ _ _ _ _ _ _ dk _ _ _ (Some j) _ Hsim Ho Hj Eh); [|by right|].
      * rewrite decide_True by done. apply extends_refl.
        eapply (reach_db_step _ _ _ _ _ _ _ _ Hr Hj). by rewrite (sim_db _ _ _ Hsim).
      * eapply (tracked_background _ _ _ (dk b)). cbn.
        rewrite list_lookup_insert_eq; [done|]. by eapply lookup_lt_Some.
  - pose proof (sim_reach _ _ _ Hsim) as Hr. destruct t as [r|t].
    + destruct Hsp as [Hr0 ->].
      destruct (settle r (serve_request s r) d) as (d' & o & Hext & Ht).
      * by eapply safe_serve_request.
      * done.
      * exists d', (js ++ [o]). by apply (sim_spawn _ _ _ _ _ _ _ Hsim).
    + assert (exists rounds, p = on_db (task_prog rounds t)) as [rounds ->] by (by destruct t).
      destruct (extends_spawn d t (task_prog rounds t) Hr) as [Hext Hj]; [by exists rounds|].
      eexists _, (js ++ [Some _]). apply (sim_spawn _ _ _ _ _ _ _ Hsim Hext).
      by apply tracked_background.
  - destruct He as (d1 & net & He & _ & ->). exists (Config d1 (goroutines d)), js.
    destruct Hsim as [H1 H2 H3 H4 H5 H6]. split; cbn in *; try done.
    + apply reach_env; [done|]. by rewrite H2.
Qed.

(** Every configuration of the process is one of the database component, with one
    goroutine per call in progress. *)
Lemma reachable_simulated c : sys_reachable c -> exists d js, simulates c d js.
Proof.
  induction 1 as [c (Hc & Hg & Hi & _)|c c' _ (d & js & Hsim) Hstep].
  - exists (Config (srvDB (shared c)) []), []. split; cbn; try done.
    + by apply reach_init.
    + intros h role. by rewrite Hc.
    + by rewrite Hg.
  - by eapply step_simulated.
Qed.

(** ** What the process inherits from the component *)

(** An operation of the component in the process is the same operation of the
    goroutine that stands for the call. *)
Definition stands_for (ds : db_goroutines) (t : sys_task) (o : option nat) (p : prog sysE unit) :
    Prop :=
  match p with
  | Vis (OnDB e) _ => exists j t' (k' : _ -> db_prog unit),
      ds !! j = Some (t', Vis e k') /\ o = Some j
      /\ match t with
         | SRequest r => exists q, t' = TQuery q /\ allowed s r q
         | SBackground t0 => t' = t0
         end
  | _ => True
  end.

Lemma tracked_stands_for ds t p o : tracked ds t p o -> stands_for ds t o p.
Proof.
  intros [r|r B e k Hq _ _|r j q B e dk k Hj Ha _|t0 j p0 Hj]; cbn; try done.
  - exists j, (TQuery q), (fun b => prog_bind (fun _ => Ret tt) (dk b)). eauto.
  - destruct p0 as [|B e k]; [done|]. cbn. eauto 10.
Qed.

Lemma tracked_server_effect ds t o B (e : srvE B) k :
  tracked ds t (Vis (OnServer e) k) o -> match e with DBQuery _ => False | _ => True end.
Proof.
  intros Ht. change (match Vis (OnServer e) k : prog sysE unit with
                     | Vis (OnServer e) _ => match e with DBQuery _ => False | _ => True end
                     | _ => True
                     end).
  destruct Ht as [r|r B0 e0 k0 Hq _ _|r j q B0 e0 dk k0 _ _ _|t0 j p0 _]; cbn; try done.
  by destruct p0.
Qed.

Lemma simulated_effect c (d : db_config) js i t B (e : dbE B) k :
  simulates c d js -> goroutines c !! i = Some (t, Vis (OnDB e) k) ->
  exists j t' (k' : B -> db_prog unit),
    goroutines d !! j = Some (t', Vis e k') /\ js !! i = Some (Some j)
    /\ match t with
       | SRequest r => exists q, t' = TQuery q /\ allowed s r q
       | SBackground t0 => t' = t0
       end.
Proof.
  intros Hsim Hi.
  destruct (Forall2_lookup_l _ _ _ _ _ (sim_goroutines _ _ _ Hsim) Hi) as (o & Ho & Ht).
  destruct (tracked_stands_for _ _ _ _ Ht) as (j & t' & k' & H1 & -> & H3). by exists j, t', k'.
Qed.

(** Conversely, a goroutine of the component that has not returned is a call in
    progress, and its operation is the next one of the process's goroutine. *)
Definition acts_on (x : task * db_prog unit) (p : prog sysE unit) : Prop :=
  match snd x with
  | Ret _ => True
  | @Vis _ _ B e _ => exists k : B -> prog sysE unit, p = Vis (OnDB e) k
  end.
Definition acts_for (ds : db_goroutines) (o : option nat) (p : prog sysE unit) : Prop :=
  forall j x, o = Some j -> ds !! j = Some x -> acts_on x p.

Lemma tracked_acts_for ds t p o : tracked ds t p o -> acts_for ds o p.
Proof.
  intros [r|r B e k _ _ _|r j q B e dk k Hj _ _|t0 j p0 Hj] j' x [= <-] Hx.
  - assert (E := eq_trans (eq_sym Hj) Hx). injection E as <-. by eexists.
  - assert (E := eq_trans (eq_sym Hj) Hx). injection E as <-. destruct p0 as [a|B e k]; [done|by eexists].
Qed.

Lemma simulated_progress c (d : db_config) js j t' B (e : dbE B) (k' : B -> db_prog unit) :
  simulates c d js -> goroutines d !! j = Some (t', Vis e k') ->
  exists i t k, goroutines c !! i = Some (t, Vis (OnDB e) k).
Proof.
  intros Hsim Hj. destruct (sim_rest _ _ _ Hsim _ _ _ Hj) as [?|[i Hi]]; [done|].
  destruct (Forall2_lookup_r _ _ _ _ _ (sim_goroutines _ _ _ Hsim) Hi) as ([t p] & Hg & Ht).
  destruct (tracked_acts_for _ _ _ _ Ht _ _ eq_refl Hj) as [k Hk]. cbn in Hk. subst p.
  by exists i, t, k.
Qed.

Definition sys_can_step (c : sys_config) (i : nat) : bool :=
  match goroutines c !! i with
  | Some (_, p) => match pstep sys_handle p (shared c) with Some _ => true | None => false end
  | None => false
  end.

(** No goroutine is inside an engine call that does not return. *)
Definition sys_engine_answers (c : sys_config) : Prop :=
  forall i t B (e : dbE B) k, goroutines c !! i = Some (t, Vis (OnDB e) k) ->
  effect_answers fuel (srvDB (shared c)) B e.

(** The operations of the database component a goroutine may be waiting at. *)
Definition sys_blocking (p : prog sysE unit) : bool :=
  match p with Vis (OnDB e) _ => blocks _ e | _ => false end.
Definition sys_waits (st : srv_state) (p : prog sysE unit) : Prop :=
  match p with Vis (OnDB e) _ => waits_at (srvDB st) _ e | _ => False end.

Lemma sys_can_step_db c i t B (e : dbE B) k :
  goroutines c !! i = Some (t, Vis (OnDB e) k) ->
  handle fuel tx_uuid B e (srvDB (shared c)) <> None -> sys_can_step c i = true.
Proof.
  intros Hi Hh. unfold sys_can_step. rewrite Hi. cbn.
  by destruct (handle fuel tx_uuid B e (srvDB (shared c))) as [[b d1]|].
Qed.

Lemma simulated_can_step c (d : db_config) js j :
  simulates c d js -> can_step tx_uuid fuel d j = true -> exists i, sys_can_step c i = true.
Proof.
  intros Hsim Hj. unfold can_step in Hj. destruct (goroutines d !! j) as [[t' p']|] eqn:E; [|done].
  destruct p' as [a|B e k']; [done|]. cbn in Hj.
  destruct (simulated_progress _ _ _ _ _ _ _ _ Hsim E) as (i & t & k & Hg). exists i.
  apply (sys_can_step_db _ _ _ _ _ _ Hg). rewrite (sim_db _ _ _ Hsim) in Hj.
  by destruct (handle fuel tx_uuid B e (srvDB (shared c))) as [[b d1]|].
Qed.
End System.
#[global] Arguments OnServer {LIB B} e.
#[global] Arguments OnDB {LIB B} e.

(** ** The process *)

Section Process.
  Context `{CR : Crypto} `{J : GoJSON} `{MR : MapRange} `{LIB : SqliteLib}.
  Context (s : Server) (err_uuid tx_uuid : nat -> string) (fuel : nat).
  Context (requests : http_request -> Prop).
  Context (version salt : string) (config : ServerConfig).
  Hypothesis started : NewServer version salt config = Some s.
  Hypothesis no_collision : forall t1 t2, presented requests t1 -> presented requests t2 ->
    token_hash (svAuthTokenSalt s) t1 = token_hash (svAuthTokenSalt s) t2 -> t1 = t2.
  Hypothesis tx_uuid_nonempty : forall n, tx_uuid n <> "".

Lemma process_simulated c : sys_reachable s err_uuid tx_uuid fuel requests c ->
  exists d js, simulates s tx_uuid fuel requests c d js.
Proof using started no_collision.
  pose proof (server_shape s version salt config started). by eapply reachable_simulated.
Qed.


(** The requests that may only read: all of [/db/query], and those whose token has the
    read-only role. *)
Definition read_only_request (r : http_request) : Prop :=
  match reqPath r with
  | [_; rpcName; operationName] =>
      (rpcName =s? "System") && (operationName =s? "health") = false
      /\ exists p, identity s false r = Some (authRoleReadOnly, p)
  | [_; endpoint] => endpoint = "query" \/ exists p, identity s true r = Some (authRoleReadOnly, p)
  | _ => True
  end.

Lemma read_only_allowed r q :
  read_only_request r -> allowed s r q -> qRole q = AuthorizerRoleReadOnly.
Proof using.
  clear started. unfold read_only_request, allowed. destruct (reqPath r) as [|p1 [|p2 [|p3 [|? ?]]]]; try done.
  - intros [-> | [p Hp]] (_ & role & Hi & Hq); [done|].
    rewrite Hp in Hi. injection Hi as <- _. rewrite Hq. by destruct (p2 =s? "query").
  - intros [-> [p Hp]] (_ & role & Hi & Hq). rewrite Hp in Hi. by injection Hi as <- _.
Qed.

(** C13: a read-only request only reads.  If SQL that runs for it succeeds, every action
    of the statement is a reading one: selecting, reading a column, or calling an
    allowed function or pragma; whatever the process does at the same time, and
    whatever roles its connections had before. *)
Theorem process_read_only `{!AuthorizerLaw LIB} c i r co sql ps k res w' :
  sys_reachable s err_uuid tx_uuid fuel requests c -> read_only_request r ->
  goroutines c !! i = Some (SRequest r, Vis (OnDB (ConnQuery co sql ps)) k) ->
  Conn_Query fuel (conn_of (srvDB (shared c)) (coConn co)) sql ps (world (srvDB (shared c)))
  = Some (Ok res, w') ->
  Forall (fun '(a, a3, a4) => reading_action a a3 a4)
    (statement_actions (CString sql) (world (srvDB (shared c)))).
Proof using started no_collision tx_uuid_nonempty.
  intros Hc Hro Hi Hrun. destruct (process_simulated c Hc) as (d & js & Hsim). clear started.
  destruct (simulated_effect _ _ _ _ _ _ _ _ _ _ _ _ Hsim Hi) as (j & t' & k' & Hj & _ & q & -> & Ha).
  apply running_intro in Hj as Hr.
  pose proof (running_role _ _ tx_uuid_nonempty _ _ _ _ _ (sim_reach _ _ _ _ _ _ _ Hsim) Hr) as Hrole.
  rewrite (sim_db _ _ _ _ _ _ _ Hsim) in Hrole. cbn in Hrole.
  rewrite (read_only_allowed _ _ Hro Ha) in Hrole.
  eapply Forall_impl; [exact (query_confined _ _ _ _ _ _ _ Hrun)|].
  intros [[a a3] a4] H. unfold role_in in Hrole. rewrite Hrole in H. by apply H.
Qed.

(** When every goroutine has returned or waits for the transaction, the tick or the
    shutdown, nothing else is locked and nothing is checked out. *)
Lemma process_rest c :
  sys_reachable s err_uuid tx_uuid fuel requests c ->
  (forall i t p, goroutines c !! i = Some (t, p) ->
     finished p = true \/ sys_waits tx_uuid fuel (shared c) p) ->
  let db := srvDB (shared c) in
  txMu db = in_tx (txID db) /\ txOpMu db = false /\ writeMu db = false
  /\ plInUse (readWritePool db) = 0%nat /\ plInUse (readOnlyPool db) = 0%nat.
Proof using started no_collision tx_uuid_nonempty.
  intros Hc Hfin. destruct (process_simulated c Hc) as (d & js & Hsim). clear started.
  cbv zeta. rewrite <- (sim_db _ _ _ _ _ _ _ Hsim).
  apply (no_leak tx_uuid fuel tx_uuid_nonempty); [by apply (sim_reach _ _ _ _ _ _ _ Hsim)|].
  intros j t' [a|B e k'] Hj; [by left|]. right.
  destruct (simulated_progress _ _ _ _ _ _ _ _ _ _ _ _ Hsim Hj) as (i & t & k & Hg).
  destruct (Hfin _ _ _ Hg) as [|Hw]; [done|]. cbn in Hw |- *. by rewrite (sim_db _ _ _ _ _ _ _ Hsim).
Qed.

(** C14: the process leaks nothing.  When every request, monitor and shutdown has
    returned, no mutex of the database component is locked, except the transaction
    mutex exactly when a transaction is open, and every connection is back in its
    pool. *)
Theorem process_no_leak c :
  sys_reachable s err_uuid tx_uuid fuel requests c ->
  (forall i t p, goroutines c !! i = Some (t, p) -> finished p = true) ->
  let db := srvDB (shared c) in
  txMu db = in_tx (txID db) /\ txOpMu db = false /\ writeMu db = false
  /\ plInUse (readWritePool db) = 0%nat /\ plInUse (readOnlyPool db) = 0%nat.
Proof using started no_collision tx_uuid_nonempty.
  intros Hc Hfin. apply process_rest; [done|]. intros i t p Hi. left. by eapply Hfin.
Qed.

(** A goroutine that has not returned goes on, or is at a lock or a pool while another
    goes on, or waits for the transaction, the tick or the shutdown. *)
Lemma process_step_or_wait c i t p :
  sys_reachable s err_uuid tx_uuid fuel requests c -> sys_engine_answers tx_uuid fuel c ->
  goroutines c !! i = Some (t, p) -> finished p = false ->
  sys_can_step err_uuid tx_uuid fuel c i = true
  \/ (sys_blocking p = true /\ exists j, sys_can_step err_uuid tx_uuid fuel c j = true)
  \/ sys_waits tx_uuid fuel (shared c) p.
Proof using started no_collision tx_uuid_nonempty.
  intros Hc Heng Hi Hf. destruct (process_simulated c Hc) as (d & js & Hsim). clear started.
  destruct p as [a|B [e|e] k]; [done| |].
  - left. unfold sys_can_step. rewrite Hi. cbn.
    destruct (Forall2_lookup_l _ _ _ _ _ (sim_goroutines _ _ _ _ _ _ _ Hsim) Hi) as (o & _ & Ht).
    assert (Hq : match e with DBQuery _ => False | _ => True end).
    { by apply tracked_server_effect in Ht. }
    by destruct e.
  - destruct (simulated_effect _ _ _ _ _ _ _ _ _ _ _ _ Hsim Hi) as (j & t' & k' & Hj & _ & _).
    assert (Hd : engine_answers fuel d).
    { intros j1 t1 [a1|B1 e1 k1] Hj1; [done|].
      destruct (simulated_progress _ _ _ _ _ _ _ _ _ _ _ _ Hsim Hj1) as (i1 & t2 & k2 & Hg).
      apply Heng in Hg. by rewrite (sim_db _ _ _ _ _ _ _ Hsim). }
    destruct (progress tx_uuid fuel tx_uuid_nonempty _ _ _ _ (sim_reach _ _ _ _ _ _ _ Hsim) Hd Hj eq_refl)
      as [Hs|[[Hb [j1 Hs]]|Hw]].
    + left. eapply sys_can_step_db; [exact Hi|]. apply (can_step_handle _ _ _ _ _ _ _ _ Hj) in Hs.
      by rewrite <- (sim_db _ _ _ _ _ _ _ Hsim).
    + right; left. split; [done|]. by eapply simulated_can_step.
    + right; right. cbn in *. by rewrite <- (sim_db _ _ _ _ _ _ _ Hsim).
Qed.

(** A request waits for nothing but the transaction mutex. *)
Lemma process_request_waits c i r p :
  sys_reachable s err_uuid tx_uuid fuel requests c ->
  goroutines c !! i = Some (SRequest r, p) -> sys_waits tx_uuid fuel (shared c) p ->
  txID (srvDB (shared c)) <> "" /\ exists k, p = Vis (OnDB (Lock TxMu)) k.
Proof using started no_collision tx_uuid_nonempty.
  intros Hc Hi Hw. destruct (process_simulated c Hc) as (d & js & Hsim). clear started.
  destruct p as [a|B [e|e] k]; [done..|].
  destruct (simulated_effect _ _ _ _ _ _ _ _ _ _ _ _ Hsim Hi) as (j & t' & k' & Hj & _ & q & -> & _).
  apply (query_never_stops tx_uuid fuel tx_uuid_nonempty) in Hj; [|apply (sim_reach _ _ _ _ _ _ _ Hsim)].
  cbn in Hw. destruct e; try done.
  destruct m; [|done..]. split; [done|]. by eexists.
Qed.

(** C2: the process does not deadlock.  As long as the engine answers, a goroutine that
    has not returned can take a step; or it is at a lock or a pool and some goroutine
    can take a step; or it waits for the end of the open transaction, for the tick of
    the idle monitor or for the shutdown. *)
Theorem process_progress c i t p :
  sys_reachable s err_uuid tx_uuid fuel requests c -> sys_engine_answers tx_uuid fuel c ->
  goroutines c !! i = Some (t, p) -> finished p = false ->
  sys_can_step err_uuid tx_uuid fuel c i = true
  \/ (sys_blocking p = true /\ exists j, sys_can_step err_uuid tx_uuid fuel c j = true)
  \/ sys_waits tx_uuid fuel (shared c) p.
Proof using started no_collision tx_uuid_nonempty.
  apply process_step_or_wait.
Qed.

End Process.
