(* ===== verification/ResultTypes.v ===== *)
(** * The types of results

    Whatever interleaving a request runs in, what it answers is well typed: each result is
    a table with one type per column and one value per column in every row, has the
    fields its type promises and no others, and each value is one value.  [gives] follows
    a program through every answer its operations may give it, so that the property does
    not depend on the state; [leads] is a run of a program in which anything may happen
    between two of its operations. *)
From S2P Require Import Prelude GoStrings Base64 GoTime Stats Sqlite SqliteSpec DbState Goroutines Db VdlTypes Convert Http DbService Auth Vdl Server Rqlite ServerSafety System.

(** ** Programs and what they may return *)

Section Gives.
  Context {E : Type -> Type} (post : forall B, E B -> B -> Prop).

Fixpoint gives {A} (Q : A -> Prop) (p : prog E A) : Prop :=
  match p with
  | Ret a => Q a
  | Vis e k => forall b, post _ e b -> gives Q (k b)
  end.

Lemma gives_mono {A} (P Q : A -> Prop) p : (forall a, P a -> Q a) -> gives P p -> gives Q p.
Proof. intros HPQ. induction p as [a|B e k IH]; cbn; auto. Qed.

Lemma gives_bind {A B} (P : A -> Prop) (Q : B -> Prop) (p : prog E A) f :
  gives P p -> (forall a, P a -> gives Q (f a)) -> gives Q (prog_bind f p).
Proof. intros Hp Hf. induction p as [a|X e k IH]; cbn in *; auto. Qed.

Lemma gives_any {A} (p : prog E A) : gives (fun _ => True) p.
Proof. induction p as [a|X e k IH]; cbn; auto. Qed.

Lemma gives_seq {A B} (Q : B -> Prop) (p : prog E A) f :
  (forall a, gives Q (f a)) -> gives Q (prog_bind f p).
Proof. intros Hf. eapply gives_bind; [apply gives_any|auto]. Qed.

Lemma gives_deferred {A} (Q : A -> Prop) (p : prog E A) fin : gives Q p -> gives Q (deferred p fin).
Proof. intros Hp. eapply gives_bind; [exact Hp|]. intros a Ha. by apply gives_seq. Qed.

(** What an error-returning function promises of its values. *)
Definition on_ok {A} (Q : A -> Prop) (r : result A) : Prop :=
  match r with Ok a => Q a | Err _ => True end.

Lemma gives_try {A B} (Q : B -> Prop) wrap (p : prog E (result A)) f :
  (forall a, gives (on_ok Q) (f a)) -> gives (on_ok Q) (try_bind wrap p f).
Proof. intros Hf. apply gives_seq. intros [a|e]; [apply Hf|done]. Qed.

Lemma gives_try_ok {A B} (P : A -> Prop) (Q : B -> Prop) wrap (p : prog E (result A)) f :
  gives (on_ok P) p -> (forall a, P a -> gives (on_ok Q) (f a)) -> gives (on_ok Q) (try_bind wrap p f).
Proof. intros Hp Hf. eapply gives_bind; [exact Hp|]. intros [a|e] Ha; [by apply Hf|done]. Qed.
End Gives.

Lemma gives_interp {E F : Type -> Type} (postE : forall B, E B -> B -> Prop)
    (postF : forall B, F B -> B -> Prop) (h : forall B, E B -> prog F B) {A} (Q : A -> Prop) p :
  (forall B (e : E B), gives postF (postE B e) (h B e)) ->
  gives postE Q p -> gives postF Q (interp h p).
Proof.
  intros Hh. induction p as [a|B e k IH]; cbn; intros Hp; [done|].
  eapply gives_bind; [apply Hh|]. intros b Hb. by apply IH, Hp.
Qed.

(** A run of a program, each operation in whatever state the others have left. *)
Inductive leads {E S A} (h : forall B, E B -> S -> option (B * S)) : prog E A -> A -> Prop :=
| leads_ret a : leads h (Ret a) a
| leads_step B (e : E B) k s b s' a :
    h B e s = Some (b, s') -> leads h (k b) a -> leads h (Vis e k) a.

Lemma leads_gives {E S A} (h : forall B, E B -> S -> option (B * S))
    (post : forall B, E B -> B -> Prop) (Q : A -> Prop) p a :
  (forall B (e : E B) s b s', h B e s = Some (b, s') -> post B e b) ->
  leads h p a -> gives post Q p -> Q a.
Proof.
  intros Hh Hl. induction Hl as [a|B e k s b s' a Hs _ IH]; cbn; intros Hp; [done|].
  apply IH, Hp. by eapply Hh.
Qed.

(** A run alone is one. *)
Lemma run_leads {E S A} (h : forall B, E B -> S -> option (B * S)) (p : prog E A) s a s' :
  run h p s = Done a s' -> leads h p a.
Proof.
  revert s. induction p as [x|B e k IH]; intros s; cbn; [intros [= <- <-]; constructor|].
  destruct (h B e s) as [[b s1]|] eqn:Eh; [|done]. intros Hr. econstructor; [exact Eh|by eapply IH].
Qed.

(** ** The types *)

(** What [Conn.Query] returns. *)
Definition table {A} (columns types : list string) (rows : list (list A)) : Prop :=
  length types = length columns /\ Forall (fun row => length row = length columns) rows.

(** A [db.QueryResult]: a begin carries an identifier, and only a begin; only a read and a
    write carry a table. *)
Definition typed_db (r : QueryResult) : Prop :=
  table (resColumns r) (resTypes r) (resRows r)
  /\ resType r <> QueryTypeUnknown
  /\ (resTxID r <> "" <-> resType r = QueryTypeBegin)
  /\ (resColumns r <> [] -> resType r = QueryTypeRead \/ resType r = QueryTypeWrite).

(** A [vdl.SqliteValue] is one value. *)
Definition typed_value (v : SqliteValue) : Prop := exists x, sqliteValueFromVDL v = Ok x.

(** A [vdl.QueryResult]. *)
Definition typed_result (r : VQueryResult) : Prop :=
  match vrError r with
  | Some _ =>
      vrType r = QueryResultTypeError /\ vrTxId r = None /\ vrLastInsertId r = None
      /\ vrRowsAffected r = None /\ vrColumns r = None /\ vrTypes r = None /\ vrRows r = None
  | None =>
      let columns := Val [] (vrColumns r) in
      vrType r <> QueryResultTypeError
      /\ length (Val [] (vrTypes r)) = length columns
      /\ Forall (fun row => length row = length columns /\ Forall typed_value row) (Val [] (vrRows r))
      /\ (columns <> [] -> vrType r = QueryResultTypeRead \/ vrType r = QueryResultTypeWrite)
      /\ (is_Some (vrTxId r) <-> vrType r = QueryResultTypeBegin)
      /\ (is_Some (vrLastInsertId r) <-> vrType r = QueryResultTypeWrite)
      /\ (is_Some (vrRowsAffected r) <-> vrType r = QueryResultTypeWrite)
  end.

Lemma sqliteValueToVDL_typed v : typed_value (sqliteValueToVDL v).
Proof.
  destruct v; cbn [sqliteValueToVDL]; try (by eexists).
  unfold typed_value, blobValue, sqliteValueFromVDL. cbn.
  rewrite DecodeString_EncodeToString. by eexists.
Qed.

Lemma Val_some_if {A} (l : list A) : Val [] (some_if (non_empty l) l) = l.
Proof. by destruct l. Qed.
Lemma Val_some_if_map {A B} (f : A -> B) (l : list A) :
  Val [] (some_if (non_empty l) (map f l)) = map f l.
Proof. by destruct l. Qed.
Lemma is_Some_some_if {A} b (x : A) : is_Some (some_if b x) <-> b = true.
Proof. destruct b; cbn; split; try done; try (by eexists); by intros []. Qed.

Lemma queryResultFromDB_typed elapsed r : typed_db r -> typed_result (queryResultFromDB elapsed r).
Proof.
  intros ([Ht Hr] & Hu & Hid & Hc). unfold typed_result, queryResultFromDB.
  cbn [vrType vrError vrTxId vrLastInsertId vrRowsAffected vrColumns vrTypes vrRows].
  rewrite Val_some_if, !Val_some_if_map, length_map, !is_Some_some_if, !bool_decide_eq_true.
  split_and!.
  - by destruct (resType r) eqn:E.
  - done.
  - apply Forall_map. eapply Forall_impl; [exact Hr|]. intros row Hrow. rewrite length_map.
    split; [done|]. apply Forall_map, Forall_true. intros v. apply sqliteValueToVDL_typed.
  - intros Hne. destruct (Hc Hne) as [-> | ->]; [by left|by right].
  - rewrite negb_true_iff, String.eqb_neq, Hid. by destruct (resType r).
  - by destruct (resType r).
  - by destruct (resType r).
Qed.

Lemma error_result_typed elapsed msg : typed_result (error_result elapsed msg).
Proof. done. Qed.

(** ** The database component *)

Section Component.
  Context `{LIB : SqliteLib}.
  Context (uuid : nat -> string) (fuel : nat).
  Context (uuid_nonempty : forall n, uuid n <> "").

(** What the operations answer, whatever the state. *)
Definition db_answer (B : Type) (e : dbE B) : B -> Prop :=
  match e in dbE B return B -> Prop with
  | ConnQuery _ _ _ => on_ok (fun res => table (sqColumns res) (sqTypes res) (sqRows res))
  | UuidNewString => fun id => id <> ""
  | _ => fun _ => True
  end.

Lemma handle_answer B (e : dbE B) s b s' : handle fuel uuid B e s = Some (b, s') -> db_answer B e b.
Proof.
  destruct e; cbn; try done.
  - intros [= <- _]. apply uuid_nonempty.
  - destruct (Conn_Query _ _ _ _ _) as [[[res|err] w']|] eqn:E; intros [= <- _]; [|done].
    apply query_result_shape in E as (H1 & H2 & _). by split.
Qed.

Abbreviation returns := (gives db_answer).

Lemma typed_control t id : (id <> "" <-> t = QueryTypeBegin) -> t <> QueryTypeUnknown ->
  typed_db (MkQueryResult t id 0 0 [] [] []).
Proof. intros Hid Ht. split_and!; [by split|done|done|done]. Qed.
Lemma typed_table t res :
  table (sqColumns res) (sqTypes res) (sqRows res) -> t = QueryTypeRead \/ t = QueryTypeWrite ->
  forall li ra, typed_db (MkQueryResult t "" li ra (sqColumns res) (sqTypes res) (sqRows res)).
Proof. intros Ht Hc li ra. split_and!; [done|by destruct Hc as [-> | ->]|by destruct Hc as [-> | ->]|done]. Qed.

  Context (ctx : go_context).

(** The connection and the locks add nothing to what the section returns. *)
Lemma gives_withReadWriteConn {A} (Q : A -> Prop) role fn :
  (forall c, returns (on_ok Q) (fn c)) -> returns (on_ok Q) (withReadWriteConn ctx role fn).
Proof.
  intros Hf. apply gives_seq. intros _. apply gives_deferred, gives_try. intros c.
  apply gives_deferred, gives_try. intros _. apply Hf.
Qed.

Lemma gives_query_on msg f q c :
  (forall res, table (sqColumns res) (sqTypes res) (sqRows res) -> typed_db (f res)) ->
  returns (on_ok typed_db) (query_on msg f q c).
Proof.
  intros Hf.
  apply (gives_try_ok _ (fun res => table (sqColumns res) (sqTypes res) (sqRows res))).
  - intros b Hb. exact Hb.
  - intros res Hres. exact (Hf res Hres).
Qed.

Lemma gives_end_transaction op t :
  t <> QueryTypeBegin -> t <> QueryTypeUnknown -> returns (on_ok typed_db) (end_transaction op t).
Proof.
  intros H1 H2. cbn. intros. by apply typed_control.
Qed.

Lemma gives_executeClassifiedQuery q t : returns (on_ok typed_db) (executeClassifiedQuery ctx q t).
Proof.
  destruct t; cbn [executeClassifiedQuery].
  - done.
  - unfold executeReadQuery. destruct (qTxID q =s? "").
    + apply gives_try. intros c. apply gives_deferred, gives_try. intros _.
      eapply gives_try_ok; [apply gives_query_on; intros res Hres; apply typed_table; auto|].
      intros r Hr. apply gives_seq. intros _. exact Hr.
    + eapply gives_try_ok; [apply gives_withReadWriteConn; intros c; apply gives_query_on;
        intros res Hres; apply typed_table; auto|].
      intros r Hr. apply gives_seq. intros _. exact Hr.
  - unfold executeWriteQuery. apply gives_seq. intros _. apply gives_deferred.
    eapply gives_try_ok; [apply gives_withReadWriteConn; intros c; apply gives_query_on;
      intros res Hres; apply typed_table; auto|].
    intros r Hr. apply gives_seq. intros _. exact Hr.
  - unfold executeBeginQuery. destruct (negb _); [done|]. apply gives_seq. intros _.
    apply gives_deferred, gives_seq. intros _. apply gives_seq. intros [u|e]; [|apply gives_seq; intros _; exact I].
    cbn. intros id Hid. intros. by apply typed_control.
  - unfold executeCommitQuery. destruct (qTxID q =s? ""); [done|]. apply gives_try. intros _.
    by apply gives_end_transaction.
  - unfold executeRollbackQuery. destruct (qTxID q =s? ""); [done|]. apply gives_try. intros _.
    by apply gives_end_transaction.
Qed.

Lemma gives_Db_Query q : returns (on_ok typed_db) (Db_Query ctx q).
Proof.
  assert (Hq : returns (on_ok typed_db) (query_ ctx q)).
  { unfold query_. destruct (negb _).
    - apply gives_seq. intros _. apply gives_deferred. unfold queryWithType. apply gives_try. intros _.
      assert (Hbody : returns (on_ok typed_db) (try_bind (ErrWrap "failed to detect query type")
                (ClassifyQuery ctx (qQuery q) (qTxID q)) (executeClassifiedQuery ctx q)))
        by (apply gives_try; intros t; apply gives_executeClassifiedQuery).
      destruct (negb _); [|done]. apply gives_seq. intros _. by apply gives_deferred.
    - apply gives_seq. intros [t|e].
      + destruct t; try apply gives_executeClassifiedQuery. apply gives_seq. intros _.
        apply gives_deferred, gives_executeClassifiedQuery.
      + apply gives_seq. intros id. destruct (negb _); [|done]. apply gives_seq. intros _.
        apply gives_deferred, gives_seq. intros [t|e']; [apply gives_executeClassifiedQuery|done]. }
  eapply gives_bind; [exact Hq|]. intros [r|e] Hr; [exact Hr|]. apply gives_seq. intros _. exact I.
Qed.
End Component.

(** ** The process *)

Section Process.
  Context `{LIB : SqliteLib}.
  Context (err_uuid tx_uuid : nat -> string) (fuel : nat).
  Hypothesis tx_uuid_nonempty : forall n, tx_uuid n <> "".

Definition srv_answer (B : Type) (e : srvE B) : B -> Prop :=
  match e in srvE B return B -> Prop with
  | DBQuery _ => on_ok typed_db
  | _ => fun _ => True
  end.
Definition sys_answer (B : Type) (e : sysE B) : B -> Prop :=
  match e with OnServer _ => fun _ => True | OnDB e => db_answer B e end.

Lemma sys_handle_answer B (e : sysE B) st b st' :
  sys_handle err_uuid tx_uuid fuel B e st = Some (b, st') -> sys_answer B e b.
Proof.
  destruct e as [e|e]; cbn; [done|]. destruct (handle fuel tx_uuid B e (srvDB st)) as [[b' d]|] eqn:E; [|done].
  intros [= <- _]. by eapply handle_answer.
Qed.

Lemma gives_call B (e : srvE B) : gives sys_answer (srv_answer B e) (call B e).
Proof.
  destruct e; try (cbn; done). cbn [call srv_answer].
  eapply (gives_interp db_answer); [|apply gives_Db_Query].
  intros C f. cbn. auto.
Qed.

Lemma gives_executeRequestQuery props q :
  gives srv_answer typed_result (executeRequestQuery props q).
Proof.
  unfold executeRequestQuery. apply gives_seq. intros t0. destruct (_ =s? "").
  { apply gives_seq. intros t1. apply error_result_typed. }
  destruct (sqliteParamsFromVDL _) as [ps|e].
  - cbn. intros r Hr t1 _. destruct r as [r|e]; [by apply queryResultFromDB_typed|apply error_result_typed].
  - apply gives_seq. intros t1. apply error_result_typed.
Qed.

Lemma gives_execute_loop props qs rs :
  Forall typed_result rs ->
  gives srv_answer (fun out => Forall typed_result out /\ length out = (length rs + length qs)%nat)
    (execute_loop props qs rs).
Proof.
  revert rs. induction qs as [|q qs IH]; intros rs Hrs; cbn [execute_loop].
  - split; [done|]. cbn. lia.
  - eapply gives_bind; [apply gives_executeRequestQuery|]. intros r Hr.
    eapply gives_mono; [|apply IH; by apply Forall_app_2; [done|constructor]].
    intros out [H1 H2]. split; [done|]. rewrite H2, length_app. cbn. lia.
Qed.

Lemma gives_executeQueries props qs :
  gives srv_answer (fun out => Forall typed_result (doResults out) /\ length (doResults out) = length qs)
    (executeQueries props qs).
Proof.
  unfold executeQueries. apply gives_seq. intros t0.
  eapply gives_bind; [apply (gives_execute_loop props qs []); constructor|].
  intros rs Hrs. apply gives_seq. intros t1. exact Hrs.
Qed.

(** The statements of a transaction of the rqlite endpoints. *)
Lemma gives_rqlite_tx_loop props id qs rs :
  Forall typed_result rs -> gives srv_answer (fun out => Forall typed_result (fst out)) (rqlite_tx_loop props id qs rs).
Proof.
  revert rs. induction qs as [|q qs IH]; intros rs Hrs; cbn [rqlite_tx_loop]; [done|].
  eapply gives_bind; [apply gives_executeRequestQuery|]. intros r Hr.
  assert (Hrs' : Forall typed_result (rs ++ [r])) by (apply Forall_app_2; [done|by constructor]).
  destruct (vrError r); [apply gives_seq; intros _; exact Hrs'|by apply IH].
Qed.

Lemma gives_executeRQLiteQueries props qs transaction :
  gives srv_answer (fun out => Forall typed_result (doResults out)) (executeRQLiteQueries props qs transaction).
Proof.
  unfold executeRQLiteQueries. destruct (_ || _).
  { eapply gives_mono; [|apply gives_executeQueries]. by intros out []. }
  apply gives_seq. intros t0. eapply gives_bind; [apply gives_executeRequestQuery|]. intros b Hb.
  assert (Hdone : gives srv_answer (fun out => Forall typed_result (doResults out))
    (now ← act SrvNow; mret (MkDatabaseQueryOutput (now - t0) [b]))) by (apply gives_seq; intros t1; by constructor).
  destruct (vrError b); [done|]. destruct (vrTxId b) as [id|]; [|done].
  eapply gives_bind; [apply (gives_rqlite_tx_loop props id qs []); constructor|].
  intros [rs failed] Hrs. destruct failed; [apply gives_seq; intros t1; exact Hrs|].
  eapply gives_bind; [apply gives_executeRequestQuery|]. intros c Hc. apply gives_seq. intros t1.
  cbn. destruct (vrError c); [|done]. apply Forall_app_2; [done|by constructor].
Qed.

(** C15: results are well typed.  Whatever else the process does meanwhile, each result of
    a request is either an error, with its message and nothing else, or a table: one
    type per column, one value per column in every row, each value exactly one value that
    could be sent back; a transaction identifier exactly when it answers a begin, an
    insert identifier and a number of affected rows exactly when it answers a write,
    columns only when it answers a read or a write.  The procedure answers one result
    per query. *)
Theorem results_typed props queries :
  (forall out, leads (sys_handle err_uuid tx_uuid fuel)
     (interp call (executeQueries props queries)) out ->
   Forall typed_result (doResults out) /\ length (doResults out) = length queries)
  /\ (forall transaction out, leads (sys_handle err_uuid tx_uuid fuel)
       (interp call (executeRQLiteQueries props queries transaction)) out ->
     Forall typed_result (doResults out)).
Proof using tx_uuid_nonempty.
  split; [intros out Hl|intros transaction out Hl].
  - apply (leads_gives _ sys_answer
      (fun out => Forall typed_result (doResults out) /\ length (doResults out) = length queries)
      _ _ sys_handle_answer Hl).
    eapply gives_interp; [apply gives_call|apply gives_executeQueries].
  - apply (leads_gives _ sys_answer (fun out => Forall typed_result (doResults out))
      _ _ sys_handle_answer Hl).
    eapply gives_interp; [apply gives_call|apply gives_executeRQLiteQueries].
Qed.
End Process.
