(* ===== verification/Gauges.v ===== *)
(** * The gauges of the statistics, in every interleaving of the process

    [DBStats] counts the requests, begins and writes that are queued.  A goroutine adds
    one when it starts waiting and takes it back with a deferred call; [keeps] says
    that a program leaves each gauge as it found it on every path, and never counts
    itself twice. *)
From S2P Require Import Prelude GoStrings GoTime Stats Authorizer Sqlite Driver Goroutines DbState Db DbConc DbInv DbSafety DbService VdlTypes Convert Http Auth Vdl Server Rqlite ServerSafety System.

Inductive gauge : Type := GBegins | GWrites | GHTTPRequests.
#[export] Instance gauge_eq_dec : EqDecision gauge.
Proof. solve_decision. Defined.

Definition gauge_of (g : gauge) (st : DBStats) : Z :=
  match g with
  | GBegins => queuedBegins st
  | GWrites => queuedWrites st
  | GHTTPRequests => queuedHTTPRequests st
  end.

(** What an operation adds to a gauge. *)
Definition delta (g : gauge) (op : stat_op) : Z :=
  match g, op with
  | GBegins, StIncQueuedBegins | GWrites, StIncQueuedWrites
  | GHTTPRequests, StIncQueuedHTTPRequests => 1
  | GBegins, StDecQueuedBegins | GWrites, StDecQueuedWrites
  | GHTTPRequests, StDecQueuedHTTPRequests => -1
  | _, _ => 0
  end.

Lemma gauge_set_minutes g f st : gauge_of g (set_minutes f st) = gauge_of g st.
Proof. by destruct g. Qed.

Lemma gauge_bump g f now st : gauge_of g (bump f now st) = gauge_of g st.
Proof.
  unfold bump, getOrCreateMinuteData. destruct (minutes st !! minuteKey now);
    by rewrite !gauge_set_minutes.
Qed.

Lemma gauge_apply g op now st n :
  gauge_of g st = int64 n -> gauge_of g (stat_apply op now st) = int64 (n + delta g op).
Proof.
  intros H. destruct op; cbn [stat_apply];
    try (unfold IncReads, IncWrites, IncBegins, IncCommits, IncRollbacks, IncErrors, IncHTTPRequests;
         rewrite gauge_bump, H; f_equal; destruct g; cbn; lia);
    destruct g; cbn in H |- *; rewrite H, ?int64_add_l, ?Z.add_0_r; done.
Qed.

(** ** What each operation does to the statistics *)

Section Stats.
  Context `{LIB : SqliteLib} (uuid : nat -> string) (fuel : nat).

Lemma close_conn_stats c s : dbStats (snd (close_conn c s)) = dbStats s.
Proof.
  unfold close_conn. destruct (conns s !! c) as [conn|]; [|done].
  by destruct (drv_Close conn (world s)) as [[r conn'] w'].
Qed.

Lemma close_all_stats cs s : dbStats (snd (close_all cs s)) = dbStats s.
Proof.
  revert s. induction cs as [|c cs IH]; intros s; cbn; [done|].
  pose proof (close_conn_stats c s) as Hc. destruct (close_conn c s) as [r s1].
  specialize (IH s1). destruct (close_all cs s1) as [r' s2]. cbn in *. congruence.
Qed.

Lemma limit_pool_stats n w s : dbStats (limit_pool n w s) = dbStats s.
Proof. unfold limit_pool. by rewrite close_all_stats. Qed.

Lemma NewDB_stats config mkdirErr now st w db w' :
  NewDB fuel config mkdirErr now st w = Some (Ok db, w') -> dbStats db = st.
Proof.
  unfold NewDB. intros H. repeat (break_match_in H; try discriminate).
  injection H as <- _. by rewrite !limit_pool_stats.
Qed.

Lemma handle_stats B (e : dbE B) s b s' :
  handle fuel uuid B e s = Some (b, s') ->
  dbStats s' = match e with
               | StatOp op => stat_apply op (extNow (external s)) (dbStats s)
               | _ => dbStats s
               end.
Proof.
  intros H. destruct e; cbn in H; repeat (break_match_in H; try discriminate);
    try (by injection H as <- <-).
  - unfold pool_Conn in H. repeat (break_match_in H; try discriminate); by injection H as <- <-.
  - injection H as _ <-. unfold pool_Return. break_match; [done|]. by rewrite close_conn_stats.
  - injection H as _ <-. unfold pool_Close in E. pose proof (f_equal snd E) as E'. cbn in E'.
    by rewrite <- E', close_all_stats.
Qed.
End Stats.

(** ** Programs that keep a gauge *)

Section Keeps.
  Context {E : Type -> Type} (d : forall B, E B -> Z) (ok : Z -> forall B, E B -> Prop).

(** The typestate is what the goroutine has added to the gauge: nothing or one. *)
Definition count_pre (a : Z) (B : Type) (e : E B) : Prop := 0 <= a + d B e <= 1 /\ ok a B e.
Definition count_upd (a : Z) (B : Type) (e : E B) (b : B) : Z := a + d B e.
Definition keeps {A} (a : Z) (p : prog E A) : Prop :=
  wp count_pre (fun _ _ _ => True) count_upd a p (fun a' _ => a' = a).

Lemma keeps_ret {A} a (x : A) : keeps a (Ret x).
Proof. done. Qed.

Lemma keeps_bind {A B} a (p : prog E A) (f : A -> prog E B) :
  keeps a p -> (forall x, keeps a (f x)) -> keeps a (prog_bind f p).
Proof.
  intros Hp Hf. apply wp_bind. eapply wp_mono; [|exact Hp]. intros a' x ->. apply Hf.
Qed.

Lemma keeps_act {B} a (e : E B) : 0 <= a <= 1 -> d B e = 0 -> ok a B e -> keeps a (act e).
Proof.
  intros Ha Hd Ho. apply wp_act; [split; [lia|done]|]. intros b _. unfold count_upd. lia.
Qed.

Lemma keeps_vis {A B} a (e : E B) (k : B -> prog E A) :
  0 <= a <= 1 -> d B e = 0 -> ok a B e -> (forall b, keeps a (k b)) -> keeps a (Vis e k).
Proof. intros Ha Hd Ho Hk. apply (keeps_bind a (act e) k); [by apply keeps_act|done]. Qed.

Lemma keeps_deferred {A} a (body : prog E A) fin :
  keeps a body -> keeps a fin -> keeps a (deferred body fin).
Proof.
  intros Hb Hf. apply keeps_bind; [done|]. intros x. apply keeps_bind; [done|]. intros. apply keeps_ret.
Qed.

Lemma keeps_try {A B} a wrap (p : prog E (result A)) (f : A -> prog E (result B)) :
  keeps a p -> (forall x, keeps a (f x)) -> keeps a (try_bind wrap p f).
Proof. intros Hp Hf. apply keeps_bind; [done|]. intros [x|e]; [apply Hf|apply keeps_ret]. Qed.

(** Counting oneself before the body and taking it back on every return. *)
Lemma keeps_bracket {A B} a (inc : E B) (dec : E unit) (body : prog E A) :
  d _ dec = - d _ inc -> 0 <= a <= 1 -> 0 <= a + d _ inc <= 1 ->
  ok a _ inc -> ok (a + d _ inc) _ dec -> keeps (a + d _ inc) body ->
  keeps a (prog_bind (fun _ => deferred body (act dec)) (act inc)).
Proof.
  intros Hd Ha Hi Ho1 Ho2 Hb. apply wp_bind, wp_act; [by split|]. intros b _. apply wp_deferred.
  eapply wp_mono; [|exact Hb]. intros a' x ->. apply wp_act.
  - split; [|done]. unfold count_upd. lia.
  - intros []. unfold count_upd. lia.
Qed.
End Keeps.

(** The operation does not count in the gauge, whichever it is. *)
Ltac count := first [reflexivity | match goal with H : delta _ _ = 0 |- _ => exact H end | match goal with g : gauge |- _ => destruct g; reflexivity end].
Ltac keep_step :=
  lazymatch goal with
  | |- keeps _ _ _ (mbind _ (act (SrvStat StIncQueuedHTTPRequests))) => fail
  | |- keeps _ _ _ (mbind _ _) => apply keeps_bind; [|intros ?]
  | |- keeps _ _ _ (prog_bind _ _) => apply keeps_bind; [|intros ?]
  | |- keeps _ _ _ (mret _) => apply keeps_ret
  | |- keeps _ _ _ (Ret _) => apply keeps_ret
  | |- keeps _ _ _ (act _) => apply keeps_act; [assumption|count|first [exact I | assumption]]
  | |- keeps _ _ _ (deferred _ _) => apply keeps_deferred
  | |- keeps _ _ _ (try_bind _ _ _) => apply keeps_try; [|intros ?]
  | |- keeps _ _ _ (if ?b then _ else _) => destruct b
  | |- keeps _ _ _ (match ?x with _ => _ end) => destruct x
  end.
Ltac keep := repeat (keep_step || (solve [eauto with keeps])).

Create HintDb keeps discriminated.
#[export] Hint Extern 1 (delta _ _ = 0) => count : keeps.

Definition db_delta `{SqliteLib} (g : gauge) (B : Type) (e : dbE B) : Z :=
  match e with StatOp op => delta g op | _ => 0 end.
Definition db_ok `{SqliteLib} (a : Z) (B : Type) (e : dbE B) : Prop := True.

Section Database.
  Context `{LIB : SqliteLib} (g : gauge) (a : Z).
  Hypothesis bounded : 0 <= a <= 1.
  Hypothesis idle : a = 0 \/ g = GHTTPRequests.

Abbreviation keeps_db := (keeps (db_delta g) db_ok a).

Lemma keeps_queued {A} (inc dec : stat_op) (body : db_prog A) :
  (inc, dec) = (StIncQueuedBegins, StDecQueuedBegins)
  \/ (inc, dec) = (StIncQueuedWrites, StDecQueuedWrites) ->
  (forall a', 0 <= a' <= 1 -> keeps (db_delta g) db_ok a' body) ->
  keeps_db (prog_bind (fun _ => deferred body (act (StatOp dec))) (act (StatOp inc))).
Proof.
  intros H Hb. assert (Hi : 0 <= a + delta g inc <= 1).
  { destruct H as [[= -> ->]|[= -> ->]], idle as [-> | ->]; try (destruct g; cbn; lia); cbn; lia. }
  apply keeps_bracket; [|exact bounded|exact Hi|exact I|exact I|by apply Hb].
  by destruct H as [[= -> ->]|[= -> ->]], g.
Qed.
End Database.

Section Db.
  Context `{LIB : SqliteLib} (g : gauge).
Abbreviation keeps_db a := (keeps (db_delta g) db_ok a).

Lemma keeps_validateTxID a id owner : 0 <= a <= 1 -> keeps_db a (validateTxID id owner).
Proof. intros Ha. unfold validateTxID. keep. Qed.

Lemma keeps_classifyPreparedQuery a c q : 0 <= a <= 1 -> keeps_db a (classifyPreparedQuery c q).
Proof. intros Ha. unfold classifyPreparedQuery. keep. Qed.

Lemma keeps_getRawConn ctx a w : 0 <= a <= 1 -> keeps_db a (getRawConn ctx w).
Proof. intros Ha. unfold getRawConn. keep. Qed.
#[local] Hint Resolve keeps_classifyPreparedQuery keeps_getRawConn keeps_validateTxID : keeps.

Lemma keeps_ClassifyQuery ctx a q id : 0 <= a <= 1 -> keeps_db a (ClassifyQuery ctx q id).
Proof.
  intros Ha. unfold ClassifyQuery, classifyQueryOnReadWriteConn, classifyQueryOnReadOnlyConn,
    getReadOnlyRawConn, getReadWriteRawConn. keep.
Qed.

Lemma keeps_withReadWriteConn {A} ctx a role (fn : checkout -> db_prog (result A)) :
  0 <= a <= 1 -> (forall c, keeps_db a (fn c)) -> keeps_db a (withReadWriteConn ctx role fn).
Proof. intros Ha Hf. unfold withReadWriteConn, getReadWriteRawConn. keep. Qed.

Lemma keeps_query_on a msg f q c : 0 <= a <= 1 -> keeps_db a (query_on msg f q c).
Proof. intros Ha. unfold query_on. keep. Qed.

Lemma keeps_exec_on a sql c : 0 <= a <= 1 -> keeps_db a (exec_on sql c).
Proof. intros Ha. unfold exec_on. keep. Qed.

Lemma keeps_end_transaction a op t :
  0 <= a <= 1 -> delta g op = 0 -> keeps_db a (end_transaction op t).
Proof. intros Ha Hd. unfold end_transaction. keep. Qed.
#[local] Hint Resolve keeps_ClassifyQuery keeps_withReadWriteConn keeps_query_on keeps_exec_on
  keeps_end_transaction : keeps.

Lemma keeps_executeBeginQuery ctx a id role owner :
  0 <= a <= 1 -> a = 0 \/ g = GHTTPRequests -> keeps_db a (executeBeginQuery ctx id role owner).
Proof.
  intros Ha Hi. unfold executeBeginQuery. destruct (negb _); [apply keeps_ret|].
  apply keeps_queued; [done|done|by left|]. intros a' Ha'. keep.
  all: apply keeps_withReadWriteConn; eauto with keeps.
Qed.

Lemma keeps_executeWriteQuery ctx a q :
  0 <= a <= 1 -> a = 0 \/ g = GHTTPRequests -> keeps_db a (executeWriteQuery ctx q).
Proof.
  intros Ha Hi. unfold executeWriteQuery. apply keeps_queued; [done|done|by right|].
  intros a' Ha'. keep.
Qed.

Lemma keeps_executeReadQuery ctx a q : 0 <= a <= 1 -> keeps_db a (executeReadQuery ctx q).
Proof. intros Ha. unfold executeReadQuery, getReadOnlyRawConn. keep. Qed.

Lemma keeps_executeCommitQuery ctx a id role : 0 <= a <= 1 -> keeps_db a (executeCommitQuery ctx id role).
Proof. intros Ha. unfold executeCommitQuery. keep. Qed.

Lemma keeps_executeRollbackQuery ctx a id role :
  0 <= a <= 1 -> keeps_db a (executeRollbackQuery ctx id role).
Proof. intros Ha. unfold executeRollbackQuery. keep. Qed.
#[local] Hint Resolve keeps_executeBeginQuery keeps_executeWriteQuery keeps_executeReadQuery
  keeps_executeCommitQuery keeps_executeRollbackQuery : keeps.

Lemma keeps_executeClassifiedQuery ctx a q t :
  0 <= a <= 1 -> a = 0 \/ g = GHTTPRequests -> keeps_db a (executeClassifiedQuery ctx q t).
Proof. intros Ha Hi. unfold executeClassifiedQuery. keep. Qed.
#[local] Hint Resolve keeps_executeClassifiedQuery : keeps.

Lemma keeps_Db_Query ctx a q :
  0 <= a <= 1 -> a = 0 \/ g = GHTTPRequests -> keeps_db a (Db_Query ctx q).
Proof. intros Ha Hi. unfold Db_Query, query_, queryWithType, touch. keep. Qed.

Lemma keeps_background a rounds t :
  0 <= a <= 1 -> a = 0 \/ g = GHTTPRequests -> keeps_db a (task_prog rounds t).
Proof.
  intros Ha Hi. destruct t as [q|timeout|]; cbn [task_prog].
  - apply keeps_bind; [by apply keeps_Db_Query|]. intros. apply keeps_ret.
  - induction rounds as [|n IH]; cbn [txIdleMonitor]; [apply keeps_ret|]. unfold monitor_tick. keep.
  - unfold Db_Close. keep.
Qed.
End Db.

Definition srv_delta (g : gauge) (B : Type) (e : srvE B) : Z :=
  match e with SrvStat op => delta g op | _ => 0 end.
(** A query is made by a request that counts at most in the gauge of requests. *)
Definition srv_ok (g : gauge) (a : Z) (B : Type) (e : srvE B) : Prop :=
  match e with DBQuery _ => a = 0 \/ g = GHTTPRequests | _ => True end.

Section Server.
  Context `{CR : Crypto} `{J : GoJSON} `{MR : MapRange}.
  Context (s : Server) (g : gauge) (version : string).
  Hypothesis started : rpc_shape s version.
Abbreviation keeps_srv a := (keeps (srv_delta g) (srv_ok g) a).

Lemma keeps_WriteJSON a st v : 0 <= a <= 1 -> keeps_srv a (WriteJSON st v).
Proof. intros Ha. unfold WriteJSON. keep. Qed.
Lemma keeps_WriteJSONBytes a st b : 0 <= a <= 1 -> keeps_srv a (WriteJSONBytes st b).
Proof. intros Ha. unfold WriteJSONBytes. keep. Qed.
Lemma keeps_WriteString a st b : 0 <= a <= 1 -> keeps_srv a (WriteString st b).
Proof. intros Ha. unfold WriteString. keep. Qed.
Lemma keeps_writeProcResponse a rsp : 0 <= a <= 1 -> keeps_srv a (writeProcResponse rsp).
Proof. intros Ha. unfold writeProcResponse. keep. Qed.
#[local] Hint Resolve keeps_WriteJSON keeps_WriteJSONBytes keeps_WriteString
  keeps_writeProcResponse : keeps.

Lemma keeps_errorHandler a r err : 0 <= a <= 1 -> keeps_srv a (errorHandler r err).
Proof. intros Ha. unfold errorHandler. keep. Qed.

Lemma keeps_executeRequestQuery a props q :
  0 <= a <= 1 -> a = 0 \/ g = GHTTPRequests -> keeps_srv a (executeRequestQuery props q).
Proof. intros Ha Hi. unfold executeRequestQuery. keep. Qed.
#[local] Hint Resolve keeps_errorHandler keeps_executeRequestQuery : keeps.

Lemma keeps_executeQueries a props qs :
  0 <= a <= 1 -> a = 0 \/ g = GHTTPRequests -> keeps_srv a (executeQueries props qs).
Proof.
  intros Ha Hi. unfold executeQueries. keep.
  generalize (@nil VQueryResult). induction qs as [|q qs IH]; intros rs; cbn [execute_loop]; keep.
Qed.

Lemma keeps_tx_loop a props id qs rs :
  0 <= a <= 1 -> a = 0 \/ g = GHTTPRequests -> keeps_srv a (rqlite_tx_loop props id qs rs).
Proof.
  intros Ha Hi. revert rs. induction qs as [|q qs IH]; intros rs; cbn [rqlite_tx_loop]; keep.
Qed.
#[local] Hint Resolve keeps_executeQueries keeps_tx_loop : keeps.

Lemma keeps_executeRQLiteQueries a props qs tx :
  0 <= a <= 1 -> a = 0 \/ g = GHTTPRequests -> keeps_srv a (executeRQLiteQueries props qs tx).
Proof. intros Ha Hi. unfold executeRQLiteQueries. keep. Qed.

Lemma keeps_checkAuthWithCache a tokens salt t :
  0 <= a <= 1 -> keeps_srv a (checkAuthWithCache tokens salt t).
Proof. intros Ha. unfold checkAuthWithCache. keep. Qed.
#[local] Hint Resolve keeps_executeRQLiteQueries keeps_checkAuthWithCache : keeps.

Lemma keeps_authenticate a r : 0 <= a <= 1 -> keeps_srv a (srv_authenticateRequest s r).
Proof. intros Ha. unfold srv_authenticateRequest, authenticateRequest. keep. Qed.
#[local] Hint Resolve keeps_authenticate : keeps.

Lemma keeps_authorizeRQLite a r : 0 <= a <= 1 -> keeps_srv a (authorizeRQLiteRequest s r).
Proof. intros Ha. unfold authorizeRQLiteRequest. keep. Qed.
Lemma keeps_authorizeRPC a r n1 n2 : 0 <= a <= 1 -> keeps_srv a (authorizeRPCRequest s r n1 n2).
Proof. intros Ha. unfold authorizeRPCRequest. keep. Qed.
#[local] Hint Resolve keeps_authorizeRQLite keeps_authorizeRPC : keeps.

Lemma keeps_request {A} (body : srv_prog A) :
  (forall a, 0 <= a <= 1 -> a = 0 \/ g = GHTTPRequests -> keeps_srv a body) ->
  keeps_srv 0 (prog_bind (fun _ => deferred body (act (SrvStat StDecQueuedHTTPRequests)))
                 (act (SrvStat StIncQueuedHTTPRequests))).
Proof.
  intros Hb. apply keeps_bracket; [by destruct g|lia|by destruct g|done|done|].
  apply Hb; destruct g; cbn; auto; lia.
Qed.

Lemma keeps_registered a h c rpcName operationName :
  0 <= a <= 1 -> a = 0 \/ g = GHTTPRequests ->
  registered version !! (rpcName, operationName) = Some h -> keeps_srv a (h c).
Proof.
  intros Ha Hi Hl. unfold registered in Hl.
  apply lookup_insert_Some in Hl as [[_ <-]|[_ Hl]]; [unfold typed_handler, systemStatusProc; keep|].
  apply lookup_insert_Some in Hl as [[_ <-]|[_ Hl]]; [unfold typed_handler, systemSessionProc; keep|].
  apply lookup_insert_Some in Hl as [[_ <-]|[_ Hl]]; [unfold typed_handler, systemHealthProc; keep|].
  apply lookup_insert_Some in Hl as [[_ <-]|[_ Hl]]; [unfold typed_handler, databaseQueryProc; keep|done].
Qed.

Lemma keeps_handleRequest a props rpcName operationName body :
  0 <= a <= 1 -> a = 0 \/ g = GHTTPRequests ->
  keeps_srv a (handleRequest (svRpcServer s) props rpcName operationName body).
Proof.
  intros Ha Hi. destruct started as (defs & deser & ->). unfold handleRequest. keep.
  unfold handleProcRequest.
  cbn [procHandlers procDeserializers globalMiddlewares rpcMiddlewares procMiddlewares].
  destruct (registered version !! _) as [h|] eqn:E; [|apply keeps_ret].
  rewrite !lookup_empty. keep. by eapply keeps_registered.
Qed.
#[local] Hint Resolve keeps_handleRequest : keeps.

(** What the mux routes to. *)
Lemma createMux_handled r h :
  createMux s r = Handled h ->
  (exists n1 n2, h = rpcHandler s n1 n2) \/ (exists mode, h = handleRQLite s mode).
Proof.
  unfold createMux, rqliteQueryHandler, rqliteExecuteHandler, rqliteRequestHandler. intros H.
  repeat (break_match_in H; try discriminate H); injection H as <-; eauto.
Qed.

Lemma keeps_serve_request r : keeps_srv 0 (serve_request s r).
Proof.
  assert (H0 : 0 <= 0 <= 1) by lia. assert (Hi : 0 = 0 \/ g = GHTTPRequests) by by left.
  unfold serve_request, maxRequestBodyMiddleware. set (req := MkRequest _ _ _ _ _ _).
  assert (Hq : forall mode, keeps_srv 0 (handleRQLite s mode req)).
  { intros mode. unfold handleRQLite. keep. apply keeps_request. intros a Ha Hia.
    unfold rqlite_execute, writeRQLiteJSON. keep. }
  assert (Hr : forall n1 n2, keeps_srv 0 (rpcHandler s n1 n2 req)).
  { intros n1 n2. unfold rpcHandler, writeRPCError. keep. apply keeps_request. intros a Ha Hia. keep. }
  destruct (createMux s req) as [h| |] eqn:E; [|keep..].
  unfold CreateHandlerFuncBuilder. cbn [foldr].
  apply createMux_handled in E as [(n1 & n2 & ->)|[mode ->]]; keep.
Qed.
End Server.

(** ** The process *)

Fixpoint sumZ {A} (f : A -> Z) (l : list A) : Z :=
  match l with [] => 0 | x :: l' => f x + sumZ f l' end.

Lemma sumZ_app {A} (f : A -> Z) l1 l2 : sumZ f (l1 ++ l2) = sumZ f l1 + sumZ f l2.
Proof. induction l1 as [|x l1 IH]; cbn; lia. Qed.

Lemma sumZ_insert {A} (f : A -> Z) l i x y :
  l !! i = Some x -> sumZ f (<[i := y]> l) = sumZ f l + f y - f x.
Proof.
  revert i. induction l as [|z l IH]; intros [|i]; simpl; intros Hi; try done.
  - injection Hi as ->. lia.
  - specialize (IH i Hi). lia.
Qed.

Section Process.
  Context `{CR : Crypto} `{J : GoJSON} `{MR : MapRange} `{LIB : SqliteLib}.
  Context (s : Server) (err_uuid tx_uuid : nat -> string) (fuel : nat).
  Context (requests : http_request -> Prop).
  Context (version salt : string) (config : ServerConfig).
  Hypothesis started : NewServer version salt config = Some s.
  Context (g : gauge).

#[local] Instance process_db : DBService := DB_service tx_uuid fuel.

(** The typestate: the task and what it has added to the gauge. *)
Definition sys_delta (B : Type) (e : sysE B) : Z :=
  match e with OnServer e => srv_delta g B e | OnDB e => db_delta g B e end.
Definition sys_pre (l : sys_task * Z) (B : Type) (e : sysE B) : Prop :=
  0 <= snd l + sys_delta B e <= 1
  /\ match e with OnServer (DBQuery _) => False | _ => True end.
Definition sys_upd (l : sys_task * Z) (B : Type) (e : sysE B) (b : B) : sys_task * Z :=
  (fst l, snd l + sys_delta B e).
Abbreviation sys_wp := (wp sys_pre (fun _ _ _ => True) sys_upd).

Lemma wp_on_db {A} t a (p : db_prog A) (Q : Z -> A -> Prop) :
  wp (count_pre (db_delta g) db_ok) (fun _ _ _ => True) (count_upd (db_delta g)) a p Q ->
  sys_wp (t, a) (on_db p) (fun l x => fst l = t /\ Q (snd l) x).
Proof using.
  clear started. revert a. induction p as [x|B e k IH]; intros a H; [by split|].
  destruct H as [[Hpre _] Hk]. split; [by split|]. intros b _. apply IH. by apply Hk.
Qed.

Lemma wp_interp_call {A} t a (p : srv_prog A) (Q : Z -> A -> Prop) :
  0 <= a <= 1 ->
  wp (count_pre (srv_delta g) (srv_ok g)) (fun _ _ _ => True) (count_upd (srv_delta g)) a p Q ->
  sys_wp (t, a) (interp call p) (fun l x => fst l = t /\ Q (snd l) x).
Proof using.
  clear started. revert a. induction p as [x|B e k IH]; intros a Ha H; [by split|].
  destruct H as [[Hpre Hok] Hk]. cbn [interp]. apply wp_bind.
  assert (Hnext : forall b, sys_wp (t, a + srv_delta g B e) (interp call (k b))
                              (fun l x => fst l = t /\ Q (snd l) x)).
  { intros b. apply IH; [exact Hpre|]. by apply Hk. }
  destruct e; try (apply wp_act; [by split|]; intros ? _; apply Hnext).
  cbn [call]. eapply wp_mono; [|apply wp_on_db, keeps_Db_Query; [exact Ha|exact Hok]].
  intros [t' a'] x [E1 E2]. cbn in E1, E2. subst t' a'. cbn in Hnext. rewrite Z.add_0_r in Hnext. apply Hnext.
Qed.

(** The gauge is the sum of what the goroutines have added. *)
Definition gauge_inv (st : srv_state) (ls : list (sys_task * Z)) : Prop :=
  gauge_of g (dbStats (srvDB st)) = int64 (sumZ snd ls)
  /\ Forall (fun l => 0 <= snd l <= 1) ls.

Lemma gauge_step B (e : sysE B) b st st' ls i l :
  gauge_inv st ls -> ls !! i = Some l -> sys_pre l B e ->
  sys_handle err_uuid tx_uuid fuel B e st = Some (b, st') ->
  gauge_inv st' (<[i := sys_upd l B e b]> ls).
Proof using.
  clear started. intros [Hg Hall] Hi [Hpre Hq] Hh. split; [|apply Forall_insert; [exact Hall|exact Hpre]].
  rewrite (sumZ_insert _ _ _ _ _ Hi). cbn [sys_upd snd].
  replace (sumZ snd ls + (snd l + sys_delta B e) - snd l) with (sumZ snd ls + sys_delta B e) by lia.
  destruct e as [e|e]; cbn [sys_handle sys_delta] in *.
  - destruct e; cbn in Hh; try done; injection Hh as _ <-;
      try (cbn [srv_delta]; by rewrite Z.add_0_r). by apply gauge_apply.
  - break_match_in Hh; [|discriminate Hh]. destruct p as [b0 d].
    rename E into Eh. injection Hh as _ <-. apply handle_stats in Eh. cbn [set_db srvDB]. rewrite Eh.
    destruct e; try (cbn [db_delta]; by rewrite Z.add_0_r). by apply gauge_apply.
Qed.

Lemma process_counted c :
  sys_reachable s err_uuid tx_uuid fuel requests c -> exists ls, gauge_inv (shared c) ls
  /\ Forall2 (fun l tp => fst l = fst tp /\ sys_wp l (snd tp) (fun l' _ => snd l' = 0))
       ls (goroutines c).
Proof using started.
  pose proof (server_shape s version salt config started) as Hshape. clear started.
  refine (reachable_typed sys_pre (fun _ _ _ => True) sys_upd (sys_handle err_uuid tx_uuid fuel)
            (sys_spawnable s requests) (sys_env tx_uuid fuel) (sys_init tx_uuid fuel) gauge_inv
            (fun t => (t, 0)) (fun l _ => snd l = 0) _ _ _ _ fst _ _ _ c).
  - intros st st' ls (d & net & _ & Hd & ->) [Hg Hall]. split; [|done]. cbn [srvDB].
    destruct Hd as [-> | [now ->]]; [done|]. unfold cleanup_tick. by rewrite gauge_set_minutes.
  - intros st ls t p _ [Hg Hall]. split.
    + rewrite sumZ_app. cbn. by rewrite Z.add_0_r.
    + apply Forall_app. split; [done|]. constructor; [cbn; lia|constructor].
  - intros t p Hp. assert (H0 : 0 <= 0 <= 1) by lia.
    assert (Hend : forall (p0 : prog sysE unit), sys_wp (t, 0) p0 (fun l _ => fst l = t /\ snd l = 0) ->
      sys_wp (t, 0) p0 (fun l' _ => snd l' = 0)).
    { intros p0. apply wp_mono. by intros l' [] [_ ?]. }
    apply Hend. destruct t as [r|t].
    + destruct Hp as [_ ->].
      apply (wp_interp_call _ 0 (serve_request s r) (fun a _ => a = 0)); [done|].
      by eapply keeps_serve_request.
    + assert (exists rounds, p = on_db (task_prog rounds t)) as [rounds ->] by (by destruct t).
      apply (wp_on_db _ 0 _ (fun a _ => a = 0)). apply keeps_background; [done|by left].
  - intros B e b st st' ls i l Hi Hl Hpre Hh. split; [done|]. by eapply gauge_step.
  - intros c0 (_ & Hg & _ & now & Hs). exists []. split.
    + split; [|constructor].
      etransitivity; [exact (f_equal (gauge_of g) Hs)|]. by destruct g.
    + rewrite Hg. constructor.
  - done.
  - done.
Qed.

(** The goroutines that have not returned. *)
Definition live (c : sys_config tx_uuid fuel) : list (sys_task * prog sysE unit) :=
  List.filter (fun tp => negb (finished (snd tp))) (goroutines c).

(** C19: the gauges count goroutines.  Whatever the process does, each of the gauges of
    queued begins, writes and HTTP requests is between zero and the number of
    goroutines that have not returned: no path counts itself twice or forgets to take
    itself back, so the gauges never go negative and are zero when all is done. *)
Theorem gauges_count c :
  sys_reachable s err_uuid tx_uuid fuel requests c -> Z.of_nat (length (goroutines c)) < 2 ^ 63 ->
  0 <= gauge_of g (dbStats (srvDB (shared c))) <= Z.of_nat (length (live c)).
Proof using started.
  intros Hc Hn. destruct (process_counted c Hc) as (ls & [Hg Hall] & Hty). clear started.
  assert (Hsum : 0 <= sumZ snd ls <= Z.of_nat (length (live c))
                 /\ (length (live c) <= length (goroutines c))%nat).
  { clear Hg Hn Hc. unfold live. revert Hall. induction Hty as [|[t a] [t' p] ls gs [_ Hw] _ IH]; cbn; [lia|].
    intros [Ha Hall]%Forall_cons. specialize (IH Hall). cbn in Ha, Hw.
    destruct p as [x|B e k]; cbn in *; lia. }
  assert (H : 0 <= int64 (sumZ snd ls) <= Z.of_nat (length (live c))) by (rewrite int64_small; lia).
  rewrite <- Hg in H. exact H.
Qed.
End Process.
