(* ===== verification/Drain.v ===== *)
(** * Every request is over in the end

    The programs of the process are trees without infinite branches, so goroutines cannot
    work for ever; together with the absence of deadlocks this gives more than safety:
    whatever the scheduler does, the requests that the process has accepted come to an
    end, or to the one thing a request may wait for.  The first half is about any
    configuration of goroutines, the second about the process. *)
From S2P Require Import Prelude GoStrings Goroutines GoTime Stats Authorizer Sqlite Driver DbState Db DbConc DbInv DbSafety DbSpec DbMonitor VdlTypes Http DbService Auth Vdl Server Rqlite ServerSafety System.
From stdpp Require Import relations.

(** ** Executions that end *)

Section Drain.
  Context {E : Type -> Type} {S T R : Type}.
  Context (handle : forall B, E B -> S -> option (B * S)) (env : S -> S -> Prop).

Abbreviation cfg := (config S T (prog E R)).

(** Some goroutine makes a step, after any number of moves of the environment; no new
    goroutine is started. *)
Inductive moves : cfg -> cfg -> Prop :=
| moves_intro s s1 s2 gs i t p p' :
    rtc env s s1 -> gs !! i = Some (t, p) -> pstep handle p s1 = Some (p', s2) ->
    moves (Config s gs) (Config s2 (<[i := (t, p')]> gs)).

(** Whatever is chosen among what can be done, a configuration with [P] is reached. *)
Inductive inevitable (P : cfg -> Prop) (c : cfg) : Prop :=
| inevitable_now : P c -> inevitable P c
| inevitable_later : (exists c', moves c c') -> (forall c', moves c c' -> inevitable P c') ->
    inevitable P c.

(** What one goroutine may have become. *)
Definition child (p p' : prog E R) : Prop :=
  match p with Ret _ => False | Vis _ k => exists b, p' = k b end.
Definition below (gs' gs : list (T * prog E R)) : Prop :=
  exists i t p p', gs !! i = Some (t, p) /\ child p p' /\ gs' = <[i := (t, p')]> gs.

Lemma below_cons t p gs : Acc below gs -> Acc below ((t, p) :: gs).
Proof.
  revert gs. induction p as [a|B e k IH]; intros gs Hgs; induction Hgs as [gs Hacc IHgs];
    constructor; intros gs' ([|i] & t' & p & p' & Hi & Hc & ->).
  - by injection Hi as _ <-.
  - apply IHgs. by exists i, t', p, p'.
  - injection Hi as <- <-. destruct Hc as [b ->]. apply IH. by constructor.
  - apply IHgs. by exists i, t', p, p'.
Qed.

Lemma below_wf gs : Acc below gs.
Proof.
  induction gs as [|[t p] gs IH]; [|by apply below_cons].
  constructor. by intros gs' (i & t & p & p' & Hi & _).
Qed.

Lemma moves_below c c' : moves c c' -> below (goroutines c') (goroutines c).
Proof.
  intros [s s1 s2 gs i t p p' _ Hi Hp]. exists i, t, p, p'. split; [done|]. split; [|done].
  destruct p as [a|B e k]; [done|]. cbn in Hp.
  destruct (handle B e s1) as [[b s3]|]; [|done]. injection Hp as <- _. by exists b.
Qed.

(** No execution is infinite. *)
Lemma moves_terminate c : sn moves c.
Proof.
  remember (goroutines c) as gs eqn:Egs. revert c Egs.
  induction (below_wf gs) as [gs _ IH]. intros c ->. constructor. intros c' H.
  by eapply IH; [apply moves_below|].
Qed.

(** What holds of every configuration in which nothing moves is inevitable. *)
Lemma moves_inevitable (I P : cfg -> Prop) c :
  (forall c1, I c1 -> P c1 \/ exists c2, moves c1 c2) ->
  (forall c1 c2, I c1 -> moves c1 c2 -> I c2) -> I c -> inevitable P c.
Proof.
  intros Hstep Hinv. induction (moves_terminate c) as [c _ IH]. intros Hc.
  destruct (Hstep c Hc) as [Hp|Hm]; [by apply inevitable_now|].
  apply inevitable_later; [done|]. intros c' Hc'. apply IH; [done|by eapply Hinv].
Qed.

(** One goroutine, run to some point without the environment. *)
Lemma steps_moves p s p' s' gs i t :
  gs !! i = Some (t, p) -> rtc (fun x y => pstep handle (fst x) (snd x) = Some y) (p, s) (p', s') ->
  rtc moves (Config s gs) (Config s' (<[i := (t, p')]> gs)).
Proof.
  intros Hi Hs. remember (p, s) as x eqn:Ex. remember (p', s') as y eqn:Ey.
  revert p s gs Ex Hi. induction Hs as [x|x [p1 s1] y Hp _ IH]; intros p s gs -> Hi.
  - injection Ey as -> ->. by rewrite list_insert_id.
  - cbn in Hp. eapply rtc_l; [by econstructor; [apply rtc_refl|exact Hi|exact Hp]|].
    rewrite <- (list_insert_insert_eq gs i (t, p') (t, p1)).
    apply (IH Ey p1 s1); [done|]. apply list_lookup_insert_eq. by eapply lookup_lt_Some.
Qed.

(** The configurations met are reachable. *)
Lemma moves_reachable spawnable init c c' :
  reachable handle spawnable env init c -> moves c c' -> reachable handle spawnable env init c'.
Proof.
  intros Hr Hm. destruct Hm as [s s1 s2 gs i t p p' Henv Hi Hp].
  assert (Hr1 : reachable handle spawnable env init (Config s1 gs)).
  { clear Hp. induction Henv as [|s s0 s1 He _ IH]; [done|]. apply IH.
    eapply reach_step; [exact Hr|]. by apply gstep_env. }
  eapply reach_step; [exact Hr1|]. by eapply gstep_run.
Qed.
End Drain.

(** ** The process *)

Section Process.
  Context `{CR : Crypto} `{J : GoJSON} `{MR : MapRange} `{LIB : SqliteLib}.
  Context (s : Server) (err_uuid tx_uuid : nat -> string) (fuel : nat).
  Context (requests : http_request -> Prop).
  Context (version salt : string) (config : ServerConfig).
  Hypothesis started : NewServer version salt config = Some s.
  Hypothesis no_collision : forall t1 t2, presented requests t1 -> presented requests t2 ->
    token_hash (svAuthTokenSalt s) t1 = token_hash (svAuthTokenSalt s) t2 -> t1 = t2.
  Hypothesis tx_uuid_nonempty : forall n, tx_uuid n <> "".
  (** The engine answers every query, and the queries that open a connection. *)
  Hypothesis engine : forall conn sql ps w, Conn_Query fuel conn sql ps w <> None.

Lemma Connect_answers cn w : Connect fuel cn w <> None.
Proof using engine.
  clear started. unfold Connect, newConn. destruct (Open (dsn cn) w) as [[conn|e] w1]; [|done].
  generalize (postConnectQueries cn). intros qs. revert w1.
  induction qs as [|q qs IH]; intros w1; cbn [post_connect]; [done|].
  pose proof (engine conn q [] w1) as H.
  destruct (Conn_Query fuel conn q [] w1) as [[[r|e] w2]|]; [apply IH|done..].
Qed.

Lemma answers_always (c : sys_config tx_uuid fuel) : sys_engine_answers tx_uuid fuel c.
Proof using engine.
  clear started. intros i t B e k _. destruct e; try exact I; [apply Connect_answers|apply engine].
Qed.

(** A goroutine of a request that has returned, or waits for the end of the open
    transaction. *)
Definition request_over (st : srv_state (DBS := system_db tx_uuid fuel)) (p : prog sysE unit) : Prop :=
  finished p = true
  \/ (txID (LIB := LIB) (srvDB st) <> "" /\ exists k, p = Vis (OnDB (Lock TxMu)) k).
Definition requests_over (c : sys_config tx_uuid fuel) : Prop :=
  forall i r p, goroutines c !! i = Some (SRequest r, p) -> request_over (shared c) p.

Abbreviation sys_moves := (moves (sys_handle err_uuid tx_uuid fuel) (sys_env tx_uuid fuel)).

Lemma can_step_moves (c : sys_config tx_uuid fuel) i :
  sys_can_step err_uuid tx_uuid fuel c i = true -> exists c', sys_moves c c'.
Proof.
  unfold sys_can_step. destruct c as [st gs]. cbn [goroutines shared].
  destruct (gs !! i) as [[t p]|] eqn:Hi; [|done].
  destruct (pstep _ p st) as [[p' st']|] eqn:Hp; [|done]. intros _.
  eexists. by econstructor; [apply rtc_refl| |].
Qed.

Lemma over_or_moves c :
  sys_reachable s err_uuid tx_uuid fuel requests c ->
  requests_over c \/ exists c', sys_moves c c'.
Proof using started no_collision tx_uuid_nonempty engine.
  intros Hc. destruct (existsb (sys_can_step err_uuid tx_uuid fuel c) (seq 0 (length (goroutines c)))) eqn:Ex.
  { right. apply existsb_exists in Ex as (i & _ & Hi). by eapply can_step_moves. }
  left. intros i r p Hi. destruct (finished p) eqn:Ef; [by left|]. right.
  assert (Hno : forall j, sys_can_step err_uuid tx_uuid fuel c j <> true).
  { intros j Hj. assert (Hlt : (j < length (goroutines c))%nat).
    { unfold sys_can_step in Hj. destruct (goroutines c !! j) as [x|] eqn:Ej; [|done].
      by eapply lookup_lt_Some. }
    assert (Ht : existsb (sys_can_step err_uuid tx_uuid fuel c) (seq 0 (length (goroutines c))) = true).
    { apply existsb_exists. exists j. split; [|done]. apply in_seq. lia. }
    congruence. }
  destruct (process_step_or_wait s err_uuid tx_uuid fuel requests version salt config started no_collision
              tx_uuid_nonempty c i _ p Hc (answers_always c) Hi Ef) as [H|[[_ [j H]]|H]].
  - destruct (Hno i H).
  - destruct (Hno j H).
  - exact (process_request_waits s err_uuid tx_uuid fuel requests version salt config started
             no_collision tx_uuid_nonempty c i r p Hc Hi H).
Qed.


(** The state at a later time, when the ticker of the monitor fires. *)
Definition at_tick (now : Z) (db : DB) : DB := set_external (MkExternal now false false false) db.

Definition resting (c : sys_config tx_uuid fuel) : Prop :=
  forall i t p, goroutines c !! i = Some (t, p) ->
  finished p = true \/ sys_waits tx_uuid fuel (shared c) p.

Abbreviation with_db := (set_db (DBS := system_db tx_uuid fuel)).

(** A part of a goroutine's program that ends when it is run alone. *)
Lemma on_db_bind_steps {A} (p : db_prog A) (f : A -> db_prog unit) d a d'
    (st : srv_state (DBS := system_db tx_uuid fuel)) :
  run (handle fuel tx_uuid) p d = Done a d' ->
  rtc (fun x y => pstep (sys_handle err_uuid tx_uuid fuel) (fst x) (snd x) = Some y)
    (on_db (prog_bind f p), with_db d st) (on_db (f a), with_db d' st).
Proof using.
  clear started. revert d. induction p as [x|B e k IH]; intros d Hr; cbn in Hr.
  - injection Hr as -> ->. apply rtc_refl.
  - destruct (handle fuel tx_uuid B e d) as [[b d1]|] eqn:Eh; [|done].
    eapply rtc_l; [|exact (IH b d1 Hr)]. cbn. by rewrite Eh.
Qed.

Lemma tick_closes timeout now db r db' :
  txMu db = in_tx (txID db) -> txOpMu db = false -> writeMu db = false -> txID db <> "" ->
  quiet_pool RW db -> quiet_pool RO db -> (timeout < now - txLastUsed db)%Z ->
  spec_rollback fuel AuthorizerRoleAdmin (at_tick now db) = Some (Ok r, db') ->
  run (handle fuel tx_uuid) (monitor_tick timeout) (at_tick now db) = Done tt db'
  /\ txID db' = "" /\ txMu db' = false.
Proof using.
  clear started. intros Hm Hop Hw Hid Hrw Hro Hold Hrb.
  assert (Hq : quiet Background (at_tick now db)) by (destruct db; by split_and!).
  pose proof (run_monitor_tick tx_uuid fuel timeout _ Hq) as H. unfold spec_monitor, idle in H.
  rewrite Hrb in H. replace (txID (at_tick now db)) with (txID db) in H by (by destruct db).
  replace (extNow (external (at_tick now db)) - txLastUsed (at_tick now db))%Z
    with (now - txLastUsed db)%Z in H by (by destruct db).
  rewrite (proj2 (String.eqb_neq _ _) Hid), (proj2 (Z.ltb_lt _ _) Hold) in H. cbn in H.
  split; [done|]. apply spec_rollback_frame in Hrb as (_ & _ & Hok).
  by destruct (Hok eq_refl) as (H1 & _ & H2).
Qed.

Lemma tick_moves (st : srv_state (DBS := system_db tx_uuid fuel)) gs i timeout rounds now (db : DB) :
  gs !! i = Some (SBackground (TMonitor timeout), on_db (txIdleMonitor (S rounds) timeout)) ->
  (extNow (external (srvDB st)) <= now)%Z ->
  run (handle fuel tx_uuid) (monitor_tick timeout) (at_tick now (srvDB st)) = Done tt db ->
  rtc sys_moves (Config st gs)
    (Config (with_db db st) (<[i := (SBackground (TMonitor timeout), on_db (txIdleMonitor rounds timeout))]> gs)).
Proof using.
  clear started. intros Hi Hnow Hrun.
  set (p1 := on_db (prog_bind (fun _ => txIdleMonitor rounds timeout) (monitor_tick timeout))).
  set (ringing := set_external (MkExternal now false true false) (srvDB st)).
  eapply (rtc_l _ _ (Config (with_db (at_tick now (srvDB st)) st) (<[i := (SBackground (TMonitor timeout), p1)]> gs))).
  - apply (moves_intro _ _ st (with_db ringing st) _ gs i _
      (on_db (txIdleMonitor (S rounds) timeout)) p1); [|exact Hi|].
    + apply rtc_once. exists ringing, (netError st). split; [|split; [by left|done]].
      exists (MkExternal now false true false), (dbStats (srvDB st)). split; [done|].
      unfold ringing. by destruct (srvDB st).
    + cbn. unfold ringing. destruct (srvDB st). cbn. by destruct idleStopClosed.
  - rewrite <- (list_insert_insert_eq gs i
      (SBackground (TMonitor timeout), on_db (txIdleMonitor rounds timeout)) (SBackground (TMonitor timeout), p1)).
    eapply steps_moves; [apply list_lookup_insert_eq; by eapply lookup_lt_Some|].
    exact (on_db_bind_steps (monitor_tick timeout) (fun _ => txIdleMonitor rounds timeout) _ tt db st Hrun).
Qed.

End Process.
