(* ===== verification/ToyServer.v ===== *)
(** * The server on concrete libraries

    Small instances of the libraries the server uses (password hashes, the JSON of the RPC layer) over the
    database component on the engine of [ToyEngine], and the instances of the server's
    theorems on concrete requests. *)
From S2P Require Import Prelude GoStrings Float64 FloatText JsonText JsonTextSpec Base64 Sha256 GoTime Stats Sqlite DbState Goroutines Db ToyEngine DbTraces DbSpec VdlTypes VdlDecode Convert Http DbService Auth Vdl Server Rqlite ServerSafety ServerSpec RqliteSpec RqliteText.

(** ** The libraries *)

(** A hash is its password behind the prefix of its algorithm. *)
#[export] Instance toy_crypto : Crypto := {|
  bcrypt_CompareHashAndPassword hash password :=
    if hash =s? "$2a$" +:+ password then None else Some (ErrNew "mismatch");
  argon2id_ComparePasswordAndHash password hash := Ok (hash =s? "$argon2id$" +:+ password) |}.

(** The body of a call is one SQL statement; responses are printed as their message. *)
#[export] Instance toy_gojson : GoJSON := {|
  gojson_Decode b := if bodyTruncated b || (bodyBytes b =s? "") then None else Some (bodyBytes b);
  gojson_Unmarshal_input raw := Ok (MkPreDatabaseQueryInput (Some [MkPreQuery None (Some raw) None]));
  gojson_Marshal_response r := Ok (if rspOk r then "ok" else "error: " +:+ veMessage (rspError r));
  gojson_Encode_object l := Ok (Join (map (fun kv => fst kv +:+ "=" +:+ snd kv) l) ",") |}.

(** Maps are ranged over in one order. *)
#[export] Instance toy_maps : MapRange.
Proof. by refine {| map_order m := map_to_list m |}. Defined.

(** ** The server *)

#[export] Instance toy_service : DBService := DB_service (LIB := toy_lib) toy_uuid 20.
#[export] Instance toy_laws : TxLaws toy_service :=
  DB_tx_laws (LIB := toy_lib) toy_uuid 20 toy_uuid_nonempty.

Definition toy_server_config : ServerConfig :=
  MkServerConfig ["$2a$secret"; "root"] ["writer"] ["reader"] "" "" 0.
Definition toy_server : Server :=
  match NewServer "1.0.0" "salt" toy_server_config with
  | Some s => s
  | None => MkServer toy_server_config [] "" false vdl_NewServer
  end.
Lemma toy_server_started : NewServer "1.0.0" "salt" toy_server_config = Some toy_server.
Proof.
  unfold toy_server, NewServer. destruct (newRPCServer_shape "1.0.0") as (defs & deser & E).
  rewrite E. reflexivity.
Qed.

Definition rpc_call (rpcName operationName token body : string) : http_request :=
  MkRequest "POST" ["rpc"; rpcName; operationName] [("Authorization", "Bearer " +:+ token)] []
    (Some (MkBody body false)) "127.0.0.1:1234".
Definition call_reader : http_request :=
  rpc_call "Database" "query" "reader" "SELECT v FROM t LIMIT 5".
Definition call_secret : http_request :=
  rpc_call "Database" "query" "secret" "INSERT INTO t VALUES (?)".
Definition toy_requests (r : http_request) : Prop := r = call_reader \/ r = call_secret.

Lemma toy_presented t : presented toy_requests t -> t = "reader" \/ t = "secret".
Proof.
  intros (r & [-> | ->] & [-> | (u & Hb)]); [by left|discriminate Hb|by right|discriminate Hb].
Qed.

Lemma toy_no_collision t1 t2 :
  presented toy_requests t1 -> presented toy_requests t2 ->
  token_hash "salt" t1 = token_hash "salt" t2 -> t1 = t2.
Proof.
  assert (Hne : (token_hash "salt" "reader" =s? token_hash "salt" "secret") = false)
    by (vm_compute; reflexivity).
  apply String.eqb_neq in Hne. intros H1%toy_presented H2%toy_presented H.
  destruct H1 as [-> | ->], H2 as [-> | ->];
    [reflexivity|destruct (Hne H)|destruct (Hne (eq_sym H))|reflexivity].
Qed.

(** A server in front of the database that [NewDB] opens. *)
Definition srv_on (s : DB (LIB := toy_lib)) : srv_state := MkSrv ∅ s 0 None [].

Lemma toy_started : (fun s => (quietb s, txID s)) <$> foldr toy_after toy_state [] = Some (true, "").
Proof. vm_compute. reflexivity. Qed.

(** ** Interleavings *)

(** A goroutine started and run for [n] steps from the first state. *)
Definition toy_psteps {R} (n : nat) (p : http_request -> srv_prog R) (r : http_request)
    (s : DB (LIB := toy_lib)) : option (srv_prog R * srv_state) :=
  psteps (srv_handle toy_uuid) n (p r) (srv_on s).

Lemma toy_psteps_reachable {R} n (p : http_request -> srv_prog R) r s p' st' :
  toy_requests r -> toy_psteps n p r s = Some (p', st') ->
  srv_reachable toy_uuid toy_requests p (Config st' [(r, p')]).
Proof.
  intros Hr Hs. eapply (psteps_reachable _ _ _ _ n 0 r (p r) p' _ _ [(r, p r)]); [|done|exact Hs].
  apply (reach_step _ _ _ _ (Config (srv_on s) [])); [apply reach_init; by split|].
  by apply (gstep_spawn _ _ _ (srv_on s) [] r (p r)).
Qed.

Definition at_query (o : option (srv_prog unit * srv_state)) : bool :=
  match o with
  | Some (Vis e _, _) => match e with DBQuery q => qRole q =? AuthorizerRoleReadOnly | _ => false end
  | _ => false
  end.
Lemma toy_reader_query :
  (fun s => (quietb s, at_query (toy_psteps 6 (serve_request toy_server) call_reader s)))
    <$> foldr toy_after toy_state [] = Some (true, true).
Proof. vm_compute. reflexivity. Qed.

Lemma request_confinement_witness : exists c r q k,
  srv_reachable toy_uuid toy_requests (serve_request toy_server) c
  /\ goroutines c !! 0%nat = Some (r, Vis (DBQuery q) k)
  /\ allowed toy_server r q.
Proof.
  destruct (toy_quiet _ _ _ toy_reader_query) as (s & _ & Hat).
  destruct (toy_psteps 6 (serve_request toy_server) call_reader s) as [[p st']|] eqn:E; [|discriminate Hat].
  destruct p as [a|B e k]; [discriminate Hat|]. destruct e; try discriminate Hat.
  exists (Config st' [(call_reader, Vis (DBQuery q) k)]), call_reader, q, k.
  assert (Hr : srv_reachable toy_uuid toy_requests (serve_request toy_server)
    (Config st' [(call_reader, Vis (DBQuery q) k)])).
  { eapply toy_psteps_reachable; [by left|exact E]. }
  split; [exact Hr|]. split; [reflexivity|].
  exact (request_confinement toy_server toy_uuid toy_requests "1.0.0" "salt" toy_server_config
           toy_server_started toy_no_collision _ 0%nat call_reader q k Hr eq_refl).
Defined.

Definition has_returned (o : option (srv_prog (result (authRole * string)) * srv_state)) : bool :=
  match o with Some (Ret _, _) => true | _ => false end.
Lemma toy_secret_returns :
  (fun s => (quietb s, has_returned (toy_psteps 2 (srv_authenticateRequest toy_server) call_secret s)))
    <$> foldr toy_after toy_state [] = Some (true, true).
Proof. vm_compute. reflexivity. Qed.

Lemma authentication_transparent_witness : exists c x,
  srv_reachable toy_uuid toy_requests (srv_authenticateRequest toy_server) c
  /\ goroutines c !! 0%nat = Some (call_secret, Ret x)
  /\ match x with
     | Ok a => identity toy_server false call_secret = Some a
     | Err e => identity toy_server false call_secret = None /\ e = unauthorizedError
     end.
Proof.
  destruct (toy_quiet _ _ _ toy_secret_returns) as (s & _ & Hat).
  destruct (toy_psteps 2 (srv_authenticateRequest toy_server) call_secret s) as [[p st']|] eqn:E;
    [|discriminate Hat].
  destruct p as [x|B e k]; [|discriminate Hat].
  exists (Config st' [(call_secret, Ret x)]), x.
  assert (Hr : srv_reachable toy_uuid toy_requests (srv_authenticateRequest toy_server)
    (Config st' [(call_secret, Ret x)])).
  { eapply toy_psteps_reachable; [by right|exact E]. }
  split; [exact Hr|]. split; [reflexivity|].
  exact (authentication_transparent toy_server toy_uuid toy_requests toy_no_collision _ 0%nat
           call_secret x Hr eq_refl).
Defined.

(** ** Single requests *)

Lemma toy_encodes l : is_err (gojson_Encode_object l) = false.
Proof. reflexivity. Qed.

Lemma one_response_witness : exists s : DB (LIB := toy_lib),
  quiet RequestContext s /\
  match run (srv_handle toy_uuid) (serve_request toy_server call_reader) (srv_on s) with
  | Done _ st' => bodies (sentLog st') = 1%nat
  | Blocked st' => exists q, db_Query q (srvDB st') = None
  end.
Proof.
  destruct (toy_quiet _ _ _ toy_started) as (s & Hq & _). exists s. split; [exact Hq|].
  exact (one_response toy_uuid toy_encodes "1.0.0" "salt" toy_server_config toy_server call_reader
           (srv_on s) toy_server_started eq_refl).
Defined.

Lemma refused_without_effect_witness : exists (s : DB (LIB := toy_lib)) st',
  refusal toy_server "System" "status" call_reader = Some "Forbidden"
  /\ run (srv_handle toy_uuid) (rpcHandler toy_server "System" "status" call_reader) (srv_on s)
    = Done None st'
  /\ srvDB st' = s
  /\ sentLog st' = [SentHeader "Content-Type" "application/json"; SentStatus 200;
                    SentBody "error: Forbidden"].
Proof.
  destruct (toy_quiet _ _ _ toy_started) as (s & _ & _).
  assert (Hf : refusal toy_server "System" "status" call_reader = Some "Forbidden")
    by (vm_compute; reflexivity).
  destruct (refused_without_effect toy_server toy_uuid toy_requests toy_no_collision
              "System" "status" call_reader (srv_on s) "Forbidden" "error: Forbidden") as (st' & H1 & H2 & _ & H4).
  - by left.
  - intros h role H. cbn in H. rewrite lookup_empty in H. discriminate H.
  - exact Hf.
  - reflexivity.
  - exists s, st'. split; [exact Hf|]. split; [exact H1|]. split; [exact H2|exact H4].
Defined.

Lemma status_reports_witness :
  let db := IncReads (90 * minute) (NewDBStats (30 * minute)) in
  let v := loadedStatsToVDL (2 * hour) (LoadStats (2 * hour) db) in
  vsStartedAt v = 30 * minute /\
  vsMinutes v !! minuteKey (90 * minute) = Some (MkStatsTotalsCounters 1 0 0 0 0 0 0).
Proof.
  destruct (status_reports (2 * hour) (2 * hour) (IncReads (90 * minute) (NewDBStats (30 * minute))))
    as (H1 & _ & H3).
  - split; vm_compute; [discriminate|reflexivity].
  - cbv zeta. rewrite H1, H3. split; vm_compute; reflexivity.
Defined.

(** ** Transactions of the rqlite endpoints *)

Definition toy_props : requestProps := MkProps authRoleReadWrite "me".
Definition toy_insert : VQuery :=
  MkVQuery None "INSERT INTO t VALUES (?)" (Some [MkVQueryParam None (integerValue 7)]).
Definition toy_tx (s : DB (LIB := toy_lib)) : outcome srv_state DatabaseQueryOutput :=
  run (srv_handle toy_uuid) (executeRQLiteQueries toy_props [toy_insert] true) (srv_on s).
Definition no_errors (o : outcome srv_state DatabaseQueryOutput) : bool :=
  match o with
  | Done out _ => forallb (fun r => match vrError r with None => true | Some _ => false end)
                    (doResults out)
  | Blocked _ => false
  end.
Lemma toy_tx_runs :
  (fun s => (quietb s, (txID s, no_errors (toy_tx s)))) <$> foldr toy_after toy_state []
  = Some (true, ("", true)).
Proof. vm_compute. reflexivity. Qed.

Lemma rqlite_transaction_closed_witness : exists (s : DB (LIB := toy_lib)) out st',
  toy_tx s = Done out st' /\ (tx_open (srvDB st') = "" \/ end_refused toy_props st').
Proof.
  destruct (toy_quiet _ _ _ toy_tx_runs) as (s & Hq & [Hid Hn]%pair_equal_spec).
  destruct (toy_tx s) as [out st'|st'] eqn:E; [|discriminate Hn].
  exists s, out, st'. split; [exact E|].
  refine (rqlite_transaction_closed toy_uuid toy_props [toy_insert] (srv_on s) out st' Hq Hid _ E).
  discriminate.
Defined.

Lemma rqlite_success_committed_witness : exists (s : DB (LIB := toy_lib)) out st',
  toy_tx s = Done out st' /\ length (doResults out) = 1%nat
  /\ exists id, end_accepted toy_props id "COMMIT" st'.
Proof.
  destruct (toy_quiet _ _ _ toy_tx_runs) as (s & Hq & [Hid Hn]%pair_equal_spec).
  destruct (toy_tx s) as [out st'|st'] eqn:E; [|discriminate Hn].
  exists s, out, st'. split; [exact E|].
  refine (rqlite_success_committed toy_uuid toy_props [toy_insert] (srv_on s) out st' Hq Hid _ E _).
  - discriminate.
  - intros r Hr. cbn [no_errors] in Hn. rewrite List.forallb_forall in Hn.
    specialize (Hn r (proj1 (list_elem_of_In _ _) Hr)). destruct (vrError r); [discriminate Hn|reflexivity].
Defined.

Lemma rqlite_integer_roundtrip_witness :
  exists v, rqliteValueFromJSON (JNumber (print_int (-9223372036854775808))) = Ok v
  /\ sqliteValueFromVDL v = Ok (GInt64 (-9223372036854775808))
  /\ rqliteValue (MkRqOptions false false false) (sqliteValueToVDL (GInt (-9223372036854775808)))
     = RqInt (-9223372036854775808).
Proof. apply (rqlite_integer_roundtrip (MkRqOptions false false false)). lia. Defined.

(** ** The texts of the rqlite endpoints *)

Definition one_tenth : spec_float := S754_finite false 7205759403792794 (-56).
Definition whole_float : spec_float := S754_finite false 4503599627370496 (-51).
Definition e_acute : string := utf8_encode 233.

Definition toy_row : list gany :=
  [GInt (-9223372036854775808); GFloat64 one_tenth; GFloat64 whole_float; GString e_acute;
   GString "x'6162'"; GBytes (utf8_encode 233); GNil].
Definition toy_row_bound : list gany :=
  [GInt64 (-9223372036854775808); GFloat64 one_tenth; GInt64 2; GString e_acute;
   GBytes "ab"; GBytes (utf8_encode 233); GNil].


Definition toy_output : DatabaseQueryOutput :=
  MkDatabaseQueryOutput 1500000000
    [MkVQueryResult QueryResultTypeRead 1000000 None None None None
      (Some ["a"; "b"]) (Some [SqliteStorageClassReal; SqliteStorageClassInteger])
      (Some [[realValue one_tenth; integerValue 7]])].
Definition toy_options : rqliteResponseOptions := MkRqOptions true false true.

Definition toy_tree : json :=
  match json_response (rqliteResponseFromVDL toy_output toy_options 0) with
  | Ok j => j
  | Err _ => JNull
  end.

Lemma rqlite_response_text_witness :
  exists text, stdjson_Marshal false (rqliteResponseFromVDL toy_output toy_options 0) = Ok text
    /\ stdjson_Decode (text +:+ "") = Ok (json_utf8 toy_tree).
Proof.
  apply (rqlite_response_text toy_output toy_options 0 toy_tree "").
  - constructor; [|constructor]. split; [discriminate|split; [discriminate|]].
    constructor; [|constructor]. constructor; [intros z Hz; discriminate Hz|].
    constructor; [|constructor]. intros z Hz. injection Hz as <-. by vm_compute.
  - vm_compute. reflexivity.
Defined.

(** What such a response looks like. *)
Lemma toy_response_text :
  stdjson_Marshal false (rqliteResponseFromVDL toy_output toy_options 0)
  = Ok (ReplaceAllByte "{'results':[{'types':{'a':'real','b':'integer'},'rows':[{'a':0.1,'b':7}],'time':0.001}],'time':1.5}"
          single_quote dquote).
Proof. vm_compute. reflexivity. Qed.

Definition infinite_result : rqliteResult :=
  MkRqResult None None ["a"] RqNoTypes [[RqReal (S754_infinity false)]] [] "" None.
