(* ===== verification/ToySystem.v ===== *)
(** * The process on concrete libraries

    The instances of the theorems of [System.v], [Gauges.v], [ResultTypes.v] and [Drain.v],
    on the server of [ToyServer] over the database that [NewDB] opens on the engine of
    [ToyEngine]: a request of the read-only token; a begin that is abandoned; a transaction
    request whose client goes away. *)
From S2P Require Import Prelude GoStrings Stats Authorizer Sqlite SqliteSpec DbState Goroutines Db ToyEngine DbConc DbInv DbSafety DbTraces DbSpec DbMonitor VdlTypes Http DbService Auth Vdl Server Rqlite ServerSafety ToyServer System ResultTypes Gauges Drain.

Definition toy_process_config : Type := sys_config (LIB := toy_lib) toy_uuid 20.
Definition toy_process : toy_process_config -> Prop :=
  sys_reachable (LIB := toy_lib) toy_server toy_uuid toy_uuid 20 toy_requests.

(** A request, run for [n] steps from the start of the process. *)
Definition toy_served (r : http_request) (n : nat) : option toy_process_config :=
  match toy_db with
  | Some (Ok db, _) =>
      match psteps (sys_handle (LIB := toy_lib) toy_uuid toy_uuid 20) n
              (sys_request (LIB := toy_lib) toy_server r) (srv_on db) with
      | Some (p, st) => Some (Config st [(SRequest r, p)])
      | None => None
      end
  | _ => None
  end.

Lemma toy_served_reachable (reqs : http_request -> Prop) r n c :
  reqs r -> toy_served r n = Some c ->
  sys_reachable (LIB := toy_lib) toy_server toy_uuid toy_uuid 20 reqs c.
Proof.
  intros Hr. unfold toy_served. destruct toy_db as [[[db|e] w]|] eqn:Edb; try discriminate.
  destruct (psteps (sys_handle (LIB := toy_lib) toy_uuid toy_uuid 20) n _ (srv_on db))
    as [[p st]|] eqn:Ep; [|discriminate]. intros [= <-].
  eapply (psteps_reachable _ _ _ _ n 0 _ _ p (srv_on db) st
            [(SRequest r, sys_request toy_server r)]); [|reflexivity|exact Ep].
  apply (reach_step _ _ _ _ (Config (srv_on db) [])).
  - apply reach_init. split; [reflexivity|]. split; [reflexivity|]. split.
    + repeat eexists. exact Edb.
    + exists 0. exact (NewDB_stats _ _ _ _ _ _ _ _ Edb).
  - apply (gstep_spawn _ _ _ (srv_on db) [] (SRequest r)). split; [exact Hr|reflexivity].
Qed.

(** The reader's request. *)
Definition toy_request (n : nat) : option toy_process_config := toy_served call_reader n.
Lemma toy_request_reachable n c : toy_request n = Some c -> toy_process c.
Proof. apply toy_served_reachable. by left. Qed.

Lemma toy_reach {A} (f : toy_process_config -> A) n o :
  f <$> toy_request n = Some o -> exists c, toy_process c /\ f c = o.
Proof.
  destruct (toy_request n) as [c|] eqn:E; [|discriminate]. intros [= <-].
  exists c. split; [exact (toy_request_reachable n c E)|reflexivity].
Qed.

(** The query that goroutine [0] is about to run. *)
Definition about_prog (p : prog (sysE (LIB := toy_lib)) unit) :
    option (checkout * string * list QueryParam) :=
  match p with
  | Vis (OnDB e) _ => match e with ConnQuery co sql ps => Some (co, sql, ps) | _ => None end
  | _ => None
  end.
Definition about (c : toy_process_config) : option (sys_task * (checkout * string * list QueryParam)) :=
  match goroutines c !! 0%nat with
  | Some (t, p) => match about_prog p with Some x => Some (t, x) | None => None end
  | None => None
  end.

Lemma about_query c t co sql ps :
  about c = Some (t, (co, sql, ps)) ->
  exists k, goroutines c !! 0%nat = Some (t, Vis (OnDB (ConnQuery co sql ps)) k).
Proof.
  unfold about. destruct (goroutines c !! 0%nat) as [[t' p]|]; [|discriminate].
  destruct p as [a|B [e|e] k]; try discriminate. destruct e; try discriminate.
  intros [= -> -> -> ->]. by exists k.
Qed.

(** What the query answers. *)
Definition answer_at (c : toy_process_config) (co : checkout) (sql : string) (ps : list QueryParam) :=
  Conn_Query (LIB := toy_lib) 20 (conn_of (srvDB (shared c)) (coConn co)) sql ps (world (srvDB (shared c))).
Definition succeeds (c : toy_process_config) (co : checkout) (sql : string) (ps : list QueryParam) : bool :=
  match answer_at c co sql ps with Some (Ok _, _) => true | _ => false end.

Definition select : string := "SELECT v FROM t LIMIT 5".
Lemma toy_at_select :
  (fun c => (about c, succeeds c (Checkout RO 1) select [])) <$> toy_request 13
  = Some (Some (SRequest call_reader, (Checkout RO 1, select, [])), true).
Proof. vm_compute. reflexivity. Qed.


Lemma toy_reader_read_only : read_only_request toy_server call_reader.
Proof. split; [reflexivity|]. eexists. vm_compute. reflexivity. Qed.

Lemma process_read_only_witness : exists c : toy_process_config, toy_process c
  /\ Forall (fun '(a, a3, a4) => reading_action a a3 a4)
       (statement_actions (CString select) (world (srvDB (shared c)))).
Proof.
  destruct (toy_reach _ _ _ toy_at_select) as (c & Hc & [Ha Hs]%pair_equal_spec).
  destruct (about_query _ _ _ _ _ Ha) as [k Hk]. unfold succeeds in Hs.
  destruct (answer_at c (Checkout RO 1) select []) as [[[res|e] w']|] eqn:E; try discriminate Hs.
  exists c. split; [exact Hc|].
  exact (process_read_only toy_server toy_uuid toy_uuid 20 toy_requests "1.0.0" "salt"
           toy_server_config toy_server_started toy_no_collision toy_uuid_nonempty
           c 0%nat call_reader (Checkout RO 1) select [] k res w' Hc toy_reader_read_only Hk E).
Defined.

Definition all_returned (c : toy_process_config) : bool :=
  forallb (fun tp => finished (snd tp)) (goroutines c).
Lemma toy_returned : all_returned <$> toy_request 21 = Some true.
Proof. vm_compute. reflexivity. Qed.
Lemma all_returned_spec c :
  all_returned c = true -> forall i t p, goroutines c !! i = Some (t, p) -> finished p = true.
Proof.
  intros H i t p Hi. unfold all_returned in H. rewrite forallb_forall in H.
  apply (H (t, p)). apply list_elem_of_In. by eapply list_elem_of_lookup_2.
Qed.

Lemma process_no_leak_witness : exists c : toy_process_config, toy_process c
  /\ txMu (srvDB (shared c)) = in_tx (txID (srvDB (shared c)))
  /\ plInUse (readOnlyPool (srvDB (shared c))) = 0%nat.
Proof.
  destruct (toy_reach _ _ _ toy_returned) as (c & Hc & Hf).
  destruct (process_no_leak toy_server toy_uuid toy_uuid 20 toy_requests "1.0.0" "salt"
              toy_server_config toy_server_started toy_no_collision toy_uuid_nonempty
              c Hc (all_returned_spec c Hf)) as (H1 & _ & _ & _ & H5).
  exists c. split; [exact Hc|]. split; [exact H1|exact H5].
Defined.

(** The engine answers every goroutine of the configuration. *)
Definition effect_ok (c : toy_process_config) (p : prog (sysE (LIB := toy_lib)) unit) : bool :=
  match p with
  | Vis (OnDB e) _ =>
      match e with
      | ConnQuery co sql ps => bool_decide (is_Some (answer_at c co sql ps))
      | PoolConn _ _ => false
      | _ => true
      end
  | _ => true
  end.
Lemma toy_answers :
  (fun c => (about c, forallb (fun tp => effect_ok c (snd tp)) (goroutines c))) <$> toy_request 13
  = Some (Some (SRequest call_reader, (Checkout RO 1, select, [])), true).
Proof. vm_compute. reflexivity. Qed.

Lemma effect_ok_spec (c : toy_process_config) :
  forallb (fun tp => effect_ok c (snd tp)) (goroutines c) = true ->
  sys_engine_answers (LIB := toy_lib) toy_uuid 20 c.
Proof.
  intros H i t B e k Hi. rewrite forallb_forall in H.
  specialize (H (t, Vis (OnDB e) k) ltac:(apply list_elem_of_In; by eapply list_elem_of_lookup_2)).
  cbn [snd effect_ok] in H. destruct e; try exact I; [discriminate H|].
  apply bool_decide_eq_true in H as [x H]. cbn [effect_answers]. unfold answer_at in H. by rewrite H.
Qed.

Lemma process_progress_witness : exists (c : toy_process_config) p,
  goroutines c !! 0%nat = Some (SRequest call_reader, p) /\ finished p = false
  /\ (sys_can_step toy_uuid toy_uuid 20 c 0 = true
      \/ (sys_blocking p = true /\ exists j, sys_can_step toy_uuid toy_uuid 20 c j = true)
      \/ sys_waits toy_uuid 20 (shared c) p).
Proof.
  destruct (toy_reach _ _ _ toy_answers) as (c & Hc & [Ha He]%pair_equal_spec).
  destruct (about_query _ _ _ _ _ Ha) as [k Hk]. eexists c, _. split; [exact Hk|].
  split; [reflexivity|].
  exact (process_progress toy_server toy_uuid toy_uuid 20 toy_requests "1.0.0" "salt"
           toy_server_config toy_server_started toy_no_collision toy_uuid_nonempty
           c 0%nat _ _ Hc (effect_ok_spec c He) Hk eq_refl).
Defined.

(** In the middle of the request, its gauge is one. *)
Lemma toy_gauge :
  (fun c : toy_process_config => (length (goroutines c), length (live toy_uuid 20 c),
             queuedHTTPRequests (dbStats (srvDB (shared c)))))
    <$> toy_request 13 = Some (1%nat, 1%nat, 1).
Proof. vm_compute. reflexivity. Qed.

Lemma gauges_count_witness : exists c : toy_process_config, toy_process c
  /\ queuedHTTPRequests (dbStats (srvDB (shared c))) = 1
  /\ 0 <= queuedHTTPRequests (dbStats (srvDB (shared c))) <= Z.of_nat (length (live toy_uuid 20 c)).
Proof.
  destruct (toy_reach _ _ _ toy_gauge) as (c & Hc & H).
  apply pair_equal_spec in H as [[Hn _]%pair_equal_spec Hg].
  exists c. split; [exact Hc|]. split; [exact Hg|].
  refine (gauges_count toy_server toy_uuid toy_uuid 20 toy_requests "1.0.0" "salt"
            toy_server_config toy_server_started GHTTPRequests c Hc _).
  rewrite Hn. reflexivity.
Defined.

(** ** The types of results *)

Definition toy_props_reader : requestProps := MkProps authRoleReadOnly "me".
Definition toy_select : VQuery := MkVQuery None "SELECT v FROM t LIMIT 5" None.
Definition toy_executed : option (outcome srv_state DatabaseQueryOutput) :=
  match toy_db with
  | Some (Ok db, _) =>
      Some (run (sys_handle (LIB := toy_lib) toy_uuid toy_uuid 20)
             (interp call (executeQueries toy_props_reader [toy_select])) (srv_on db))
  | _ => None
  end.

Lemma toy_executed_done :
  (fun o => match o with
            | Done out _ => map (fun r => (vrError r, vrColumns r)) (doResults out)
            | Blocked _ => []
            end) <$> toy_executed = Some [(None, Some ["v"])].
Proof. vm_compute. reflexivity. Qed.

Lemma results_typed_witness : exists out,
  map vrError (doResults out) = [None] /\ Forall typed_result (doResults out).
Proof.
  pose proof toy_executed_done as Hd. unfold toy_executed in Hd.
  destruct toy_db as [[[db|e] w]|]; [|discriminate Hd..]. cbn [fmap option_fmap option_map] in Hd.
  destruct (run (sys_handle (LIB := toy_lib) toy_uuid toy_uuid 20) _ (srv_on db)) as [out st|st] eqn:E;
    [|discriminate Hd].
  exists out. split.
  - injection Hd as Hd. destruct (doResults out) as [|r [|r' l]]; [discriminate Hd| |discriminate Hd].
    injection Hd as Hd _. cbn. by rewrite Hd.
  - apply (proj1 (results_typed (LIB := toy_lib) toy_uuid toy_uuid 20 toy_uuid_nonempty
      toy_props_reader [toy_select]) out).
    exact (run_leads _ _ _ _ _ E).
Defined.

(** ** The end of requests *)


(** A begin whose client never comes back, and the monitor. *)
Definition call_begin : http_request := rpc_call "Database" "query" "secret" "BEGIN".
Definition begin_only (r : http_request) : Prop := r = call_begin.
Lemma begin_no_collision t1 t2 :
  presented begin_only t1 -> presented begin_only t2 ->
  token_hash (svAuthTokenSalt toy_server) t1 = token_hash (svAuthTokenSalt toy_server) t2 -> t1 = t2.
Proof.
  assert (Hs : forall t, presented begin_only t -> t = "secret").
  { intros t (r & -> & [-> | (u & Hb)]); [reflexivity|discriminate Hb]. }
  intros ->%Hs ->%Hs _. reflexivity.
Qed.

Definition with_monitor (c : toy_process_config) : toy_process_config :=
  Config (shared c) (goroutines c ++ [(SBackground (TMonitor 10), on_db (txIdleMonitor 1 10))]).
Definition later : Z := 1700000000000000100.
Definition rolled_back (db : DB (LIB := toy_lib)) : bool :=
  match spec_rollback 20 AuthorizerRoleAdmin (at_tick later db) with Some (Ok _, _) => true | _ => false end.
Definition abandoned (c : toy_process_config) : bool :=
  let db := srvDB (shared c) in
  all_returned c && (length (goroutines c) =? 1)%nat && negb (txID db =s? "")
  && quiet_poolb RW db && quiet_poolb RO db && (extNow (external db) <=? later)
  && (10 <? later - txLastUsed db) && rolled_back db.
Lemma toy_abandoned : abandoned <$> toy_served call_begin 26 = Some true.
Proof. vm_compute. reflexivity. Qed.

Lemma abandoned_spec c :
  abandoned c = true ->
  let db := srvDB (shared c) in
  all_returned c = true /\ length (goroutines c) = 1%nat /\ txID db <> ""
  /\ quiet_pool RW db /\ quiet_pool RO db /\ extNow (external db) <= later
  /\ 10 < later - txLastUsed db /\ rolled_back db = true.
Proof.
  unfold abandoned. rewrite !andb_true_iff. intros [[[[[[[H1 H2] H3] H4] H5] H6] H7] H8].
  split; [done|]. split; [by apply Nat.eqb_eq|]. split; [by apply String.eqb_neq, negb_true_iff|].
  split; [by apply quiet_poolb_spec|]. split; [by apply quiet_poolb_spec|].
  split; [by apply Z.leb_le|]. split; [by apply Z.ltb_lt|done].
Qed.

Lemma with_monitor_reachable c :
  sys_reachable (LIB := toy_lib) toy_server toy_uuid toy_uuid 20 begin_only c ->
  sys_reachable (LIB := toy_lib) toy_server toy_uuid toy_uuid 20 begin_only (with_monitor c).
Proof.
  intros Hc. eapply reach_step; [exact Hc|]. destruct c as [st gs].
  apply (gstep_spawn _ _ _ st gs (SBackground (TMonitor 10))). by exists 1%nat.
Qed.

Lemma with_monitor_resting c :
  all_returned c = true -> resting toy_uuid 20 (with_monitor c).
Proof.
  intros Hf i t p Hi. unfold with_monitor in Hi. cbn [goroutines] in Hi.
  apply lookup_app_Some in Hi as [Hi|[_ Hi]]; [left; by eapply all_returned_spec|].
  apply list_lookup_singleton_Some in Hi as [_ [= <- <-]]. right. exact I.
Qed.


(** ** A client that goes away *)

(** A transaction request whose client disconnects after the BEGIN: from then on every
    checkout under the context of the request fails, and so does the ROLLBACK. *)
Definition call_tx : http_request :=
  MkRequest "POST" ["db"; "execute"] [("Authorization", "Bearer secret"); ("Content-Type", "text/plain")]
    [("transaction", "")] (Some (MkBody "SELECT v FROM t LIMIT 5" false)) "127.0.0.1:1234".
Definition tx_only (r : http_request) : Prop := r = call_tx.

Definition hang_up (st : srv_state) : srv_state :=
  let db := srvDB st in
  set_db (set_external (LIB := toy_lib) (MkExternal (extNow (external db)) true false false) db) st.
Definition disconnected (n m : nat) : option toy_process_config :=
  match toy_served call_tx n with
  | Some (Config st [(t, p)]) =>
      match psteps (sys_handle (LIB := toy_lib) toy_uuid toy_uuid 20) m p (hang_up st) with
      | Some (p', st') => Some (Config st' [(t, p')])
      | None => None
      end
  | _ => None
  end.

Lemma hang_up_env st : sys_env (LIB := toy_lib) toy_uuid 20 st (hang_up st).
Proof.
  unfold hang_up. set (ext := MkExternal (extNow (external (srvDB st))) true false false).
  exists (set_external ext (srvDB st)), (netError st). split; [|split; [by left|reflexivity]].
  exists ext, (dbStats (srvDB st)). split; [reflexivity|]. by destruct (srvDB st).
Qed.

Lemma disconnected_reachable n m c :
  disconnected n m = Some c -> sys_reachable (LIB := toy_lib) toy_server toy_uuid toy_uuid 20 tx_only c.
Proof.
  unfold disconnected. destruct (toy_served call_tx n) as [[st gs]|] eqn:E; [|discriminate].
  apply (toy_served_reachable tx_only) in E; [|reflexivity].
  destruct gs as [|[t p] [|x gs]]; try discriminate.
  destruct (psteps (sys_handle (LIB := toy_lib) toy_uuid toy_uuid 20) m p (hang_up st)) as [[p' st']|] eqn:Ep; [|discriminate]. intros [= <-].
  eapply (psteps_reachable _ _ _ _ m 0 t p p' (hang_up st) st' [(t, p)]); [|reflexivity|exact Ep].
  eapply reach_step; [exact E|]. apply gstep_env, hang_up_env.
Qed.

Lemma toy_disconnected :
  (fun c : toy_process_config => (all_returned c, txID (srvDB (shared c)))) <$> disconnected 30 27
  = Some (true, "t").
Proof. vm_compute. reflexivity. Qed.

(** The request is over, its transaction is open, and nobody has its identifier: it goes
    on until the idle monitor ends it, and no writer can go on before. *)
Lemma disconnect_leaves_transaction : exists c : toy_process_config,
  sys_reachable (LIB := toy_lib) toy_server toy_uuid toy_uuid 20 tx_only c
  /\ (forall i t p, goroutines c !! i = Some (t, p) -> finished p = true)
  /\ txID (srvDB (shared c)) = "t".
Proof.
  pose proof toy_disconnected as H. destruct (disconnected 30 27) as [c|] eqn:E; [|discriminate H].
  injection H as Hf Hid. exists c. split; [exact (disconnected_reachable _ _ _ E)|].
  split; [exact (all_returned_spec c Hf)|exact Hid].
Qed.
