(* ===== verification/Main.v ===== *)
(** * The server process: [cmd/nsqlite/main.go]

    [run]: what is opened, in which order, and what the deferred calls close.  The
    components are effects; their programs are the other files. *)
From S2P Require Import Prelude GoStrings GoTime Goroutines DbState Server Config.

Inductive mainE : Type -> Type :=
| MustParse (args : list string) : mainE Config
| NewStats : mainE unit
| OpenDB (config : DbConfig) : mainE (option go_error)
| OpenServer (config : ServerConfig) : mainE (option go_error)
| StartServer : mainE unit
| WaitSignal : mainE unit
| StopServer : mainE (option go_error)
| CloseDB : mainE (option go_error)
| CloseStats : mainE unit.

(** What [run] makes of the configuration. *)
Definition db_config_of (conf : Config) : DbConfig :=
  MkDbConfig (DataDir conf) (TxIdleTimeout conf) (MaxReadConns conf) (CacheSizeKB conf)
    (BusyTimeout conf).
Definition server_config_of (conf : Config) : ServerConfig :=
  MkServerConfig (AuthTokens conf) (ReadWriteAuthTokens conf) (ReadOnlyAuthTokens conf)
    (cfListenHost conf) (cfListenPort conf) (MaxRequestSizeMB conf).

(** [run(ctx, stop, stdout, args)]; a failing [Stop] or [Close] is only logged. *)
Definition main_run (args : list string) : prog mainE (option go_error) :=
  conf ← act (MustParse args);
  _ ← act NewStats;
  deferred
    (e ← act (OpenDB (db_config_of conf));
     match e with
     | Some err => mret (Some (ErrWrap "error starting database" err))
     | None =>
         deferred
           (e ← act (OpenServer (server_config_of conf));
            match e with
            | Some err => mret (Some (ErrWrap "error creating server" err))
            | None =>
                deferred
                  (_ ← act StartServer; _ ← act WaitSignal; mret None)
                  (_ ← act StopServer; mret tt)
            end)
           (_ ← act CloseDB; mret tt)
     end)
    (act CloseStats).

(** ** The order of the shutdown *)

(** What is open, the last one opened first. *)
Inductive resource : Type := RStats | RDatabase | RServer.

(** Opening pushes, closing must pop: a run that gets stuck closes out of order. *)
Definition resource_handle (B : Type) (e : mainE B) (open : list resource)
    (answers : forall B, mainE B -> B) : option (B * list resource) :=
  match e in mainE B return option (B * list resource) with
  | NewStats => Some (tt, RStats :: open)
  | OpenDB c =>
      let a := answers _ (OpenDB c) in
      Some (a, match a with None => RDatabase :: open | Some _ => open end)
  | OpenServer c =>
      let a := answers _ (OpenServer c) in
      Some (a, match a with None => RServer :: open | Some _ => open end)
  | StopServer => match open with RServer :: o => Some (answers _ StopServer, o) | _ => None end
  | CloseDB => match open with RDatabase :: o => Some (answers _ CloseDB, o) | _ => None end
  | CloseStats => match open with RStats :: o => Some (tt, o) | _ => None end
  | MustParse args => Some (answers _ (MustParse args), open)
  | StartServer => Some (tt, open)
  | WaitSignal => Some (tt, open)
  end.

(** The process releases what it opened, in reverse order, on every path.  Whatever
    fails to open or to close, the run returns, everything it opened is closed
    exactly once, the server before the database it uses and the database before the
    statistics it counts in, and nothing else is closed. *)
Theorem shutdown_order answers args :
  exists r, run (fun B e open => resource_handle B e open answers) (main_run args) [] = Done r [].
Proof.
  unfold main_run. cbn. destruct (answers _ (OpenDB _)); cbn; [by eexists|].
  destruct (answers _ (OpenServer _)); cbn; by eexists.
Qed.
