(* ===== verification/Lifecycle.v ===== *)
(** * Starting and stopping the listener: [internal/server/server.go], [cmd/nsqlite/main.go]

    [Start] runs in a goroutine of its own while [run] waits for the signal and then
    [Stop]s the server and closes the database.  [net/http]'s [Server] is modelled as it
    is documented: [ListenAndServe] listens until [Shutdown], and returns
    [ErrServerClosed] at once on a server that has been shut down. *)
From S2P Require Import Prelude GoStrings Goroutines Http Auth Vdl Server.

Definition ErrServerClosed : go_error := ErrNew "http: Server closed".

Inductive lifeE : Type -> Type :=
| AssignHTTPServer (addr : string) : lifeE unit
| ListenTCP : lifeE (result unit)
| ServeListener : lifeE go_error
| Shutdown : lifeE (option go_error)
| CancelContext : lifeE unit
| WaitContext : lifeE unit
| CloseDatabase : lifeE unit.

(** [(Server) Start()]; [ListenAndServe] is the attempt to listen, then the service. *)
Definition Server_Start (s : Server) : prog lifeE (option go_error) :=
  let addr := scListenHost (svConfig s) +:+ ":" +:+ scListenPort (svConfig s) in
  _ ← act (AssignHTTPServer addr);
  listening ← act ListenTCP;
  err ← match listening with Err err => mret err | Ok _ => act ServeListener end;
  mret (if bool_decide (err = ErrServerClosed) then None else Some err).

(** [(Server) Stop()] *)
Definition Server_Stop : prog lifeE (option go_error) := act Shutdown.

(** The goroutine that [run] starts, and what [run] does after it, the deferred calls
    included. *)
Definition start_goroutine (s : Server) : prog lifeE unit :=
  e ← Server_Start s;
  match e with Some _ => act CancelContext | None => mret tt end.
Definition run_until_signal : prog lifeE unit :=
  _ ← act WaitContext;
  _ ← Server_Stop;
  act CloseDatabase.

(** [s.httpServer], whether the port accepts requests, the context of [run] and the
    database; [lfPort] is what listening on the port answers. *)
Record life : Type := MkLife {
  lfAddr : string; lfShutdown : bool; lfListening : bool;
  lfDone : bool; lfDatabase : bool; lfPort : option go_error }.

Definition life_handle (B : Type) (e : lifeE B) (s : life) : option (B * life) :=
  match e in lifeE B return option (B * life) with
  | AssignHTTPServer addr =>
      Some (tt, MkLife addr false (lfListening s) (lfDone s) (lfDatabase s) (lfPort s))
  | ListenTCP =>
      if lfShutdown s then Some (Err ErrServerClosed, s)
      else match lfPort s with
           | Some e => Some (Err e, s)
           | None => Some (Ok tt, MkLife (lfAddr s) (lfShutdown s) true (lfDone s)
                                    (lfDatabase s) (lfPort s))
           end
  | ServeListener => if lfShutdown s then Some (ErrServerClosed, s) else None
  | Shutdown =>
      Some (None, MkLife (lfAddr s) true false (lfDone s) (lfDatabase s) (lfPort s))
  | CancelContext =>
      Some (tt, MkLife (lfAddr s) (lfShutdown s) (lfListening s) true (lfDatabase s) (lfPort s))
  | WaitContext => if lfDone s then Some (tt, s) else None
  | CloseDatabase =>
      Some (tt, MkLife (lfAddr s) (lfShutdown s) (lfListening s) (lfDone s) false (lfPort s))
  end.

(** A signal may arrive at any time; nothing else is started. *)
Inductive life_env : life -> life -> Prop :=
| life_signal s :
    life_env s (MkLife (lfAddr s) (lfShutdown s) (lfListening s) true (lfDatabase s) (lfPort s)).

Definition life_config : Type := config life unit (prog lifeE unit).
Definition life_init (s : Server) (c : life_config) : Prop :=
  exists port, c = Config (MkLife "" false false false true port)
                     [(tt, run_until_signal); (tt, start_goroutine s)].
Definition life_reachable (s : Server) : life_config -> Prop :=
  reachable life_handle (fun _ _ => False) life_env (life_init s).

(** [run] has returned. *)
Definition returned (c : life_config) : Prop := goroutines c !! 0%nat = Some (tt, Ret tt).
(** The server accepts requests. *)
Definition accepts (c : life_config) : Prop := lfListening (shared c) = true.

(** ** The listener *)

Section Lifecycle.
  Context (s : Server).

(** A server that has been shut down does not listen. *)
Definition life_ok (st : life) : Prop := lfShutdown st = true -> lfListening st = false.

Lemma life_step_ok B (e : lifeE B) b st st' :
  life_ok st -> life_handle B e st = Some (b, st') -> life_ok st'.
Proof.
  unfold life_ok. intros H Hh. destruct e; cbn in Hh;
    repeat match type of Hh with context [match ?x with _ => _ end] => destruct x eqn:?E end;
    try done; injection Hh as <- <-; cbn; try done; intros; first [congruence|by apply H].
Qed.

Lemma life_reachable_ok c : life_reachable s c -> life_ok (shared c).
Proof.
  induction 1 as [c [port ->]|c c' _ IH Hstep]; [done|].
  destruct Hstep as [st st' gs i t p p' Hi Hp|st gs t p []|st st' gs [st0]]; cbn in *; [|done].
  destruct p as [a|B e k]; [done|]. cbn in Hp.
  destruct (life_handle B e st) as [[b st1]|] eqn:Eh; [|done]. injection Hp as _ <-.
  by eapply life_step_ok.
Qed.

(** A goroutine that does not replace the server. *)
Fixpoint no_assign {A} (p : prog lifeE A) : Prop :=
  match p with
  | Ret _ => True
  | Vis e k =>
      match e with AssignHTTPServer _ => False | _ => True end /\ forall b, no_assign (k b)
  end.

Lemma start_no_assign B (e : lifeE B) k :
  start_goroutine s = Vis e k -> forall b, no_assign (k b).
Proof.
  assert (H : match start_goroutine s with Vis _ k => forall b, no_assign (k b) | Ret _ => True end).
  { cbn. intros _. split; [done|]. intros [[]|err]; cbn.
    - split; [done|]. intros err. by case_bool_decide.
    - by case_bool_decide. }
  intros E. by rewrite E in H.
Qed.

(** The two goroutines: [run]'s, and [Start]'s, before its first step or after it. *)
Definition two_goroutines (c : life_config) : Prop :=
  exists p0 p1, goroutines c = [(tt, p0); (tt, p1)]
             /\ no_assign p0 /\ (p1 = start_goroutine s \/ no_assign p1).

Lemma step_two_goroutines c c' :
  gstep life_handle (fun _ _ => False) life_env c c' -> two_goroutines c -> two_goroutines c'.
Proof.
  intros Hstep (p0 & p1 & Hgs & H0 & H1).
  destruct Hstep as [st st' gs i t p p' Hi Hp|st gs t p []|st st' gs _];
    cbn in Hgs; [subst gs|by exists p0, p1].
  destruct p as [a|B e k]; [done|]. cbn in Hp.
  destruct (life_handle B e st) as [[b st1]|]; [|done]. injection Hp as <- <-.
  destruct i as [|[|i]]; [| |done]; injection Hi as <- ->.
  - exists (k b), p1. split; [done|]. by split; [apply H0|].
  - exists p0, (k b). split; [done|]. split; [done|]. right.
    destruct H1 as [H1|H1]; [by eapply start_no_assign|apply H1].
Qed.

Lemma life_two_goroutines c : life_reachable s c -> two_goroutines c.
Proof.
  induction 1 as [c [port ->]|c c' _ IH Hstep]; [|by eapply step_two_goroutines].
  exists run_until_signal, (start_goroutine s). split; [done|]. split; [|by left].
  cbn. by split_and!.
Qed.

Lemma stopped_stays (c c' : life_config) :
  gstep life_handle (fun _ _ => False) life_env c c' ->
  (forall i t p, goroutines c !! i = Some (t, p) -> no_assign p) ->
  lfShutdown (shared c) = true -> lfListening (shared c) = false ->
  lfShutdown (shared c') = true /\ lfListening (shared c') = false
  /\ forall i t p, goroutines c' !! i = Some (t, p) -> no_assign p.
Proof.
  intros Hstep Hno Hs Hl.
  destruct Hstep as [st st' gs i t p p' Hi Hp|st gs t p []|st st' gs [st0]]; cbn in *; [|done].
  destruct p as [a|B e k]; [done|]. cbn in Hp. destruct (Hno _ _ _ Hi) as [He Hk].
  destruct (life_handle B e st) as [[b st1]|] eqn:Eh; [|done]. injection Hp as <- <-.
  assert (Hgs : forall j t' p', <[i := (t, k b)]> gs !! j = Some (t', p') -> no_assign p').
  { intros j t' p' Hj. destruct (decide (j = i)) as [->|Hne].
    - rewrite list_lookup_insert_eq in Hj by (by eapply lookup_lt_Some).
      injection Hj as _ <-. apply Hk.
    - rewrite list_lookup_insert_ne in Hj by done. by eapply Hno. }
  destruct e; cbn in Eh; rewrite ?Hs in Eh; try done; try (by injection Eh as <- <-).
  destruct (lfDone st); [by injection Eh as <- <-|done].
Qed.

(** Once [Start] has assigned [s.httpServer], [Stop] is final. *)
Lemma stopped_for_good c c' :
  life_reachable s c -> goroutines c !! 1%nat <> Some (tt, start_goroutine s) ->
  lfShutdown (shared c) = true ->
  rtc (gstep life_handle (fun _ _ => False) life_env) c c' -> ~ accepts c'.
Proof.
  intros Hc Hstarted Hs Hsteps. assert (Hl := life_reachable_ok c Hc Hs).
  destruct (life_two_goroutines c Hc) as (p0 & p1 & Hgs & H0 & H1).
  assert (Hno : forall i t p, goroutines c !! i = Some (t, p) -> no_assign p).
  { rewrite Hgs in Hstarted |- *. intros [|[|i]] t p Hi; [| |done]; injection Hi as <- <-; [done|].
    by destruct H1 as [->|H1]. }
  clear Hc Hstarted Hgs H0 H1. induction Hsteps as [c|c c1 c' Hstep _ IH].
  - unfold accepts. by rewrite Hl.
  - destruct (stopped_stays _ _ Hstep Hno Hs Hl) as (Hs' & Hl' & Hno'). by apply IH.
Qed.

(** A [Stop] that comes first shuts down the zero server, which [Start] replaces. *)
Lemma late_start_listens :
  exists c, life_reachable s c /\ returned c /\ lfDatabase (shared c) = false /\ accepts c.
Proof.
  set (gs := [(tt, run_until_signal); (tt, start_goroutine s)]).
  assert (R0 : life_reachable s (Config (MkLife "" false false true true None) gs)).
  { eapply reach_step; [apply reach_init; by exists None|]. apply gstep_env. exact (life_signal _). }
  eapply (psteps_reachable _ _ _ _ 3 0) in R0; [|reflexivity|reflexivity].
  eapply (psteps_reachable _ _ _ _ 2 1) in R0; [|reflexivity|reflexivity].
  eexists. split; [exact R0|]. by repeat split.
Qed.
(** C39: [Stop] is final exactly when [Start] has assigned [s.httpServer] before it.  From
    then on the process accepts no request, in any interleaving; but a [Stop] that comes
    first shuts down the zero server, [Start] replaces it with a new one, and there is an
    execution in which the process goes on accepting requests after [run] has returned
    and closed the database. *)
Theorem stop_final :
  (forall c c',
     life_reachable s c -> goroutines c !! 1%nat <> Some (tt, start_goroutine s) ->
     lfShutdown (shared c) = true ->
     rtc (gstep life_handle (fun _ _ => False) life_env) c c' -> ~ accepts c')
  /\ exists c, life_reachable s c /\ returned c /\ lfDatabase (shared c) = false /\ accepts c.
Proof. split; [apply stopped_for_good|apply late_start_listens]. Qed.
End Lifecycle.

Definition idle_server : Server :=
  MkServer (MkServerConfig [] [] [] "0.0.0.0" "9876" 0) [] "" true vdl_NewServer.

Lemma stop_final_witness :
  exists c, life_reachable idle_server c /\ lfShutdown (shared c) = true /\ ~ accepts c.
Proof.
  set (gs := [(tt, run_until_signal); (tt, start_goroutine idle_server)]).
  assert (R : life_reachable idle_server (Config (MkLife "" false false true true None) gs)).
  { eapply reach_step; [apply reach_init; by exists None|]. apply gstep_env. exact (life_signal _). }
  eapply (psteps_reachable _ _ _ _ 2 1) in R; [|reflexivity|reflexivity].
  eapply (psteps_reachable _ _ _ _ 2 0) in R; [|reflexivity|reflexivity].
  eexists. split; [exact R|]. split; [reflexivity|].
  eapply (proj1 (stop_final idle_server)); [exact R|discriminate|reflexivity|apply rtc_refl].
Defined.
